(* ===== verification/_CoqProject ===== *)
-Q . S2P
Prelude.v
PyStr.v
PyFloat.v
Dict.v
Json.v
Clock.v
Uuid.v
Protocol.v
Db.v
Store.v
StoreRun.v
StoreInv.v
Queue.v
QueueExamples.v
Outbox.v
OutboxProofs.v
Spool.v
System.v
SpoolExamples.v
Fs.v
Shlex.v
PackageJson.v
Framework.v
Detect.v
DetectExamples.v
Sha256.v
Cache.v
Url.v
Args.v
ArgsProofs.v
Config.v
Handlers.v
Resolve.v
Workspace.v
WorkspaceProofs.v
CacheProofs.v
CacheLocks.v
PruneProofs.v
WorkspaceExamples.v
Artifact.v
ArtifactProofs.v
TreeExamples.v
Auth.v
Toml.v
Settings.v
SettingsProofs.v
AuthProofs.v
Credentials.v
CredentialsProofs.v
Registration.v
SettingsExamples.v
Stream.v
Metrics.v
Docker.v
DockerProofs.v
Meanwhile.v
JobLoop.v
JobLoopProofs.v
JobLimits.v
JobLoopExamples.v
Drain.v
Uplink.v
UplinkProofs.v
AgentUplink.v
UplinkTasks.v
UplinkExamples.v
Connect.v
Doctor.v
DoctorProofs.v
Commands.v
CommandsProofs.v
ConnectProofs.v
Service.v
ServiceProofs.v
ServiceExamples.v
Logging.v
Cli.v
CliProofs.v
CliExamples.v
Contracts.v
