(* ===== verification/Prelude.v ===== *)
(** * The build engine: a verification development

    The program (src/src/build_engine) is an agent that builds static sites. A
    backend assigns build attempts over a websocket; the agent stores them in an
    SQLite queue, workers lease them, plan and run the build in a container,
    pack and upload the result, and report every step as a numbered event. The
    events are spooled in the same database until the backend acknowledges them.

    ** Files, and the code they model

    Shared by all files:
    - [Prelude]: exception classes with their bases, the state-and-exception
      monad ([M], [try_except], [try_finally]), stable sorting, the relation of
      runs [steps], tactics.
    - [PyStr], [PyFloat], [Dict], [Clock], [Uuid], [Json]: what the code uses of
      the language: code points and UTF-8, binary64 floats, ordered dicts,
      datetimes in microseconds, [uuid.UUID], [json.loads] and [json.dumps].
    - [Fs]: files, directories and links in one tree, with path resolution and
      the operations of [pathlib], [os] and [shutil] the code calls.
    - [Shlex], [Url], [Sha256]: [shlex.split], [urlparse], [hashlib.sha256].

    The wire protocol (agent/protocol.py) is [Protocol]: [Envelope],
    [new_envelope], [decode_frame], [validate_envelope] and the payload readers.

    The queue (queue/store.py, class SQLiteQueueStore): [Db] is the database (the
    three tables and their constraints), [Store] has one definition per method, as
    transactions on a committed and a working copy; [StoreRun] reduces each method
    to a function of the committed database, [StoreInv] has the invariant,
    [Queue] the properties, [QueueExamples] the concrete inputs.

    The event spool (class SQLiteEventOutbox): [Outbox], [OutboxProofs], [Spool];
    [System] interleaves both classes on one database; [SpoolExamples].

    Project detection (detect/): [PackageJson] (package_json.py, lockfiles.py),
    [Framework] (framework.py, compatibility.py), [Detect], [DetectExamples]. The
    packaging library is the class [Packaging], its documented behaviour on plain
    releases [PackagingLaws].

    The dependency cache (executor/cache.py) is [Cache]. Commands
    (queue/handlers.py, leases.py, dlq.py) are [Handlers], drain mode [Drain].

    The uplink (agent/uplink.py) is [Uplink], over two interfaces: the class
    [EventSpool] with its laws (implemented by the outbox) and the class
    [CommandHandlers] (implemented by the queue's handlers). [UplinkProofs] are
    properties for any spool and any handlers, [AgentUplink] those of the uplink
    on the engine's own queue and spool, [UplinkExamples] the concrete inputs.
    [Config] is the configuration record with its validation (config.py).

    The job loop (agent/job_loop.py) is [JobLoop]: the workers of the pool, the
    stages of [execute_job], its error classes, the reports. It composes
    - [Detect], [Resolve]: the build plan of a checked out project;
    - [Workspace] (executor/workspace.py): download, extraction checks, project
      root, retained workspaces; [WorkspaceProofs]: downloads are all or nothing,
      only safe archives are extracted;
    - [CacheProofs] on [Cache]: no build sees a cache of another lockfile;
      [WorkspaceExamples]: both at concrete places, and a planted link;
    - [CacheLocks] (executor/cache.py, [_site_cache_lock]): the module's locks,
      threads that run the sections of the code step by step, and that every
      interleaving is some order of whole calls;
    - [PruneProofs]: what pruning removes and what it leaves;
    - [Docker], [DockerProofs] (executor/docker_runner.py, network.py): image
      manifests, the command line, the secrets' file, the wait;
    - [Stream] (executor/stream.py): redaction and framing of the output;
    - [Artifact] (executor/validate.py, artifact.py): output checks, the archive,
      upload tickets; [ArtifactProofs]: the artifact is the output, and
      reproducible; [TreeExamples]: pruning and packaging of small trees;
    - [Auth] (agent/auth.py): registration, sessions, attempt secrets;
    - [Metrics] (metrics/, agent/heartbeat.py): counters and reports.
    The class [Engine] is what the loop shares with the rest of the process: the
    database, the files, the clock, the publisher, the metrics. [Meanwhile] is
    what other tasks may do to the shared database between two calls;
    [JobLoopProofs] and [JobLimits] have the properties, [JobLoopExamples] an
    engine on which a whole build runs.

    Configuration and credentials (config.py, agent/auth.py):
    - [Toml]: values of a TOML document, [tomllib] as the class [Tomllib], its
      behaviour on plain documents as [TomlLaws]; [Settings]: the layers of
      [load_config] on values of any type; [SettingsProofs]: their order.
    - [AuthProofs]: [isoformat] and [parse_datetime] are inverse.
    - [Credentials]: a host with modes, owners and failing system calls; writing,
      reading and checking the credentials file, registration and renewal on it.
      [CredentialsProofs]: the write is atomic, what is written is read back;
      [Registration]: registration as root, renewal; [SettingsExamples].

    The process (cli/):
    - [UplinkTasks] (agent/uplink.py, [publish_attempt_event] at its [await]s):
      publications under the publish lock beside connections and other users of
      the spool, step by step; without other steps they are the calls of
      [Uplink]; [UplinkExamples] has schedules with frames out of order.
    - [Connect], [ConnectProofs] (agent/uplink.py, [run_forever]): the loop of
      connections, its upgrade requests and its stop.
    - [Doctor], [DoctorProofs] (cli/doctor.py): the checks and the report; the
      class [DoctorHost] is what they ask of machine and network.
    - [Commands], [CommandsProofs] (cli/commands.py): one definition per command,
      over the class [Process]; [serve_command] takes the service as an argument.
    - [Service], [ServiceProofs]: [_run_service] with its signal handler and its
      shutdown, on the queue, the outbox and the handlers of the same files;
      [ServiceExamples]: a machine on which [serve] passes its gates.
    - [Args], [ArgsProofs]: command lines as [argparse] reads them: abbreviated
      and joined options, subcommands, usage errors. [Cli] (cli/commands.py,
      [main], [_build_parser]; __main__.py): the program's parser, the dispatch
      to the commands and the exit status; [CliProofs], [CliExamples].
    - [Logging] (cli/logging.py): JSON log lines, handler and level. [Contracts]
      (src/scripts/sync_contracts.py): the snapshot of the backend's document.

    ** Properties

    - Queue: who is leased next, transitions as guarded updates of a map of
      attempts, crash accounting, the life cycle, exclusive leases, fencing by
      token, atomicity of every method, cancellation, migration, pruning.
    - Protocol: [validate_envelope] accepts exactly the wire contract; encoding
      and decoding are inverse; which exceptions decoding raises.
    - Spool: replay sends exactly the events of the last five minutes after the
      cursors, in order; appends advance by one; pruning ends within its limits
      and removes the oldest first; acknowledgements remove exactly what they name; both
      invariants hold in every reachable state of the shared database.
    - Detection: plans are certified, detection depends on the evidence only, in
      the order documented.
    - Uplink: consecutive numbers, stored before sent, in order whatever tasks run
      beside each other; a connection sends nothing of its own before a valid
      welcome, foreign frames refused, delays, durable assignments, drain.
    - Jobs: success and failure are recorded under the lease whatever others do
      meanwhile, crashes cost attempts, workers keep no lease, which errors reach
      the backend in which class, limits, freshness before packaging.
    - Files: downloads are verified before they take their place; archives are
      extracted whole or not at all; caches follow the lockfile, stay within their
      limit when pruned, which removes what has expired or is too large and no
      other cache, and are prepared and reset by one thread at a time (pruning
      takes no lock); an artifact holds the output and nothing else, byte for byte
      the same for trees that are alike.
    - Containers: what docker sees, how secrets and images get there, the end of
      the wait; what of the output is published.
    - Process: the order of the configuration's layers; credentials are written
      atomically and read back; [serve] runs the service only behind its gates;
      every command line reaches its command with its arguments; upgrade requests
      carry a session that is not about to expire and, for a secure backend
      address, go over TLS; a graceful stop is a drain that outlives the process
      when its marker can be written.

    ** Bounds and fuel

    - [acquire_loop] runs at most one more time than there are rows: each round
      but the last cancels a row for good.
    - [prune_size] of the outbox runs at most once per event: each round deletes
      one.
    - The JSON decoder has fuel one more than the length of its text; each call
      consumes a character.
    - [walk] of [Fs] follows 40 links, as the kernel does.
    - [odd_part] halves at most as often as the number has bits.
    - [worker] takes the number of its turns: its loop has no end of its own. The
      wait for a container takes a number of polls: one more than the clock needs
      to pass the deadline, which is finite when readings are finite, never
      decrease and advance over a wait that times out ([clock_laws] of
      [DockerProofs]).

    ** Not modelled

    - SQLite's own I/O errors and locking; the rows an unordered SELECT returns
      come in table order ([request_cancel]). [int()] of a stored integer column is
      the integer.
    - [RecursionError] of deeply nested JSON; the text of exception messages built
      from [repr] of arbitrary values is approximated where it is not observed.
    - One reading of the clock per call of an outbox method.
    - The locale's text encoding is UTF-8, as on the supported systems. Digits in
      Node ranges are ASCII digits.
    - [urlparse]'s NFKC check of non-ASCII hosts is the parameter [netloc_check],
      the order of [rglob] the parameter [rglob].
    - Coroutines run one at a time between the points the models expose; threads
      of one process take turns call by call.
    - Transports ([urllib]), [tarfile]'s parsing and extraction, gzip and tar
      encodings, processes: parameters ([Urllib], [TarFile], [Archiver],
      [ContainerHost]). The log pumps of a container run after its wait instead
      of beside it. SQLite's integrity check, the health request, the first frame
      of a websocket and RFC 2822 dates are parameters of [DoctorHost].
    - Help texts, and of [argparse] what the program's parser does not use:
      positional arguments, option prefixes of other characters, arguments from
      files. What counts as a negative number, [str.upper] and whether [rich] can
      be imported are parameters. [run_forever] takes
      the list of connections the outside offers; a signal's task runs between
      the frames of one connection and the next. In [Service] the workers act
      when the shutdown waits for them ([WorkerPool]); [JobLoop] has their turns.
    - Commands need a configuration whose values have the declared types
      ([config_of]); a value of another type, which the code carries until it is
      used, ends the command. Dates within TOML arrays are not represented.
    - The operations of [Fs] ([unlink], [rmdir], [rmtree], [mkdir], writes) fail
      where the tree is not as they need it (nothing there, another kind, not
      empty); permissions, full disks and I/O errors, which the code answers with
      the same [OSError], are not in [Fs]. They are in the host of [Credentials],
      where each system call may fail. A theorem that a call on [Fs] succeeds says
      so for a file system that permits what the call asks.
    - A path of [Fs] has its content to itself. Which paths are hard links of one
      file is [inode_of] of the class [Archiver]; the archive has them as the code
      writes them, the later ones as links to the first. A write through one of
      them does not show in the others.
    - [run_connection] of [Uplink] takes the frames of a connection one after the
      other, each handled to its end; publications that interleave with them are
      in [UplinkTasks].
*)

From Stdlib Require Import Permutation Sorted.
From Stdlib Require Export NArith ZArith Lia ZifyBool ZifyN.
From stdpp Require Export base strings gmap option list.

(** * Exceptions

    The Python exception classes the modelled code raises or catches, with
    their base classes: [except C] catches an instance of every subclass of
    [C], and which handler fires decides what the engine reports. *)

Inductive exn_class :=
| BaseException | ExceptionC | CancelledError | KeyboardInterrupt | SystemExit
| ValueError | RuntimeError | TypeError | KeyErrorC | AttributeErrorC | OSError | OverflowError
| FileNotFoundError | PermissionError | TOMLDecodeError
| UnicodeEncodeError | UnicodeDecodeError | JSONDecodeError | TimeoutError
| SqliteError | SqliteIntegrityError | SqliteOperationalError | SubprocessTimeout | WebSocketException
| ProtocolError | QueueError | AuthError | InvalidSpecifier | TarError | URLError | HTTPError
| WorkspaceError | DetectionError | PackageJsonError | PackageManagerDetectionError
| OutputValidationError | ArtifactError | ArtifactUploadError
| CacheError | DockerError | NetworkPolicyError
| BuildExecutionErrorC.

#[export] Instance exn_class_eq_dec : EqDecision exn_class.
Proof. solve_decision. Defined.

(** The direct base class ([class C(B)]). *)
Definition exn_base (c : exn_class) : option exn_class :=
  match c with
  | BaseException => None
  | ExceptionC | CancelledError | KeyboardInterrupt | SystemExit => Some BaseException
  | ValueError | RuntimeError | TypeError | KeyErrorC | AttributeErrorC | OSError | OverflowError
  | SqliteError | SubprocessTimeout | WebSocketException | TarError | BuildExecutionErrorC => Some ExceptionC
  | SqliteIntegrityError | SqliteOperationalError => Some SqliteError
  | UnicodeEncodeError | UnicodeDecodeError | JSONDecodeError | TOMLDecodeError => Some ValueError
  | TimeoutError | URLError | FileNotFoundError | PermissionError => Some OSError
  | HTTPError => Some URLError
  | ProtocolError | DetectionError | InvalidSpecifier | PackageJsonError
  | PackageManagerDetectionError | NetworkPolicyError => Some ValueError
  | QueueError | AuthError | WorkspaceError | OutputValidationError
  | ArtifactError | CacheError | DockerError => Some RuntimeError
  | ArtifactUploadError => Some ArtifactError
  end.

(** [issubclass c d]; the hierarchy is at most five classes deep. *)
Fixpoint issubclass_fuel (fuel : nat) (c d : exn_class) : bool :=
  if decide (c = d) then true else
  match fuel with
  | O => false
  | S fuel => match exn_base c with
              | Some b => issubclass_fuel fuel b d
              | None => false
              end
  end.

Definition issubclass (c d : exn_class) : bool := issubclass_fuel 5 c d.

(** A Python [str] is a sequence of code points. *)
Abbreviation ustr := (list N).

(** A raised exception: its class and message, or the engine's structured
    build failure with its three fields. *)
Inductive exn :=
| PyExn (cls : exn_class) (msg : ustr)
| BuildExecutionError (error_class error_code message : ustr).

#[export] Instance exn_eq_dec : EqDecision exn.
Proof. solve_decision. Defined.

Definition exn_cls (e : exn) : exn_class :=
  match e with
  | PyExn c _ => c
  | BuildExecutionError _ _ _ => BuildExecutionErrorC
  end.

(** [str(exc)]. *)
Definition exn_text (e : exn) : ustr := match e with PyExn _ msg => msg | BuildExecutionError _ _ msg => msg end.

Definition isinstance (e : exn) (c : exn_class) : bool := issubclass (exn_cls e) c.

(** * Results and the state-and-exception monad *)

Inductive result (A : Type) :=
| Ok (a : A)
| Err (e : exn).
Arguments Ok {A} a.
Arguments Err {A} e.

#[export] Instance result_eq_dec {A} `{EqDecision A} : EqDecision (result A).
Proof. solve_decision. Defined.

#[export] Instance result_ret : MRet result := @Ok.
#[export] Instance result_bind : MBind result := λ A B f m,
  match m with Ok a => f a | Err e => Err e end.
#[export] Instance result_fmap : FMap result := λ A B f m,
  match m with Ok a => Ok (f a) | Err e => Err e end.

Definition is_ok {A} (r : result A) : bool :=
  match r with Ok _ => true | Err _ => false end.

Definition res_of_option {A} (e : exn) (o : option A) : result A :=
  match o with Some a => Ok a | None => Err e end.

(** Computations over a mutable state [S]: an exception does not undo the
    writes made before it was raised, as in Python. *)
Definition M (S A : Type) : Type := S → result A * S.

#[export] Instance M_ret S : MRet (M S) := λ A a s, (Ok a, s).
#[export] Instance M_bind S : MBind (M S) := λ A B f m s,
  match m s with
  | (Ok a, s') => f a s'
  | (Err e, s') => (Err e, s')
  end.

Definition raise {S A} (e : exn) : M S A := λ s, (Err e, s).
Definition lift {S A} (r : result A) : M S A := λ s, (r, s).
Definition gets {S A} (f : S → A) : M S A := λ s, (Ok (f s), s).
Definition modify {S} (f : S → S) : M S () := λ s, (Ok (), f s).

(** [try: m except: h] where the handler sees the exception and may re-raise. *)
Definition try_except {S A} (m : M S A) (h : exn → M S A) : M S A := λ s,
  match m s with
  | (Ok a, s') => (Ok a, s')
  | (Err e, s') => h e s'
  end.

(** [try: m finally: f]: [f] runs on both ways out; an exception of [f]
    replaces the outcome of [m]. *)
Definition try_finally {S A} (m : M S A) (f : M S ()) : M S A := λ s,
  let '(r, s') := m s in
  match f s' with
  | (Ok _, s'') => (r, s'')
  | (Err e, s'') => (Err e, s'')
  end.

(** [if cond: raise e]. *)
Definition raise_if {S} (cond : bool) (e : exn) : M S () :=
  if cond then raise e else mret ().

Definition fail_if (cond : bool) (e : exn) : result () :=
  if cond then Err e else Ok ().

(** [with contextlib.suppress(C): m]. *)
Definition suppress {S} (c : exn_class) (m : M S ()) : M S () :=
  try_except m (λ e, if isinstance e c then mret () else raise e).

(** A computation on a part of the state. *)
Definition zoom {S T A} (get : S → T) (put : T → S → S) (m : M T A) : M S A := λ s,
  let '(r, t) := m (get s) in (r, put t s).

(** [for x in l: f x]. *)
Fixpoint for_each {S A} (f : A → M S ()) (l : list A) : M S () :=
  match l with
  | [] => mret ()
  | x :: l => f x;; for_each f l
  end.

(** * Lists: stable sorting ([sorted], [ORDER BY]) *)

Section sorting.
Context {A : Type} (leb : A → A → bool).

Fixpoint insert_by (x : A) (l : list A) : list A :=
  match l with
  | [] => [x]
  | y :: l' => if leb x y then x :: y :: l' else y :: insert_by x l'
  end.

Fixpoint sort_by (l : list A) : list A :=
  match l with
  | [] => []
  | x :: l' => insert_by x (sort_by l')
  end.

End sorting.

(** [sum] of a list of naturals. *)
Definition list_sum (l : list nat) : nat := foldr plus 0 l.

(** * Tactics *)

(** Split the first [match] of a hypothesis or of the goal on its scrutinee. *)
Ltac case_in H :=
  match type of H with
  | context [match ?x with _ => _ end] => destruct x eqn:?
  end.

(** Compute with the monads until only the code's own tests remain. *)
Ltac munfold :=
  unfold mbind, M_bind, result_bind, option_bind, mret, M_ret, result_ret, fmap, result_fmap,
    raise, lift, gets, modify, raise_if, fail_if, try_except, try_finally in *;
  cbn beta iota zeta in *.

(** Run a monadic computation in a hypothesis [H : m s = r] through all its
    branches, keeping the equations of the tests taken. *)
Ltac mrun H := repeat (case_in H; simplify_eq; munfold; simplify_eq).

(** * Lemmas on sorting *)

Section sorting_lemmas.
Context {A : Type} (leb : A → A → bool).

Lemma insert_by_perm x l : insert_by leb x l ≡ₚ x :: l.
Proof.
  induction l as [|y l IH]; simpl; [done|].
  destruct (leb x y); [done|]. by rewrite IH, Permutation_swap.
Qed.

Lemma sort_by_perm l : sort_by leb l ≡ₚ l.
Proof. induction l as [|x l IH]; simpl; [done|]. by rewrite insert_by_perm, IH. Qed.

Lemma elem_of_sort_by x l : x ∈ sort_by leb l ↔ x ∈ l.
Proof. by rewrite sort_by_perm. Qed.

Lemma length_sort_by l : length (sort_by leb l) = length l.
Proof. by rewrite sort_by_perm. Qed.

Lemma NoDup_sort_by l : NoDup (sort_by leb l) ↔ NoDup l.
Proof. by rewrite sort_by_perm. Qed.

Context (leb_total : ∀ x y, leb x y = true ∨ leb y x = true).
Context (leb_trans : ∀ x y z, leb x y = true → leb y z = true → leb x z = true).

Lemma insert_by_sorted x l :
  StronglySorted (λ a b, leb a b = true) l →
  StronglySorted (λ a b, leb a b = true) (insert_by leb x l).
Proof.
  induction 1 as [|y l Hl IH Hy]; simpl.
  { repeat constructor. }
  destruct (leb x y) eqn:Hxy.
  - constructor; [by constructor|]. constructor; [done|].
    eapply List.Forall_impl; [|exact Hy]. simpl. eauto.
  - constructor; [done|]. rewrite insert_by_perm.
    constructor; [|done]. destruct (leb_total x y); congruence.
Qed.

Lemma sort_by_sorted l : StronglySorted (λ a b, leb a b = true) (sort_by leb l).
Proof. induction l; simpl; [constructor|]. by apply insert_by_sorted. Qed.

Lemma insert_by_le x l : Forall (λ y, leb x y = true) l → insert_by leb x l = x :: l.
Proof. destruct 1; simpl; [done|]. by rewrite H. Qed.

Lemma sort_by_id l : StronglySorted (λ a b, leb a b = true) l → sort_by leb l = l.
Proof. induction 1; simpl; [done|]. rewrite IHStronglySorted. by apply insert_by_le. Qed.

Lemma sort_by_idemp l : sort_by leb (sort_by leb l) = sort_by leb l.
Proof. apply sort_by_id, sort_by_sorted. Qed.

(** The first row of an [ORDER BY] query is a minimum of the selected rows. *)
Lemma sort_by_head x l :
  head (sort_by leb l) = Some x → x ∈ l ∧ ∀ y, y ∈ l → leb x y = true.
Proof.
  intros Hh. pose proof (sort_by_sorted l) as Hs.
  destruct (sort_by leb l) as [|z l'] eqn:E; simplify_eq/=.
  assert (∀ y, y ∈ l ↔ y ∈ x :: l') as Hin by (intros y; by rewrite <- E, elem_of_sort_by).
  inversion Hs as [|? ? ? Hall]; simplify_eq.
  split; [apply Hin; left|]. intros y [->|Hy]%Hin%elem_of_cons.
  - by destruct (leb_total x x) as [Hx|Hx]; rewrite Hx.
  - rewrite List.Forall_forall in Hall. by apply Hall, list_elem_of_In.
Qed.

End sorting_lemmas.

Lemma head_sort_by_None {A} (leb : A → A → bool) l :
  head (sort_by leb l) = None ↔ l = [].
Proof.
  rewrite <- (length_zero_iff_nil l), <- (length_sort_by leb l).
  destruct (sort_by leb l); simpl; split; intros; simplify_eq; done.
Qed.

(** * Lemmas on the monads *)

Lemma bind_Ok_inv {S A B} (m : M S A) (f : A → M S B) s b s'' :
  (m ≫= f) s = (Ok b, s'') → ∃ a s', m s = (Ok a, s') ∧ f a s' = (Ok b, s'').
Proof. munfold. destruct (m s) as [[a|e] s'] eqn:E; [eauto | congruence]. Qed.

Lemma result_bind_Ok_inv {A B} (m : result A) (f : A → result B) b :
  (m ≫= f) = Ok b → ∃ a, m = Ok a ∧ f a = Ok b.
Proof. munfold. destruct m; [eauto | congruence]. Qed.

(** Running the first part of a composition. *)
Lemma bind_ok {S A B} (m : M S A) (f : A → M S B) s a s' : m s = (Ok a, s') → (m ≫= f) s = f a s'.
Proof. unfold mbind, M_bind. by intros ->. Qed.
Lemma bind_err {S A B} (m : M S A) (f : A → M S B) s e s' : m s = (Err e, s') → (m ≫= f) s = (Err e, s').
Proof. unfold mbind, M_bind. by intros ->. Qed.

(** Every exception of a composition satisfies what its parts' exceptions do. *)
Lemma result_bind_Err_all {A B} (P : exn → Prop) (m : result A) (f : A → result B) :
  (∀ e, m = Err e → P e) → (∀ a e, m = Ok a → f a = Err e → P e) → ∀ e, (m ≫= f) = Err e → P e.
Proof. munfold. intros Hm Hf e. destruct m; [by apply Hf|]. intros [= <-]. by apply Hm. Qed.

Lemma issubclass_refl c : issubclass c c = true.
Proof. by destruct c. Qed.

(** * Computations that respect a relation

    [steps R m]: whichever way [m] ends, the final state is [R]-related to the
    initial one.  For a preorder the property is closed under composition. *)

Definition steps {S A} (R : S → S → Prop) (m : M S A) : Prop := ∀ s, R s (m s).2.

Section steps.
Context {S : Type} (R : S → S → Prop) `{!PreOrder R}.

Lemma steps_same {A} (m : M S A) : (∀ s, (m s).2 = s) → steps R m.
Proof. intros H s. by rewrite H. Qed.

Lemma steps_bind {A B} (m : M S A) (f : A → M S B) : steps R m → (∀ a, steps R (f a)) → steps R (m ≫= f).
Proof.
  intros Hm Hf s. munfold. specialize (Hm s). destruct (m s) as [[a|e] s']; [|done].
  etransitivity; [exact Hm|apply Hf].
Qed.

Lemma steps_try {A} (m : M S A) h : steps R m → (∀ e, steps R (h e)) → steps R (try_except m h).
Proof.
  intros Hm Hh s. munfold. specialize (Hm s). destruct (m s) as [[a|e] s']; [done|].
  etransitivity; [exact Hm|apply Hh].
Qed.

Lemma steps_finally {A} (m : M S A) f : steps R m → steps R f → steps R (try_finally m f).
Proof.
  intros Hm Hf s. munfold. specialize (Hm s). destruct (m s) as [r s']. specialize (Hf s').
  destruct (f s') as [[]]; by etransitivity.
Qed.

Lemma steps_for_each {A} (f : A → M S ()) l : (∀ a, steps R (f a)) → steps R (for_each f l).
Proof. intros Hf. induction l as [|x l IH]; [by apply steps_same|]. by apply steps_bind. Qed.

End steps.

(** Split a [steps] goal along the program; the leaves are left to the hints. *)
Ltac steps_go :=
  repeat first
    [ (apply steps_same; [exact _|intros ?; reflexivity])
    | solve [eauto with steps]
    | (apply steps_bind; [exact _| |intros ?])
    | (apply steps_try; [exact _| |intros ?])
    | (apply steps_finally; [exact _| |])
    | (apply steps_for_each; [exact _|intros ?])
    | case_match ].

(** * Automation database *)

Create HintDb steps.

Create HintDb engine.
Create Rewrite HintDb engine.
#[export] Hint Resolve issubclass_refl sort_by_perm : engine.
#[export] Hint Rewrite @elem_of_sort_by @length_sort_by : engine.
