(* ===== verification/PyStr.v ===== *)
(** Python strings: code points, ordering, the [str] methods the engine calls
    and the UTF-8 codec (strict and [errors="replace"]). *)

From Stdlib Require Import Ascii.
From S2P Require Import Prelude.

Local Open Scope N_scope.

(** A literal of the source, [u "abc"]. *)
Definition u (s : string) : ustr := N_of_ascii <$> String.list_ascii_of_string s.
Arguments u s%_string_scope.

(** The double quote, which the source's literals escape. *)
Definition DQ : N := 34.

(** * Comparison: code-point lexicographic order *)

Fixpoint ustr_compare (s t : ustr) : comparison :=
  match s, t with
  | [], [] => Eq
  | [], _ :: _ => Lt
  | _ :: _, [] => Gt
  | a :: s', b :: t' =>
      match N.compare a b with
      | Eq => ustr_compare s' t'
      | c => c
      end
  end.

Definition ustr_eqb (s t : ustr) : bool := bool_decide (s = t).
Definition ustr_leb (s t : ustr) : bool :=
  match ustr_compare s t with Gt => false | _ => true end.
Definition ustr_ltb (s t : ustr) : bool :=
  match ustr_compare s t with Lt => true | _ => false end.

(** [s in {a, b, ...}]. *)
Definition mem_str (s : ustr) (l : list ustr) : bool := bool_decide (s ∈ l).

(** * Methods *)

Fixpoint startswith (s p : ustr) {struct p} : bool :=
  match p, s with
  | [], _ => true
  | _ :: _, [] => false
  | a :: p', b :: s' => (a =? b) && startswith s' p'
  end.

Definition endswith (s p : ustr) : bool := startswith (reverse s) (reverse p).

(** [sub in s]. *)
Fixpoint contains (s sub : ustr) : bool :=
  startswith s sub ||
  match s with
  | [] => false
  | _ :: s' => contains s' sub
  end.

(** [s.replace(old, new)] for a non-empty [old]: leftmost, non-overlapping.
    [skip] counts the code points of an occurrence still to be dropped. *)
Fixpoint replace_go (old new : ustr) (skip : nat) (s : ustr) : ustr :=
  match s with
  | [] => []
  | c :: s' =>
      match skip with
      | S k => replace_go old new k s'
      | O => if startswith s old
             then new ++ replace_go old new (pred (length old)) s'
             else c :: replace_go old new 0 s'
      end
  end.

(** With an empty [old] Python inserts [new] around every code point. *)
Definition replace (s old new : ustr) : ustr :=
  match old with
  | [] => new ++ concat ((λ c, c :: new) <$> s)
  | _ :: _ => replace_go old new 0 s
  end.

(** [s.strip(chars)], [s.rstrip(chars)], the set given as a predicate. *)
Fixpoint lstrip (p : N → bool) (s : ustr) : ustr :=
  match s with
  | [] => []
  | c :: s' => if p c then lstrip p s' else s
  end.
Definition rstrip (p : N → bool) (s : ustr) : ustr := reverse (lstrip p (reverse s)).
Definition strip (p : N → bool) (s : ustr) : ustr := rstrip p (lstrip p s).

Definition is_char (c : N) (d : N) : bool := c =? d.

(** [str.isspace()] of a code point: what [strip()] and [split()] drop. *)
Definition is_space (c : N) : bool :=
  ((9 <=? c) && (c <=? 13)) || ((28 <=? c) && (c <=? 32)) ||
  bool_decide (c ∈ [133; 160; 5760; 8232; 8233; 8239; 8287; 12288]) ||
  ((8192 <=? c) && (c <=? 8202)).

Definition is_digit (c : N) : bool := (48 <=? c) && (c <=? 57).

(** Digits with single underscores between them, as [int()] reads them. *)
Fixpoint int_digits (acc : N) (digit_before : bool) (s : ustr) : option N :=
  match s with
  | [] => if digit_before then Some acc else None
  | c :: s =>
      if is_digit c then int_digits (10 * acc + (c - 48)) true s
      else if (c =? 95) && digit_before then int_digits acc false s else None
  end.

(** [int(s)] of text: [None] is [ValueError]; at most 4300 digits. *)
Definition py_int (strip_space : ustr → ustr) (s : ustr) : option Z :=
  let s := strip_space s in
  let '(neg, ds) := match s with
                    | 45 :: s => (true, s)
                    | 43 :: s => (false, s)
                    | s => (false, s)
                    end in
  if (4300 <? N.of_nat (length (List.filter is_digit ds))) then None
  else (λ n, if neg : bool then (- Z.of_N n)%Z else Z.of_N n) <$> int_digits 0 false ds.

(** [sep.join(parts)]. *)
Fixpoint join (sep : ustr) (parts : list ustr) : ustr :=
  match parts with
  | [] => []
  | [p] => p
  | p :: ps => p ++ sep ++ join sep ps
  end.

(** [s.split(sep)] for a one-character separator. *)
Fixpoint split_on (sep : N) (s : ustr) : list ustr :=
  match s with
  | [] => [[]]
  | c :: s' =>
      if c =? sep then [] :: split_on sep s'
      else match split_on sep s' with
           | [] => [[c]]
           | p :: ps => (c :: p) :: ps
           end
  end.

(** [s.partition(sep)] for a one-character separator: head, whether the
    separator was found, tail. *)
Fixpoint partition_on (sep : N) (s : ustr) : ustr * bool * ustr :=
  match s with
  | [] => ([], false, [])
  | c :: s' =>
      if c =? sep then ([], true, s')
      else let '(h, found, t) := partition_on sep s' in (c :: h, found, t)
  end.

(** Decimal digits of a natural number ([str(n)]), most significant first. *)
Fixpoint digits_go (fuel : nat) (n : N) (acc : ustr) : ustr :=
  match fuel with
  | O => acc
  | S fuel => let acc := (48 + n mod 10) :: acc in
              if n <? 10 then acc else digits_go fuel (n / 10) acc
  end.
Definition str_of_N (n : N) : ustr := digits_go (S (N.to_nat (N.size n))) n [].
Definition str_of_Z (z : Z) : ustr :=
  match z with
  | Zneg p => 45 :: str_of_N (Npos p)
  | _ => str_of_N (Z.to_N z)
  end.

(** The value of a run of decimal digits. *)
Definition N_of_digits (s : ustr) : N := fold_left (λ acc c, 10 * acc + (c - 48)) s 0.

(** * UTF-8 *)

Definition is_surrogate (c : N) : bool := (55296 <=? c) && (c <=? 57343).
Definition valid_cp (c : N) : bool := c <? 1114112.

(** The encoding of one code point; surrogates have none. *)
Definition utf8_encode_cp (c : N) : option (list N) :=
  if c <? 128 then Some [c]
  else if c <? 2048 then Some [192 + c / 64; 128 + c mod 64]
  else if is_surrogate c then None
  else if c <? 65536 then
    Some [224 + c / 4096; 128 + (c / 64) mod 64; 128 + c mod 64]
  else if valid_cp c then
    Some [240 + c / 262144; 128 + (c / 4096) mod 64; 128 + (c / 64) mod 64; 128 + c mod 64]
  else None.

Definition surrogate_error : exn :=
  PyExn UnicodeEncodeError (u "'utf-8' codec can't encode character: surrogates not allowed").

(** [s.encode("utf-8")]. *)
Fixpoint utf8_encode (s : ustr) : result (list N) :=
  match s with
  | [] => Ok []
  | c :: s' =>
      match utf8_encode_cp c with
      | None => Err surrogate_error
      | Some b => match utf8_encode s' with
                  | Ok bs => Ok (b ++ bs)
                  | Err e => Err e
                  end
      end
  end.

(** [len(s.encode("utf-8"))]. *)
Definition utf8_len (s : ustr) : result N :=
  (λ b, N.of_nat (length b)) <$> utf8_encode s.

Definition is_cont (b : N) : bool := (128 <=? b) && (b <=? 191).

(** The range a second byte must lie in after the lead byte [b0]. *)
Definition second_ok (b0 b1 : N) : bool :=
  if b0 =? 224 then (160 <=? b1) && (b1 <=? 191)
  else if b0 =? 237 then (128 <=? b1) && (b1 <=? 159)
  else if b0 =? 240 then (144 <=? b1) && (b1 <=? 191)
  else if b0 =? 244 then (128 <=? b1) && (b1 <=? 143)
  else is_cont b1.

(** One decoding step: the code point and the rest, or the rest after the
    maximal ill-formed prefix. *)
Definition utf8_step (b0 : N) (bs : list N) : option N * list N :=
  if b0 <? 128 then (Some b0, bs)
  else if (194 <=? b0) && (b0 <=? 223) then
    match bs with
    | b1 :: r => if is_cont b1 then (Some ((b0 - 192) * 64 + (b1 - 128)), r) else (None, bs)
    | [] => (None, [])
    end
  else if (224 <=? b0) && (b0 <=? 239) then
    match bs with
    | b1 :: r =>
        if second_ok b0 b1 then
          match r with
          | b2 :: r' =>
              if is_cont b2
              then (Some ((b0 - 224) * 4096 + (b1 - 128) * 64 + (b2 - 128)), r')
              else (None, r)
          | [] => (None, [])
          end
        else (None, bs)
    | [] => (None, [])
    end
  else if (240 <=? b0) && (b0 <=? 244) then
    match bs with
    | b1 :: r =>
        if second_ok b0 b1 then
          match r with
          | b2 :: r' =>
              if is_cont b2 then
                match r' with
                | b3 :: r'' =>
                    if is_cont b3
                    then (Some ((b0 - 240) * 262144 + (b1 - 128) * 4096
                                + (b2 - 128) * 64 + (b3 - 128)), r'')
                    else (None, r')
                | [] => (None, [])
                end
              else (None, r)
          | [] => (None, [])
          end
        else (None, bs)
    | [] => (None, [])
    end
  else (None, bs).

(** [b.decode("utf-8")]; every step consumes a byte, so the length is fuel enough. *)
Fixpoint utf8_decode_go (fuel : nat) (bs : list N) : result ustr :=
  match bs, fuel with
  | [], _ => Ok []
  | _ :: _, O => Err (PyExn UnicodeDecodeError (u "fuel"))
  | b :: bs', S fuel =>
      match utf8_step b bs' with
      | (Some c, r) => match utf8_decode_go fuel r with
                       | Ok s => Ok (c :: s)
                       | Err e => Err e
                       end
      | (None, _) => Err (PyExn UnicodeDecodeError (u "'utf-8' codec can't decode byte"))
      end
  end.
Definition utf8_decode (bs : list N) : result ustr := utf8_decode_go (length bs) bs.

(** [b.decode("utf-8", errors="replace")]: one U+FFFD per ill-formed prefix. *)
Fixpoint utf8_decode_replace_go (fuel : nat) (bs : list N) : ustr :=
  match bs, fuel with
  | b :: bs', S fuel =>
      let '(oc, r) := utf8_step b bs' in
      default 65533 oc :: utf8_decode_replace_go fuel r
  | _, _ => []
  end.
Definition utf8_decode_replace (bs : list N) : ustr := utf8_decode_replace_go (length bs) bs.

(** * Lemmas: the order on strings *)

Lemma ustr_compare_refl s : ustr_compare s s = Eq.
Proof. induction s as [|a s IH]; simpl; [done|]. by rewrite N.compare_refl. Qed.

Lemma ustr_compare_eq s t : ustr_compare s t = Eq ↔ s = t.
Proof.
  split; [|intros ->; apply ustr_compare_refl].
  revert t; induction s as [|a s IH]; intros [|b t]; simpl; try done.
  destruct (N.compare_spec a b) as [->| |]; try done. intros ?. by f_equal; apply IH.
Qed.

Lemma ustr_compare_antisym s t : ustr_compare t s = CompOpp (ustr_compare s t).
Proof.
  revert t; induction s as [|a s IH]; intros [|b t]; simpl; try done.
  rewrite (N.compare_antisym a b), IH. by destruct (N.compare a b).
Qed.

Lemma ustr_compare_trans s t r c :
  ustr_compare s t = c → ustr_compare t r = c → ustr_compare s r = c.
Proof.
  revert t r; induction s as [|x s IH]; intros [|y t] [|z r]; simpl; intros; subst; try done.
  destruct (N.compare_spec x y), (N.compare_spec y z), (N.compare_spec x z);
    subst; try lia; try done; eauto.
Qed.

Lemma ustr_leb_refl s : ustr_leb s s = true.
Proof. unfold ustr_leb. by rewrite ustr_compare_refl. Qed.

Lemma ustr_leb_total s t : ustr_leb s t = true ∨ ustr_leb t s = true.
Proof.
  unfold ustr_leb. rewrite (ustr_compare_antisym s t).
  destruct (ustr_compare s t); auto.
Qed.

Lemma ustr_leb_spec s t : ustr_leb s t = true ↔ s = t ∨ ustr_compare s t = Lt.
Proof.
  unfold ustr_leb. rewrite <- ustr_compare_eq. destruct (ustr_compare s t); naive_solver.
Qed.

Lemma ustr_leb_trans s t r : ustr_leb s t = true → ustr_leb t r = true → ustr_leb s r = true.
Proof.
  rewrite !ustr_leb_spec. intros [->|H1] [->|H2]; auto.
  right. by eapply ustr_compare_trans.
Qed.

Lemma ustr_leb_antisym s t : ustr_leb s t = true → ustr_leb t s = true → s = t.
Proof.
  unfold ustr_leb. rewrite (ustr_compare_antisym s t), <- ustr_compare_eq.
  by destruct (ustr_compare s t).
Qed.

Lemma ustr_ltb_leb s t : ustr_ltb s t = negb (ustr_leb t s).
Proof.
  unfold ustr_ltb, ustr_leb. rewrite (ustr_compare_antisym s t).
  by destruct (ustr_compare s t).
Qed.

Lemma ustr_compare_app_same p s t : ustr_compare (p ++ s) (p ++ t) = ustr_compare s t.
Proof. induction p as [|a p IH]; simpl; [done|]. by rewrite N.compare_refl. Qed.

(** Strings of equal length compare field by field. *)
Lemma ustr_compare_app p q s t :
  length p = length q →
  ustr_compare (p ++ s) (q ++ t) =
    match ustr_compare p q with Eq => ustr_compare s t | c => c end.
Proof.
  revert q; induction p as [|a p IH]; intros [|b q]; simpl; intros Hl; try done.
  destruct (N.compare a b); [by apply IH; lia|done|done].
Qed.

(** * Lemmas: methods *)

Lemma startswith_spec s p : startswith s p = true ↔ ∃ r, s = p ++ r.
Proof.
  revert s; induction p as [|a p IH]; intros [|b s]; simpl.
  - split; eauto.
  - split; eauto.
  - split; [done|]. by intros [r ?].
  - rewrite andb_true_iff, N.eqb_eq, IH. split.
    + by intros [-> [r ->]]; exists r.
    + by intros [r [= -> ->]]; eauto.
Qed.

Lemma contains_spec s sub : contains s sub = true ↔ ∃ a b, s = a ++ sub ++ b.
Proof.
  induction s as [|c s IH].
  - destruct sub; simpl; [split; [intros _; by exists [], []|done]|].
    split; [done|]. intros ([|] & b & [=]).
  - cbn [contains]. rewrite orb_true_iff, IH, startswith_spec. split.
    + intros [[r ->]|(a & b & ->)]; [by exists [], r | by exists (c :: a), b].
    + intros ([|x a] & b & E); simplify_eq/=; [left; eauto | right; eauto].
Qed.

Lemma join_app_cons sep p ps :
  ps ≠ [] → join sep (p :: ps) = p ++ sep ++ join sep ps.
Proof. by destruct ps. Qed.

(** * Lemmas: splitting *)

Lemma split_on_none sep s : Forall (λ c, (c =? sep) = false) s → split_on sep s = [s].
Proof. induction 1 as [|c s Hc _ IH]; [done|]. cbn [split_on]. by rewrite IH, Hc. Qed.

Lemma split_on_cons sep s t :
  Forall (λ c, (c =? sep) = false) s → split_on sep (s ++ sep :: t) = s :: split_on sep t.
Proof.
  induction 1 as [|c s Hc _ IH]; cbn [split_on app]; [by rewrite N.eqb_refl|]. by rewrite IH, Hc.
Qed.

Lemma split_lines lines : lines ≠ [] → Forall (λ l, Forall (λ c, (c =? 10)%N = false) l) lines →
  split_on 10 (join [10%N] lines ++ [10%N]) = lines ++ [[]].
Proof.
  intros Hne Hl. induction Hl as [|l lines Hl Hls IH]; [done|]. destruct lines as [|l' lines].
  - cbn [join]. by rewrite split_on_cons.
  - rewrite join_app_cons by done. rewrite <- !app_assoc. cbn [app]. rewrite split_on_cons by done.
    by rewrite IH.
Qed.

(** * Lemmas: UTF-8 *)

Definition scalar (c : N) : Prop := c < 1114112 ∧ ¬ (55296 <= c <= 57343).

Lemma utf8_encode_cp_some c : scalar c → ∃ b, utf8_encode_cp c = Some b.
Proof.
  unfold scalar, utf8_encode_cp, is_surrogate, valid_cp. intros [? ?].
  repeat case_match; eauto; lia.
Qed.

Lemma utf8_encode_cp_length c b : utf8_encode_cp c = Some b → (1 <= length b <= 4)%nat.
Proof. unfold utf8_encode_cp. repeat case_match; intros; simplify_eq/=; lia. Qed.

#[local] Ltac Zify.zify_post_hook ::= Z.to_euclidean_division_equations.

Lemma utf8_step_encode c b bs :
  utf8_encode_cp c = Some b →
  ∃ b0 b', b = b0 :: b' ∧ utf8_step b0 (b' ++ bs) = (Some c, bs).
Proof.
  unfold utf8_encode_cp. intros H.
  destruct (c <? 128) eqn:E1; simplify_eq.
  { eexists _, _; split; [done|]. unfold utf8_step. by rewrite E1. }
  destruct (c <? 2048) eqn:E2; simplify_eq.
  { eexists _, _; split; [done|]. unfold utf8_step, is_cont; simpl.
    apply N.ltb_ge in E1; apply N.ltb_lt in E2.
    repeat case_match; try (exfalso; lia); f_equal; f_equal; lia. }
  destruct (is_surrogate c) eqn:E3; simplify_eq. unfold is_surrogate in E3.
  destruct (c <? 65536) eqn:E4; simplify_eq.
  { eexists _, _; split; [done|]. unfold utf8_step, second_ok, is_cont; simpl.
    repeat case_match; try (exfalso; lia); f_equal; f_equal; lia. }
  destruct (valid_cp c) eqn:E5; simplify_eq. unfold valid_cp in E5.
  eexists _, _; split; [done|]. unfold utf8_step, second_ok, is_cont; simpl.
  repeat case_match; try (exfalso; lia); f_equal; f_equal; lia.
Qed.

Lemma utf8_encode_app s t :
  utf8_encode (s ++ t) =
    match utf8_encode s with
    | Ok b => match utf8_encode t with Ok b' => Ok (b ++ b') | Err e => Err e end
    | Err e => Err e
    end.
Proof.
  induction s as [|c s IH]; simpl; [by destruct (utf8_encode t)|].
  destruct (utf8_encode_cp c); [|done]. rewrite IH.
  destruct (utf8_encode s), (utf8_encode t); try done. by rewrite (assoc_L (++)).
Qed.

Lemma utf8_encode_scalar s : Forall scalar s → ∃ b, utf8_encode s = Ok b.
Proof.
  induction 1 as [|c s Hc _ [b IH]]; simpl; [eauto|].
  destruct (utf8_encode_cp_some c Hc) as [b' ->]. rewrite IH. eauto.
Qed.

Lemma utf8_encode_err s e : utf8_encode s = Err e → e = surrogate_error.
Proof.
  induction s as [|c s IH]; simpl; [done|].
  destruct (utf8_encode_cp c); [|congruence].
  destruct (utf8_encode s); [done|]. auto.
Qed.

Lemma utf8_encode_length_le s b : utf8_encode s = Ok b → (length s <= length b <= 4 * length s)%nat.
Proof.
  revert b; induction s as [|c s IH]; simpl; intros b H; simplify_eq/=; [lia|].
  destruct (utf8_encode_cp c) as [b'|] eqn:E; [|done].
  destruct (utf8_encode s) as [b''|]; simplify_eq.
  apply utf8_encode_cp_length in E. specialize (IH _ eq_refl). rewrite length_app. lia.
Qed.

Lemma utf8_decode_go_encode fuel s b :
  utf8_encode s = Ok b → (length b <= fuel)%nat → utf8_decode_go fuel b = Ok s.
Proof.
  revert fuel b; induction s as [|c s IH]; simpl; intros fuel b H Hf; simplify_eq/=.
  { by destruct fuel. }
  destruct (utf8_encode_cp c) as [b1|] eqn:Ec; [|done].
  destruct (utf8_encode s) as [b2|]; simplify_eq.
  destruct (utf8_step_encode c b1 b2 Ec) as (b0 & b' & -> & Hstep).
  destruct fuel as [|fuel]; simpl in *; [lia|]. rewrite Hstep, (IH fuel b2); [done..|].
  rewrite length_app in Hf. lia.
Qed.

(** Strict decoding inverts encoding. *)
Lemma utf8_decode_encode s b : utf8_encode s = Ok b → utf8_decode b = Ok s.
Proof. intros H. by apply utf8_decode_go_encode. Qed.

Lemma utf8_decode_replace_encode s b : utf8_encode s = Ok b → utf8_decode_replace b = s.
Proof.
  unfold utf8_decode_replace. assert (Hf : (length b <= length b)%nat) by lia.
  revert Hf. generalize (length b) at 2 3 as fuel. intros fuel Hf H. revert fuel b Hf H.
  induction s as [|c s IH]; simpl; intros fuel b Hf H; simplify_eq/=.
  { by destruct fuel. }
  destruct (utf8_encode_cp c) as [b1|] eqn:Ec; [|done].
  destruct (utf8_encode s) as [b2|]; simplify_eq.
  destruct (utf8_step_encode c b1 b2 Ec) as (b0 & b' & -> & Hstep).
  destruct fuel as [|fuel]; simpl in *; [lia|]. rewrite Hstep; simpl.
  rewrite length_app in Hf. f_equal. apply IH; [lia|done].
Qed.

Definition ascii_str (s : ustr) : Prop := Forall (λ c, c < 128) s.

Lemma utf8_encode_ascii s : ascii_str s → utf8_encode s = Ok s.
Proof.
  induction 1 as [|c s Hc _ IH]; simpl; [done|].
  unfold utf8_encode_cp. by rewrite (proj2 (N.ltb_lt c 128) Hc), IH.
Qed.

(** * Lemmas: decimal numerals *)

Lemma digits_go_value fuel n acc :
  n < 10 ^ N.of_nat fuel → (0 < fuel)%nat →
  N_of_digits (digits_go fuel n acc) = fold_left (λ acc c, 10 * acc + (c - 48)) acc n.
Proof.
  revert n acc; induction fuel as [|fuel IH]; intros n acc Hn Hf; [lia|]. cbn [digits_go].
  destruct (n <? 10) eqn:E.
  - unfold N_of_digits; simpl. f_equal. lia.
  - rewrite IH.
    + simpl. f_equal. lia.
    + rewrite Nat2N.inj_succ, N.pow_succ_r' in Hn. apply N.Div0.div_lt_upper_bound; lia.
    + destruct fuel; [|lia]. simpl in Hn. lia.
Qed.

Lemma size_pow10 n : n < 10 ^ N.of_nat (S (N.to_nat (N.size n))).
Proof.
  eapply N.lt_le_trans; [apply N.size_gt|].
  transitivity (10 ^ N.size n); [apply N.pow_le_mono_l; lia | apply N.pow_le_mono_r; lia].
Qed.

(** Printing then reading a numeral is the identity. *)
Lemma N_of_str_of_N n : N_of_digits (str_of_N n) = n.
Proof. unfold str_of_N. rewrite digits_go_value; [done|apply size_pow10|lia]. Qed.

Lemma digits_go_digits fuel n acc :
  Forall (λ c, is_digit c = true) acc → Forall (λ c, is_digit c = true) (digits_go fuel n acc).
Proof.
  revert n acc; induction fuel as [|fuel IH]; intros n acc Ha; cbn [digits_go]; [done|].
  assert (is_digit (48 + n mod 10) = true) by (unfold is_digit; lia).
  destruct (n <? 10); [by constructor | apply IH; by constructor].
Qed.

Lemma str_of_N_digits n : Forall (λ c, is_digit c = true) (str_of_N n).
Proof. apply digits_go_digits. constructor. Qed.

Lemma digits_go_head fuel n acc :
  n < 10 ^ N.of_nat fuel → (0 < fuel)%nat → 0 < n →
  ∃ d r, digits_go fuel n acc = d :: r ∧ 49 <= d <= 57.
Proof.
  revert n acc; induction fuel as [|fuel IH]; intros n acc Hn Hf Hp; [lia|]. cbn [digits_go].
  destruct (n <? 10) eqn:E.
  - eexists _, _. split; [done|]. lia.
  - rewrite Nat2N.inj_succ, N.pow_succ_r' in Hn. apply IH.
    + apply N.Div0.div_lt_upper_bound; lia.
    + destruct fuel; [|lia]. simpl in Hn. lia.
    + lia.
Qed.

(** A numeral is [0] or starts with a non-zero digit. *)
Lemma str_of_N_head n : n = 0 ∧ str_of_N n = [48] ∨ ∃ d r, str_of_N n = d :: r ∧ 49 <= d <= 57.
Proof.
  destruct (N.eq_dec n 0) as [->|]; [by left|]. right.
  apply digits_go_head; [apply size_pow10|lia|lia].
Qed.

Lemma ustr_digits_ascii s : Forall (λ c, is_digit c = true) s → ascii_str s.
Proof. apply List.Forall_impl. unfold is_digit. intros. lia. Qed.

#[export] Hint Resolve ustr_leb_refl ustr_leb_total ustr_leb_trans str_of_N_digits : engine.
#[export] Hint Rewrite N_of_str_of_N ustr_compare_refl : engine.
