(* ===== verification/PyFloat.v ===== *)
(** Python floats: IEEE binary64 values with conversion from integers and
    decimal numerals, comparison, and the shortest round-tripping [repr]. *)

From Corelib Require Import SpecFloat.
From S2P Require Import Prelude PyStr.

Local Open Scope Z_scope.

Abbreviation pyfloat := spec_float.

Definition PREC : Z := 53.
Definition EMAX : Z := 1024.

#[export] Instance spec_float_eq_dec : EqDecision spec_float.
Proof. solve_decision. Defined.

(** [float(n)], correctly rounded; a Python [int] beyond the range raises. *)
Definition float_of_Z (z : Z) : result pyfloat :=
  match binary_normalize PREC EMAX z 0 false with
  | S754_infinity _ => Err (PyExn OverflowError (u "int too large to convert to float"))
  | f => Ok f
  end.

(** [float("<m>e<e10>")]: the correctly rounded value of [±m * 10^e10]. The two
    cut-offs only avoid computing powers whose result is 0 or infinity. *)
Definition float_of_decimal (neg : bool) (m : N) (e10 : Z) : pyfloat :=
  match m with
  | N0 => S754_zero neg
  | Npos p =>
      let mag := Z.of_nat (length (str_of_N m)) + e10 in
      if 400 <? mag then S754_infinity neg
      else if mag <? -400 then S754_zero neg
      else if 0 <=? e10 then binary_normalize PREC EMAX (cond_Zopp neg (Zpos p * 10 ^ e10)) 0 neg
      else SFdiv PREC EMAX (S754_finite neg p 0) (S754_finite false (Z.to_pos (10 ^ (- e10))) 0)
  end.

(** [f == z] for a float and an int: exact, no rounding of [z]. *)
Definition float_eq_Z (f : pyfloat) (z : Z) : bool :=
  match f with
  | S754_zero _ => z =? 0
  | S754_finite s m e =>
      let n := cond_Zopp s (Zpos m) in
      if 0 <=? e then n * 2 ^ e =? z
      else n =? z * 2 ^ (- e)
  | _ => false
  end.

Definition float_ltb : pyfloat → pyfloat → bool := SFltb.
Definition float_leb : pyfloat → pyfloat → bool := SFleb.

(** * [repr(f)]: the shortest decimal that rounds to [f] *)

Section repr.
Context (num den : N).

(** Decimal point position: the [k] with [10^(k-1) <= num/den < 10^k]. *)
Fixpoint leading_zeros (fuel : nat) (n : N) : Z :=
  match fuel with
  | O => 0
  | S fuel => if (den <=? n)%N then 1 else leading_zeros fuel (10 * n) - 1
  end.

Definition dec_point : Z :=
  if (den <=? num)%N then Z.of_nat (length (str_of_N (num / den)))
  else leading_zeros 400 num.

(** The value scaled to an [n]-digit integer: quotient, remainder, divisor. *)
Definition scaled (n : Z) : N * N * N :=
  let s := n - dec_point in
  let '(a, b) := if 0 <=? s then (num * 10 ^ Z.to_N s, den)%N
                 else (num, den * 10 ^ Z.to_N (- s))%N in
  (a / b, a mod b, b)%N.

(** The nearest [n]-digit decimal first, then the one on the other side. *)
Definition candidates (n : Z) : list (N * Z) :=
  let '(q, r, b) := scaled n in
  let e := dec_point - n in
  let up := (b <? 2 * r)%N || ((b =? 2 * r)%N && N.odd q) in
  if up then [(q + 1, e); (q, e)]%N else [(q, e); (q + 1, e)]%N.

End repr.

Definition first_roundtrip (f : pyfloat) (neg : bool) (l : list (N * Z)) : option (N * Z) :=
  head (filter (λ c, float_of_decimal neg c.1 c.2 = f) l).

Fixpoint shortest (f : pyfloat) (neg : bool) (num den : N) (n : Z) (fuel : nat) : N * Z :=
  match first_roundtrip f neg (candidates num den n) with
  | Some c => c
  | None => match fuel with
            | O => default (0%N, 0) (head (candidates num den n))
            | S fuel => shortest f neg num den (n + 1) fuel
            end
  end.

Fixpoint strip_zeros (fuel : nat) (d : N) (e : Z) : N * Z :=
  match fuel with
  | O => (d, e)
  | S fuel => if (d mod 10 =? 0)%N then strip_zeros fuel (d / 10) (e + 1) else (d, e)
  end.

Definition zeros (n : Z) : ustr := repeat 48%N (Z.to_nat n).

Definition pad2 (n : N) : ustr := if (n <? 10)%N then 48%N :: str_of_N n else str_of_N n.

(** The layout of [repr]: positional for [-4 < point <= 16], else exponent. *)
Definition layout (ds : ustr) (point : Z) : ustr :=
  let len := Z.of_nat (length ds) in
  if (point <=? -4) || (16 <? point) then
    let x := point - 1 in
    let mant := match ds with
                | d :: (_ :: _) => d :: 46%N :: tail ds
                | _ => ds
                end in
    mant ++ [101%N] ++ (if x <? 0 then [45%N] else [43%N]) ++ pad2 (Z.to_N (Z.abs x))
  else if point <=? 0 then u "0." ++ zeros (- point) ++ ds
  else if len <=? point then ds ++ zeros (point - len) ++ u ".0"
  else take (Z.to_nat point) ds ++ [46%N] ++ drop (Z.to_nat point) ds.

(** [float.__repr__] of a finite float ([str] is the same). *)
Definition float_repr (f : pyfloat) : ustr :=
  match f with
  | S754_zero s => if s then u "-0.0" else u "0.0"
  | S754_infinity s => if s then u "-inf" else u "inf"
  | S754_nan => u "nan"
  | S754_finite s m e =>
      let '(num, den) := if 0 <=? e then (Npos m * 2 ^ Z.to_N e, 1)%N
                         else (Npos m, 2 ^ Z.to_N (- e))%N in
      let '(d, e10) := shortest f s num den 1 16 in
      let '(d, e10) := strip_zeros 17 d e10 in
      let ds := str_of_N d in
      (if s then [45%N] else []) ++ layout ds (Z.of_nat (length ds) + e10)
  end.
