(* ===== verification/Dict.v ===== *)
(** Python [dict]s with string keys: insertion-ordered association lists with
    distinct keys. Assigning to a present key keeps its position. *)

From S2P Require Import Prelude PyStr.

Section dict.
Context {V : Type}.

Abbreviation dict := (list (ustr * V)).

(** [d.get(k)]. *)
Fixpoint dget (k : ustr) (d : dict) : option V :=
  match d with
  | [] => None
  | (k', v) :: d' => if decide (k = k') then Some v else dget k d'
  end.

(** [d[k] = v]. *)
Fixpoint dset (k : ustr) (v : V) (d : dict) : dict :=
  match d with
  | [] => [(k, v)]
  | (k', v') :: d' => if decide (k = k') then (k', v) :: d' else (k', v') :: dset k v d'
  end.

Definition dkeys (d : dict) : list ustr := d.*1.

(** [k in d]. *)
Definition dmem (k : ustr) (d : dict) : bool := bool_decide (k ∈ dkeys d).

(** [d.setdefault(k, v)], for its effect. *)
Definition dsetdefault (k : ustr) (v : V) (d : dict) : dict :=
  if dmem k d then d else dset k v d.

(** [d1 | d2] and [d1.update(d2)]. *)
Definition dmerge (d1 d2 : dict) : dict := fold_left (λ d kv, dset kv.1 kv.2 d) d2 d1.

(** [dict(pairs)], later pairs win. *)
Definition dict_of_pairs (l : list (ustr * V)) : dict := dmerge [] l.

(** [{k: v for k, v in d.items() if p k}]. *)
Definition dfilter (p : ustr → bool) (d : dict) : dict :=
  filter (λ kv, p kv.1 = true) d.

End dict.

Section dict_lemmas.
Context {V : Type}.
Implicit Types (d : list (ustr * V)) (k : ustr) (v : V).

Lemma dget_dset_eq k v d : dget k (dset k v d) = Some v.
Proof. induction d as [|[k' v'] d IH]; simpl; repeat (case_decide; simpl); congruence. Qed.

Lemma dget_dset_ne k k' v d : k ≠ k' → dget k' (dset k v d) = dget k' d.
Proof.
  intros Hne. induction d as [|[k2 v2] d IH]; simpl;
    repeat (case_decide; simpl); congruence.
Qed.

Lemma dkeys_dset k v d : dkeys (dset k v d) = if dmem k d then dkeys d else dkeys d ++ [k].
Proof.
  unfold dmem. induction d as [|[k' v'] d IH]; simpl; [done|].
  destruct (decide (k = k')) as [->|Hne]; simpl.
  - by rewrite bool_decide_true by left.
  - unfold dkeys in *. simpl. rewrite IH.
    rewrite (bool_decide_ext (k ∈ k' :: d.*1) (k ∈ d.*1)) by (rewrite elem_of_cons; naive_solver).
    by case_bool_decide.
Qed.

Lemma dset_NoDup k v d : NoDup (dkeys d) → NoDup (dkeys (dset k v d)).
Proof.
  intros Hd. rewrite dkeys_dset. unfold dmem. case_bool_decide as Hk; [done|].
  apply NoDup_app; split_and!; [done| |apply NoDup_singleton]. set_solver.
Qed.

Lemma dmerge_NoDup d1 d2 : NoDup (dkeys d1) → NoDup (dkeys (dmerge d1 d2)).
Proof.
  unfold dmerge. revert d1. induction d2 as [|[k v] d2 IH]; intros d1 H1; simpl; [done|].
  by apply IH, dset_NoDup.
Qed.

Lemma dict_of_pairs_NoDup d : NoDup (dkeys (dict_of_pairs d)).
Proof. apply dmerge_NoDup. constructor. Qed.

Lemma dset_fresh k v d : k ∉ dkeys d → dset k v d = d ++ [(k, v)].
Proof.
  induction d as [|[k' v'] d IH]; simpl; [done|]. unfold dkeys in *. simpl.
  intros [? ?]%not_elem_of_cons. rewrite decide_False by done. by rewrite IH.
Qed.

(** Merging distinct new keys appends them in order. *)
Lemma dmerge_fresh d1 d2 : NoDup (dkeys (d1 ++ d2)) → dmerge d1 d2 = d1 ++ d2.
Proof.
  revert d1; induction d2 as [|[k v] d2 IH]; intros d1; simpl; [by rewrite app_nil_r|].
  intros Hd. unfold dmerge in *. simpl. rewrite dset_fresh.
  - rewrite IH; by rewrite <- (assoc_L (++)).
  - unfold dkeys in *. rewrite fmap_app, fmap_cons in Hd. simpl in Hd.
    apply NoDup_app in Hd as (_ & Hd & _). intros ?. eapply Hd; [done|left].
Qed.

Lemma dict_of_pairs_id d : NoDup (dkeys d) → dict_of_pairs d = d.
Proof. intros. by apply dmerge_fresh. Qed.

Lemma dget_Some_elem k v d : dget k d = Some v → (k, v) ∈ d.
Proof.
  induction d as [|[k' v'] d IH]; simpl; [done|].
  case_decide; intros; simplify_eq; [left|right; auto].
Qed.

Lemma dget_None k d : dget k d = None ↔ k ∉ dkeys d.
Proof.
  unfold dkeys. induction d as [|[k' v'] d IH]; simpl; [set_solver|].
  rewrite not_elem_of_cons. case_decide; naive_solver.
Qed.

Lemma elem_dget k v d : NoDup (dkeys d) → (k, v) ∈ d → dget k d = Some v.
Proof.
  unfold dkeys. induction d as [|[k' v'] d IH]; simpl; [set_solver|].
  rewrite NoDup_cons. intros [Hk Hd] [[= -> ->]|Hin]%elem_of_cons.
  - by rewrite decide_True.
  - rewrite decide_False; [auto|]. intros ->. apply Hk.
    apply list_elem_of_fmap. by exists (k', v).
Qed.

Lemma dmem_spec k d : dmem k d = true ↔ is_Some (dget k d).
Proof.
  unfold dmem. rewrite bool_decide_eq_true, <- not_eq_None_Some, dget_None.
  split; [auto|]. apply dec_stable.
Qed.

Lemma dmerge_get d1 d2 k :
  NoDup (dkeys d2) → dget k (dmerge d1 d2) = match dget k d2 with Some v => Some v | None => dget k d1 end.
Proof.
  unfold dmerge. revert d1; induction d2 as [|[k' v'] d2 IH]; intros d1; simpl; [done|].
  unfold dkeys in *. simpl. rewrite NoDup_cons. intros [Hk Hd]. rewrite IH by done.
  case_decide as E.
  - subst. apply dget_None in Hk. rewrite Hk. apply dget_dset_eq.
  - destruct (dget k d2); [done|]. by apply dget_dset_ne.
Qed.

Lemma dget_dfilter p k d : dget k (dfilter p d) = if p k then dget k d else None.
Proof.
  unfold dfilter. induction d as [|[k' v'] d IH]; [by destruct (p k)|].
  rewrite filter_cons. cbn [dget fst]. case_decide as E; cbn [dget].
  - case_decide; subst; [by rewrite E|done].
  - rewrite IH. case_decide; subst; [|done]. by destruct (p k').
Qed.

Lemma dfilter_NoDup p d : NoDup (dkeys d) → NoDup (dkeys (dfilter p d)).
Proof.
  unfold dkeys, dfilter. induction d as [|[k' v'] d IH]; [done|]. simpl.
  rewrite NoDup_cons. intros [Hk Hd]. rewrite filter_cons.
  case_decide; simpl; [|auto]. constructor; [|auto]. intros Hin. apply Hk.
  apply list_elem_of_fmap in Hin as ([k2 v2] & ? & Hin). simplify_eq/=.
  apply list_elem_of_filter in Hin as [_ Hin]. apply list_elem_of_fmap. by exists (k2, v2).
Qed.

End dict_lemmas.

Lemma dkeys_map {V W} (f : V → W) (d : list (ustr * V)) :
  dkeys (map (λ kv, (kv.1, f kv.2)) d) = dkeys d.
Proof. unfold dkeys. induction d as [|[k v] d IH]; simpl; [done|]. by f_equal. Qed.

#[export] Hint Resolve dset_NoDup dmerge_NoDup dict_of_pairs_NoDup dfilter_NoDup : engine.
#[export] Hint Rewrite @dget_dset_eq @dget_dfilter : engine.

(** Lookups do not see the order of distinct keys. *)
Lemma dget_perm {V} (d d' : list (ustr * V)) k :
  NoDup (dkeys d) → d ≡ₚ d' → dget k d = dget k d'.
Proof.
  intros Hn Hp. assert (NoDup (dkeys d')) as Hn' by (unfold dkeys in *; by rewrite <- Hp).
  destruct (dget k d) as [v|] eqn:E.
  - symmetry. apply elem_dget; [done|]. rewrite <- Hp. by apply dget_Some_elem.
  - symmetry. apply dget_None in E. apply dget_None. unfold dkeys in *. by rewrite <- Hp.
Qed.

Lemma dget_map {V W} (f : V → W) (d : list (ustr * V)) k :
  dget k (map (λ kv, (kv.1, f kv.2)) d) = f <$> dget k d.
Proof. induction d as [|[k' v] d IH]; simpl; [done|]. by case_decide. Qed.
