(* ===== verification/Json.v ===== *)
(** JSON values and the codec of Python's [json] module: [dumps] with
    [ensure_ascii], separators and [sort_keys]; [loads] with its errors. *)

From Corelib Require Import SpecFloat.
From S2P Require Import Prelude PyStr PyFloat Dict.

Local Open Scope N_scope.

(** * Values *)

Inductive json :=
| JNull
| JBool (b : bool)
| JInt (z : Z)
| JFloat (f : pyfloat)
| JStr (s : ustr)
| JList (l : list json)
| JObj (o : list (ustr * json)).

Abbreviation jdict := (list (ustr * json)).

(** [x == n] for a decoded value and an int literal [n] other than 0 and 1
    (which also equal the booleans). *)
Definition json_eq_int (x : json) (n : Z) : bool :=
  match x with
  | JInt z => (z =? n)%Z
  | JFloat f => float_eq_Z f n
  | _ => false
  end.

(** [bool(value)]. *)
Definition truthy (j : json) : bool :=
  match j with
  | JNull | JBool false | JInt 0%Z | JFloat (S754_zero _) | JStr [] | JList [] | JObj [] => false
  | _ => true
  end.

(** * Encoding *)

Record json_style := JsonStyle { item_sep : ustr; key_sep : ustr; sort_keys : bool }.

Definition hexdigit (d : N) : N := if d <? 10 then 48 + d else 87 + d.
Definition hex4 (n : N) : ustr :=
  [hexdigit (n / 4096); hexdigit (n / 256 mod 16); hexdigit (n / 16 mod 16); hexdigit (n mod 16)].

(** One code point of a string literal under [ensure_ascii]. *)
Definition escape_char (c : N) : ustr :=
  if c =? 34 then [92; 34]
  else if c =? 92 then [92; 92]
  else if c =? 10 then [92; 110]
  else if c =? 13 then [92; 114]
  else if c =? 9 then [92; 116]
  else if c =? 12 then [92; 102]
  else if c =? 8 then [92; 98]
  else if (32 <=? c) && (c <=? 126) then [c]
  else if c <? 65536 then [92; 117] ++ hex4 c
  else let v := c - 65536 in
       [92; 117] ++ hex4 (55296 + v / 1024) ++ [92; 117] ++ hex4 (56320 + v mod 1024).

Definition escape (s : ustr) : ustr := concat (escape_char <$> s).
Definition quote (s : ustr) : ustr := 34 :: escape s ++ [34].

Definition json_float (f : pyfloat) : ustr :=
  match f with
  | S754_nan => u "NaN"
  | S754_infinity s => if s then u "-Infinity" else u "Infinity"
  | _ => float_repr f
  end.

Definition key_leb {V} (a b : ustr * V) : bool := ustr_leb a.1 b.1.

Fixpoint dumps (sty : json_style) (j : json) : ustr :=
  match j with
  | JNull => u "null"
  | JBool b => if b then u "true" else u "false"
  | JInt z => str_of_Z z
  | JFloat f => json_float f
  | JStr s => quote s
  | JList l => [91] ++ join (item_sep sty) (map (dumps sty) l) ++ [93]
  | JObj o =>
      let o' := map (λ kv, (kv.1, dumps sty kv.2)) o in
      let o'' := if sort_keys sty then sort_by key_leb o' else o' in
      [123] ++ join (item_sep sty) (map (λ kt, quote kt.1 ++ key_sep sty ++ kt.2) o'') ++ [125]
  end.

(** [json.dumps(x, separators=(",", ":"), sort_keys=...)] and the default separators. *)
Definition compact (sorted : bool) : json_style := JsonStyle [44] [58] sorted.
Definition spaced (sorted : bool) : json_style := JsonStyle [44; 32] [58; 32] sorted.

(** * Decoding *)

Definition decode_error : exn := PyExn JSONDecodeError (u "Expecting value").

(** CPython refuses to convert a numeral of more than 4300 digits: a plain
    [ValueError], not a [JSONDecodeError]. *)
Definition MAX_STR_DIGITS : nat := 4300.
Definition digits_error : exn :=
  PyExn ValueError (u "Exceeds the limit (4300 digits) for integer string conversion").

Definition is_ws (c : N) : bool := (c =? 32) || (c =? 9) || (c =? 10) || (c =? 13).
Definition skip_ws : ustr → ustr := lstrip is_ws.

Definition hexval (c : N) : option N :=
  if is_digit c then Some (c - 48)
  else if (97 <=? c) && (c <=? 102) then Some (c - 87)
  else if (65 <=? c) && (c <=? 70) then Some (c - 55)
  else None.

Definition unhex4 (a b c d : N) : option N :=
  match hexval a, hexval b, hexval c, hexval d with
  | Some a, Some b, Some c, Some d => Some (((a * 16 + b) * 16 + c) * 16 + d)
  | _, _, _, _ => None
  end.

Definition is_high (c : N) : bool := (55296 <=? c) && (c <=? 56319).
Definition is_low (c : N) : bool := (56320 <=? c) && (c <=? 57343).

(** A [\uXXXX] escape of a low surrogate at the head of the text. *)
Definition low_escape (s : ustr) : option (N * ustr) :=
  match s with
  | b :: u' :: a1 :: a2 :: a3 :: a4 :: r =>
      if (b =? 92) && (u' =? 117) then
        match unhex4 a1 a2 a3 a4 with
        | Some l => if is_low l then Some (l, r) else None
        | None => None
        end
      else None
  | _ => None
  end.

Definition simple_escape (e : N) : option N :=
  if e =? 34 then Some 34 else if e =? 92 then Some 92 else if e =? 47 then Some 47
  else if e =? 98 then Some 8 else if e =? 102 then Some 12 else if e =? 110 then Some 10
  else if e =? 114 then Some 13 else if e =? 116 then Some 9 else None.

(** The body of a string literal up to its closing quote ([strict=True]). *)
Fixpoint scan_string (fuel : nat) (s : ustr) : result (ustr * ustr) :=
  match fuel, s with
  | S fuel, c :: s1 =>
      if c =? 34 then Ok ([], s1)
      else if c =? 92 then
        match s1 with
        | e :: s2 =>
            if e =? 117 then
              match s2 with
              | a1 :: a2 :: a3 :: a4 :: s3 =>
                  match unhex4 a1 a2 a3 a4 with
                  | Some v =>
                      match (if is_high v then low_escape s3 else None) with
                      | Some (l, s4) =>
                          '(t, r) ← scan_string fuel s4;
                          Ok (65536 + (v - 55296) * 1024 + (l - 56320) :: t, r)
                      | None => '(t, r) ← scan_string fuel s3; Ok (v :: t, r)
                      end
                  | None => Err decode_error
                  end
              | _ => Err decode_error
              end
            else match simple_escape e with
                 | Some v => '(t, r) ← scan_string fuel s2; Ok (v :: t, r)
                 | None => Err decode_error
                 end
        | [] => Err decode_error
        end
      else if c <? 32 then Err decode_error
      else '(t, r) ← scan_string fuel s1; Ok (c :: t, r)
  | _, _ => Err decode_error
  end.

Fixpoint take_digits (s : ustr) : ustr * ustr :=
  match s with
  | c :: s' => if is_digit c then let '(d, r) := take_digits s' in (c :: d, r) else ([], s)
  | [] => ([], [])
  end.

(** The optional fraction and exponent of a number; [None] when absent. *)
Definition scan_frac (s : ustr) : option ustr * ustr :=
  match s with
  | p :: s' =>
      if p =? 46 then
        match take_digits s' with
        | ([], _) => (None, s)
        | (d, r) => (Some d, r)
        end
      else (None, s)
  | [] => (None, s)
  end.

Definition scan_exp_sign (s : ustr) : bool * ustr :=
  match s with
  | c :: r => if c =? 45 then (true, r) else if c =? 43 then (false, r) else (false, s)
  | [] => (false, s)
  end.

Definition scan_exp (s : ustr) : option (bool * ustr) * ustr :=
  match s with
  | e :: s' =>
      if (e =? 101) || (e =? 69) then
        let '(neg, s'') := scan_exp_sign s' in
        match take_digits s'' with
        | ([], _) => (None, s)
        | (d, r) => (Some (neg, d), r)
        end
      else (None, s)
  | [] => (None, s)
  end.

Definition scan_int (s : ustr) : option (ustr * ustr) :=
  match s with
  | c :: s' => if c =? 48 then Some ([48], s')
               else if is_digit c then Some (take_digits s) else None
  | [] => None
  end.

Definition number_value (neg : bool) (int : ustr) (frac : option ustr)
    (exp : option (bool * ustr)) : result json :=
  match frac, exp with
  | None, None =>
      if (MAX_STR_DIGITS <? length int)%nat then Err digits_error
      else Ok (JInt (let z := Z.of_N (N_of_digits int) in if neg then (- z)%Z else z))
  | _, _ =>
      let fd := default [] frac in
      let e := match exp with
               | Some (en, ed) => let z := Z.of_N (N_of_digits ed) in if en then (- z)%Z else z
               | None => 0%Z
               end in
      Ok (JFloat (float_of_decimal neg (N_of_digits (int ++ fd)) (e - Z.of_nat (length fd))))
  end.

Definition scan_sign (s : ustr) : bool * ustr :=
  match s with
  | c :: r => if c =? 45 then (true, r) else (false, s)
  | [] => (false, s)
  end.

Definition scan_number (s : ustr) : result (json * ustr) :=
  let '(neg, s1) := scan_sign s in
  match scan_int s1 with
  | None => Err decode_error
  | Some (int, s2) =>
      let '(frac, s3) := scan_frac s2 in
      let '(exp, s4) := scan_exp s3 in
      v ← number_value neg int frac exp; Ok (v, s4)
  end.

(** Fixed words, tried before numbers. *)
Definition words : list (ustr * json) :=
  [(u "null", JNull); (u "true", JBool true); (u "false", JBool false); (u "NaN", JFloat S754_nan);
   (u "Infinity", JFloat (S754_infinity false)); (u "-Infinity", JFloat (S754_infinity true))].

Fixpoint scan_word (ws : list (ustr * json)) (s : ustr) : option (json * ustr) :=
  match ws with
  | [] => None
  | (w, v) :: ws => if startswith s w then Some (v, drop (length w) s) else scan_word ws s
  end.

(** The recursive descent; [fuel] bounds the nesting and the elements read. *)
Fixpoint scan_value (fuel : nat) (s : ustr) : option (result (json * ustr)) :=
  match fuel with
  | O => None
  | S fuel =>
      match s with
      | [] => Some (Err decode_error)
      | c :: s1 =>
          if c =? 34 then Some ('(t, r) ← scan_string (length s1) s1; Ok (JStr t, r))
          else if c =? 123 then
            match skip_ws s1 with
            | (d :: s2) as s1' =>
                if d =? 125 then Some (Ok (JObj [], s2))
                else r ← scan_members fuel s1';
                     Some ('(o, r) ← r; Ok (JObj (dict_of_pairs o), r))
            | [] => Some (Err decode_error)
            end
          else if c =? 91 then
            match skip_ws s1 with
            | (d :: s2) as s1' =>
                if d =? 93 then Some (Ok (JList [], s2))
                else r ← scan_elems fuel s1'; Some ('(l, r) ← r; Ok (JList l, r))
            | [] => Some (Err decode_error)
            end
          else match scan_word words s with
               | Some vr => Some (Ok vr)
               | None => Some (scan_number s)
               end
      end
  end
with scan_elems (fuel : nat) (s : ustr) : option (result (list json * ustr)) :=
  match fuel with
  | O => None
  | S fuel =>
      r ← scan_value fuel s;
      match r with
      | Err e => Some (Err e)
      | Ok (v, s1) =>
          match skip_ws s1 with
          | d :: s2 =>
              if d =? 44 then
                r ← scan_elems fuel (skip_ws s2); Some ('(l, r) ← r; Ok (v :: l, r))
              else if d =? 93 then Some (Ok ([v], s2))
              else Some (Err decode_error)
          | [] => Some (Err decode_error)
          end
      end
  end
with scan_members (fuel : nat) (s : ustr) : option (result (jdict * ustr)) :=
  match fuel with
  | O => None
  | S fuel =>
      match s with
      | q :: s0 =>
          if q =? 34 then
            match scan_string (length s0) s0 with
            | Err e => Some (Err e)
            | Ok (k, s1) =>
                match skip_ws s1 with
                | col :: s2 =>
                    if col =? 58 then
                      r ← scan_value fuel (skip_ws s2);
                      match r with
                      | Err e => Some (Err e)
                      | Ok (v, s3) =>
                          match skip_ws s3 with
                          | d :: s4 =>
                              if d =? 44 then
                                r ← scan_members fuel (skip_ws s4);
                                Some ('(l, r) ← r; Ok ((k, v) :: l, r))
                              else if d =? 125 then Some (Ok ([(k, v)], s4))
                              else Some (Err decode_error)
                          | [] => Some (Err decode_error)
                          end
                      end
                    else Some (Err decode_error)
                | [] => Some (Err decode_error)
                end
            end
          else Some (Err decode_error)
      | [] => Some (Err decode_error)
      end
  end.

(** [json.loads(text)]: one value, surrounded by whitespace; a leading BOM is refused. *)
Definition loads (s : ustr) : result json :=
  if startswith s [65279] then Err decode_error else
  match scan_value (2 * length s + 1) (skip_ws s) with
  | None => Err decode_error
  | Some (Err e) => Err e
  | Some (Ok (v, r)) => match skip_ws r with
                        | [] => Ok v
                        | _ :: _ => Err decode_error
                        end
  end.

(** * What the codec preserves *)

(** Code points in range, and no high surrogate directly before a low one (the
    decoder joins such a pair into one code point). *)
Fixpoint str_ok (s : ustr) : bool :=
  match s with
  | [] => true
  | c :: s' => valid_cp c && str_ok s' &&
               negb (is_high c && match s' with d :: _ => is_low d | [] => false end)
  end.

(** The printed float reads back as the same float. *)
Definition float_ok (f : pyfloat) : bool :=
  match f with
  | S754_nan | S754_infinity _ => true
  | _ => match scan_number (float_repr f) with
         | Ok (JFloat g, []) => bool_decide (g = f)
         | _ => false
         end
  end.

Definition int_ok (z : Z) : bool := (length (str_of_N (Z.abs_N z)) <=? MAX_STR_DIGITS)%nat.

(** Values the round trip preserves; keys of an object are distinct, as in a dict. *)
Fixpoint json_ok (j : json) : bool :=
  match j with
  | JNull | JBool _ => true
  | JInt z => int_ok z
  | JFloat f => float_ok f
  | JStr s => str_ok s
  | JList l => forallb json_ok l
  | JObj o => bool_decide (NoDup (dkeys o)) && forallb (λ kv, str_ok kv.1 && json_ok kv.2) o
  end.

(** The value [loads] returns for the text of [dumps]: keys in printed order. *)
Fixpoint json_norm (sorted : bool) (j : json) : json :=
  match j with
  | JList l => JList (map (json_norm sorted) l)
  | JObj o => let o' := map (λ kv, (kv.1, json_norm sorted kv.2)) o in
              JObj (if sorted then sort_by key_leb o' else o')
  | _ => j
  end.

Definition style_ok (sty : json_style) : Prop :=
  ∃ w1 w2, item_sep sty = 44 :: w1 ∧ key_sep sty = 58 :: w2 ∧
           Forall (λ c, is_ws c = true) w1 ∧ Forall (λ c, is_ws c = true) w2.

(** Induction through the nested lists. *)
Section json_induction.
Context (P : json → Prop).
Hypotheses (HNull : P JNull) (HBool : ∀ b, P (JBool b)) (HInt : ∀ z, P (JInt z))
  (HFloat : ∀ f, P (JFloat f)) (HStr : ∀ s, P (JStr s))
  (HList : ∀ l, Forall P l → P (JList l))
  (HObj : ∀ o, Forall (λ kv, P kv.2) o → P (JObj o)).

Fixpoint json_nested_ind (j : json) : P j :=
  match j with
  | JNull => HNull | JBool b => HBool b | JInt z => HInt z | JFloat f => HFloat f
  | JStr s => HStr s
  | JList l => HList l ((fix go l : Forall P l :=
      match l with
      | [] => List.Forall_nil P
      | x :: l => List.Forall_cons P x l (json_nested_ind x) (go l)
      end) l)
  | JObj o => HObj o ((fix go o : Forall (λ kv : ustr * json, P kv.2) o :=
      match o with
      | [] => List.Forall_nil _
      | kv :: o => List.Forall_cons _ kv o (json_nested_ind kv.2) (go o)
      end) o)
  end.
End json_induction.

(** * Lemmas: string literals *)

#[local] Ltac Zify.zify_post_hook ::= Z.to_euclidean_division_equations.

Lemma hexval_hexdigit d : d < 16 → hexval (hexdigit d) = Some d.
Proof. unfold hexval, hexdigit, is_digit. intros. repeat case_match; f_equal; lia. Qed.

Lemma unhex4_hex4 n :
  n < 65536 →
  unhex4 (hexdigit (n / 4096)) (hexdigit (n / 256 mod 16)) (hexdigit (n / 16 mod 16))
         (hexdigit (n mod 16)) = Some n.
Proof. intros. unfold unhex4. rewrite !hexval_hexdigit by lia. f_equal. lia. Qed.

Lemma low_escape_escape c s rest :
  str_ok (c :: s) = true → is_high c = true → low_escape (escape s ++ 34 :: rest) = None.
Proof.
  cbn [str_ok]. intros [[_ Hs]%andb_true_iff Hc]%andb_true_iff Hh. rewrite Hh in Hc.
  destruct s as [|d s]; simpl in Hc.
  { unfold low_escape, escape; simpl. repeat case_match; simplify_eq; try done; lia. }
  assert (Hd : valid_cp d = true)
    by (cbn [str_ok] in Hs; by apply andb_true_iff in Hs as [[? _]%andb_true_iff _]).
  assert (Hl : is_low d = false) by (destruct (is_low d); simpl in Hc; congruence).
  unfold escape. cbn [fmap list_fmap concat]. rewrite <- (assoc_L (++)).
  unfold escape_char, hex4, valid_cp in *.
  repeat match goal with |- context [if ?b then _ else _] => destruct b eqn:? end;
    cbn [app]; unfold low_escape.
  all: try (destruct (_ ++ _) as [|? [|? [|? [|? [|? ?]]]]]; reflexivity).
  - repeat case_match; simplify_eq; try done; lia.
  - cbn [N.eqb Pos.eqb andb]. rewrite unhex4_hex4 by lia. by rewrite Hl.
  - cbn [N.eqb Pos.eqb andb]. rewrite unhex4_hex4 by lia.
    unfold is_low. by rewrite andb_false_intro1 by lia.
Qed.

Lemma escape_char_length c : (1 <= length (escape_char c))%nat.
Proof. unfold escape_char, hex4. repeat case_match; simpl; lia. Qed.

Lemma escape_cons c s : escape (c :: s) = escape_char c ++ escape s.
Proof. done. Qed.

Lemma escape_length s : (length s <= length (escape s))%nat.
Proof.
  induction s as [|c s IH]; [simpl; lia|]. rewrite escape_cons, length_app.
  pose proof (escape_char_length c). simpl. lia.
Qed.

(** One escaped code point is read back, unless it is a high surrogate
    followed by an escaped low one. *)
Lemma scan_escape_char fuel c t :
  valid_cp c = true → (is_high c = true → low_escape t = None) →
  scan_string (S fuel) (escape_char c ++ t) =
    ('(x, r) ← scan_string fuel t; Ok (c :: x, r)).
Proof.
  unfold valid_cp. intros Hc Hl. unfold escape_char, hex4.
  repeat match goal with |- context [if ?b then _ else _] =>
    lazymatch b with context [c] => destruct b eqn:? end end;
    try (assert (c = 34) as -> by lia; done); try (assert (c = 92) as -> by lia; done);
    try (assert (c = 10) as -> by lia; done); try (assert (c = 13) as -> by lia; done);
    try (assert (c = 9) as -> by lia; done); try (assert (c = 12) as -> by lia; done);
    try (assert (c = 8) as -> by lia; done).
  - cbn [scan_string app].
    rewrite (proj2 (N.eqb_neq c 34)), (proj2 (N.eqb_neq c 92)), (proj2 (N.ltb_ge c 32)) by lia.
    done.
  - cbn [scan_string app N.eqb Pos.eqb]. rewrite unhex4_hex4 by lia.
    destruct (is_high c) eqn:Hh; [|done]. by rewrite Hl.
  - cbn [scan_string app N.eqb Pos.eqb low_escape andb]. rewrite !unhex4_hex4 by lia.
    assert (is_high (55296 + (c - 65536) / 1024) = true) as -> by (unfold is_high; lia).
    assert (is_low (56320 + (c - 65536) mod 1024) = true) as -> by (unfold is_low; lia).
    replace (65536 + (55296 + (c - 65536) / 1024 - 55296) * 1024
             + (56320 + (c - 65536) mod 1024 - 56320)) with c by lia. done.
Qed.

(** A quoted string literal is read back. *)
Lemma scan_string_escape fuel s rest :
  str_ok s = true → (length s < fuel)%nat →
  scan_string fuel (escape s ++ 34 :: rest) = Ok (s, rest).
Proof.
  revert fuel; induction s as [|c s IH]; intros fuel Hs Hf; (destruct fuel as [|fuel]; [simpl in Hf; lia|]).
  { done. }
  assert (valid_cp c = true ∧ str_ok s = true) as [Hc Hs'].
  { cbn [str_ok] in Hs. by apply andb_true_iff in Hs as [[? ?]%andb_true_iff _]. }
  rewrite escape_cons, <- (assoc_L (++)).
  rewrite scan_escape_char; [|done|].
  - rewrite IH; [done|done|]. simpl in Hf. lia.
  - intros Hh. by apply (low_escape_escape c).
Qed.

(** * Lemmas: numbers *)

(** Text after which a number is complete. *)
Definition num_stop (rest : ustr) : Prop :=
  match rest with
  | [] => True
  | c :: _ => is_digit c = false ∧ c ≠ 46 ∧ c ≠ 101 ∧ c ≠ 69
  end.

Lemma take_digits_app d rest :
  Forall (λ c, is_digit c = true) d → num_stop rest → take_digits (d ++ rest) = (d, rest).
Proof.
  intros Hd Hr. induction Hd as [|c d Hc _ IH]; simpl.
  - destruct rest as [|c rest]; simpl; [done|]. destruct Hr as [-> _]. done.
  - by rewrite Hc, IH.
Qed.

Lemma take_digits_ext s d r rest :
  take_digits s = (d, r) → num_stop rest →
  take_digits (s ++ rest) = (d, r ++ rest).
Proof.
  intros H Hr. revert d r H; induction s as [|c s IH]; simpl; intros d r H; simplify_eq/=.
  - destruct rest as [|c rest]; simpl; [done|]. destruct Hr as [-> _]. done.
  - destruct (is_digit c) eqn:Hc; simplify_eq; [|done].
    destruct (take_digits s) as [d' r']; simplify_eq. by rewrite (IH d' r).
Qed.

Lemma scan_frac_ext s o r rest :
  scan_frac s = (o, r) → num_stop rest → scan_frac (s ++ rest) = (o, r ++ rest).
Proof.
  intros H Hr. destruct s as [|p s]; simpl in H; simplify_eq; simpl.
  - destruct rest as [|c rest]; simpl; [done|]. destruct Hr as (_ & ? & _).
    by rewrite (proj2 (N.eqb_neq c 46)) by done.
  - destruct (p =? 46); simplify_eq; [|done].
    destruct (take_digits s) as [d r'] eqn:E. rewrite (take_digits_ext _ _ _ _ E Hr).
    by destruct d; simplify_eq.
Qed.

Lemma scan_exp_ext s o r rest :
  scan_exp s = (o, r) → num_stop rest → r = [] → scan_exp (s ++ rest) = (o, r ++ rest).
Proof.
  intros H Hr ->. destruct s as [|p s]; simpl in H; simplify_eq; simpl.
  - destruct rest as [|c rest]; simpl; [done|]. destruct Hr as (_ & _ & ? & ?).
    by rewrite (proj2 (N.eqb_neq c 101)), (proj2 (N.eqb_neq c 69)) by done.
  - destruct ((p =? 101) || (p =? 69)); simplify_eq.
    destruct (scan_exp_sign s) as [neg s2] eqn:Es.
    destruct (take_digits s2) as [d r'] eqn:E. destruct d as [|d0 d]; simplify_eq.
    assert (scan_exp_sign (s ++ rest) = (neg, s2 ++ rest)) as ->.
    { unfold scan_exp_sign in *. destruct s as [|c s]; simplify_eq/=.
      destruct (c =? 45); simplify_eq; [done|]. destruct (c =? 43); by simplify_eq. }
    by rewrite (take_digits_ext _ _ _ _ E Hr).
Qed.

Lemma scan_int_ext s d r rest :
  scan_int s = Some (d, r) → num_stop rest → scan_int (s ++ rest) = Some (d, r ++ rest).
Proof.
  intros H Hr. destruct s as [|c s]; [done|].
  change ((c :: s) ++ rest) with (c :: s ++ rest). unfold scan_int in *.
  destruct (c =? 48); simplify_eq; [done|].
  destruct (is_digit c) eqn:Hc; [|done].
  destruct (take_digits (c :: s)) as [d' r'] eqn:E. simplify_eq.
  change (c :: s ++ rest) with ((c :: s) ++ rest). by rewrite (take_digits_ext _ _ _ _ E Hr).
Qed.

(** A number read to the end of its text is read the same before [rest]. *)
Lemma scan_number_ext s v rest :
  scan_number s = Ok (v, []) → num_stop rest → scan_number (s ++ rest) = Ok (v, rest).
Proof.
  unfold scan_number. intros H Hr.
  destruct (scan_sign s) as [neg s1] eqn:Es.
  destruct (scan_int s1) as [[d s2]|] eqn:Ei; [|done].
  assert (scan_sign (s ++ rest) = (neg, s1 ++ rest)) as ->.
  { unfold scan_sign in *. destruct s as [|c s]; simplify_eq/=.
    destruct (c =? 45); by simplify_eq. }
  rewrite (scan_int_ext _ _ _ _ Ei Hr).
  destruct (scan_frac s2) as [frac s3] eqn:Ef. rewrite (scan_frac_ext _ _ _ _ Ef Hr).
  destruct (scan_exp s3) as [ex s4] eqn:Ee.
  apply result_bind_Ok_inv in H as (v' & Ev & H). simplify_eq.
  rewrite (scan_exp_ext _ _ _ _ Ee Hr eq_refl). munfold. by rewrite Ev.
Qed.

Lemma str_of_Z_cases z :
  str_of_Z z = (if (z <? 0)%Z then 45 :: str_of_N (Z.abs_N z) else str_of_N (Z.abs_N z)).
Proof. destruct z; done. Qed.

Lemma scan_int_digits d :
  Forall (λ c, is_digit c = true) d → (d = [48] ∨ ∃ c r, d = c :: r ∧ 49 <= c) →
  scan_int d = Some (d, []).
Proof.
  intros Hd [->|(c & r & -> & Hc)]; [done|]. unfold scan_int.
  rewrite (proj2 (N.eqb_neq c 48)) by lia. inversion Hd as [|? ? Hc' Hr]; simplify_eq.
  rewrite Hc'. rewrite <- (app_nil_r (c :: r)) at 1. by rewrite take_digits_app.
Qed.

Lemma scan_int_str_of_N n : scan_int (str_of_N n) = Some (str_of_N n, []).
Proof.
  apply scan_int_digits; [apply str_of_N_digits|].
  destruct (str_of_N_head n) as [[-> ->]|(d & r & -> & ?)]; [by left|].
  right. exists d, r. split; [done|lia].
Qed.

Lemma number_value_int neg n :
  (length (str_of_N n) <=? MAX_STR_DIGITS)%nat = true →
  number_value neg (str_of_N n) None None =
    Ok (JInt (if neg then - Z.of_N n else Z.of_N n)).
Proof.
  intros H. unfold number_value. rewrite N_of_str_of_N. case_match eqn:E; [lia|]. by destruct neg.
Qed.

Lemma scan_number_int z rest :
  int_ok z = true → num_stop rest → scan_number (str_of_Z z ++ rest) = Ok (JInt z, rest).
Proof.
  unfold int_ok. intros Hz Hr. apply scan_number_ext; [|done].
  rewrite str_of_Z_cases. unfold scan_number.
  destruct (z <? 0)%Z eqn:Hneg.
  - cbn [scan_sign N.eqb Pos.eqb]. rewrite scan_int_str_of_N. cbn [scan_frac scan_exp].
    rewrite number_value_int by done. munfold. do 3 f_equal. lia.
  - assert (scan_sign (str_of_N (Z.abs_N z)) = (false, str_of_N (Z.abs_N z))) as ->.
    { destruct (str_of_N_head (Z.abs_N z)) as [[_ ->]|(d & r & -> & ?)]; [done|].
      unfold scan_sign. by rewrite (proj2 (N.eqb_neq d 45)) by lia. }
    rewrite scan_int_str_of_N. cbn [scan_frac scan_exp].
    rewrite number_value_int by done. munfold. do 3 f_equal. lia.
Qed.

(** A number starts with a sign or a digit, so no fixed word matches it. *)
Lemma scan_number_head s v r :
  scan_number s = Ok (v, r) → ∃ c s', s = c :: s' ∧ (is_digit c = true ∨ c = 45 ∧
    ∃ d s'', s' = d :: s'' ∧ is_digit d = true).
Proof.
  unfold scan_number, scan_sign. intros H. destruct s as [|c s]; [done|].
  exists c, s. split; [done|]. destruct (c =? 45) eqn:Ec.
  - right. split; [lia|]. destruct s as [|d s]; [done|]. exists d, s. split; [done|].
    unfold scan_int in H. destruct (d =? 48) eqn:?; [unfold is_digit; lia|].
    by destruct (is_digit d).
  - left. unfold scan_int in H. destruct (c =? 48) eqn:?; [unfold is_digit; lia|].
    by destruct (is_digit c).
Qed.

Lemma scan_word_number s v r : scan_number s = Ok (v, r) → scan_word words s = None.
Proof.
  intros (c & s' & -> & Hc)%scan_number_head. unfold is_digit in Hc.
  let w := eval vm_compute in words in change words with w. cbn [scan_word startswith].
  destruct Hc as [Hc|[-> (d & s'' & -> & Hd)]].
  - repeat match goal with |- context [?n =? c] => rewrite (proj2 (N.eqb_neq n c)) by lia end. done.
  - cbn [startswith]. rewrite (proj2 (N.eqb_neq 73 d)) by lia. done.
Qed.

Lemma scan_value_number fuel s v r :
  scan_number s = Ok (v, r) → scan_value (S fuel) s = Some (Ok (v, r)).
Proof.
  intros H. pose proof (scan_number_head _ _ _ H) as (c & s' & -> & Hc). cbn [scan_value].
  assert (c ≠ 34 ∧ c ≠ 123 ∧ c ≠ 91) as (? & ? & ?) by (unfold is_digit in Hc; naive_solver lia).
  rewrite (proj2 (N.eqb_neq c 34)), (proj2 (N.eqb_neq c 123)), (proj2 (N.eqb_neq c 91)) by done.
  by rewrite (scan_word_number _ _ _ H), H.
Qed.

Lemma scan_value_float fuel f rest :
  float_ok f = true → num_stop rest →
  scan_value (S fuel) (json_float f ++ rest) = Some (Ok (JFloat f, rest)).
Proof.
  intros Hf Hr. destruct f as [s|s| |s m e]; [|by destruct s|done|].
  all: cbn [json_float]; unfold float_ok in Hf; apply scan_value_number, scan_number_ext; [|done].
  all: destruct (scan_number _) as [[[] []]|]; try done.
  all: by apply bool_decide_eq_true in Hf as ->.
Qed.

(** * Lemmas: arrays and objects *)

Lemma skip_ws_app w c t :
  Forall (λ c, is_ws c = true) w → is_ws c = false → skip_ws (w ++ c :: t) = c :: t.
Proof.
  intros Hw Hc. unfold skip_ws. induction Hw as [|d w Hd _ IH]; simpl; [by rewrite Hc|].
  by rewrite Hd.
Qed.

Lemma skip_ws_head c t : is_ws c = false → skip_ws (c :: t) = c :: t.
Proof. apply (skip_ws_app []). constructor. Qed.

Lemma sort_by_map {A B} (leb : A → A → bool) (leb' : B → B → bool) (f : A → B) l :
  (∀ x y, leb' (f x) (f y) = leb x y) → sort_by leb' (map f l) = map f (sort_by leb l).
Proof.
  intros Hf. assert (Hins : ∀ x l, insert_by leb' (f x) (map f l) = map f (insert_by leb x l)).
  { intros x l'. induction l' as [|y l' IH]; simpl; [done|].
    rewrite Hf. destruct (leb x y); simpl; [done|]. by rewrite IH. }
  induction l as [|x l IH]; simpl; [done|]. by rewrite IH.
Qed.

(** The members of an object in printed order. *)
Definition printed {V} (sorted : bool) (o : list (ustr * V)) : list (ustr * V) :=
  if sorted then sort_by key_leb o else o.

Lemma printed_perm {V} sorted (o : list (ustr * V)) : printed sorted o ≡ₚ o.
Proof. destruct sorted; [apply sort_by_perm|done]. Qed.

Definition member_text (sty : json_style) (kv : ustr * json) : ustr :=
  quote kv.1 ++ key_sep sty ++ dumps sty kv.2.

Lemma dumps_obj sty o :
  dumps sty (JObj o) =
    123 :: join (item_sep sty) (map (member_text sty) (printed (sort_keys sty) o)) ++ [125].
Proof.
  cbn [dumps]. unfold printed. destruct (sort_keys sty); cbn [app].
  - rewrite (sort_by_map key_leb) by done. by rewrite map_map.
  - by rewrite map_map.
Qed.

Lemma json_norm_obj sorted o :
  json_norm sorted (JObj o) =
    JObj (map (λ kv, (kv.1, json_norm sorted kv.2)) (printed sorted o)).
Proof.
  cbn [json_norm]. unfold printed. destruct sorted; [|done].
  by rewrite (sort_by_map key_leb) by done.
Qed.

Lemma str_of_Z_head z : ∃ c t, str_of_Z z = c :: t ∧ (is_digit c = true ∨ c = 45).
Proof.
  rewrite str_of_Z_cases. destruct (z <? 0)%Z; [eauto|].
  pose proof (str_of_N_digits (Z.abs_N z)) as Hd.
  destruct (str_of_N_head (Z.abs_N z)) as [[_ E]|(d & r & E & _)]; rewrite E in *.
  - exists 48, []. auto.
  - inversion Hd; simplify_eq. eauto.
Qed.

Lemma json_float_head f :
  float_ok f = true → ∃ c t, json_float f = c :: t ∧ is_ws c = false ∧ c ≠ 93 ∧ c ≠ 125 ∧ c < 128.
Proof.
  intros Hf. destruct f as [s|s| |s m e].
  1,4: cbn [json_float]; unfold float_ok in Hf; destruct (scan_number _) as [[v r]|] eqn:E; [|done];
    apply scan_number_head in E as (c & t & -> & Hc); exists c, t; split; [done|];
    unfold is_ws, is_digit in *; naive_solver lia.
  - destruct s; by eexists _, _.
  - by eexists _, _.
Qed.

(** Every printed value starts with a visible character that closes nothing. *)
Lemma dumps_head sty j :
  json_ok j = true → ∃ c t, dumps sty j = c :: t ∧ is_ws c = false ∧ c ≠ 93 ∧ c ≠ 125 ∧ c < 128.
Proof.
  intros Hj. destruct j as [|b|z|f|s|l|o]; cbn [dumps app].
  1,5,6,7: by eexists _, _.
  - destruct b; by eexists _, _.
  - destruct (str_of_Z_head z) as (c & t & -> & Hc). exists c, t. split; [done|].
    unfold is_ws, is_digit in *. naive_solver lia.
  - by apply json_float_head.
Qed.

(** Printed values start with a non-space character. *)
Lemma skip_ws_dumps sty j w rest :
  json_ok j = true → Forall (λ c, is_ws c = true) w →
  skip_ws (w ++ dumps sty j ++ rest) = dumps sty j ++ rest.
Proof.
  intros Hj Hw. destruct (dumps_head sty j Hj) as (c & t & -> & Hc & _).
  by apply skip_ws_app.
Qed.

Lemma num_stop_close c rest :
  c = 44 ∨ c = 93 ∨ c = 125 ∨ c = 58 → num_stop (c :: rest).
Proof. unfold num_stop, is_digit. intros. lia. Qed.

Section roundtrip.
Context (sty : json_style) (w1 w2 : ustr).
Context (Hitem : item_sep sty = 44 :: w1) (Hkey : key_sep sty = 58 :: w2).
Context (Hw1 : Forall (λ c, is_ws c = true) w1) (Hw2 : Forall (λ c, is_ws c = true) w2).

(** [scan_value] reads back the text of [j] with fuel for its length. *)
Definition reads_back (j : json) : Prop := ∀ fuel rest,
  json_ok j = true → num_stop rest → (length (dumps sty j) <= fuel)%nat →
  scan_value fuel (dumps sty j ++ rest) = Some (Ok (json_norm (sort_keys sty) j, rest)).

Lemma scan_elems_join l fuel rest :
  l ≠ [] → Forall reads_back l → forallb json_ok l = true →
  (length (join (item_sep sty) (map (dumps sty) l)) + 1 <= fuel)%nat →
  scan_elems fuel (join (item_sep sty) (map (dumps sty) l) ++ 93 :: rest)
    = Some (Ok (map (json_norm (sort_keys sty)) l, rest)).
Proof.
  intros Hne Hl. revert fuel Hne. induction Hl as [|j l Hj Hl IH]; intros fuel Hne Hok Hf; [done|].
  cbn [forallb] in Hok. apply andb_true_iff in Hok as [Hokj Hok].
  destruct fuel as [|fuel]; [lia|]. cbn [scan_elems]. destruct l as [|j' l].
  - cbn [map join]. cbn [map join] in Hf. munfold.
    rewrite Hj; [|done|apply num_stop_close; lia|lia].
    rewrite skip_ws_head by done. done.
  - rewrite (map_cons _ j), join_app_cons in * by done. rewrite Hitem in *.
    rewrite <- !(assoc_L (++)). cbn [app] in *. rewrite !length_app in Hf; cbn [length] in Hf.
    munfold. rewrite Hj; [|done|apply num_stop_close; lia|lia]. cbn beta iota.
    rewrite skip_ws_head by done. cbn [N.eqb Pos.eqb].
    assert (Hokj' : json_ok j' = true) by (cbn [forallb] in Hok; by apply andb_true_iff in Hok as [? _]).
    assert (skip_ws (w1 ++ join (44 :: w1) (map (dumps sty) (j' :: l)) ++ 93 :: rest) =
            join (44 :: w1) (map (dumps sty) (j' :: l)) ++ 93 :: rest) as ->.
    { cbn [map]. destruct l as [|j'' l]; cbn [map].
      - by apply skip_ws_dumps.
      - rewrite join_app_cons, <- (assoc_L (++)) by done. by apply skip_ws_dumps. }
    rewrite IH; [done|done|done|]. rewrite length_app in Hf. lia.
Qed.

Lemma join_members_head sep kv o more :
  ∃ t, join sep (map (member_text sty) (kv :: o)) ++ more = 34 :: t.
Proof. destruct o; cbn [map]; [|rewrite join_app_cons by done]; by eexists. Qed.

Lemma scan_members_join o fuel rest :
  o ≠ [] → Forall (λ kv, reads_back kv.2) o →
  forallb (λ kv, str_ok kv.1 && json_ok kv.2) o = true →
  (length (join (item_sep sty) (map (member_text sty) o)) + 1 <= fuel)%nat →
  scan_members fuel (join (item_sep sty) (map (member_text sty) o) ++ 125 :: rest)
    = Some (Ok (map (λ kv, (kv.1, json_norm (sort_keys sty) kv.2)) o, rest)).
Proof.
  intros Hne Ho. revert fuel Hne. induction Ho as [|[k j] o Hj Ho IH]; intros fuel Hne Hok Hf; [done|].
  cbn [forallb fst snd] in Hok. apply andb_true_iff in Hok as [[Hokk Hokj]%andb_true_iff Hok].
  cbn [fst snd] in Hj. destruct fuel as [|fuel]; [lia|].
  (* the head of the text: quote, escaped key, quote, separator, value *)
  assert (Hhead : ∀ more, (length (member_text sty (k, j)) <= fuel)%nat → num_stop more →
    scan_members (S fuel) (member_text sty (k, j) ++ more) =
      match skip_ws more with
      | d :: s4 =>
          if d =? 44 then
            r ← scan_members fuel (skip_ws s4);
            Some ('(l, r) ← r; Ok ((k, json_norm (sort_keys sty) j) :: l, r))
          else if d =? 125 then Some (Ok ([(k, json_norm (sort_keys sty) j)], s4))
          else Some (Err decode_error)
      | [] => Some (Err decode_error)
      end).
  { intros more Hlen Hmore. unfold member_text, quote in *. cbn [fst snd] in *. rewrite Hkey in *.
    rewrite <- !(assoc_L (++)). cbn [app]. rewrite <- !(assoc_L (++)). cbn [app].
    cbn [scan_members N.eqb Pos.eqb]. rewrite scan_string_escape; [|done|].
    2: { rewrite length_app. pose proof (escape_length k). cbn [length]. lia. }
    rewrite skip_ws_head by done. cbn [N.eqb Pos.eqb].
    rewrite skip_ws_dumps by done. munfold.
    rewrite Hj; [done|done|done|].
    cbn [length] in Hlen. rewrite !length_app in Hlen. cbn [length] in Hlen.
    rewrite length_app in Hlen. lia. }
  destruct o as [|kv o].
  - cbn [map join] in *. rewrite Hhead by (lia || (apply num_stop_close; lia)).
    rewrite skip_ws_head by done. done.
  - rewrite (map_cons _ (k, j)), join_app_cons in * by done. rewrite Hitem in *.
    rewrite <- !(assoc_L (++)). cbn [app] in *. rewrite length_app in Hf. cbn [length] in Hf.
    rewrite Hhead by (lia || (apply num_stop_close; lia)).
    rewrite skip_ws_head by done. cbn [N.eqb Pos.eqb].
    assert (skip_ws (w1 ++ join (44 :: w1) (map (member_text sty) (kv :: o)) ++ 125 :: rest) =
            join (44 :: w1) (map (member_text sty) (kv :: o)) ++ 125 :: rest) as ->.
    { destruct (join_members_head (44 :: w1) kv o (125 :: rest)) as [t' ->]. by apply skip_ws_app. }
    munfold. rewrite IH; [done|done|done|]. rewrite length_app in Hf. lia.
Qed.

Lemma reads_back_all j : reads_back j.
Proof.
  induction j as [|b|z|f|s|l IH|o IH] using json_nested_ind; intros fuel rest Hok Hr Hf.
  1,2: destruct fuel as [|fuel]; [exfalso; revert Hf; try destruct b; vm_compute; lia|];
    try destruct b; done.
  - destruct fuel as [|fuel].
    { destruct (str_of_Z_head z) as (c & t & E & _). cbn [dumps] in Hf. rewrite E in Hf.
      simpl in Hf. lia. }
    by apply scan_value_number, scan_number_int.
  - destruct fuel as [|fuel].
    { destruct (json_float_head f Hok) as (c & t & E & _). cbn [dumps] in Hf. rewrite E in Hf.
      simpl in Hf. lia. }
    by apply scan_value_float.
  - destruct fuel as [|fuel]; [simpl in Hf; lia|].
    cbn [dumps]. unfold quote. cbn [app scan_value N.eqb Pos.eqb].
    rewrite <- (assoc_L (++)). cbn [app]. rewrite scan_string_escape; [done|done|].
    rewrite length_app. pose proof (escape_length s). cbn [length]. lia.
  - cbn [dumps] in Hf. destruct fuel as [|fuel]; [simpl in Hf; lia|].
    cbn [dumps app scan_value N.eqb Pos.eqb json_ok] in *. rewrite <- (assoc_L (++)). cbn [app].
    destruct l as [|j l]; [done|]. cbn [length] in Hf. rewrite length_app in Hf. cbn [length] in Hf.
    assert (Hokj : json_ok j = true) by (cbn [forallb] in Hok; by apply andb_true_iff in Hok as [? _]).
    destruct (dumps_head sty j Hokj) as (c & t & E & Hc & Hc93 & _).
    assert (∃ t', join (item_sep sty) (map (dumps sty) (j :: l)) ++ 93 :: rest = c :: t') as [t' Et].
    { destruct l; cbn [map]; [|rewrite join_app_cons by done]; cbn [join]; rewrite E; by eexists. }
    rewrite Et, skip_ws_head by done. rewrite (proj2 (N.eqb_neq c 93)) by done. rewrite <- Et.
    rewrite scan_elems_join; [done|done|done|done|lia].
  - rewrite dumps_obj in *. rewrite json_norm_obj.
    cbn [json_ok] in Hok. apply andb_true_iff in Hok as [Hnd%bool_decide_eq_true Hok].
    assert (Hperm := printed_perm (sort_keys sty) o).
    assert (IH' : Forall (λ kv, reads_back kv.2) (printed (sort_keys sty) o)) by (by rewrite Hperm).
    assert (Hok' : forallb (λ kv, str_ok kv.1 && json_ok kv.2) (printed (sort_keys sty) o) = true).
    { rewrite forallb_forall in Hok |- *. intros x Hx. apply Hok.
      by rewrite <- list_elem_of_In, <- Hperm, list_elem_of_In. }
    assert (Hnd' : NoDup (dkeys (printed (sort_keys sty) o))) by (unfold dkeys; by rewrite Hperm).
    clear IH Hok Hnd Hperm. revert IH' Hok' Hnd' Hf. generalize (printed (sort_keys sty) o).
    clear o. intros o IH Hok Hnd Hf. destruct fuel as [|fuel]; [simpl in Hf; lia|].
    cbn [app scan_value N.eqb Pos.eqb]. rewrite <- (assoc_L (++)). cbn [app].
    destruct o as [|[k j] o]; [done|]. cbn [length] in Hf. rewrite length_app in Hf. cbn [length] in Hf.
    destruct (join_members_head (item_sep sty) (k, j) o (125 :: rest)) as [t' Et].
    rewrite Et, skip_ws_head by done. cbn [N.eqb Pos.eqb]. rewrite <- Et.
    munfold. rewrite scan_members_join; [|done|done|done|lia]. munfold.
    rewrite dict_of_pairs_id; [done|]. by rewrite dkeys_map.
Qed.

End roundtrip.

(** * The codec *)

(** Decoding the text of [dumps] gives the value back, members in printed order. *)
Lemma loads_dumps_style sty j :
  style_ok sty → json_ok j = true → loads (dumps sty j) = Ok (json_norm (sort_keys sty) j).
Proof.
  intros (w1 & w2 & H1 & H2 & Hw1 & Hw2) Hj.
  destruct (dumps_head sty j Hj) as (c & t & E & Hc & _ & _ & Hlt). unfold loads.
  assert (Hsv : scan_value (2 * length (dumps sty j) + 1) (skip_ws (dumps sty j)) =
    Some (Ok (json_norm (sort_keys sty) j, []))).
  { rewrite E at 2. rewrite skip_ws_head by done. rewrite <- E.
    rewrite <- (app_nil_r (dumps sty j)) at 2.
    eapply reads_back_all; [exact H1|exact H2|done..|]. lia. }
  rewrite Hsv, E. cbn [startswith skip_ws lstrip].
  by rewrite (proj2 (N.eqb_neq 65279 c)) by lia.
Qed.

Lemma compact_ok sorted : style_ok (compact sorted).
Proof. exists [], []. repeat split; constructor. Qed.

Lemma spaced_ok sorted : style_ok (spaced sorted).
Proof. exists [32], [32]. repeat split; repeat constructor. Qed.

(** Without key sorting the value itself comes back. *)
Lemma json_norm_false j : json_norm false j = j.
Proof.
  induction j as [| | | | |l IH|o IH] using json_nested_ind; cbn [json_norm]; try done.
  - f_equal. induction IH; simpl; congruence.
  - f_equal. induction IH as [|[k v] o Hv _ IH']; simpl in *; congruence.
Qed.

(** Printed text is ASCII, so its UTF-8 length is its length. *)
Lemma hexdigit_ascii d : d < 16 → hexdigit d < 128.
Proof. unfold hexdigit. intros. case_match; lia. Qed.

Lemma escape_char_ascii c : valid_cp c = true → Forall (λ c, c < 128) (escape_char c).
Proof.
  unfold valid_cp. intros Hc. unfold escape_char, hex4.
  repeat case_match; cbn [app]; repeat (constructor; try (apply hexdigit_ascii); try lia).
Qed.

Lemma str_ok_valid s : str_ok s = true → Forall (λ c, valid_cp c = true) s.
Proof.
  induction s as [|c s IH]; [constructor|]. cbn [str_ok].
  intros [[? ?]%andb_true_iff _]%andb_true_iff. constructor; auto.
Qed.

Lemma quote_ascii s : Forall (λ c, valid_cp c = true) s → Forall (λ c, c < 128) (quote s).
Proof.
  intros Hs. unfold quote. constructor; [done|]. apply Forall_app; split; [|by repeat constructor].
  induction Hs as [|c s Hc _ IH]; [constructor|]. rewrite escape_cons. apply Forall_app.
  split; [by apply escape_char_ascii|done].
Qed.

(** * Termination: the fuel of [loads] is enough for every text *)

Lemma lstrip_length p s : (length (lstrip p s) <= length s)%nat.
Proof. induction s as [|c s IH]; simpl; [lia|]. destruct (p c); simpl; lia. Qed.

Lemma skip_ws_length s : (length (skip_ws s) <= length s)%nat.
Proof. apply lstrip_length. Qed.

Lemma low_escape_length s l r : low_escape s = Some (l, r) → (length r < length s)%nat.
Proof. unfold low_escape. intros. repeat case_match; simplify_eq/=; lia. Qed.

Lemma scan_string_length fuel s t r :
  scan_string fuel s = Ok (t, r) → (length r < length s)%nat.
Proof.
  revert s t r; induction fuel as [|fuel IH]; intros s t r H; [by destruct s|].
  destruct s as [|c s1]; [done|]. cbn [scan_string] in H. munfold.
  repeat first [progress simplify_eq/= | case_match];
    repeat match goal with
    | E : scan_string fuel _ = Ok _ |- _ => apply IH in E
    | E : low_escape _ = Some _ |- _ => apply low_escape_length in E
    end; simpl in *; lia.
Qed.

Lemma take_digits_length s d r : take_digits s = (d, r) → (length r + length d = length s)%nat.
Proof.
  revert d r; induction s as [|c s IH]; simpl; intros d r H; simplify_eq/=; [lia|].
  destruct (is_digit c); simplify_eq/=; [|lia].
  destruct (take_digits s) as [d' r']; simplify_eq/=. specialize (IH _ _ eq_refl). lia.
Qed.

Lemma scan_number_length s v r : scan_number s = Ok (v, r) → (length r < length s)%nat.
Proof.
  unfold scan_number. destruct (scan_sign s) as [neg s1] eqn:Es.
  assert (length s1 <= length s)%nat.
  { unfold scan_sign in Es. repeat case_match; simplify_eq/=; lia. }
  destruct (scan_int s1) as [[int s2]|] eqn:Ei; [|done].
  assert (length s2 < length s1)%nat.
  { unfold scan_int in Ei. destruct s1 as [|c s1]; [done|]. destruct (c =? 48); simplify_eq; [simpl; lia|].
    destruct (is_digit c) eqn:Hc; [|done]. simplify_eq. cbn [take_digits] in Ei. rewrite Hc in Ei.
    destruct (take_digits s1) as [d' r'] eqn:E. simplify_eq. apply take_digits_length in E. simpl. lia. }
  destruct (scan_frac s2) as [frac s3] eqn:Ef.
  assert (length s3 <= length s2)%nat.
  { unfold scan_frac in Ef. repeat case_match; simplify_eq/=; try lia.
    match goal with E : take_digits _ = _ |- _ => apply take_digits_length in E end. simpl in *. lia. }
  destruct (scan_exp s3) as [ex s4] eqn:Ee.
  assert (length s4 <= length s3)%nat.
  { unfold scan_exp in Ee. destruct s3 as [|e s']; simplify_eq; [done|].
    destruct ((e =? 101) || (e =? 69)); simplify_eq; [|done].
    destruct (scan_exp_sign s') as [eneg s''] eqn:Es'.
    assert (length s'' <= length s')%nat.
    { unfold scan_exp_sign in Es'. repeat case_match; simplify_eq/=; lia. }
    destruct (take_digits s'') as [d r'] eqn:E. apply take_digits_length in E.
    destruct d; simplify_eq/=; lia. }
  intros (v' & _ & ?)%result_bind_Ok_inv. simplify_eq. lia.
Qed.

Lemma scan_word_length ws s v r :
  Forall (λ wv, wv.1 ≠ []) ws → scan_word ws s = Some (v, r) → (length r < length s)%nat.
Proof.
  induction 1 as [|[w x] ws Hw _ IH]; cbn [scan_word]; [done|].
  destruct (startswith s w) eqn:E; [|done]. intros ?; simplify_eq.
  apply startswith_spec in E as [r ->]. rewrite length_drop, length_app.
  simpl in Hw. destruct w; [done|]. simpl. lia.
Qed.

Lemma words_nonempty : Forall (λ wv : ustr * json, wv.1 ≠ []) words.
Proof. by repeat constructor. Qed.

(** One step of the descent over all three scanners: with fuel for the text
    they return, and what they return is shorter. *)
Lemma scan_total fuel s :
  ((2 * length s < fuel)%nat →
     match scan_value fuel s with
     | None => False | Some (Err _) => True | Some (Ok (_, r)) => (length r < length s)%nat
     end) ∧
  ((2 * length s + 1 < fuel)%nat →
     match scan_elems fuel s with
     | None => False | Some (Err _) => True | Some (Ok (_, r)) => (length r < length s)%nat
     end) ∧
  ((2 * length s + 1 < fuel)%nat →
     match scan_members fuel s with
     | None => False | Some (Err _) => True | Some (Ok (_, r)) => (length r < length s)%nat
     end).
Proof.
  revert s; induction fuel as [|fuel IH]; intros s; [lia|].
  split_and!; intros Hf.
  - cbn [scan_value]. destruct s as [|c s1]; [done|]. cbn [length] in *.
    pose proof (skip_ws_length s1).
    destruct (c =? 34).
    { munfold. destruct (scan_string _ s1) as [[t r]|] eqn:E; [|done].
      apply scan_string_length in E. lia. }
    destruct (c =? 123).
    { destruct (skip_ws s1) as [|d s2] eqn:Es; [done|]. cbn [length] in *.
      destruct (d =? 125); [lia|]. destruct (IH (d :: s2)) as (_ & _ & IH').
      cbn [length] in IH'. specialize (IH' ltac:(lia)). munfold.
      destruct (scan_members fuel (d :: s2)) as [[[? ?]|]|]; try done. lia. }
    destruct (c =? 91).
    { destruct (skip_ws s1) as [|d s2] eqn:Es; [done|]. cbn [length] in *.
      destruct (d =? 93); [lia|]. destruct (IH (d :: s2)) as (_ & IH' & _).
      cbn [length] in IH'. specialize (IH' ltac:(lia)). munfold.
      destruct (scan_elems fuel (d :: s2)) as [[[? ?]|]|]; try done. lia. }
    destruct (scan_word words (c :: s1)) as [[v r]|] eqn:E.
    { by apply scan_word_length in E; [|apply words_nonempty]. }
    destruct (scan_number (c :: s1)) as [[v r]|] eqn:E'; [|done].
    by apply scan_number_length in E'.
  - cbn [scan_elems]. destruct (IH s) as (IH' & _ & _). specialize (IH' ltac:(lia)). munfold.
    destruct (scan_value fuel s) as [[[v s1]|]|]; try done.
    pose proof (skip_ws_length s1). destruct (skip_ws s1) as [|d s2]; [done|]. cbn [length] in *.
    destruct (d =? 44); [|destruct (d =? 93); [lia|done]].
    pose proof (skip_ws_length s2). destruct (IH (skip_ws s2)) as (_ & IH'' & _).
    specialize (IH'' ltac:(lia)).
    destruct (scan_elems fuel (skip_ws s2)) as [[[? ?]|]|]; try done. lia.
  - cbn [scan_members]. destruct s as [|q s0]; [done|]. destruct (q =? 34); [|done]. cbn [length] in *.
    destruct (scan_string _ s0) as [[k s1]|] eqn:E; [|done]. apply scan_string_length in E.
    pose proof (skip_ws_length s1). destruct (skip_ws s1) as [|d s2]; [done|]. cbn [length] in *.
    destruct (d =? 58); [|done]. pose proof (skip_ws_length s2).
    destruct (IH (skip_ws s2)) as (IH' & _ & _). specialize (IH' ltac:(lia)). munfold.
    destruct (scan_value fuel (skip_ws s2)) as [[[v s3]|]|]; try done.
    pose proof (skip_ws_length s3). destruct (skip_ws s3) as [|d' s4]; [done|]. cbn [length] in *.
    destruct (d' =? 44); [|destruct (d' =? 125); [lia|done]].
    pose proof (skip_ws_length s4). destruct (IH (skip_ws s4)) as (_ & _ & IH'').
    specialize (IH'' ltac:(lia)).
    destruct (scan_members fuel (skip_ws s4)) as [[[? ?]|]|]; try done. lia.
Qed.

Lemma loads_fuel s : scan_value (2 * length s + 1) (skip_ws s) ≠ None.
Proof.
  destruct (scan_total (2 * length s + 1) (skip_ws s)) as (H & _ & _).
  pose proof (skip_ws_length s). specialize (H ltac:(lia)). by destruct (scan_value _ _).
Qed.

#[export] Hint Resolve compact_ok spaced_ok : engine.
#[export] Hint Rewrite json_norm_false : engine.

(** * Lemmas: the errors of the decoder *)

Definition loads_error (e : exn) : Prop := e = decode_error ∨ e = digits_error.

Lemma decode_loads_error : loads_error decode_error.
Proof. by left. Qed.

Lemma scan_string_err fuel s e : scan_string fuel s = Err e → loads_error e.
Proof.
  revert s e. induction fuel as [|fuel IH]; intros s e; cbn [scan_string]; [intros [= <-]; apply decode_loads_error|].
  revert e. pose proof decode_loads_error.
  repeat first
    [ progress case_match
    | apply result_bind_Err_all; [intros e; apply IH|intros ? e _; revert e]
    | by intros e [= <-] | by intros e ].
Qed.

Lemma number_value_err neg i f x e : number_value neg i f x = Err e → loads_error e.
Proof. unfold number_value. intros H. repeat case_match; simplify_eq; by right. Qed.

Lemma scan_number_err s e : scan_number s = Err e → loads_error e.
Proof.
  unfold scan_number. pose proof decode_loads_error. revert e.
  repeat case_match; try (by intros e [= <-]).
  apply result_bind_Err_all; [intros e; apply number_value_err|done].
Qed.

#[local] Ltac use_IH := match goal with
  | IH : ∀ s e, _ ∧ _ ∧ _, H : _ = Some (Err _) |- _ => apply IH in H; done
  end.

Lemma scan_err fuel s e :
  (scan_value fuel s = Some (Err e) → loads_error e) ∧
  (scan_elems fuel s = Some (Err e) → loads_error e) ∧
  (scan_members fuel s = Some (Err e) → loads_error e).
Proof.
  revert s e. induction fuel as [|fuel IH]; intros s e; [done|].
  pose proof decode_loads_error as Hd.
  split_and!; cbn [scan_value scan_elems scan_members]; munfold.
  - repeat case_match; intros; simplify_eq; try done; eauto using scan_number_err, scan_string_err; use_IH.
  - repeat case_match; intros; simplify_eq; try done; use_IH.
  - repeat case_match; intros; simplify_eq; try done; eauto using scan_string_err; use_IH.
Qed.

(** Every failure is a decoding error or the limit on numerals. *)
Lemma loads_err s e : loads s = Err e → loads_error e.
Proof.
  unfold loads. pose proof decode_loads_error. repeat case_match; intros; simplify_eq; try done.
  match goal with H : _ = Some (Err _) |- _ => by apply scan_err in H end.
Qed.

Lemma ascii_str_ok s : ascii_str s → str_ok s = true.
Proof.
  induction 1 as [|c s Hc Hs IH]; [done|]. cbn [str_ok]. rewrite IH.
  unfold valid_cp, is_high. assert ((c <? 1114112) = true) as -> by lia.
  assert ((55296 <=? c) = false) as -> by lia. done.
Qed.
#[export] Hint Resolve ascii_str_ok compact_ok spaced_ok : engine.

(** * Lemmas: printing a normal form *)

(** Sorted printing is plain printing of the sorted value. *)
Lemma dumps_norm isep ksep j :
  dumps (JsonStyle isep ksep false) (json_norm true j) = dumps (JsonStyle isep ksep true) j.
Proof.
  induction j as [| | | | |l IH|o IH] using json_nested_ind; try done.
  - cbn [json_norm dumps item_sep]. f_equal. f_equal. f_equal. rewrite map_map.
    induction IH as [|x l Hx _ IH']; simpl; congruence.
  - rewrite json_norm_obj, !dumps_obj. unfold printed at 1. cbn [sort_keys item_sep].
    f_equal. f_equal. f_equal. rewrite map_map.
    assert (Forall (λ kv : ustr * json, dumps (JsonStyle isep ksep false) (json_norm true kv.2) =
      dumps (JsonStyle isep ksep true) kv.2) (printed true o)) as IHp by (by rewrite printed_perm).
    apply map_ext_Forall. eapply List.Forall_impl; [|exact IHp]. intros kv Hkv.
    unfold member_text. cbn [fst snd key_sep]. by rewrite Hkv.
Qed.

Lemma json_ok_norm j : json_ok j = true → json_ok (json_norm true j) = true.
Proof.
  induction j as [| | | | |l IH|o IH] using json_nested_ind; try done.
  - cbn [json_norm json_ok]. rewrite !forallb_forall. intros H x (y & <- & Hy)%in_map_iff.
    rewrite Forall_forall in IH. apply IH; [by apply list_elem_of_In|by apply H].
  - rewrite json_norm_obj. cbn [json_ok]. rewrite (dkeys_map (json_norm true)).
    intros [Hn Hf]%andb_true_iff. apply andb_true_iff. split.
    + apply bool_decide_eq_true in Hn. apply bool_decide_eq_true. unfold dkeys in *. by rewrite printed_perm.
    + rewrite forallb_forall in *. intros x (y & <- & Hy)%in_map_iff. cbn [fst snd].
      apply list_elem_of_In in Hy. rewrite (printed_perm true o) in Hy. rewrite Forall_forall in IH.
      apply list_elem_of_In in Hy as Hy'. specialize (Hf _ Hy'). apply andb_true_iff in Hf as [-> Hf].
      by apply IH.
Qed.
