(* ===== verification/Clock.v ===== *)
(** Timestamps: aware UTC instants, their text in the database and on the wire
    ([isoformat(timespec="milliseconds")] with a trailing [Z]) and the parser
    ([datetime.fromisoformat]).  Rows and events are compared as text; the
    lemmas show that this is comparison of instants at millisecond precision. *)

From S2P Require Import Prelude PyStr.

Local Open Scope Z_scope.

(** * The proleptic Gregorian calendar *)

Definition is_leap (y : Z) : bool :=
  (y mod 4 =? 0) && (negb (y mod 100 =? 0) || (y mod 400 =? 0)).

Definition days_before_year (y : Z) : Z :=
  let y := y - 1 in y * 365 + y / 4 - y / 100 + y / 400.

Definition days_in_month (leap : bool) (m : Z) : Z :=
  if m =? 2 then (if leap then 29 else 28)
  else if (m =? 4) || (m =? 6) || (m =? 9) || (m =? 11) then 30 else 31.

Definition days_before_month_table : list Z :=
  [0; 0; 31; 59; 90; 120; 151; 181; 212; 243; 273; 304; 334; 365].

Definition days_before_month (leap : bool) (m : Z) : Z :=
  nth (Z.to_nat m) days_before_month_table 0 + (if (2 <? m) && leap then 1 else 0).

(** [date(y, m, d).toordinal()]. *)
Definition ymd2ord (y m d : Z) : Z :=
  days_before_year y + days_before_month (is_leap y) m + d.

(** Month and day of the 0-based day [n] of a year. *)
Definition month_day (leap : bool) (n : Z) : Z * Z :=
  let m := (n + 50) / 32 in
  let before := days_before_month leap m in
  if n <? before then (m - 1, n - days_before_month leap (m - 1) + 1)
  else (m, n - before + 1).

(** [date.fromordinal(n)]. *)
Definition ord2ymd (n : Z) : Z * Z * Z :=
  let n := n - 1 in
  let n400 := n / 146097 in let n := n mod 146097 in
  let n100 := n / 36524 in let n := n mod 36524 in
  let n4 := n / 1461 in let n := n mod 1461 in
  let n1 := n / 365 in let n := n mod 365 in
  let year := n400 * 400 + 1 + n100 * 100 + n4 * 4 + n1 in
  if (n1 =? 4) || (n100 =? 4) then (year - 1, 12, 31)
  else let '(m, d) := month_day ((n1 =? 3) && (negb (n4 =? 24) || (n100 =? 3))) n in (year, m, d).

(** * Instants *)

(** An aware datetime as microseconds, counted so that day ordinal 1 is year 1. *)
Definition instant := Z.

Definition US : Z := 1000000.
Definition DAY : Z := 86400 * US.

Definition seconds (n : Z) : Z := n * US.
Definition days (n : Z) : Z := n * DAY.

Definition instant_of (y m d h mi s us : Z) : instant :=
  ymd2ord y m d * DAY + ((h * 60 + mi) * 60 + s) * US + us.

(** The range of [datetime]: years 1 to 9999. *)
Definition MIN_INSTANT : instant := 1 * DAY.
Definition MAX_INSTANT : instant := 3652060 * DAY.
Definition in_range (t : instant) : Prop := MIN_INSTANT <= t < MAX_INSTANT.

(** * Printing *)

(** [f"{n:0{width}d}"] for [n < 10^width]. *)
Fixpoint pad_dec (width : nat) (n : Z) : ustr :=
  match width with
  | O => []
  | S w => (48 + Z.to_N (n / 10 ^ Z.of_nat w))%N :: pad_dec w (n mod 10 ^ Z.of_nat w)
  end.

Definition iso_date (y m d : Z) : ustr :=
  pad_dec 4 y ++ [45%N] ++ pad_dec 2 m ++ [45%N] ++ pad_dec 2 d.
Definition iso_time (h mi s ms : Z) : ustr :=
  pad_dec 2 h ++ [58%N] ++ pad_dec 2 mi ++ [58%N] ++ pad_dec 2 s ++ [46%N] ++ pad_dec 3 ms.

(** [t.isoformat(timespec="milliseconds")] of a UTC datetime. *)
Definition isoformat_ms (t : instant) : ustr :=
  let '(y, m, d) := ord2ymd (t / DAY) in
  let us := t mod DAY in
  iso_date y m d ++ [84%N] ++
  iso_time (us / (3600 * US)) (us / (60 * US) mod 60) (us / US mod 60) (us / 1000 mod 1000)
    ++ u "+00:00".

(** [_format_datetime] of the store and [_format_timestamp] of the protocol. *)
Definition format_datetime (t : instant) : ustr :=
  replace (isoformat_ms t) (u "+00:00") (u "Z").

(** * Parsing: [datetime.fromisoformat] *)

Record parsed_datetime := ParsedDatetime {
  pd_local : Z;              (* microseconds of the local fields *)
  pd_offset : option Z;      (* UTC offset in microseconds; None when naive *)
}.

(** Exactly [n] ASCII digits. *)
Fixpoint digits_n (n : nat) (acc : Z) (s : ustr) : option (Z * ustr) :=
  match n with
  | O => Some (acc, s)
  | S n => match s with
           | c :: s' => if is_digit c then digits_n n (10 * acc + Z.of_N (c - 48)) s' else None
           | [] => None
           end
  end.

Definition parse_digits (n : nat) (s : ustr) : option (Z * ustr) := digits_n n 0 s.

Definition drop_char (c : N) (s : ustr) : option ustr :=
  match s with d :: s' => if (d =? c)%N then Some s' else None | [] => None end.

(** Where the date part ends. *)
Definition digit_at (s : ustr) (i : nat) : bool :=
  match s !! i with Some c => is_digit c | None => false end.
Definition char_at (s : ustr) (i : nat) (c : N) : bool := bool_decide (s !! i = Some c).

Fixpoint digit_run (s : ustr) : nat :=
  match s with c :: s' => if is_digit c then S (digit_run s') else O | [] => O end.

Definition separator_location (s : ustr) : option nat :=
  let len := length s in
  if (len =? 7)%nat then Some 7%nat
  else if char_at s 4 45 then
    if char_at s 5 87 then
      if char_at s 8 45 then
        if (len =? 9)%nat then None
        else if digit_at s 10 then Some 8%nat else Some 10%nat
      else Some 8%nat
    else Some 10%nat
  else if char_at s 4 87 then
    let idx := (7 + digit_run (drop 7 s))%nat in
    if (idx <? 9)%nat then Some idx
    else if Nat.even idx then Some 7%nat else Some 8%nat
  else Some 8%nat.

Definition isoweek1monday (y : Z) : Z :=
  let firstday := ymd2ord y 1 1 in
  let firstweekday := (firstday + 6) mod 7 in
  let monday := firstday - firstweekday in
  if 3 <? firstweekday then monday + 7 else monday.

Definition isoweek_ok (y week : Z) : bool :=
  ((0 <? week) && (week <? 53)) ||
  ((week =? 53) &&
   (let w := ymd2ord y 1 1 mod 7 in (w =? 4) || ((w =? 3) && is_leap y))).

Definition isoweek_to_gregorian (y week day : Z) : option (Z * Z * Z) :=
  if negb ((1 <=? y) && (y <=? 9999)) then None
  else if negb (isoweek_ok y week) then None
  else if negb ((0 <? day) && (day <? 8)) then None
  else Some (ord2ymd (isoweek1monday y + (week - 1) * 7 + (day - 1))).

(** The date fields, not yet validated. *)
Definition parse_date (s : ustr) : option (Z * Z * Z) :=
  '(y, s1) ← parse_digits 4 s;
  let sep := char_at s1 0 45 in
  let s2 := if sep then tail s1 else s1 in
  if char_at s2 0 87 then
    '(week, s3) ← parse_digits 2 (tail s2);
    match s3 with
    | [] => isoweek_to_gregorian y week 1
    | _ => s4 ← (if sep then drop_char 45 s3 else Some s3);
           '(day, _) ← parse_digits 1 s4;
           isoweek_to_gregorian y week day
    end
  else
    '(m, s3) ← parse_digits 2 s2;
    s4 ← (if sep then drop_char 45 s3 else Some s3);
    '(d, _) ← parse_digits 2 s4;
    Some (y, m, d).

(** The fraction of a second: six digits count, further ones are dropped. *)
Definition parse_fraction (s : ustr) : option Z :=
  let n := Nat.min 6 (length s) in
  '(v, r) ← parse_digits n s;
  if forallb is_digit r && negb (n =? 0)%nat then Some (v * 10 ^ (6 - Z.of_nat n)) else None.

Definition is_mark (c : N) : bool := ((c =? 46) || (c =? 44))%N.

(** [HH[:?MM[:?SS[{.,}f+]]]]. *)
Definition parse_hhmmss (s : ustr) : option (Z * Z * Z * Z) :=
  '(h, s1) ← parse_digits 2 s;
  match s1 with
  | [] => Some (h, 0, 0, 0)
  | c1 :: r1 =>
      let sep := (c1 =? 58)%N in
      '(mi, s2) ← parse_digits 2 (if sep then r1 else s1);
      match s2 with
      | [] => Some (h, mi, 0, 0)
      | c2 :: r2 =>
          s2' ← (if sep then drop_char 58 s2 else Some s2);
          '(sec, s3) ← parse_digits 2 s2';
          match s3 with
          | [] => Some (h, mi, sec, 0)
          | c3 :: r3 =>
              if is_mark c3 then us ← parse_fraction r3; Some (h, mi, sec, us) else None
          end
      end
  end.

(** Split at the first of [-], [+], [Z] in that order of preference. *)
Definition tz_split (s : ustr) : option (ustr * N * ustr) :=
  let try c := let '(h, found, t) := partition_on c s in if found then Some (h, c, t) else None in
  match try 45%N with
  | Some x => Some x
  | None => match try 43%N with Some x => Some x | None => try 90%N end
  end.

Definition time_ok (h mi s : Z) : bool := (h <? 24) && (mi <? 60) && (s <? 60).

Definition parse_tz (sign : N) (s : ustr) : option Z :=
  if (sign =? 90)%N then match s with [] => Some 0 | _ => None end
  else if bool_decide (length s ∈ [0; 1; 3]%nat) then None
  else '(h, mi, sec, us) ← parse_hhmmss s;
       if time_ok h mi sec then
         let off := ((h * 60 + mi) * 60 + sec) * US + us in
         Some (if (sign =? 45)%N then - off else off)
       else None.

Definition parse_time (s : ustr) : option (Z * Z * Z * Z * option Z) :=
  if (length s <? 2)%nat then None
  else match tz_split s with
       | None => '(h, mi, sec, us) ← parse_hhmmss s; Some (h, mi, sec, us, None)
       | Some (t, sign, tz) =>
           '(h, mi, sec, us) ← parse_hhmmss t;
           off ← parse_tz sign tz;
           Some (h, mi, sec, us, Some off)
       end.

Definition date_ok (y m d : Z) : bool :=
  (1 <=? y) && (y <=? 9999) && (1 <=? m) && (m <=? 12) && (1 <=? d)
    && (d <=? days_in_month (is_leap y) m).

(** [datetime.fromisoformat(s)]; [24:00:00] is midnight of the next day. *)
Definition fromisoformat (s : ustr) : option parsed_datetime :=
  if (length s <? 7)%nat then None
  else
    loc ← separator_location s;
    '(y, m, d) ← parse_date (take loc s);
    '(h, mi, sec, us, off) ←
      (match drop loc s with [] => Some (0, 0, 0, 0, None) | _ :: t => parse_time t end);
    if negb (date_ok y m d) then None
    else if h =? 24 then
      if (mi =? 0) && (sec =? 0) && (us =? 0) && (ymd2ord y m d <? 3652059)
      then Some (ParsedDatetime (instant_of y m d 24 0 0 0) off) else None
    else if time_ok h mi sec then Some (ParsedDatetime (instant_of y m d h mi sec us) off)
    else None.

(** The instant of an aware datetime. *)
Definition pd_instant (p : parsed_datetime) : option instant :=
  off ← pd_offset p; Some (pd_local p - off).

(** * Lemmas: fixed-width numerals *)

#[local] Ltac Zify.zify_post_hook ::= Z.to_euclidean_division_equations.

Lemma pad_dec_length w n : length (pad_dec w n) = w.
Proof. revert n; induction w as [|w IH]; intros n; simpl; [done|]. by rewrite IH. Qed.

Lemma pow10_pos w : 0 < 10 ^ Z.of_nat w.
Proof. apply Z.pow_pos_nonneg; lia. Qed.

Lemma pow10_succ w : 10 ^ Z.of_nat (S w) = 10 * 10 ^ Z.of_nat w.
Proof. rewrite Nat2Z.inj_succ, Z.pow_succ_r; lia. Qed.

Lemma pad_dec_compare w a b :
  0 <= a < 10 ^ Z.of_nat w → 0 <= b < 10 ^ Z.of_nat w →
  ustr_compare (pad_dec w a) (pad_dec w b) = Z.compare a b.
Proof.
  revert a b; induction w as [|w IH]; intros a b Ha Hb.
  { simpl in *. assert (a = 0) as -> by lia. by assert (b = 0) as -> by lia. }
  rewrite pow10_succ in *. pose proof (pow10_pos w) as Hp. cbn [pad_dec ustr_compare].
  pose proof (Z.div_mod a (10 ^ Z.of_nat w) ltac:(lia)). pose proof (Z.mod_pos_bound a _ Hp).
  pose proof (Z.div_mod b (10 ^ Z.of_nat w) ltac:(lia)). pose proof (Z.mod_pos_bound b _ Hp).
  rewrite IH by done.
  set (p := 10 ^ Z.of_nat w) in *. set (qa := a / p) in *. set (qb := b / p) in *.
  set (ra := a mod p) in *. set (rb := b mod p) in *. clearbody p qa qb ra rb.
  assert (0 <= qa < 10) by nia. assert (0 <= qb < 10) by nia.
  destruct (N.compare_spec (48 + Z.to_N qa) (48 + Z.to_N qb)).
  - assert (qa = qb) as -> by lia. destruct (Z.compare_spec ra rb), (Z.compare_spec a b); (done || nia).
  - destruct (Z.compare_spec a b); (done || nia).
  - destruct (Z.compare_spec a b); (done || nia).
Qed.

Lemma digits_n_pad w acc n rest :
  0 <= n < 10 ^ Z.of_nat w →
  digits_n w acc (pad_dec w n ++ rest) = Some (acc * 10 ^ Z.of_nat w + n, rest).
Proof.
  revert acc n; induction w as [|w IH]; intros acc n Hn; cbn [digits_n pad_dec app].
  { simpl in *. do 2 f_equal. lia. }
  rewrite pow10_succ in *. pose proof (pow10_pos w) as Hp.
  pose proof (Z.div_mod n (10 ^ Z.of_nat w) ltac:(lia)). pose proof (Z.mod_pos_bound n _ Hp).
  set (p := 10 ^ Z.of_nat w) in *. set (q := n / p) in *. set (r := n mod p) in *.
  assert (0 <= q < 10) by (clearbody p q r; nia).
  assert (is_digit (48 + Z.to_N q) = true) as -> by (unfold is_digit; lia).
  rewrite IH by (subst r p; done). do 2 f_equal.
  replace (48 + Z.to_N q - 48)%N with (Z.to_N q) by lia. rewrite Z2N.id by lia. fold p.
  clearbody p q r. nia.
Qed.

Lemma parse_digits_pad w n rest :
  0 <= n < 10 ^ Z.of_nat w → parse_digits w (pad_dec w n ++ rest) = Some (n, rest).
Proof. intros. unfold parse_digits. by rewrite digits_n_pad. Qed.

Lemma pad_dec_digits w n : 0 <= n < 10 ^ Z.of_nat w → Forall (λ c, is_digit c = true) (pad_dec w n).
Proof.
  revert n; induction w as [|w IH]; intros n Hn; simpl; [constructor|].
  rewrite pow10_succ in *. pose proof (pow10_pos w) as Hp.
  pose proof (Z.div_mod n (10 ^ Z.of_nat w) ltac:(lia)). pose proof (Z.mod_pos_bound n _ Hp).
  constructor; [|by apply IH].
  set (q := n / _) in *. set (r := n mod _) in *. set (p := 10 ^ _) in *.
  assert (0 <= q < 10) by (clearbody p q r; nia). unfold is_digit. lia.
Qed.

(** * Lemmas: the calendar *)

(** Month and day of every day of a year, checked on both tables. *)
Definition month_day_ok (leap : bool) (n : Z) : bool :=
  let '(m, d) := month_day leap n in
  (1 <=? m) && (m <=? 12) && (1 <=? d) && (d <=? days_in_month leap m)
    && (days_before_month leap m + d =? n + 1).

Lemma month_day_table (leap : bool) :
  forallb (λ i, month_day_ok leap (Z.of_nat i)) (seq 0 (if leap then 366 else 365)) = true.
Proof. by destruct leap; vm_compute. Qed.

Lemma month_day_spec (leap : bool) n :
  0 <= n < (if leap then 366 else 365) →
  let '(m, d) := month_day leap n in
  1 <= m <= 12 ∧ 1 <= d <= days_in_month leap m ∧ days_before_month leap m + d = n + 1.
Proof.
  intros Hn. pose proof (month_day_table leap) as H. rewrite forallb_forall in H.
  specialize (H (Z.to_nat n)). rewrite Z2Nat.id in H by lia.
  assert (Hin : List.In (Z.to_nat n) (seq 0 (if leap then 366 else 365))).
  { apply in_seq. destruct leap; lia. }
  specialize (H Hin). unfold month_day_ok in H. destruct (month_day leap n) as [m d]. lia.
Qed.

Lemma is_leap_cycle a b c d :
  0 <= b < 4 → 0 <= c < 25 → 0 <= d < 4 →
  is_leap (a * 400 + 1 + b * 100 + c * 4 + d) = (d =? 3) && (negb (c =? 24) || (b =? 3)).
Proof. intros. unfold is_leap. destruct (d =? 3) eqn:?; destruct (c =? 24) eqn:?; lia. Qed.

Lemma days_before_cycle a b c d :
  0 <= b < 4 → 0 <= c < 25 → 0 <= d < 4 →
  days_before_year (a * 400 + 1 + b * 100 + c * 4 + d) = a * 146097 + b * 36524 + c * 1461 + d * 365.
Proof. intros. unfold days_before_year. lia. Qed.

(** [fromordinal] yields a valid date with that ordinal. *)
Lemma ord2ymd_spec n :
  let '(y, m, d) := ord2ymd n in
  1 <= m <= 12 ∧ 1 <= d <= days_in_month (is_leap y) m ∧ ymd2ord y m d = n.
Proof.
  unfold ord2ymd.
  set (a := (n - 1) / 146097). set (n0 := (n - 1) mod 146097).
  set (b := n0 / 36524). set (n1 := n0 mod 36524).
  set (c := n1 / 1461). set (n2 := n1 mod 1461).
  set (d := n2 / 365). set (n3 := n2 mod 365).
  assert (Ha : n - 1 = a * 146097 + n0 ∧ 0 <= n0 < 146097) by (subst a n0; lia).
  assert (Hb : n0 = b * 36524 + n1 ∧ 0 <= n1 < 36524 ∧ 0 <= b) by (subst b n1; lia).
  assert (Hc : n1 = c * 1461 + n2 ∧ 0 <= n2 < 1461 ∧ 0 <= c) by (subst c n2; lia).
  assert (Hd : n2 = d * 365 + n3 ∧ 0 <= n3 < 365 ∧ 0 <= d) by (subst d n3; lia).
  clearbody a b c d n0 n1 n2 n3.
  destruct ((d =? 4) || (b =? 4)) eqn:E.
  - (* the last day of a leap year *)
    assert (H : ∃ a' b' c', a * 400 + 1 + b * 100 + c * 4 + d - 1 = a' * 400 + 1 + b' * 100 + c' * 4 + 3
      ∧ 0 <= b' < 4 ∧ 0 <= c' < 25 ∧ (c' ≠ 24 ∨ b' = 3) ∧
      n = a' * 146097 + b' * 36524 + c' * 1461 + 3 * 365 + 366).
    { destruct (b =? 4) eqn:Eb.
      - exists a, 3, 24. assert (b = 4) as -> by lia. assert (c = 0) as -> by lia.
        assert (d = 0) as -> by lia. lia.
      - exists a, b, c. lia. }
    destruct H as (a' & b' & c' & -> & Hb' & Hc' & Hor & ->).
    unfold ymd2ord. rewrite is_leap_cycle, days_before_cycle by lia.
    assert ((3 =? 3) && (negb (c' =? 24) || (b' =? 3)) = true) as -> by lia.
    replace (days_before_month true 12) with 335 by done.
    replace (days_in_month true 12) with 31 by done. lia.
  - assert (0 <= b < 4 ∧ 0 <= c < 25 ∧ 0 <= d < 4) as (? & ? & ?) by lia.
    pose proof (month_day_spec ((d =? 3) && (negb (c =? 24) || (b =? 3))) n3) as Hmd.
    destruct (month_day _ n3) as [m dd].
    unfold ymd2ord. rewrite is_leap_cycle, days_before_cycle by done.
    specialize (Hmd ltac:(destruct (_ && _); lia)). lia.
Qed.

Lemma month_cases m : 1 <= m <= 12 →
  m = 1 ∨ m = 2 ∨ m = 3 ∨ m = 4 ∨ m = 5 ∨ m = 6 ∨ m = 7 ∨ m = 8 ∨ m = 9 ∨ m = 10 ∨ m = 11 ∨ m = 12.
Proof. lia. Qed.

Definition valid_date (y m d : Z) : Prop :=
  1 <= m <= 12 ∧ 1 <= d <= days_in_month (is_leap y) m.

(** A valid date lies within its month, and its month within the year. *)
Lemma days_before_month_bounds (leap : bool) m d :
  1 <= m <= 12 → 1 <= d <= days_in_month leap m →
  0 <= days_before_month leap m ∧ days_before_month leap m + d <= (if leap then 366 else 365).
Proof.
  intros Hm Hd.
  assert (0 <= days_before_month leap m ∧
          days_before_month leap m + days_in_month leap m <= (if leap then 366 else 365)); [|lia].
  clear d Hd. apply month_cases in Hm. destruct_or! Hm; subst; by destruct leap.
Qed.

Lemma days_before_month_lt leap m m' d d' :
  1 <= m <= 12 → 1 <= m' <= 12 → m < m' →
  1 <= d <= days_in_month leap m → 1 <= d' →
  days_before_month leap m + d < days_before_month leap m' + d'.
Proof.
  intros Hm Hm' Hlt Hd Hd'.
  assert (days_before_month leap m + days_in_month leap m <= days_before_month leap m'); [|lia].
  clear d d' Hd Hd'. apply month_cases in Hm. apply month_cases in Hm'.
  destruct_or! Hm; subst; destruct_or! Hm'; subst; try lia; by destruct leap.
Qed.

Lemma days_before_year_succ y : days_before_year (y + 1) = days_before_year y + (if is_leap y then 366 else 365).
Proof. unfold days_before_year, is_leap. destruct (_ && _) eqn:E; lia. Qed.

Lemma days_before_year_le y y' : y <= y' → days_before_year y <= days_before_year y'.
Proof. unfold days_before_year. lia. Qed.

Lemma ymd2ord_bounds y m d : valid_date y m d →
  days_before_year y < ymd2ord y m d <= days_before_year (y + 1).
Proof.
  intros [Hm Hd]. rewrite days_before_year_succ. unfold ymd2ord.
  pose proof (days_before_month_bounds _ _ _ Hm Hd). lia.
Qed.

(** Ordinals order dates by year, then month, then day. *)
Lemma ymd2ord_compare y m d y' m' d' :
  valid_date y m d → valid_date y' m' d' →
  Z.compare (ymd2ord y m d) (ymd2ord y' m' d') =
  match Z.compare y y' with
  | Eq => match Z.compare m m' with Eq => Z.compare d d' | c => c end
  | c => c
  end.
Proof.
  intros Hv Hv'. pose proof (ymd2ord_bounds _ _ _ Hv). pose proof (ymd2ord_bounds _ _ _ Hv').
  destruct (Z.compare_spec y y') as [->|Hy|Hy].
  - destruct Hv as [Hm Hd], Hv' as [Hm' Hd']. unfold ymd2ord.
    destruct (Z.compare_spec m m') as [->|Hlt|Hlt].
    + destruct (Z.compare_spec d d'); [subst; apply Z.compare_refl|apply Z.compare_lt_iff; lia|apply Z.compare_gt_iff; lia].
    + apply Z.compare_lt_iff.
      pose proof (days_before_month_lt (is_leap y') m m' d d'). lia.
    + apply Z.compare_gt_iff.
      pose proof (days_before_month_lt (is_leap y') m' m d' d). lia.
  - apply Z.compare_lt_iff. pose proof (days_before_year_le (y + 1) y' ltac:(lia)). lia.
  - apply Z.compare_gt_iff. pose proof (days_before_year_le (y' + 1) y ltac:(lia)). lia.
Qed.

Lemma ymd2ord_range y m d : valid_date y m d → 1 <= y <= 9999 → 1 <= ymd2ord y m d < 3652060.
Proof.
  intros Hv Hy. pose proof (ymd2ord_bounds _ _ _ Hv).
  pose proof (days_before_year_le 1 y ltac:(lia)). pose proof (days_before_year_le (y + 1) 10000 ltac:(lia)).
  change (days_before_year 1) with 0 in *. change (days_before_year 10000) with 3652059 in *. lia.
Qed.

Lemma ord2ymd_year n : 1 <= n < 3652060 → 1 <= (ord2ymd n).1.1 <= 9999.
Proof.
  intros Hn. pose proof (ord2ymd_spec n) as H. destruct (ord2ymd n) as [[y m] d]. simpl.
  destruct H as (Hm & Hd & Hn'). pose proof (ymd2ord_bounds y m d (conj Hm Hd)).
  pose proof (days_before_year_le (y + 1) 1). pose proof (days_before_year_le 10000 y).
  change (days_before_year 1) with 0 in *. change (days_before_year 10000) with 3652059 in *. lia.
Qed.

(** * Lemmas: the text of an instant *)

(** The fields of an instant, as the printer computes them. *)
Lemma div_mod_us t : t = (t / DAY) * DAY + t mod DAY ∧ 0 <= t mod DAY < DAY.
Proof. unfold DAY, US. lia. Qed.

Lemma time_fields us : 0 <= us < DAY →
  let h := us / (3600 * US) in let mi := us / (60 * US) mod 60 in
  let s := us / US mod 60 in let ms := us / 1000 mod 1000 in
  0 <= h < 24 ∧ 0 <= mi < 60 ∧ 0 <= s < 60 ∧ 0 <= ms < 1000 ∧
  us / 1000 = ((h * 60 + mi) * 60 + s) * 1000 + ms.
Proof. unfold DAY, US. simpl. lia. Qed.

(** Date and time without the offset. *)
Definition iso_body (t : instant) : ustr :=
  let '(y, m, d) := ord2ymd (t / DAY) in
  let us := t mod DAY in
  iso_date y m d ++ [84%N] ++
  iso_time (us / (3600 * US)) (us / (60 * US) mod 60) (us / US mod 60) (us / 1000 mod 1000).

Lemma isoformat_body t : isoformat_ms t = iso_body t ++ u "+00:00".
Proof.
  unfold isoformat_ms, iso_body. destruct (ord2ymd _) as [[y m] d]. cbv zeta.
  by rewrite <- (app_assoc (iso_date _ _ _)), <- (app_assoc [84%N]).
Qed.

Lemma replace_go_skip old new s r :
  head old = Some 43%N → Forall (λ c, c ≠ 43%N) s →
  replace_go old new 0 (s ++ r) = s ++ replace_go old new 0 r.
Proof.
  intros Hold. destruct old as [|o old]; simplify_eq/=.
  induction 1 as [|c s Hc Hs IH]; [done|].
  cbn [app replace_go startswith]. assert ((43 =? c)%N = false) as -> by lia.
  cbn [andb]. by rewrite IH.
Qed.

Lemma digits_no_plus s : Forall (λ c, is_digit c = true) s → Forall (λ c, c ≠ 43%N) s.
Proof. intros H. eapply List.Forall_impl; [|exact H]. simpl. unfold is_digit. intros c ?. lia. Qed.

(** The pieces of the text of an instant in range. *)
Lemma iso_body_fields t : in_range t →
  let '(y, m, d) := ord2ymd (t / DAY) in
  1 <= y <= 9999 ∧ valid_date y m d ∧ ymd2ord y m d = t / DAY.
Proof.
  intros Ht. pose proof (ord2ymd_spec (t / DAY)) as Hs.
  pose proof (ord2ymd_year (t / DAY)) as Hy.
  destruct (ord2ymd (t / DAY)) as [[y m] d]. cbn [fst] in Hy.
  unfold in_range, MIN_INSTANT, MAX_INSTANT in Ht.
  split; [apply Hy; unfold DAY, US in *; lia|]. destruct Hs as (? & ? & ?). split; [by split|done].
Qed.

Lemma valid_date_small y m d : valid_date y m d → 1 <= m < 100 ∧ 1 <= d < 100.
Proof. intros [Hm Hd]. unfold days_in_month in Hd. repeat case_match; lia. Qed.

Lemma iso_body_no_plus t : in_range t → Forall (λ c, c ≠ 43%N) (iso_body t).
Proof.
  intros Ht. pose proof (iso_body_fields t Ht) as Hf. unfold iso_body.
  destruct (ord2ymd _) as [[y m] d]. destruct Hf as (Hy & Hv & _).
  apply valid_date_small in Hv. destruct (div_mod_us t) as [_ Hus].
  pose proof (time_fields _ Hus) as (? & ? & ? & ? & _). cbv zeta in *.
  unfold iso_date, iso_time.
  repeat (apply Forall_app; split);
    try (apply digits_no_plus, pad_dec_digits; simpl; lia); by repeat constructor.
Qed.

(** The wire and database form: the ISO text with [Z] for the offset. *)
Lemma format_datetime_body t : in_range t → format_datetime t = iso_body t ++ u "Z".
Proof.
  intros Ht. unfold format_datetime, replace. rewrite isoformat_body.
  change (u "+00:00") with (43%N :: u "00:00"). cbv iota.
  rewrite replace_go_skip; [|done|by apply iso_body_no_plus]. by f_equal.
Qed.

Lemma iso_body_length t : length (iso_body t) = 23%nat.
Proof.
  unfold iso_body. destruct (ord2ymd _) as [[y m] d]. unfold iso_date, iso_time.
  rewrite !length_app, !pad_dec_length. done.
Qed.

(** * Text order is time order *)

Lemma compare_lex k a b a' b' :
  0 <= b < k → 0 <= b' < k →
  Z.compare (a * k + b) (a' * k + b') =
  match Z.compare a a' with Eq => Z.compare b b' | c => c end.
Proof.
  intros Hb Hb'. destruct (Z.compare_spec a a') as [->|Ha|Ha].
  - destruct (Z.compare_spec b b'); [subst; apply Z.compare_refl|apply Z.compare_lt_iff; lia|apply Z.compare_gt_iff; lia].
  - apply Z.compare_lt_iff. nia.
  - apply Z.compare_gt_iff. nia.
Qed.

Lemma iso_date_compare y m d y' m' d' :
  1 <= y <= 9999 → 1 <= y' <= 9999 → valid_date y m d → valid_date y' m' d' →
  ustr_compare (iso_date y m d) (iso_date y' m' d') = Z.compare (ymd2ord y m d) (ymd2ord y' m' d').
Proof.
  intros Hy Hy' Hv Hv'. rewrite ymd2ord_compare by done.
  apply valid_date_small in Hv. apply valid_date_small in Hv'. unfold iso_date.
  rewrite ustr_compare_app, ustr_compare_app_same, ustr_compare_app, ustr_compare_app_same
    by (by rewrite !pad_dec_length).
  by rewrite !pad_dec_compare by (simpl; lia).
Qed.

Lemma iso_time_compare h mi s ms h' mi' s' ms' :
  0 <= h < 24 → 0 <= mi < 60 → 0 <= s < 60 → 0 <= ms < 1000 →
  0 <= h' < 24 → 0 <= mi' < 60 → 0 <= s' < 60 → 0 <= ms' < 1000 →
  ustr_compare (iso_time h mi s ms) (iso_time h' mi' s' ms') =
  Z.compare (((h * 60 + mi) * 60 + s) * 1000 + ms) (((h' * 60 + mi') * 60 + s') * 1000 + ms').
Proof.
  intros. rewrite !compare_lex by lia. unfold iso_time.
  rewrite ustr_compare_app, ustr_compare_app_same, ustr_compare_app, ustr_compare_app_same,
    ustr_compare_app, ustr_compare_app_same by (by rewrite !pad_dec_length).
  rewrite !pad_dec_compare by (simpl; lia). by repeat case_match.
Qed.

Lemma instant_ms t : t / 1000 = (t / DAY) * 86400000 + (t mod DAY) / 1000 ∧ 0 <= (t mod DAY) / 1000 < 86400000.
Proof. unfold DAY, US. lia. Qed.

(** Timestamps compare as text exactly as the instants do in milliseconds. *)
Lemma format_datetime_compare t t' :
  in_range t → in_range t' →
  ustr_compare (format_datetime t) (format_datetime t') = Z.compare (t / 1000) (t' / 1000).
Proof.
  intros Ht Ht'. rewrite !format_datetime_body by done.
  rewrite ustr_compare_app by (by rewrite !iso_body_length).
  rewrite ustr_compare_refl.
  pose proof (iso_body_fields t Ht) as Hf. pose proof (iso_body_fields t' Ht') as Hf'.
  destruct (instant_ms t) as [-> Hm], (instant_ms t') as [-> Hm'].
  destruct (div_mod_us t) as [_ Hus], (div_mod_us t') as [_ Hus'].
  pose proof (time_fields _ Hus) as (? & ? & ? & ? & E).
  pose proof (time_fields _ Hus') as (? & ? & ? & ? & E').
  rewrite compare_lex by done. rewrite E, E'. cbv zeta in *. unfold iso_body.
  destruct (ord2ymd (t / DAY)) as [[y m] d], (ord2ymd (t' / DAY)) as [[y' m'] d'].
  destruct Hf as (Hy & Hv & <-), Hf' as (Hy' & Hv' & <-). cbv zeta.
  rewrite ustr_compare_app by done. rewrite iso_date_compare by done.
  rewrite ustr_compare_app_same, iso_time_compare by done. by repeat case_match.
Qed.

Lemma format_datetime_leb t t' :
  in_range t → in_range t' →
  ustr_leb (format_datetime t) (format_datetime t') = (t / 1000 <=? t' / 1000).
Proof. intros. unfold ustr_leb. rewrite format_datetime_compare by done. unfold Z.leb. by case_match. Qed.

Lemma format_datetime_ltb t t' :
  in_range t → in_range t' →
  ustr_ltb (format_datetime t) (format_datetime t') = (t / 1000 <? t' / 1000).
Proof. intros. unfold ustr_ltb. rewrite format_datetime_compare by done. unfold Z.ltb. by case_match. Qed.

Lemma format_datetime_inj t t' :
  in_range t → in_range t' → format_datetime t = format_datetime t' → t / 1000 = t' / 1000.
Proof.
  intros Ht Ht' E. apply Z.compare_eq_iff. rewrite <- format_datetime_compare, E by done.
  apply ustr_compare_refl.
Qed.

(** * Parsing what was printed *)

Lemma partition_on_found c s t : Forall (λ d, d ≠ c) s → partition_on c (s ++ c :: t) = (s, true, t).
Proof.
  induction 1 as [|d s Hd Hs IH]; cbn [app partition_on]; [by rewrite N.eqb_refl|].
  assert ((d =? c)%N = false) as -> by lia. by rewrite IH.
Qed.

Lemma partition_on_absent c s : Forall (λ d, d ≠ c) s → partition_on c s = (s, false, []).
Proof.
  induction 1 as [|d s Hd Hs IH]; cbn [partition_on]; [done|].
  assert ((d =? c)%N = false) as -> by lia. by rewrite IH.
Qed.

Lemma replace_go_absent c old new s :
  Forall (λ d, d ≠ c) s → replace_go (c :: old) new 0 s = s.
Proof.
  induction 1 as [|d s Hd Hs IH]; [done|]. cbn [replace_go startswith].
  assert ((c =? d)%N = false) as -> by lia. cbn [andb]. by rewrite IH.
Qed.

Lemma replace_go_prefix c old new s r :
  Forall (λ d, d ≠ c) s → replace_go (c :: old) new 0 (s ++ r) = s ++ replace_go (c :: old) new 0 r.
Proof.
  induction 1 as [|d s Hd Hs IH]; [done|]. cbn [app replace_go startswith].
  assert ((c =? d)%N = false) as -> by lia. cbn [andb]. by rewrite IH.
Qed.

Lemma pad_dec_ne c w n :
  0 <= n < 10 ^ Z.of_nat w → is_digit c = false → Forall (λ d, d ≠ c) (pad_dec w n).
Proof.
  intros Hn Hc. eapply List.Forall_impl; [|exact (pad_dec_digits w n Hn)]. simpl. intros d ? ->. congruence.
Qed.

Lemma iso_time_ne c h mi s ms :
  0 <= h < 24 → 0 <= mi < 60 → 0 <= s < 60 → 0 <= ms < 1000 →
  is_digit c = false → c ≠ 58%N → c ≠ 46%N → Forall (λ d, d ≠ c) (iso_time h mi s ms).
Proof.
  intros. unfold iso_time.
  repeat (apply Forall_app; split); try (apply pad_dec_ne; [simpl; lia|done]); (constructor; [by intros <-|constructor]).
Qed.

Lemma parse_hhmmss_time h mi s ms :
  0 <= h < 24 → 0 <= mi < 60 → 0 <= s < 60 → 0 <= ms < 1000 →
  parse_hhmmss (iso_time h mi s ms) = Some (h, mi, s, ms * 1000).
Proof.
  intros. unfold parse_hhmmss, iso_time. munfold.
  rewrite parse_digits_pad by (simpl; lia). cbn [app N.eqb Pos.eqb].
  rewrite parse_digits_pad by (simpl; lia). cbn [app N.eqb Pos.eqb drop_char].
  rewrite parse_digits_pad by (simpl; lia). cbn [app].
  change (is_mark 46) with true. unfold parse_fraction. rewrite pad_dec_length.
  change (Nat.min 6 3) with 3%nat. munfold.
  rewrite <- (app_nil_r (pad_dec 3 ms)), parse_digits_pad by (simpl; lia). done.
Qed.

Lemma parse_time_iso h mi s ms :
  0 <= h < 24 → 0 <= mi < 60 → 0 <= s < 60 → 0 <= ms < 1000 →
  parse_time (iso_time h mi s ms ++ u "+00:00") = Some (h, mi, s, ms * 1000, Some 0).
Proof.
  intros. unfold parse_time, tz_split. cbv zeta.
  change (u "+00:00") with (43%N :: u "00:00").
  rewrite (partition_on_absent 45).
  2:{ apply Forall_app; split; [by apply iso_time_ne|by repeat constructor]. }
  rewrite (partition_on_found 43) by (by apply iso_time_ne).
  munfold. rewrite parse_hhmmss_time by done. done.
Qed.

Lemma parse_date_iso y m d :
  1 <= y <= 9999 → valid_date y m d → parse_date (iso_date y m d) = Some (y, m, d).
Proof.
  intros Hy Hv%valid_date_small. unfold parse_date, iso_date. munfold.
  rewrite parse_digits_pad by (simpl; lia). cbn [app].
  assert (∀ r, char_at (45%N :: r) 0 45 = true) as -> by done. cbn [tail].
  assert (char_at (pad_dec 2 m ++ 45%N :: pad_dec 2 d) 0 87 = false) as ->.
  { unfold char_at. apply bool_decide_false. cbn. intros [= E]. lia. }
  rewrite parse_digits_pad by (simpl; lia). cbn [app drop_char N.eqb Pos.eqb].
  rewrite <- (app_nil_r (pad_dec 2 d)), parse_digits_pad by (simpl; lia). done.
Qed.

Lemma separator_location_iso y m d r :
  1 <= y <= 9999 → valid_date y m d →
  separator_location (iso_date y m d ++ 84%N :: r) = Some 10%nat.
Proof.
  intros Hy Hv%valid_date_small. unfold separator_location.
  rewrite length_app. unfold iso_date at 1. rewrite !length_app, !pad_dec_length.
  cbn [length Nat.add Nat.eqb].
  assert (char_at (iso_date y m d ++ 84%N :: r) 4 45 = true) as ->.
  { unfold char_at. by apply bool_decide_true. }
  assert (char_at (iso_date y m d ++ 84%N :: r) 5 87 = false) as ->; [|done].
  unfold char_at. apply bool_decide_false. cbn. intros [= E]. lia.
Qed.

Lemma date_ok_valid y m d : 1 <= y <= 9999 → valid_date y m d → date_ok y m d = true.
Proof. intros ? [? ?]. unfold date_ok. lia. Qed.

(** [fromisoformat] inverts the printer, to the millisecond. *)
Lemma fromisoformat_iso t : in_range t →
  fromisoformat (iso_body t ++ u "+00:00") = Some (ParsedDatetime (t / 1000 * 1000) (Some 0)).
Proof.
  intros Ht. pose proof (iso_body_fields t Ht) as Hf.
  destruct (instant_ms t) as [E1 Hm]. destruct (div_mod_us t) as [_ Hus].
  pose proof (time_fields _ Hus) as (? & ? & ? & ? & E). cbv zeta in E.
  unfold fromisoformat. rewrite length_app, iso_body_length. cbn [Nat.add Nat.ltb Nat.leb length].
  rewrite E1, E. unfold iso_body. cbv zeta. destruct (ord2ymd (t / DAY)) as [[y m] d].
  destruct Hf as (Hy & Hv & <-). set (us := t mod DAY) in *.
  rewrite <- (app_assoc (iso_date y m d)), <- (app_assoc [84%N]). cbn [app]. munfold.
  rewrite separator_location_iso by done.
  change 10%nat with (length (iso_date y m d)). rewrite take_app_length, drop_app_length.
  clearbody us. set (h := us / (3600 * US)) in *. set (mi := us / (60 * US) mod 60) in *.
  set (sc := us / US mod 60) in *. set (ms := us / 1000 mod 1000) in *. clearbody h mi sc ms.
  rewrite parse_date_iso, parse_time_iso, date_ok_valid by done. cbn [negb].
  unfold time_ok. assert ((h =? 24) = false) as -> by lia.
  assert ((h <? 24) && (mi <? 60) && (sc <? 60) = true) as -> by lia.
  do 2 f_equal. unfold instant_of, DAY, US. lia.
Qed.

Lemma replace_Z_format t : in_range t →
  replace (format_datetime t) (u "Z") (u "+00:00") = iso_body t ++ u "+00:00".
Proof.
  intros Ht. rewrite format_datetime_body by done. unfold replace. change (u "Z") with [90%N]. cbv iota.
  rewrite replace_go_prefix; [done|].
  pose proof (iso_body_fields t Ht) as Hf. destruct (div_mod_us t) as [_ Hus].
  pose proof (time_fields _ Hus) as (? & ? & ? & ? & _). cbv zeta in *. unfold iso_body.
  destruct (ord2ymd (t / DAY)) as [[y m] d]. destruct Hf as (Hy & Hv%valid_date_small & _).
  unfold iso_date. repeat (apply Forall_app; split);
    first [by apply iso_time_ne | by (apply pad_dec_ne; [simpl; lia|]) | by repeat constructor].
Qed.

Lemma format_datetime_ascii t : in_range t → ascii_str (format_datetime t).
Proof.
  intros Ht. rewrite format_datetime_body by done. apply Forall_app. split; [|by repeat constructor].
  pose proof (iso_body_fields t Ht) as Hf. destruct (div_mod_us t) as [_ Hus].
  pose proof (time_fields _ Hus) as (? & ? & ? & ? & _). cbv zeta in *. unfold iso_body.
  destruct (ord2ymd (t / DAY)) as [[y m] d]. destruct Hf as (Hy & Hv%valid_date_small & _).
  unfold iso_date, iso_time. repeat (apply Forall_app; split);
    first [apply ustr_digits_ascii, pad_dec_digits; simpl; lia | by repeat constructor].
Qed.
#[export] Hint Resolve format_datetime_ascii : engine.
