(* ===== verification/Uuid.v ===== *)
(** [uuid.UUID(text)] and [str(UUID)]: the identifier check used by the
    protocol, the queue and the executor is "parses, and prints back as itself".
    The lemma [is_uuid_canonical] shows it is the 8-4-4-4-12 lowercase form. *)

From S2P Require Import Prelude PyStr Json.

Local Open Scope N_scope.

(** * [int(text, 16)] *)

(** The zero of every block of ten decimal digits in Unicode. *)
Definition digit_zeros : list N :=
  [48; 1632; 1776; 1984; 2406; 2534; 2662; 2790; 2918; 3046; 3174; 3302; 3430; 3558; 3664; 3792;
   3872; 4160; 4240; 6112; 6160; 6470; 6608; 6784; 6800; 6992; 7088; 7232; 7248; 42528; 43216;
   43264; 43472; 43504; 43600; 44016; 65296; 66720; 68912; 68928; 69734; 69872; 69942; 70096;
   70384; 70736; 70864; 71248; 71360; 71376; 71386; 71472; 71904; 72016; 72688; 72784; 73040;
   73120; 73552; 90416; 92768; 92864; 93008; 93552; 118000; 120782; 120792; 120802; 120812;
   120822; 123200; 123632; 124144; 124401; 125264; 130032].

Definition unicode_decimal (c : N) : option N :=
  match List.filter (λ z, (z <=? c) && (c <? z + 10)) digit_zeros with
  | z :: _ => Some (c - z)
  | [] => None
  end.

(** The transliteration applied to a text that is not pure ASCII. *)
Definition to_ascii_char (c : N) : N :=
  if c <? 127 then c
  else if is_space c then 32
  else match unicode_decimal c with Some d => 48 + d | None => 63 end.

Definition is_ascii (s : ustr) : bool := forallb (λ c, c <? 128) s.
Definition to_ascii (s : ustr) : ustr := if is_ascii s then s else to_ascii_char <$> s.

Definition is_c_space (c : N) : bool := ((9 <=? c) && (c <=? 13)) || (c =? 32).

(** Digits with single underscores between them; the value and the rest. *)
Fixpoint hex_digits (prev_us : bool) (acc : N) (s : ustr) : option (N * ustr) :=
  match s with
  | [] => if prev_us then None else Some (acc, [])
  | c :: s' =>
      match hexval c with
      | Some d => hex_digits false (16 * acc + d) s'
      | None => if c =? 95 then (if prev_us then None else hex_digits true acc s')
                else if prev_us then None else Some (acc, s)
      end
  end.

Definition hex_prefix (s : ustr) : ustr :=
  match s with
  | z :: x :: r =>
      if (z =? 48) && ((x =? 120) || (x =? 88)) then
        match r with c :: r' => if c =? 95 then r' else r | [] => r end
      else s
  | _ => s
  end.

Definition int_sign (s : ustr) : bool * ustr :=
  match s with
  | c :: r => if c =? 45 then (true, r) else if c =? 43 then (false, r) else (false, s)
  | [] => (false, s)
  end.

(** [int(s, 16)]; [None] is the [ValueError]. *)
Definition int_base16 (s : ustr) : option Z :=
  let '(neg, s1) := int_sign (lstrip is_c_space (to_ascii s)) in
  match hex_prefix s1 with
  | [] => None
  | (c :: _) as s2 =>
      match hexval c with
      | None => None
      | Some _ =>
          '(n, r) ← hex_digits false 0 s2;
          match lstrip is_c_space r with
          | [] => Some (if neg then (- Z.of_N n)%Z else Z.of_N n)
          | _ :: _ => None
          end
      end
  end.

(** * [uuid.UUID] *)

Definition uuid_hex (value : ustr) : ustr :=
  let hex := replace (replace value (u "urn:") []) (u "uuid:") [] in
  replace (strip (λ c, (c =? 123) || (c =? 125)) hex) (u "-") [].

(** [uuid.UUID(value)] as its 128-bit integer; [None] is the [ValueError]. *)
Definition uuid_parse (value : ustr) : option N :=
  let hex := uuid_hex value in
  if (length hex =? 32)%nat then
    n ← int_base16 hex;
    if ((0 <=? n) && (n <? 2 ^ 128))%Z then Some (Z.to_N n) else None
  else None.

(** ["%0wx" % n]. *)
Fixpoint hex_pad (w : nat) (n : N) : ustr :=
  match w with
  | O => []
  | S w => hexdigit (n / 16 ^ N.of_nat w) :: hex_pad w (n mod 16 ^ N.of_nat w)
  end.

Definition hyphenate (hex : ustr) : ustr :=
  take 8 hex ++ [45] ++ take 4 (drop 8 hex) ++ [45] ++ take 4 (drop 12 hex) ++ [45] ++
  take 4 (drop 16 hex) ++ [45] ++ drop 20 hex.

(** [str(uuid)]. *)
Definition uuid_str (n : N) : ustr := hyphenate (hex_pad 32 n).

(** [str(UUID(value)) == value]. *)
Definition is_uuid (value : ustr) : bool :=
  match uuid_parse value with
  | Some n => bool_decide (uuid_str n = value)
  | None => false
  end.

(** * The canonical form *)

Definition is_lower_hex (c : N) : bool := is_digit c || ((97 <=? c) && (c <=? 102)).

(** Thirty-two lowercase hex digits with hyphens after the 8th, 12th, 16th and 20th. *)
Definition canonical_uuid (s : ustr) : Prop :=
  ∃ hex, length hex = 32%nat ∧ Forall (λ c, is_lower_hex c = true) hex ∧ s = hyphenate hex.

(** * Lemmas *)

#[local] Ltac Zify.zify_post_hook ::= Z.to_euclidean_division_equations.

Lemma hexdigit_lower d : d < 16 → is_lower_hex (hexdigit d) = true.
Proof. unfold hexdigit, is_lower_hex, is_digit. intros. destruct (d <? 10) eqn:?; lia. Qed.

Lemma hexval_lower c : is_lower_hex c = true → ∃ d, hexval c = Some d ∧ d < 16 ∧ hexdigit d = c.
Proof.
  unfold is_lower_hex, hexval, hexdigit. intros H. destruct (is_digit c) eqn:E.
  - unfold is_digit in E. exists (c - 48). split_and!; [done|lia|].
    assert ((c - 48 <? 10) = true) as -> by lia. lia.
  - simpl in H. rewrite H. exists (c - 87). split_and!; [done|lia|].
    assert ((c - 87 <? 10) = false) as -> by lia. lia.
Qed.

Lemma hex_pad_length w n : length (hex_pad w n) = w.
Proof. revert n; induction w; intros; simpl; auto. Qed.

Lemma pow16_succ w : 16 ^ N.of_nat (S w) = 16 * 16 ^ N.of_nat w.
Proof. rewrite Nat2N.inj_succ. apply N.pow_succ_r'. Qed.

Lemma hex_pad_lower w n :
  n < 16 ^ N.of_nat w → Forall (λ c, is_lower_hex c = true) (hex_pad w n).
Proof.
  revert n; induction w as [|w IH]; intros n Hn; simpl; constructor.
  - apply hexdigit_lower. rewrite pow16_succ in Hn. apply N.Div0.div_lt_upper_bound. lia.
  - apply IH, N.mod_lt, N.pow_nonzero. lia.
Qed.

(** The value of lowercase hex digits, most significant first. *)
Definition hex_value (acc : N) (s : ustr) : N :=
  fold_left (λ acc c, 16 * acc + default 0 (hexval c)) s acc.

Lemma hex_digits_lower acc s :
  Forall (λ c, is_lower_hex c = true) s → hex_digits false acc s = Some (hex_value acc s, []).
Proof.
  intros Hs. revert acc. induction Hs as [|c s Hc Hs IH]; intros acc; [done|].
  destruct (hexval_lower c Hc) as (d & Hd & _ & _). cbn [hex_digits hex_value fold_left].
  rewrite Hd. change (default 0 (Some d)) with d. apply IH.
Qed.

Lemma hex_value_acc acc s :
  Forall (λ c, is_lower_hex c = true) s →
  hex_value acc s = acc * 16 ^ N.of_nat (length s) + hex_value 0 s ∧
  hex_value 0 s < 16 ^ N.of_nat (length s).
Proof.
  intros Hs. revert acc. induction Hs as [|c s Hc Hs IH]; intros acc.
  { simpl. split; [lia|done]. }
  destruct (hexval_lower c Hc) as (d & Hd & Hlt & _). cbn [length]. rewrite pow16_succ.
  unfold hex_value in *. cbn [fold_left]. rewrite Hd. change (default 0 (Some d)) with d.
  destruct (IH (16 * acc + d)) as [-> Hb], (IH (16 * 0 + d)) as [-> _]. nia.
Qed.

Lemma hex_pad_value s :
  Forall (λ c, is_lower_hex c = true) s → hex_pad (length s) (hex_value 0 s) = s.
Proof.
  induction 1 as [|c s Hc Hs IH]; [done|]. cbn [length hex_pad].
  destruct (hexval_lower c Hc) as (d & Hd & Hlt & Hc').
  assert (hex_value 0 (c :: s) = d * 16 ^ N.of_nat (length s) + hex_value 0 s) as E.
  { unfold hex_value at 1. cbn [fold_left]. rewrite Hd. change (default 0 (Some d)) with d.
    exact (proj1 (hex_value_acc (16 * 0 + d) s Hs)). }
  destruct (hex_value_acc 0 s Hs) as [_ Hb]. rewrite E.
  rewrite N.div_add_l, N.div_small, N.add_0_r, Hc' by lia.
  rewrite N.add_comm, N.Div0.mod_add, N.mod_small, IH by lia. done.
Qed.

(** Text without the first character of [old] is not changed by [replace]. *)
Lemma replace_absent c old new s :
  Forall (λ d, d ≠ c) s → replace s (c :: old) new = s.
Proof.
  unfold replace. induction 1 as [|d s Hd Hs IH]; [done|]. cbn [replace_go startswith].
  assert ((c =? d) = false) as -> by lia. cbn [andb]. by rewrite IH.
Qed.

(** Removing a character removes exactly its occurrences. *)
Lemma replace_go_char c s :
  replace_go [c] [] 0 s = List.filter (λ d, negb (d =? c)) s.
Proof.
  induction s as [|d s IH]; [done|]. cbn [replace_go startswith List.filter].
  destruct (N.eqb_spec c d) as [->|Hd].
  - rewrite N.eqb_refl. simpl. by rewrite IH.
  - assert ((d =? c) = false) as -> by lia. cbn [andb negb]. by rewrite IH.
Qed.

Lemma replace_char c s : replace s [c] [] = List.filter (λ d, negb (d =? c)) s.
Proof. exact (replace_go_char c s). Qed.

Lemma filter_id {A} (f : A → bool) s : Forall (λ d, f d = true) s → List.filter f s = s.
Proof. induction 1 as [|d s Hd Hs IH]; simpl; [done|]. by rewrite Hd, IH. Qed.

Lemma lstrip_id p s : Forall (λ c, p c = false) s → lstrip p s = s.
Proof. destruct 1 as [|c s Hc Hs]; simpl; [done|]. by rewrite Hc. Qed.

Lemma strip_id p s : Forall (λ c, p c = false) s → strip p s = s.
Proof.
  intros Hs. unfold strip, rstrip. rewrite (lstrip_id p s) by done.
  rewrite lstrip_id by (by apply Forall_reverse). apply reverse_involutive.
Qed.

Lemma hyphenate_parts (hex : ustr) : length hex = 32%nat →
  hex = take 8 hex ++ take 4 (drop 8 hex) ++ take 4 (drop 12 hex) ++ take 4 (drop 16 hex) ++ drop 20 hex.
Proof. intros Hl. do 33 (destruct hex as [|? hex]; try done). Qed.

Lemma Forall_hyphenate (P : N → Prop) hex :
  P 45 → Forall P hex → Forall P (hyphenate hex).
Proof.
  intros Hh Hx. unfold hyphenate.
  repeat first [apply Forall_app; split | apply Forall_take | apply Forall_drop | by constructor | done].
Qed.

Lemma hyphenate_length hex : length hex = 32%nat → length (hyphenate hex) = 36%nat.
Proof.
  intros Hl. unfold hyphenate. rewrite !length_app, !length_take, !length_drop. rewrite Hl. done.
Qed.

Lemma lower_hex_char c : is_lower_hex c = true →
  c ≠ 117 ∧ c ≠ 45 ∧ c ≠ 123 ∧ c ≠ 125 ∧ c ≠ 120 ∧ c ≠ 88 ∧ c ≠ 43 ∧ is_c_space c = false ∧ c < 127.
Proof. unfold is_lower_hex, is_digit, is_c_space. lia. Qed.

Lemma uuid_hex_canonical hex :
  length hex = 32%nat → Forall (λ c, is_lower_hex c = true) hex → uuid_hex (hyphenate hex) = hex.
Proof.
  intros Hl Hx. unfold uuid_hex.
  assert (Forall (λ c, c ≠ 117 ∧ (c =? 123) || (c =? 125) = false) (hyphenate hex)) as Hall.
  { apply Forall_hyphenate; [done|]. eapply List.Forall_impl; [|exact Hx].
    intros c ?%lower_hex_char. simpl. lia. }
  assert (Forall (λ d, d ≠ 117) (hyphenate hex)) as H117
    by (eapply List.Forall_impl; [|exact Hall]; by intros ? [? ?]).
  assert (Forall (λ c, (c =? 123) || (c =? 125) = false) (hyphenate hex)) as Hbr
    by (eapply List.Forall_impl; [|exact Hall]; by intros ? [? ?]).
  change (u "urn:") with (117 :: u "rn:"). change (u "uuid:") with (117 :: u "uid:").
  rewrite !(replace_absent 117 _ _ (hyphenate hex)) by exact H117. rewrite strip_id by done. change (u "-") with [45]. rewrite replace_char.
  unfold hyphenate. rewrite !List.filter_app. cbn [List.filter N.eqb Pos.eqb negb app].
  assert (∀ s, Forall (λ c, is_lower_hex c = true) s → List.filter (λ d, negb (d =? 45)) s = s) as Hf.
  { intros s Hs. apply filter_id. eapply List.Forall_impl; [|exact Hs].
    intros c ?%lower_hex_char. simpl. lia. }
  rewrite !Hf by (repeat (apply Forall_take || apply Forall_drop); done).
  symmetry. by apply hyphenate_parts.
Qed.

Lemma is_ascii_lower s : Forall (λ c, is_lower_hex c = true) s → is_ascii s = true.
Proof.
  intros Hs. unfold is_ascii. apply forallb_forall. intros c Hc%list_elem_of_In.
  rewrite Forall_forall in Hs. apply Hs, lower_hex_char in Hc. lia.
Qed.

Lemma int_base16_lower s :
  s ≠ [] → Forall (λ c, is_lower_hex c = true) s → int_base16 s = Some (Z.of_N (hex_value 0 s)).
Proof.
  intros Hne Hs. unfold int_base16, to_ascii. rewrite is_ascii_lower by done.
  destruct s as [|c s]; [done|]. inversion Hs as [|? ? Hc Hs']; simplify_eq.
  pose proof (lower_hex_char c Hc) as (? & ? & ? & ? & ? & ? & ? & Hsp & ?).
  cbn [lstrip]. rewrite Hsp. cbn [int_sign].
  assert ((c =? 45) = false) as -> by lia. assert ((c =? 43) = false) as -> by lia.
  assert (hex_prefix (c :: s) = c :: s) as ->.
  { destruct s as [|x r]; [done|]. cbn [hex_prefix].
    inversion Hs' as [|? ? Hx _]; simplify_eq. apply lower_hex_char in Hx.
    assert (((x =? 120) || (x =? 88)) = false) as -> by lia. by rewrite andb_false_r. }
  destruct (hexval_lower c Hc) as (d & Hd & _). rewrite Hd. munfold.
  by rewrite hex_digits_lower.
Qed.

Lemma pow16_128 : 16 ^ N.of_nat 32 = 2 ^ 128.
Proof. change 16 with (2 ^ 4). by rewrite <- N.pow_mul_r. Qed.
Lemma Z_2_128 : (2 ^ 128)%Z = Z.of_N (2 ^ 128).
Proof. symmetry. exact (N2Z.inj_pow 2 128). Qed.

Lemma uuid_parse_bound value n : uuid_parse value = Some n → n < 2 ^ 128.
Proof.
  unfold uuid_parse. rewrite Z_2_128. generalize (2 ^ 128) as k. intros k.
  destruct (_ =? _)%nat; [|done]. munfold. destruct (int_base16 _) as [z|]; [|done].
  destruct ((0 <=? z) && (z <? Z.of_N k))%Z eqn:Hz; intros [= <-]. lia.
Qed.

Lemma uuid_parse_canonical hex :
  length hex = 32%nat → Forall (λ c, is_lower_hex c = true) hex →
  uuid_parse (hyphenate hex) = Some (hex_value 0 hex).
Proof.
  intros Hl Hx. unfold uuid_parse. rewrite uuid_hex_canonical, Hl, int_base16_lower by (done || by intros ->).
  destruct (hex_value_acc 0 hex Hx) as [_ Hb]. rewrite Hl, pow16_128 in Hb. rewrite Z_2_128. revert Hb.
  generalize (2 ^ 128) as k. intros k Hb. munfold. rewrite Nat.eqb_refl.
  assert ((0 <=? Z.of_N (hex_value 0 hex)) && (Z.of_N (hex_value 0 hex) <? Z.of_N k) = true)%Z as -> by lia.
  by rewrite N2Z.id.
Qed.

Lemma is_uuid_canonical value : is_uuid value = true ↔ canonical_uuid value.
Proof.
  unfold is_uuid, canonical_uuid. split.
  - destruct (uuid_parse value) as [n|] eqn:E; [|done]. intros <-%bool_decide_eq_true.
    exists (hex_pad 32 n). split_and!; [apply hex_pad_length| |done].
    apply hex_pad_lower. rewrite pow16_128. by eapply uuid_parse_bound.
  - intros (hex & Hl & Hx & ->). rewrite uuid_parse_canonical by done.
    apply bool_decide_true. unfold uuid_str. rewrite <- Hl. by rewrite hex_pad_value.
Qed.

Lemma is_uuid_length value : is_uuid value = true → length value = 36%nat.
Proof. intros (hex & Hl & _ & ->)%is_uuid_canonical. by apply hyphenate_length. Qed.

Lemma is_uuid_nonempty value : is_uuid value = true → value ≠ [].
Proof. intros Hl%is_uuid_length ->. done. Qed.

Lemma is_uuid_ascii value : is_uuid value = true → ascii_str value.
Proof.
  intros (hex & _ & Hx & ->)%is_uuid_canonical. apply Forall_hyphenate; [done|].
  eapply List.Forall_impl; [|exact Hx]. intros c Hc%lower_hex_char. simpl. lia.
Qed.

#[export] Hint Resolve is_uuid_nonempty is_uuid_ascii : engine.
