(* ===== verification/Protocol.v ===== *)
(** The agent wire protocol, version 2 (src/src/build_engine/agent/protocol.py):
    envelopes, their validation, encoding and decoding.  The clock read by the
    validator ([datetime.now(UTC)]) and the fresh identifier ([uuid.uuid4()])
    are arguments. *)

From Corelib Require Import SpecFloat.
From S2P Require Import Prelude PyStr PyFloat Dict Json Clock Uuid.

Local Open Scope Z_scope.

(** * Constants *)

Definition PROTOCOL_VERSION : Z := 2.
Definition MAX_FRAME_BYTES : N := 1048576.
Definition MAX_LOG_DATA_BYTES : N := 65536.
Definition MAX_TIMESTAMP_SKEW : Z := seconds 300.
Definition ZERO_ENGINE_ID : ustr := u "00000000-0000-0000-0000-000000000000".

Definition INBOUND_MESSAGE_TYPES : list ustr :=
  [u "welcome"; u "job.assign"; u "job.cancel"; u "cache.reset"; u "drain"; u "ping"; u "event.ack"].
Definition OUTBOUND_MESSAGE_TYPES : list ustr :=
  [u "hello"; u "attempt.status"; u "attempt.log"; u "artifact.ready"; u "error"; u "heartbeat"; u "pong"].
Definition ALL_MESSAGE_TYPES : list ustr := INBOUND_MESSAGE_TYPES ++ OUTBOUND_MESSAGE_TYPES.

Definition protocol_error (msg : ustr) : exn := PyExn ProtocolError msg.

(** * Envelopes *)

(** [v] is the decoded JSON number: [2] and [2.0] both pass the version test. *)
Record Envelope := MkEnvelope {
  env_v : json;
  env_id : ustr;
  env_type : ustr;
  env_ts : ustr;
  env_payload : jdict;
  env_engine_id : ustr;
  env_build_job_id : option ustr;
  env_attempt_id : option ustr;
  env_seq : option Z;
}.

Definition opt_field {A} (k : ustr) (f : A → json) (o : option A) : jdict :=
  match o with Some a => [(k, f a)] | None => [] end.

Definition to_dict (e : Envelope) : jdict :=
  [(u "v", env_v e); (u "id", JStr (env_id e)); (u "type", JStr (env_type e));
   (u "ts", JStr (env_ts e)); (u "engine_id", JStr (env_engine_id e));
   (u "payload", JObj (env_payload e))]
  ++ opt_field (u "build_job_id") JStr (env_build_job_id e)
  ++ opt_field (u "attempt_id") JStr (env_attempt_id e)
  ++ opt_field (u "seq") JInt (env_seq e).

Definition to_json (e : Envelope) : result ustr :=
  let encoded := dumps (compact true) (JObj (to_dict e)) in
  n ← utf8_len encoded;
  if (MAX_FRAME_BYTES <? n)%N then Err (protocol_error (u "Frame exceeds 1 MiB")) else Ok encoded.

(** * Text of a value in an error message ([f"{value}"]) *)

Definition repr_char (q c : N) : ustr :=
  if ((c =? q) || (c =? 92))%N then [92%N; c]
  else if (c =? 10)%N then u "\n" else if (c =? 13)%N then u "\r" else if (c =? 9)%N then u "\t"
  else if ((c <? 32) || ((127 <=? c) && (c <? 161)) || (c =? 173))%N
       then u "\x" ++ [hexdigit (c / 16); hexdigit (c mod 16)]
  else if is_surrogate c then u "\u" ++ hex4 c else [c].

Definition py_repr_str (s : ustr) : ustr :=
  let q := if contains s [39%N] && negb (contains s [34%N]) then 34%N else 39%N in
  q :: concat (repr_char q <$> s) ++ [q].

Fixpoint py_repr (j : json) : ustr :=
  match j with
  | JNull => u "None"
  | JBool b => if b then u "True" else u "False"
  | JInt z => str_of_Z z
  | JFloat S754_nan => u "nan"
  | JFloat (S754_infinity s) => if s then u "-inf" else u "inf"
  | JFloat f => float_repr f
  | JStr s => py_repr_str s
  | JList l => u "[" ++ join (u ", ") (map py_repr l) ++ u "]"
  | JObj o => u "{" ++ join (u ", ") (map (λ kv, py_repr_str kv.1 ++ u ": " ++ py_repr kv.2) o) ++ u "}"
  end.

Definition py_str (j : json) : ustr := match j with JStr s => s | _ => py_repr j end.

(** * Validation *)

Definition require_uuid (value : json) (label : ustr) : result () :=
  match value with
  | JStr s =>
      match uuid_parse s with
      | None => Err (protocol_error (label ++ u " must be a UUID string"))
      | Some n => fail_if (negb (ustr_eqb (uuid_str n) s))
                    (protocol_error (label ++ u " must be a canonical UUID string"))
      end
  | _ => Err (protocol_error (label ++ u " must be a UUID string"))
  end.

Definition parse_timestamp (value : ustr) : result instant :=
  match fromisoformat (replace value (u "Z") (u "+00:00")) with
  | None => Err (protocol_error (u "Envelope ts must be an ISO datetime"))
  | Some p => match pd_instant p with
              | None => Err (protocol_error (u "Envelope ts must include timezone information"))
              | Some t => Ok t
              end
  end.

Definition ENVELOPE_FIELDS : list ustr :=
  [u "v"; u "id"; u "type"; u "ts"; u "engine_id"; u "build_job_id"; u "attempt_id"; u "seq"; u "payload"].
Definition REQUIRED_FIELDS : list ustr :=
  [u "v"; u "id"; u "type"; u "ts"; u "engine_id"; u "payload"].

(** [allowed_types or ALL_MESSAGE_TYPES]. *)
Definition allowed_or_all (allowed : option (list ustr)) : list ustr :=
  match allowed with Some (t :: ts) => t :: ts | _ => ALL_MESSAGE_TYPES end.

(** [data[key]], after the key is known to be present. *)
Definition field (k : ustr) (d : jdict) : json := default JNull (dget k d).

Definition check_optional_uuid (key : ustr) (d : jdict) : result () :=
  match dget key d with
  | Some v => require_uuid v (u "Envelope " ++ key)
  | None => Ok ()
  end.

Definition check_seq (d : jdict) : result () :=
  match dget (u "seq") d with
  | None => Ok ()
  | Some v =>
      match v with
      | JInt n => fail_if (n <? 0) (protocol_error (u "Envelope seq must be a non-negative integer"))
      | _ => Err (protocol_error (u "Envelope seq must be a non-negative integer"))
      end;;
      match dget (u "attempt_id") d with
      | None | Some JNull => Err (protocol_error (u "Envelope seq requires attempt_id"))
      | Some _ => Ok ()
      end
  end.

Definition check_log (type : ustr) (payload : jdict) : result () :=
  if ustr_eqb type (u "attempt.log") then
    match dget (u "data") payload with
    | Some (JStr s) =>
        n ← utf8_len s;
        fail_if (MAX_LOG_DATA_BYTES <? n)%N (protocol_error (u "Log payload exceeds 64 KiB"))
    | _ => Ok ()
    end
  else Ok ().

Definition validate_envelope (now : instant) (allowed_types : option (list ustr)) (raw : json)
    : result jdict :=
  match raw with
  | JObj data =>
      let unknown := List.filter (λ k, negb (mem_str k ENVELOPE_FIELDS)) (dkeys data) in
      fail_if (negb (bool_decide (unknown = [])))
        (protocol_error (u "Envelope contains unknown fields: "
                           ++ join (u ", ") (sort_by ustr_leb unknown)));;
      let missing := List.filter (λ k, negb (dmem k data)) REQUIRED_FIELDS in
      fail_if (negb (bool_decide (missing = [])))
        (protocol_error (u "Envelope missing required fields: " ++ join (u ", ") missing));;
      fail_if (negb (json_eq_int (field (u "v") data) PROTOCOL_VERSION))
        (protocol_error (u "Unsupported protocol version: " ++ py_str (field (u "v") data)));;
      require_uuid (field (u "id") data) (u "Envelope id");;
      type ← match field (u "type") data with
             | JStr t => Ok t
             | _ => Err (protocol_error (u "Envelope type must be a string"))
             end;
      fail_if (negb (mem_str type (allowed_or_all allowed_types)))
        (protocol_error (u "Unknown message type: " ++ type));;
      ts ← match field (u "ts") data with
           | JStr s => Ok s
           | _ => Err (protocol_error (u "Envelope ts must be a string"))
           end;
      timestamp ← parse_timestamp ts;
      fail_if ((timestamp <? now - MAX_TIMESTAMP_SKEW) || (now + MAX_TIMESTAMP_SKEW <? timestamp))
        (protocol_error (u "Envelope ts is outside the accepted clock-skew window"));;
      require_uuid (field (u "engine_id") data) (u "Envelope engine_id");;
      payload ← match field (u "payload") data with
                | JObj p => Ok p
                | _ => Err (protocol_error (u "Envelope payload must be an object"))
                end;
      check_optional_uuid (u "build_job_id") data;;
      check_optional_uuid (u "attempt_id") data;;
      check_seq data;;
      check_log type payload;;
      Ok data
  | _ => Err (protocol_error (u "Envelope must be a JSON object"))
  end.

Definition as_str (o : option json) : option ustr :=
  match o with Some (JStr s) => Some s | _ => None end.
Definition as_int (o : option json) : option Z :=
  match o with Some (JInt n) => Some n | _ => None end.
Definition as_obj (o : option json) : option jdict :=
  match o with Some (JObj d) => Some d | _ => None end.

(** [Envelope(v=data["v"], ...)] for validated data. *)
Definition envelope_of (data : jdict) : Envelope :=
  MkEnvelope (field (u "v") data)
    (default [] (as_str (dget (u "id") data)))
    (default [] (as_str (dget (u "type") data)))
    (default [] (as_str (dget (u "ts") data)))
    (default [] (as_obj (dget (u "payload") data)))
    (default [] (as_str (dget (u "engine_id") data)))
    (as_str (dget (u "build_job_id") data))
    (as_str (dget (u "attempt_id") data))
    (as_int (dget (u "seq") data)).

Definition envelope_from_mapping (now : instant) (allowed_types : option (list ustr)) (raw : json)
    : result Envelope :=
  data ← validate_envelope now allowed_types raw; Ok (envelope_of data).

(** [a or b] for optional strings. *)
Definition str_or (a : option ustr) (b : ustr) : ustr :=
  match a with Some (c :: s) => c :: s | _ => b end.

Definition new_envelope (now : instant) (fresh_id : ustr) (message_type : ustr) (payload : jdict)
    (engine_id : ustr) (build_job_id attempt_id : option ustr) (seq : option Z)
    (message_id : option ustr) (timestamp : option instant) : result Envelope :=
  let envelope := MkEnvelope (JInt PROTOCOL_VERSION) (str_or message_id fresh_id) message_type
    (format_datetime (default now timestamp)) payload engine_id build_job_id attempt_id seq in
  validate_envelope now None (JObj (to_dict envelope));;
  Ok envelope.

(** A websocket frame is text or binary. *)
Inductive frame := FrameText (s : ustr) | FrameBytes (b : list N).

Definition too_big : exn := protocol_error (u "Frame exceeds 1 MiB").

Definition decode_frame (now : instant) (allowed_types : option (list ustr)) (f : frame)
    : result Envelope :=
  text ← match f with
         | FrameBytes b =>
             fail_if (MAX_FRAME_BYTES <? N.of_nat (length b))%N too_big;;
             match utf8_decode b with
             | Ok s => Ok s
             | Err e => if isinstance e UnicodeDecodeError
                        then Err (protocol_error (u "Frame is not valid UTF-8")) else Err e
             end
         | FrameText s =>
             n ← utf8_len s;
             fail_if (MAX_FRAME_BYTES <? n)%N too_big;;
             Ok s
         end;
  raw ← match loads text with
        | Ok j => Ok j
        | Err e => if isinstance e JSONDecodeError
                   then Err (protocol_error (u "Frame is not valid JSON")) else Err e
        end;
  envelope_from_mapping now allowed_types raw.

(** * Reading payloads *)

Definition string_payload (payload : jdict) (key : ustr) : result (option ustr) :=
  match dget key payload with
  | None | Some JNull => Ok None
  | Some (JStr s) => if is_uuid s then Ok (Some s)
                     else Err (protocol_error (u "payload " ++ key ++ u " must be a UUID string"))
  | Some _ => Err (protocol_error (u "payload " ++ key ++ u " must be a UUID string"))
  end.

Definition or_payload (top : option ustr) (payload : jdict) (key : ustr) : result (option ustr) :=
  match top with
  | Some (c :: s) => Ok (Some (c :: s))
  | _ => string_payload payload key
  end.

Definition attempt_fields (e : Envelope) : result (ustr * ustr) :=
  b ← or_payload (env_build_job_id e) (env_payload e) (u "build_job_id");
  a ← or_payload (env_attempt_id e) (env_payload e) (u "attempt_id");
  match b, a with
  | Some b, Some a => Ok (b, a)
  | _, _ => Err (protocol_error (u "Attempt-scoped message requires build_job_id and attempt_id"))
  end.

Definition last_seq_error : exn :=
  protocol_error (u "welcome last_seq values must map attempt IDs to integers").

Fixpoint read_sequences (raw : jdict) (acc : list (ustr * Z)) : result (list (ustr * Z)) :=
  match raw with
  | [] => Ok acc
  | (a, JInt n) :: raw' =>
      if negb (is_uuid a) || (n <? 0) then Err last_seq_error else read_sequences raw' (dset a n acc)
  | _ :: _ => Err last_seq_error
  end.

Definition last_sequences (payload : jdict) : result (list (ustr * Z)) :=
  match default (default (JObj []) (dget (u "last_sequences") payload)) (dget (u "last_seq") payload) with
  | JNull => Ok []
  | JObj raw => read_sequences raw []
  | _ => Err (protocol_error (u "welcome last_seq must be an object"))
  end.

(** * The contract of a valid envelope *)

Definition uuid_value (v : json) : Prop := ∃ s, v = JStr s ∧ canonical_uuid s.

(** [ts] names the instant [t] and carries an offset. *)
Definition names_instant (ts : ustr) (t : instant) : Prop :=
  ∃ p, fromisoformat (replace ts (u "Z") (u "+00:00")) = Some p ∧ pd_instant p = Some t.

Definition log_data_ok (type : ustr) (payload : jdict) : Prop :=
  type = u "attempt.log" → ∀ s, dget (u "data") payload = Some (JStr s) →
  ∃ n, utf8_len s = Ok n ∧ (n <= MAX_LOG_DATA_BYTES)%N.

Record wire_contract (now : instant) (allowed : list ustr) (d : jdict) : Prop := WireContract {
  wc_fields : ∀ k, k ∈ dkeys d → k ∈ ENVELOPE_FIELDS;
  wc_version : ∃ v, dget (u "v") d = Some v ∧ json_eq_int v 2 = true;
  wc_id : ∃ v, dget (u "id") d = Some v ∧ uuid_value v;
  wc_ts : ∃ ts t, dget (u "ts") d = Some (JStr ts) ∧ names_instant ts t ∧
            now - MAX_TIMESTAMP_SKEW <= t <= now + MAX_TIMESTAMP_SKEW;
  wc_engine : ∃ v, dget (u "engine_id") d = Some v ∧ uuid_value v;
  wc_payload : ∃ ty p, dget (u "type") d = Some (JStr ty) ∧ ty ∈ allowed ∧
                 dget (u "payload") d = Some (JObj p) ∧ log_data_ok ty p;
  wc_build : ∀ v, dget (u "build_job_id") d = Some v → uuid_value v;
  wc_attempt : ∀ v, dget (u "attempt_id") d = Some v → uuid_value v;
  wc_seq : ∀ v, dget (u "seq") d = Some v →
             (∃ n, v = JInt n ∧ 0 <= n) ∧ ∃ a, dget (u "attempt_id") d = Some a;
}.

(** * Lemmas: the checks one by one *)

Lemma fail_if_Ok b e : fail_if b e = Ok () ↔ b = false.
Proof. by destruct b. Qed.

Lemma result_bind_Ok {A B} (m : result A) (f : A → result B) b :
  (m ≫= f) = Ok b ↔ ∃ a, m = Ok a ∧ f a = Ok b.
Proof. split; [apply result_bind_Ok_inv|]. by intros (a & -> & Hf). Qed.

Lemma require_uuid_Ok v label : require_uuid v label = Ok () ↔ uuid_value v.
Proof.
  unfold require_uuid, uuid_value. destruct v; try (split; [done|by intros (? & ? & _)]).
  pose proof (is_uuid_canonical s) as Hc. unfold is_uuid in Hc. unfold ustr_eqb.
  destruct (uuid_parse s) as [n|].
  - rewrite fail_if_Ok, negb_false_iff, Hc. split; [eauto|]. by intros (? & [= <-] & ?).
  - split; [done|]. intros (s' & [= <-] & Hs). by apply Hc in Hs.
Qed.

Lemma require_uuid_err v label e : require_uuid v label = Err e → ∃ m, e = protocol_error m.
Proof. unfold require_uuid, fail_if. intros H. repeat case_match; simplify_eq; eauto. Qed.

Lemma parse_timestamp_Ok ts t : parse_timestamp ts = Ok t ↔ names_instant ts t.
Proof.
  unfold parse_timestamp, names_instant. destruct (fromisoformat _) as [p|].
  - destruct (pd_instant p) as [t'|] eqn:E; split.
    + intros [= <-]. eauto.
    + intros (p' & [= <-] & Hp). congruence.
    + done.
    + intros (p' & [= <-] & Hp). congruence.
  - split; [done|]. by intros (? & ? & _).
Qed.

Lemma parse_timestamp_err ts e : parse_timestamp ts = Err e → ∃ m, e = protocol_error m.
Proof. unfold parse_timestamp. intros H. repeat case_match; simplify_eq; eauto. Qed.

Lemma names_instant_format t : in_range t → names_instant (format_datetime t) (t / 1000 * 1000).
Proof.
  intros Ht. eexists. rewrite replace_Z_format, fromisoformat_iso by done. split; [done|].
  unfold pd_instant. munfold. cbn [pd_offset pd_local]. by rewrite Z.sub_0_r.
Qed.

Lemma check_optional_uuid_Ok k d :
  check_optional_uuid k d = Ok () ↔ ∀ v, dget k d = Some v → uuid_value v.
Proof.
  unfold check_optional_uuid. destruct (dget k d) as [v|].
  - rewrite require_uuid_Ok. split; [by intros ? ? [= <-]|by intros H; apply H].
  - by split.
Qed.

Lemma check_seq_Ok d :
  (∀ v, dget (u "attempt_id") d = Some v → uuid_value v) →
  check_seq d = Ok () ↔ ∀ v, dget (u "seq") d = Some v →
    (∃ n, v = JInt n ∧ 0 <= n) ∧ ∃ a, dget (u "attempt_id") d = Some a.
Proof.
  intros Hu. unfold check_seq. destruct (dget (u "seq") d) as [v|]; [|by split].
  rewrite result_bind_Ok. split.
  - intros ([] & Hn & Ha) ? [= <-]. split.
    + destruct v; try done. apply fail_if_Ok in Hn. eexists; split; [done|lia].
    + repeat case_match; simplify_eq; eauto.
  - intros H. destruct (H v eq_refl) as [(n & -> & Hn) (a & Ha)]. exists (). split.
    + apply fail_if_Ok. lia.
    + rewrite Ha. destruct (Hu _ Ha) as (s & -> & _). done.
Qed.

Lemma check_log_Ok ty p : check_log ty p = Ok () ↔ log_data_ok ty p.
Proof.
  unfold check_log, log_data_ok, ustr_eqb. case_bool_decide as E; [|by split].
  split.
  - intros H _ s Hs. rewrite Hs in H. apply result_bind_Ok in H as (n & Hn & Hf).
    apply fail_if_Ok in Hf. exists n. split; [done|lia].
  - intros H. destruct (dget (u "data") p) as [[]|]; try done.
    destruct (H E _ eq_refl) as (n & Hn & Hle). apply result_bind_Ok. exists n.
    split; [done|]. apply fail_if_Ok. lia.
Qed.

Lemma check_seq_err d e : check_seq d = Err e → ∃ m, e = protocol_error m.
Proof. unfold check_seq, fail_if. munfold. intros H. repeat case_match; simplify_eq; eauto. Qed.

Lemma check_log_err ty p e :
  check_log ty p = Err e → (∃ m, e = protocol_error m) ∨ e = surrogate_error.
Proof.
  unfold check_log, fail_if, utf8_len. munfold. intros H. repeat case_match; simplify_eq; eauto.
  right. by eapply utf8_encode_err.
Qed.

Lemma allowed_or_all_None : allowed_or_all None = ALL_MESSAGE_TYPES.
Proof. done. Qed.

Lemma filter_nil_Forall {A} (f : A → bool) l : List.filter f l = [] ↔ Forall (λ x, f x = false) l.
Proof.
  induction l as [|x l IH]; simpl; [split; [constructor|done]|].
  destruct (f x) eqn:E; split; intros H; try done.
  - inversion H; congruence.
  - constructor; [done|by apply IH].
  - inversion H. by apply IH.
Qed.

Lemma unknown_nil (d : jdict) :
  List.filter (λ k, negb (mem_str k ENVELOPE_FIELDS)) (dkeys d) = [] ↔
  ∀ k, k ∈ dkeys d → k ∈ ENVELOPE_FIELDS.
Proof.
  rewrite filter_nil_Forall, Forall_forall. unfold mem_str.
  split; intros H k Hk; specialize (H k Hk); case_bool_decide; done.
Qed.

Lemma missing_nil (d : jdict) :
  List.filter (λ k, negb (dmem k d)) REQUIRED_FIELDS = [] ↔
  ∀ k, k ∈ REQUIRED_FIELDS → ∃ v, dget k d = Some v.
Proof.
  rewrite filter_nil_Forall, Forall_forall. setoid_rewrite negb_false_iff.
  split; intros H k Hk; apply dmem_spec; by apply H.
Qed.

Lemma field_Some k v (d : jdict) : dget k d = Some v → field k d = v.
Proof. unfold field. by intros ->. Qed.

(** A failed [if] test stops a computation. *)
Lemma fail_if_bind_Ok {A} b e (m : result A) r :
  (fail_if b e;; m) = Ok r ↔ b = false ∧ m = Ok r.
Proof. destruct b; simpl; munfold; naive_solver. Qed.

Lemma unit_bind_Ok {A} (c : result ()) (m : result A) r :
  (c;; m) = Ok r ↔ c = Ok () ∧ m = Ok r.
Proof. munfold. destruct c as [[]|]; naive_solver. Qed.

Lemma validate_inv now allowed raw d :
  validate_envelope now allowed raw = Ok d →
  raw = JObj d ∧ wire_contract now (allowed_or_all allowed) d.
Proof.
  unfold validate_envelope. destruct raw as [| | | | | |d']; try done. cbv zeta. intros H.
  apply fail_if_bind_Ok in H as [Hunk H]. apply fail_if_bind_Ok in H as [Hmiss H].
  apply fail_if_bind_Ok in H as [Hv H]. apply unit_bind_Ok in H as [Hid H].
  apply result_bind_Ok in H as (ty & Hty & H). apply fail_if_bind_Ok in H as [Hal H].
  apply result_bind_Ok in H as (ts & Hts & H). apply result_bind_Ok in H as (t & Ht & H).
  apply fail_if_bind_Ok in H as [Hskew H]. apply unit_bind_Ok in H as [Heng H].
  apply result_bind_Ok in H as (p & Hp & H). apply unit_bind_Ok in H as [Hb H].
  apply unit_bind_Ok in H as [Ha H]. apply unit_bind_Ok in H as [Hs H].
  apply unit_bind_Ok in H as [Hl H]. injection H as ->. split; [done|].
  apply negb_false_iff, bool_decide_eq_true in Hunk, Hmiss.
  rewrite unknown_nil in Hunk. rewrite missing_nil in Hmiss.
  apply require_uuid_Ok in Hid, Heng. apply parse_timestamp_Ok in Ht.
  rewrite check_optional_uuid_Ok in Hb, Ha. rewrite check_seq_Ok in Hs by done.
  apply check_log_Ok in Hl.
  destruct (Hmiss (u "v")) as [vv Ev]; [set_solver|]. rewrite (field_Some _ _ _ Ev) in Hv.
  destruct (Hmiss (u "id")) as [vi Ei]; [set_solver|]. rewrite (field_Some _ _ _ Ei) in Hid.
  destruct (Hmiss (u "type")) as [vt Et]; [set_solver|]. rewrite (field_Some _ _ _ Et) in Hty.
  destruct (Hmiss (u "ts")) as [vts Ets]; [set_solver|]. rewrite (field_Some _ _ _ Ets) in Hts.
  destruct (Hmiss (u "engine_id")) as [ve Ee]; [set_solver|]. rewrite (field_Some _ _ _ Ee) in Heng.
  destruct (Hmiss (u "payload")) as [vp Ep]; [set_solver|]. rewrite (field_Some _ _ _ Ep) in Hp.
  destruct vt; simplify_eq. destruct vts; simplify_eq. destruct vp; simplify_eq.
  split; try done.
  - exists vv. split; [done|]. by apply negb_false_iff.
  - by exists vi.
  - exists ts, t. split_and!; [done|done|lia..].
  - by exists ve.
  - exists ty, p. split_and!; try done. unfold mem_str in Hal.
    by apply negb_false_iff, bool_decide_eq_true in Hal.
Qed.

Lemma validate_complete now allowed d :
  wire_contract now (allowed_or_all allowed) d → validate_envelope now allowed (JObj d) = Ok d.
Proof.
  intros [Hf (vv & Ev & Hv) (vi & Ei & Hi) (ts & t & Ets & Ht & Hskew) (ve & Ee & He)
    (ty & p & Et & Hal & Ep & Hl) Hb Ha Hs].
  unfold validate_envelope. cbv zeta.
  rewrite (field_Some _ _ _ Ev), (field_Some _ _ _ Ei), (field_Some _ _ _ Et),
    (field_Some _ _ _ Ets), (field_Some _ _ _ Ee), (field_Some _ _ _ Ep).
  apply fail_if_bind_Ok. split; [by apply negb_false_iff, bool_decide_eq_true, unknown_nil|].
  apply fail_if_bind_Ok. split.
  { apply negb_false_iff, bool_decide_eq_true, missing_nil. intros k Hk.
    unfold REQUIRED_FIELDS in Hk. rewrite !elem_of_cons in Hk. destruct_or! Hk; subst; try set_solver; eauto. }
  apply fail_if_bind_Ok. split; [by apply negb_false_iff|].
  apply unit_bind_Ok. split; [by apply require_uuid_Ok|]. munfold.
  assert (mem_str ty (allowed_or_all allowed) = true) as -> by (by apply bool_decide_true).
  cbn [negb fail_if]. apply parse_timestamp_Ok in Ht. rewrite Ht.
  assert ((t <? now - MAX_TIMESTAMP_SKEW) || (now + MAX_TIMESTAMP_SKEW <? t) = false) as -> by lia.
  cbn [fail_if]. apply require_uuid_Ok with (label := u "Envelope engine_id") in He. rewrite He.
  assert (check_optional_uuid (u "build_job_id") d = Ok ()) as -> by (by apply check_optional_uuid_Ok).
  assert (check_optional_uuid (u "attempt_id") d = Ok ()) as -> by (by apply check_optional_uuid_Ok).
  assert (check_seq d = Ok ()) as -> by (by apply check_seq_Ok).
  by assert (check_log ty p = Ok ()) as -> by (by apply check_log_Ok).
Qed.

(** What the validator raises. *)
Definition validation_error (e : exn) : Prop := (∃ m, e = protocol_error m) ∨ e = surrogate_error.

Lemma protocol_validation_error m : validation_error (protocol_error m).
Proof. left. eauto. Qed.

Lemma fail_if_err b m e : fail_if b (protocol_error m) = Err e → validation_error e.
Proof. destruct b; intros [= <-]. apply protocol_validation_error. Qed.

Lemma fail_if_ProtocolError b m e :
  fail_if b (protocol_error m) = Err e → isinstance e ProtocolError = true.
Proof. by destruct b; intros [= <-]. Qed.

Lemma validate_err now allowed raw e :
  validate_envelope now allowed raw = Err e → validation_error e.
Proof.
  unfold validate_envelope. destruct raw; try (intros [= <-]; apply protocol_validation_error).
  cbv zeta. revert e. pose proof protocol_validation_error.
  repeat first
    [ apply result_bind_Err_all;
        [ intros e; first [apply fail_if_err | intros ?%require_uuid_err; by left
            | intros ?%parse_timestamp_err; by left | intros ?%check_seq_err; by left
            | apply check_log_err
            | unfold check_optional_uuid; case_match; [intros ?%require_uuid_err; by left|done]
            | case_match; intros [= <-]; eauto ]
        | intros ? e _; revert e ]
    | done ].
Qed.

(** * Lemmas: encoding and decoding envelopes *)

Lemma utf8_decode_err fuel b e :
  utf8_decode_go fuel b = Err e → ∃ m, e = PyExn UnicodeDecodeError m.
Proof.
  revert b; induction fuel as [|fuel IH]; intros [|c b]; cbn [utf8_decode_go]; try done.
  - intros [= <-]. eauto.
  - repeat case_match; intros; simplify_eq; eauto.
Qed.

(** The payload as it comes back: members sorted by key. *)
Definition sorted_payload (p : jdict) : jdict :=
  map (λ kv, (kv.1, json_norm true kv.2)) (printed true p).

Definition normalised (e : Envelope) : Envelope :=
  MkEnvelope (env_v e) (env_id e) (env_type e) (env_ts e) (sorted_payload (env_payload e))
    (env_engine_id e) (env_build_job_id e) (env_attempt_id e) (env_seq e).

Lemma dget_sorted_payload k p :
  NoDup (dkeys p) → dget k (sorted_payload p) = json_norm true <$> dget k p.
Proof.
  intros Hp. unfold sorted_payload. rewrite (dget_map (json_norm true)). f_equal.
  apply dget_perm; [|apply printed_perm].
  unfold dkeys in *. by rewrite (printed_perm true p).
Qed.

Lemma dkeys_sorted_payload p : dkeys (sorted_payload p) ≡ₚ dkeys p.
Proof.
  unfold sorted_payload. rewrite (dkeys_map (json_norm true)). unfold dkeys. by rewrite printed_perm.
Qed.

(** The fields of the dict of an envelope. *)
Definition envelope_field (e : Envelope) (k : ustr) : option json :=
  if decide (k = u "v") then Some (env_v e)
  else if decide (k = u "id") then Some (JStr (env_id e))
  else if decide (k = u "type") then Some (JStr (env_type e))
  else if decide (k = u "ts") then Some (JStr (env_ts e))
  else if decide (k = u "engine_id") then Some (JStr (env_engine_id e))
  else if decide (k = u "payload") then Some (JObj (env_payload e))
  else if decide (k = u "build_job_id") then JStr <$> env_build_job_id e
  else if decide (k = u "attempt_id") then JStr <$> env_attempt_id e
  else if decide (k = u "seq") then JInt <$> env_seq e
  else None.

Lemma dget_to_dict e k : dget k (to_dict e) = envelope_field e k.
Proof.
  unfold to_dict, envelope_field. cbn [app dget]. repeat (case_decide; [done|]).
  destruct (env_build_job_id e), (env_attempt_id e), (env_seq e);
    cbn [opt_field app dget]; repeat (case_decide; try done; try congruence); by subst.
Qed.

Lemma to_dict_NoDup e : NoDup (dkeys (to_dict e)).
Proof.
  unfold to_dict. destruct (env_build_job_id e), (env_attempt_id e), (env_seq e);
    apply (bool_decide_unpack _); vm_compute; exact I.
Qed.

Lemma envelope_of_to_dict e : envelope_of (to_dict e) = e.
Proof.
  unfold envelope_of, field. rewrite !dget_to_dict. unfold envelope_field.
  destruct e as [v i t ts p en [b|] [a|] [n|]]; done.
Qed.

Lemma envelope_of_ext d d' : (∀ k, dget k d = dget k d') → envelope_of d = envelope_of d'.
Proof. intros H. unfold envelope_of, field. by rewrite !H. Qed.

Lemma dget_elem k (d : jdict) : (∃ v, dget k d = Some v) ↔ k ∈ dkeys d.
Proof. rewrite <- (bool_decide_eq_true (k ∈ dkeys d)). symmetry. apply dmem_spec. Qed.

Lemma wire_contract_ext now allowed d d' :
  (∀ k, dget k d = dget k d') → wire_contract now allowed d → wire_contract now allowed d'.
Proof.
  intros H [Hf Hv Hi Ht He Hp Hb Ha Hs].
  split; repeat setoid_rewrite <- H; try done.
  intros k. rewrite <- dget_elem, <- H, dget_elem. apply Hf.
Qed.

(** * Lemmas: the printed envelope decodes to its normal form *)

Lemma json_norm_str s v : json_norm true v = JStr s ↔ v = JStr s.
Proof. destruct v; simpl; naive_solver. Qed.

Lemma log_data_ok_sorted ty p :
  NoDup (dkeys p) → log_data_ok ty p → log_data_ok ty (sorted_payload p).
Proof.
  intros Hp H Ht s Hs. rewrite dget_sorted_payload in Hs by done.
  destruct (dget (u "data") p) as [v|] eqn:E; [|done]. cbn in Hs. injection Hs as Hs.
  apply json_norm_str in Hs as ->. by apply (H Ht).
Qed.

Lemma envelope_field_normalised e k :
  envelope_field (normalised e) k =
    if decide (k = u "payload") then Some (JObj (sorted_payload (env_payload e)))
    else envelope_field e k.
Proof. unfold envelope_field. cbn [normalised env_v env_id env_type env_ts env_engine_id env_payload env_build_job_id env_attempt_id env_seq]. repeat case_decide; by subst. Qed.

Lemma wire_contract_normalised now allowed e :
  NoDup (dkeys (env_payload e)) →
  wire_contract now allowed (to_dict e) → wire_contract now allowed (to_dict (normalised e)).
Proof.
  intros Hp [Hf Hv Hi Ht He Hpl Hb Ha Hs].
  assert (∀ k, k ≠ u "payload" → dget k (to_dict (normalised e)) = dget k (to_dict e)) as Hd.
  { intros k Hk. rewrite !dget_to_dict, envelope_field_normalised. by case_decide. }
  split; try (rewrite Hd by done; done).
  - intros k Hk. apply Hf. apply dget_elem in Hk as [v Hk]. apply dget_elem.
    destruct (decide (k = u "payload")) as [->|Hne]; [|rewrite Hd in Hk by done; eauto].
    exists (JObj (env_payload e)). by rewrite dget_to_dict.
  - destruct Hpl as (ty & p & Hty & Hal & Hpp & Hl). exists ty, (sorted_payload p).
    rewrite Hd by done. rewrite dget_to_dict in Hpp. injection Hpp as <-.
    split_and!; [done|done| |by apply log_data_ok_sorted].
    by rewrite dget_to_dict, envelope_field_normalised.
Qed.

(** What [loads] makes of the dict of an envelope. *)
Lemma dget_norm_to_dict e k :
  json_norm true (env_v e) = env_v e →
  dget k (sorted_payload (to_dict e)) = dget k (to_dict (normalised e)).
Proof.
  intros Hv. rewrite dget_sorted_payload by apply to_dict_NoDup.
  rewrite !dget_to_dict, envelope_field_normalised. unfold envelope_field.
  repeat case_decide; subst; try done.
  - cbn [fmap option_fmap option_map]. by rewrite Hv.
  - cbn [fmap option_fmap option_map]. by rewrite json_norm_obj.
  - by destruct (env_build_job_id e).
  - by destruct (env_attempt_id e).
  - by destruct (env_seq e).
Qed.

(** The envelope's own strings and numbers survive printing. *)
Definition envelope_ok (e : Envelope) : Prop := json_ok (JObj (to_dict e)) = true.

Lemma envelope_ok_payload e : envelope_ok e → json_ok (JObj (env_payload e)) = true.
Proof.
  unfold envelope_ok. intros H. cbn [json_ok] in H. apply andb_true_iff in H as [_ H].
  rewrite forallb_forall in H. specialize (H (u "payload", JObj (env_payload e))).
  apply andb_true_iff in H as [_ H]; [done|]. unfold to_dict. apply in_or_app. left. simpl. tauto.
Qed.

Lemma json_ok_NoDup o : json_ok (JObj o) = true → NoDup (dkeys o).
Proof. cbn [json_ok]. intros [H _]%andb_true_iff. by apply bool_decide_eq_true in H. Qed.

Lemma json_eq_int_norm v n : json_eq_int v n = true → json_norm true v = v.
Proof. by destruct v. Qed.

(** The frame a peer receives for a text: the text itself or its UTF-8 bytes. *)
Definition frame_of (text : ustr) (f : frame) : Prop :=
  f = FrameText text ∨ ∃ b, utf8_encode text = Ok b ∧ f = FrameBytes b.

Lemma decode_frame_text now allowed text f n :
  frame_of text f → utf8_len text = Ok n → (n <= MAX_FRAME_BYTES)%N →
  decode_frame now allowed f =
    (raw ← match loads text with
           | Ok j => Ok j
           | Err e => if isinstance e JSONDecodeError
                      then Err (protocol_error (u "Frame is not valid JSON")) else Err e
           end;
     envelope_from_mapping now allowed raw).
Proof.
  intros [->|(b & Hb & ->)] Hn Hle; unfold decode_frame; munfold.
  - rewrite Hn. by assert ((MAX_FRAME_BYTES <? n)%N = false) as -> by lia.
  - unfold utf8_len in Hn. munfold. rewrite Hb in Hn. injection Hn as <-.
    assert ((MAX_FRAME_BYTES <? N.of_nat (length b))%N = false) as -> by lia. cbn [fail_if].
    by rewrite (utf8_decode_encode _ _ Hb).
Qed.

Lemma decode_encode now allowed e text f :
  wire_contract now (allowed_or_all allowed) (to_dict e) → envelope_ok e →
  to_json e = Ok text → frame_of text f →
  decode_frame now allowed f = Ok (normalised e).
Proof.
  intros Hc Hok Ht Hf. unfold to_json in Ht.
  apply result_bind_Ok in Ht as (n & Hn & Ht).
  destruct ((MAX_FRAME_BYTES <? n)%N) eqn:Hle; [done|].
  assert (text = dumps (compact true) (JObj (to_dict e))) as -> by congruence. clear Ht.
  rewrite (decode_frame_text _ _ _ _ _ Hf Hn) by lia.
  rewrite loads_dumps_style by (done || apply compact_ok). cbn [compact sort_keys].
  rewrite json_norm_obj. change (map _ (printed true (to_dict e))) with (sorted_payload (to_dict e)).
  munfold. unfold envelope_from_mapping. munfold.
  assert (json_norm true (env_v e) = env_v e) as Hv.
  { destruct (wc_version _ _ _ Hc) as (v & E & H). rewrite dget_to_dict in E. injection E as <-.
    by eapply json_eq_int_norm. }
  rewrite validate_complete.
  - f_equal. rewrite <- (envelope_of_to_dict (normalised e)).
    apply envelope_of_ext. intros k. by apply dget_norm_to_dict.
  - eapply wire_contract_ext; [intros k; symmetry; by apply dget_norm_to_dict|].
    apply wire_contract_normalised; [|done]. by apply json_ok_NoDup, envelope_ok_payload.
Qed.

(** * Envelopes made by the engine *)

Lemma new_envelope_inv now fresh ty p eng b a s mid ts e :
  new_envelope now fresh ty p eng b a s mid ts = Ok e →
  e = MkEnvelope (JInt 2) (str_or mid fresh) ty (format_datetime (default now ts)) p eng b a s ∧
  wire_contract now ALL_MESSAGE_TYPES (to_dict e).
Proof.
  unfold new_envelope. cbv zeta. intros (d & Hd & He)%result_bind_Ok. injection He as <-.
  apply validate_inv in Hd as [[= <-] Hd]. done.
Qed.

Lemma uuid_value_str s : uuid_value (JStr s) → str_ok s = true.
Proof. intros (? & [= <-] & H%is_uuid_canonical). auto with engine. Qed.

Lemma wire_contract_envelope_ok now allowed e t :
  wire_contract now allowed (to_dict e) → Forall (λ ty, str_ok ty = true) allowed →
  in_range t → env_ts e = format_datetime t → env_v e = JInt 2 →
  json_ok (JObj (env_payload e)) = true → (∀ n, env_seq e = Some n → int_ok n = true) →
  envelope_ok e.
Proof.
  intros [_ _ (vi & Ei & Hi) _ (ve & Ee & He) (ty & p & Et & Hal & _) Hb Ha _] Hall Ht Hts Hv Hp Hs.
  rewrite dget_to_dict in *. injection Ei as <-. injection Ee as <-. injection Et as <-.
  apply uuid_value_str in Hi, He. rewrite Forall_forall in Hall. apply Hall in Hal.
  assert (Forall (λ kv : ustr * json, str_ok kv.1 && json_ok kv.2 = true) (to_dict e)) as Hd.
  { unfold to_dict. rewrite Hv, Hts. apply Forall_app. split.
    { repeat (constructor; [apply andb_true_iff; split; [done|]|]); auto.
      by apply ascii_str_ok, format_datetime_ascii. }
    assert (∀ x, env_build_job_id e = Some x → uuid_value (JStr x)) as Hb'.
    { intros x Hx. apply Hb. change (JStr <$> env_build_job_id e = Some (JStr x)). by rewrite Hx. }
    assert (∀ x, env_attempt_id e = Some x → uuid_value (JStr x)) as Ha'.
    { intros x Hx. apply Ha. change (JStr <$> env_attempt_id e = Some (JStr x)). by rewrite Hx. }
    rewrite !Forall_app. unfold opt_field. split_and!.
    - destruct (env_build_job_id e) as [x|]; [|by constructor].
      constructor; [|by constructor]. apply andb_true_iff; split; [done|]. by apply uuid_value_str, Hb'.
    - destruct (env_attempt_id e) as [x|]; [|by constructor].
      constructor; [|by constructor]. apply andb_true_iff; split; [done|]. by apply uuid_value_str, Ha'.
    - destruct (env_seq e) as [n|]; [|by constructor].
      constructor; [|by constructor]. apply andb_true_iff; split; [done|]. by apply Hs. }
  unfold envelope_ok. cbn [json_ok]. apply andb_true_iff. split.
  - apply bool_decide_eq_true, to_dict_NoDup.
  - apply forallb_forall. intros kv Hkv%list_elem_of_In. rewrite Forall_forall in Hd. by apply Hd.
Qed.

(** * Properties *)

(** C5: the validator accepts a decoded value exactly when it is an object that
    satisfies the wire contract: the nine known fields and no other, version 2,
    canonical UUIDs, an allowed type, a timestamp with an offset within five
    minutes of the receiver's clock, an object payload with at most 64 KiB of
    log data, a non-negative sequence number that comes with its attempt. *)
Theorem validate_envelope_contract now allowed raw d :
  validate_envelope now allowed raw = Ok d ↔
  raw = JObj d ∧ wire_contract now (allowed_or_all allowed) d.
Proof. split; [apply validate_inv|]. intros [-> H]. by apply validate_complete. Qed.

(** C6: an envelope the engine builds and prints decodes, as a text or as a
    binary frame, to the same envelope with its payload's members in key order,
    on any receiver whose clock is within five minutes of the timestamp. *)
Theorem envelope_roundtrip now fresh ty payload eng b a s mid t now' allowed e text f :
  in_range t → json_ok (JObj payload) = true → (∀ n, s = Some n → int_ok n = true) →
  new_envelope now fresh ty payload eng b a s mid (Some t) = Ok e →
  to_json e = Ok text → frame_of text f →
  ty ∈ allowed_or_all allowed → Z.abs (t / 1000 * 1000 - now') <= MAX_TIMESTAMP_SKEW →
  decode_frame now' allowed f = Ok (normalised e).
Proof.
  intros Ht Hp Hs (He & Hc)%new_envelope_inv Htext Hf Hty Hskew. cbn [default] in He.
  apply (decode_encode _ _ _ text); [| |done|done].
  - destruct Hc as [Hk Hv Hi _ Hen (ty' & p & Et & _ & Ep & Hl) Hb Ha Hsq].
    rewrite dget_to_dict, He in Et. injection Et as <-. split; try done.
    + exists (format_datetime t), (t / 1000 * 1000). rewrite dget_to_dict, He.
      split_and!; [done|by apply names_instant_format|lia..].
    + exists ty, p. split_and!; try done. by rewrite dget_to_dict, He.
  - eapply (wire_contract_envelope_ok _ _ _ t Hc); try (by rewrite He); [|done].
    by apply (bool_decide_unpack _); vm_compute.
Qed.

Lemma decode_frame_err now allowed f e :
  decode_frame now allowed f = Err e →
  isinstance e ProtocolError = true ∨ e = surrogate_error ∨ e = digits_error.
Proof.
  revert e. unfold decode_frame. apply result_bind_Err_all.
  { destruct f as [s|b]; apply result_bind_Err_all.
    - intros e He. right. left. unfold utf8_len in He. munfold.
      destruct (utf8_encode s) eqn:E; simplify_eq. by eapply utf8_encode_err.
    - intros n e _. revert e. apply result_bind_Err_all; [|done]. by intros e ?%fail_if_ProtocolError; left.
    - by intros e ?%fail_if_ProtocolError; left.
    - intros _ e _ He. destruct (utf8_decode b) as [|e'] eqn:E; simplify_eq.
      apply utf8_decode_err in E as [m ->]. simpl in He. simplify_eq. by left. }
  intros text e _. revert e. apply result_bind_Err_all.
  - intros e He. destruct (loads text) as [|e'] eqn:E; simplify_eq.
    apply loads_err in E as [->| ->]; simpl in He; simplify_eq; auto.
  - intros raw e _. revert e. unfold envelope_from_mapping. apply result_bind_Err_all; [|done].
    intros e [[m ->]| ->]%validate_err; auto.
Qed.

(** A frame is refused with [ProtocolError], except in two cases: a text
    that has no UTF-8 form (a lone surrogate in the frame or in log data raises
    [UnicodeEncodeError]) and an integer of more than 4300 digits (a plain
    [ValueError] from the JSON decoder). *)
Theorem decode_frame_errors now allowed f e :
  decode_frame now allowed f = Err e →
  isinstance e ProtocolError = true ∨ e = surrogate_error ∨ e = digits_error.
Proof. apply decode_frame_err. Qed.

(** A job event of the examples. *)
Definition example_instant : instant := instant_of 2026 7 13 9 30 0 123456.
Definition example_envelope : result Envelope :=
  new_envelope example_instant (u "11111111-1111-4111-8111-111111111111") (u "attempt.status")
    [(u "state", JStr (u "RUNNING")); (u "n", JList [JInt 3; JNull])]
    (u "22222222-2222-4222-8222-222222222222") None
    (Some (u "33333333-3333-4333-8333-333333333333")) (Some 4) None (Some example_instant).

Lemma envelope_roundtrip_witness :
  ∃ e text, example_envelope = Ok e ∧ to_json e = Ok text ∧
    decode_frame (example_instant + seconds 200) None (FrameText text) = Ok (normalised e).
Proof.
  eexists _, _. split; [vm_compute; reflexivity|]. split; [vm_compute; reflexivity|].
  eapply (envelope_roundtrip example_instant (u "11111111-1111-4111-8111-111111111111")
    (u "attempt.status") [(u "state", JStr (u "RUNNING")); (u "n", JList [JInt 3; JNull])]
    (u "22222222-2222-4222-8222-222222222222") None
    (Some (u "33333333-3333-4333-8333-333333333333")) (Some 4) None example_instant).
  - split; apply Z.leb_le || apply Z.ltb_lt; vm_compute; reflexivity.
  - vm_compute. reflexivity.
  - intros n [= <-]. vm_compute. reflexivity.
  - vm_compute. reflexivity.
  - vm_compute. reflexivity.
  - left. reflexivity.
  - apply (bool_decide_unpack _). vm_compute. exact I.
  - apply Z.leb_le. vm_compute. reflexivity.
Defined.

Lemma decode_frame_errors_witness :
  decode_frame example_instant None (FrameText (u "[1")) =
    Err (protocol_error (u "Frame is not valid JSON")) ∧
  isinstance (protocol_error (u "Frame is not valid JSON")) ProtocolError = true.
Proof.
  assert (decode_frame example_instant None (FrameText (u "[1")) =
    Err (protocol_error (u "Frame is not valid JSON"))) as H by (vm_compute; reflexivity).
  split; [exact H|]. destruct (decode_frame_errors _ _ _ _ H) as [He|[He|He]]; [exact He|discriminate He..].
Defined.
