(* ===== verification/Db.v ===== *)
(** The SQLite database of the queue (the schema of
    src/src/build_engine/queue/store.py): rows, tables with their constraints,
    and the statements the store and the outbox execute, over connections with
    autocommit and explicit transactions. *)

From S2P Require Import Prelude PyStr Dict Json Clock.

#[global] Arguments u : simpl never.
#[global] Arguments format_datetime : simpl never.

(** * Attempt states: the values the [CHECK] constraint admits *)

Inductive job_state := QUEUED | LEASED | RUNNING | SUCCEEDED | FAILED | CANCELLED | TIMED_OUT.

#[export] Instance job_state_eq_dec : EqDecision job_state.
Proof. solve_decision. Defined.

Definition state_text (s : job_state) : ustr :=
  match s with
  | QUEUED => u "QUEUED" | LEASED => u "LEASED" | RUNNING => u "RUNNING"
  | SUCCEEDED => u "SUCCEEDED" | FAILED => u "FAILED" | CANCELLED => u "CANCELLED"
  | TIMED_OUT => u "TIMED_OUT"
  end.

Definition all_states : list job_state :=
  [QUEUED; LEASED; RUNNING; SUCCEEDED; FAILED; CANCELLED; TIMED_OUT].

(** The state a text names, if any. *)
Definition parse_state (s : ustr) : option job_state :=
  head (List.filter (λ st, ustr_eqb (state_text st) s) all_states).

(** [state IN ('SUCCEEDED', 'FAILED', 'CANCELLED', 'TIMED_OUT')]. *)
Definition terminal (s : job_state) : bool :=
  match s with SUCCEEDED | FAILED | CANCELLED | TIMED_OUT => true | _ => false end.

(** [state IN ('LEASED', 'RUNNING')]. *)
Definition active (s : job_state) : bool :=
  match s with LEASED | RUNNING => true | _ => false end.

(** * Rows *)

Record job_row := JobRow {
  r_rowid : N;
  r_build_job_id : ustr;
  r_attempt_id : ustr;
  r_payload_json : ustr;
  r_state : job_state;
  r_lease_owner : option ustr;
  r_lease_token : option ustr;
  r_lease_expires_at : option ustr;
  r_attempts : Z;
  r_sequence_cursor : Z;
  r_created_at : ustr;
  r_updated_at : ustr;
  r_error : option ustr;
  r_cancel_requested : bool;
}.

Record event_row := EventRow {
  e_id : ustr;
  e_attempt_id : ustr;
  e_seq : Z;
  e_type : ustr;
  e_envelope_json : ustr;
  e_created_at : ustr;
}.

Record dlq_row := DlqRow {
  d_attempt_id : ustr;
  d_build_job_id : ustr;
  d_payload_json : ustr;
  d_error : ustr;
  d_attempts : Z;
  d_created_at : ustr;
}.

#[export] Instance job_row_eq_dec : EqDecision job_row.
Proof. solve_decision. Defined.
#[export] Instance event_row_eq_dec : EqDecision event_row.
Proof. solve_decision. Defined.
#[export] Instance dlq_row_eq_dec : EqDecision dlq_row.
Proof. solve_decision. Defined.

(** The database file. [db_schema] says whether the tables exist, the two
    [col] flags whether [jobs] has the columns version 2 added; rows of a
    version-1 table carry the defaults those columns get. Rows are kept in
    [rowid] order. *)
Record db := Db {
  db_version : Z;
  db_schema : bool;
  db_lease_token_col : bool;
  db_cancel_col : bool;
  db_jobs : list job_row;
  db_events : list event_row;
  db_dlq : list dlq_row;
}.

Definition empty_db : db := Db 0 false false false [] [] [].

Definition with_jobs (d : db) (js : list job_row) : db :=
  Db (db_version d) (db_schema d) (db_lease_token_col d) (db_cancel_col d) js (db_events d) (db_dlq d).
Definition with_events (d : db) (es : list event_row) : db :=
  Db (db_version d) (db_schema d) (db_lease_token_col d) (db_cancel_col d) (db_jobs d) es (db_dlq d).
Definition with_dlq (d : db) (ds : list dlq_row) : db :=
  Db (db_version d) (db_schema d) (db_lease_token_col d) (db_cancel_col d) (db_jobs d) (db_events d) ds.

(** * Statements on the tables *)

(** [UPDATE jobs SET ... WHERE p]: the new table and the row count. *)
Definition update_rows {A} (p : A → bool) (f : A → A) (l : list A) : list A :=
  (λ r, if p r then f r else r) <$> l.
Definition count_rows {A} (p : A → bool) (l : list A) : nat := length (List.filter p l).

Definition is_attempt (attempt_id : ustr) (r : job_row) : bool := ustr_eqb (r_attempt_id r) attempt_id.
Definition is_build (build_job_id : ustr) (r : job_row) : bool := ustr_eqb (r_build_job_id r) build_job_id.

(** The [rowid] of the next inserted row. *)
Definition next_rowid (js : list job_row) : N := N.succ (foldr N.max 0%N (r_rowid <$> js)).

(** [ORDER BY created_at, attempt_id]. *)
Definition job_leb (a b : job_row) : bool :=
  match ustr_compare (r_created_at a) (r_created_at b) with
  | Lt => true
  | Eq => ustr_leb (r_attempt_id a) (r_attempt_id b)
  | Gt => false
  end.

Definition dlq_leb (a b : dlq_row) : bool :=
  match ustr_compare (d_created_at a) (d_created_at b) with
  | Lt => true
  | Eq => ustr_leb (d_attempt_id a) (d_attempt_id b)
  | Gt => false
  end.

(** [ORDER BY created_at, attempt_id, seq]. *)
Definition event_leb (a b : event_row) : bool :=
  match ustr_compare (e_created_at a) (e_created_at b) with
  | Lt => true
  | Eq => match ustr_compare (e_attempt_id a) (e_attempt_id b) with
          | Lt => true
          | Eq => (e_seq a <=? e_seq b)%Z
          | Gt => false
          end
  | Gt => false
  end.

(** [INSERT OR IGNORE INTO jobs]: a row with a taken primary key is dropped. *)
Definition insert_job (r : job_row) (d : db) : db * bool :=
  if mem_str (r_attempt_id r) (r_attempt_id <$> db_jobs d) then (d, false)
  else (with_jobs d (db_jobs d ++ [r]), true).

Definition insert_dlq (r : dlq_row) (d : db) : db :=
  if mem_str (d_attempt_id r) (d_attempt_id <$> db_dlq d) then d
  else with_dlq d (db_dlq d ++ [r]).

(** [INSERT INTO events]: primary key, the pair key and the foreign key are checked. *)
Definition integrity_error (msg : ustr) : exn := PyExn SqliteIntegrityError msg.
Definition insert_event (r : event_row) (d : db) : result db :=
  fail_if (mem_str (e_id r) (e_id <$> db_events d))
    (integrity_error (u "UNIQUE constraint failed: events.id"));;
  fail_if (existsb (λ r', ustr_eqb (e_attempt_id r') (e_attempt_id r) && (e_seq r' =? e_seq r)%Z)
             (db_events d))
    (integrity_error (u "UNIQUE constraint failed: events.attempt_id, events.seq"));;
  fail_if (e_seq r <? 0)%Z (integrity_error (u "CHECK constraint failed: seq >= 0"));;
  fail_if (negb (mem_str (e_attempt_id r) (r_attempt_id <$> db_jobs d)))
    (integrity_error (u "FOREIGN KEY constraint failed"));;
  Ok (with_events d (db_events d ++ [r])).

(** [DELETE FROM jobs WHERE p]: the events of a deleted attempt go with it. *)
Definition delete_jobs (p : job_row → bool) (d : db) : db :=
  let gone := r_attempt_id <$> List.filter p (db_jobs d) in
  with_events (with_jobs d (List.filter (λ r, negb (p r)) (db_jobs d)))
    (List.filter (λ e, negb (mem_str (e_attempt_id e) gone)) (db_events d)).

Definition delete_events (p : event_row → bool) (d : db) : db :=
  with_events d (List.filter (λ e, negb (p e)) (db_events d)).

(** * Times *)

(** [dt + timedelta]: outside years 1..9999 Python raises [OverflowError]. *)
Definition overflow_error : exn := PyExn OverflowError (u "date value out of range").
Definition add_time (t : instant) (d : Z) : result instant :=
  let t' := (t + d)%Z in
  if (MIN_INSTANT <=? t')%Z && (t' <? MAX_INSTANT)%Z then Ok t' else Err overflow_error.

(** * Lemmas *)

Lemma parse_state_text s : parse_state (state_text s) = Some s.
Proof. destruct s; vm_compute; reflexivity. Qed.

Lemma parse_state_inv t s : parse_state t = Some s → t = state_text s.
Proof.
  unfold parse_state. intros H%head_Some_elem_of. apply list_elem_of_In, List.filter_In in H as [_ H].
  symmetry. by apply bool_decide_eq_true in H.
Qed.

Lemma state_text_inj s s' : state_text s = state_text s' → s = s'.
Proof. intros H. pose proof (parse_state_text s) as E. rewrite H, parse_state_text in E. by injection E. Qed.

Lemma terminal_not_active s : terminal s = true → active s = false.
Proof. by destruct s. Qed.

Lemma job_leb_total a b : job_leb a b = true ∨ job_leb b a = true.
Proof.
  unfold job_leb. rewrite (ustr_compare_antisym (r_created_at a)).
  destruct (ustr_compare _ _); simpl; auto. apply ustr_leb_total.
Qed.

(** Lexicographic order on two text keys is transitive. *)
Lemma lex_trans (f g : job_row → ustr) a b c :
  (match ustr_compare (f a) (f b) with Lt => true | Eq => ustr_leb (g a) (g b) | Gt => false end) = true →
  (match ustr_compare (f b) (f c) with Lt => true | Eq => ustr_leb (g b) (g c) | Gt => false end) = true →
  (match ustr_compare (f a) (f c) with Lt => true | Eq => ustr_leb (g a) (g c) | Gt => false end) = true.
Proof.
  destruct (ustr_compare (f a) (f b)) eqn:E1; try done; destruct (ustr_compare (f b) (f c)) eqn:E2; try done.
  - apply ustr_compare_eq in E1, E2. rewrite E1, E2, ustr_compare_refl. apply ustr_leb_trans.
  - apply ustr_compare_eq in E1. by rewrite E1, E2.
  - apply ustr_compare_eq in E2. by rewrite <- E2, E1.
  - by rewrite (ustr_compare_trans _ _ _ _ E1 E2).
Qed.

Lemma job_leb_trans a b c : job_leb a b = true → job_leb b c = true → job_leb a c = true.
Proof. apply (lex_trans r_created_at r_attempt_id). Qed.

Lemma update_rows_length {A} (p : A → bool) f l : length (update_rows p f l) = length l.
Proof. apply length_fmap. Qed.

Lemma elem_of_update {A} (p : A → bool) f l x :
  x ∈ update_rows p f l → (x ∈ l ∧ p x = false) ∨ ∃ y, y ∈ l ∧ p y = true ∧ x = f y.
Proof.
  unfold update_rows. intros (y & -> & Hy)%list_elem_of_fmap.
  destruct (p y) eqn:E; eauto.
Qed.

Lemma update_rows_none {A} (p : A → bool) f l : Forall (λ x, p x = false) l → update_rows p f l = l.
Proof. induction 1 as [|x l Hx Hl IH]; [done|]. cbn. rewrite Hx. by f_equal. Qed.

(** A field an update does not touch keeps its column. *)
Lemma update_rows_column {A B} (g : A → B) (p : A → bool) f l :
  (∀ x, g (f x) = g x) → g <$> update_rows p f l = g <$> l.
Proof.
  intros H. unfold update_rows. rewrite <- list_fmap_compose. apply list_fmap_ext.
  intros _ x _. simpl. destruct (p x); auto.
Qed.

Lemma next_rowid_fresh js r : r ∈ js → (r_rowid r < next_rowid js)%N.
Proof.
  unfold next_rowid. induction js as [|j js IH]; [by intros ?%not_elem_of_nil|].
  intros [->|Hr]%elem_of_cons; cbn; [lia|]. specialize (IH Hr). lia.
Qed.

Lemma add_time_Ok t d t' : add_time t d = Ok t' → t' = (t + d)%Z ∧ in_range t'.
Proof. unfold add_time, in_range. cbv zeta. case_match; intros [= <-]. lia. Qed.

(** * Lemmas: rows by attempt *)

(** The row of an attempt, and the table with that row replaced. *)
Definition find_row (a : ustr) (d : db) : option job_row := head (List.filter (is_attempt a) (db_jobs d)).
Definition set_row (a : ustr) (r : job_row) (d : db) : db :=
  with_jobs d (update_rows (is_attempt a) (λ _, r) (db_jobs d)).

#[global] Arguments set_row : simpl never.
#[global] Arguments update_rows : simpl never.

Definition unique_attempts (d : db) : Prop := NoDup (r_attempt_id <$> db_jobs d).

Lemma is_attempt_spec a r : is_attempt a r = true ↔ r_attempt_id r = a.
Proof. unfold is_attempt, ustr_eqb. by rewrite bool_decide_eq_true. Qed.

Lemma is_attempt_false a r : is_attempt a r = false ↔ r_attempt_id r ≠ a.
Proof. unfold is_attempt, ustr_eqb. by rewrite bool_decide_eq_false. Qed.

Lemma is_build_spec b r : is_build b r = true ↔ r_build_job_id r = b.
Proof. unfold is_build, ustr_eqb. by rewrite bool_decide_eq_true. Qed.

Lemma absent_attempt a (js : list job_row) :
  a ∉ r_attempt_id <$> js → Forall (λ r, is_attempt a r = false) js.
Proof.
  rewrite Forall_forall. intros Ha r Hr. apply is_attempt_false. intros <-.
  by apply Ha, list_elem_of_fmap_2.
Qed.

Lemma filter_false {A} (p : A → bool) l : Forall (λ x, p x = false) l → List.filter p l = [].
Proof. induction 1 as [|x l Hx Hl IH]; simpl; [done|]. by rewrite Hx. Qed.

(** What a scan for one attempt, with a further test [p], selects, updates and counts. *)
Definition hit (p : job_row → bool) (row : option job_row) : option job_row :=
  match row with Some r => if p r then Some r else None | None => None end.

Lemma scan_attempt a (p : job_row → bool) f js :
  NoDup (r_attempt_id <$> js) →
  let row := hit p (head (List.filter (is_attempt a) js)) in
  head (List.filter (λ r, is_attempt a r && p r) js) = row ∧
  update_rows (λ r, is_attempt a r && p r) f js =
    match row with Some r => update_rows (is_attempt a) (λ _, f r) js | None => js end ∧
  count_rows (λ r, is_attempt a r && p r) js = match row with Some _ => 1%nat | None => 0%nat end.
Proof.
  unfold count_rows, update_rows. induction js as [|r js IH]; [done|].
  intros [Hr Hn]%NoDup_cons. specialize (IH Hn). cbv zeta in *. cbn [fmap list_fmap List.filter].
  destruct (is_attempt a r) eqn:E; cbn [andb].
  - apply is_attempt_spec in E as <-. apply absent_attempt in Hr.
    assert (∀ q, Forall (λ x, is_attempt (r_attempt_id r) x && q x = false) js) as Hq.
    { intros q. eapply List.Forall_impl; [|exact Hr]. by intros x ->. }
    pose proof (filter_false _ _ (Hq p)) as Hf.
    pose proof (update_rows_none _ f _ (Hq p)) as Hu.
    pose proof (update_rows_none _ (λ _, f r) _ Hr) as Hu'. unfold update_rows in *.
    cbn [head hit]. destruct (p r); cbn [head length]; rewrite ?Hf, ?Hu, ?Hu'; done.
  - destruct IH as (H1 & H2 & H3). rewrite H1, H2, H3. split_and!; [done| |done].
    by destruct (hit p _).
Qed.

Lemma filter_ext_eq {A} (p q : A → bool) l : (∀ x, p x = q x) → List.filter p l = List.filter q l.
Proof. intros H. induction l as [|x l IH]; simpl; [done|]. by rewrite H, IH. Qed.

Lemma update_rows_ext {A} (p q : A → bool) f l : (∀ x, p x = q x) → update_rows p f l = update_rows q f l.
Proof. intros H. unfold update_rows. apply list_fmap_ext. intros _ x _. by rewrite H. Qed.

Lemma find_row_Some a d r : find_row a d = Some r → r_attempt_id r = a ∧ r ∈ db_jobs d.
Proof.
  unfold find_row. intros H%head_Some_elem_of. apply list_elem_of_In, List.filter_In in H as [H1 H2].
  split; [by apply is_attempt_spec|by apply list_elem_of_In].
Qed.

Lemma find_row_elem d r : unique_attempts d → r ∈ db_jobs d → find_row (r_attempt_id r) d = Some r.
Proof.
  unfold unique_attempts, find_row. induction (db_jobs d) as [|r' js IH]; cbn [fmap list_fmap].
  { by intros _ ?%not_elem_of_nil. }
  intros [Hn Hd]%NoDup_cons Hr. cbn [List.filter]. apply elem_of_cons in Hr as [->|Hr].
  - by rewrite (proj2 (is_attempt_spec _ _) eq_refl).
  - rewrite (proj2 (is_attempt_false _ _)); [by apply IH|].
    intros E. apply Hn. rewrite E. by apply list_elem_of_fmap_2.
Qed.

Lemma find_row_absent a d : a ∉ r_attempt_id <$> db_jobs d → find_row a d = None.
Proof. intros H. unfold find_row. by rewrite filter_false by by apply absent_attempt. Qed.

Lemma find_row_None a d : unique_attempts d → find_row a d = None ↔ a ∉ r_attempt_id <$> db_jobs d.
Proof.
  intros Hu. split; [|apply find_row_absent]. intros H (r & -> & Hr)%list_elem_of_fmap.
  rewrite find_row_elem in H; done.
Qed.

Lemma set_row_ids a r d :
  r_attempt_id r = a → r_attempt_id <$> db_jobs (set_row a r d) = r_attempt_id <$> db_jobs d.
Proof.
  intros Hr. unfold set_row, update_rows. cbn [db_jobs with_jobs]. rewrite <- list_fmap_compose.
  apply list_fmap_ext. intros _ x _. simpl. destruct (is_attempt a x) eqn:E; [|done].
  apply is_attempt_spec in E. congruence.
Qed.

Lemma set_row_unique a r d : r_attempt_id r = a → unique_attempts d → unique_attempts (set_row a r d).
Proof. unfold unique_attempts. intros Hr. by rewrite set_row_ids. Qed.

Lemma elem_of_set_row a r d x :
  x ∈ db_jobs (set_row a r d) → (x ∈ db_jobs d ∧ r_attempt_id x ≠ a) ∨ x = r.
Proof.
  unfold set_row. cbn [db_jobs with_jobs]. intros [[Hx Ha]|(y & _ & _ & ->)]%elem_of_update; [left|by right].
  split; [done|]. by apply is_attempt_false.
Qed.

Lemma find_set_row a r r0 d b :
  unique_attempts d → find_row a d = Some r0 → r_attempt_id r = a →
  find_row b (set_row a r d) = if decide (b = a) then Some r else find_row b d.
Proof.
  intros Hu Hf Hr. pose proof (set_row_unique a r d Hr Hu) as Hu'.
  destruct (find_row_Some _ _ _ Hf) as [Ha Hin].
  assert (∀ x, x ∈ db_jobs d → r_attempt_id x ≠ a → x ∈ db_jobs (set_row a r d)) as Hkeep.
  { intros x Hx Hne. unfold set_row, update_rows. cbn [db_jobs with_jobs].
    apply list_elem_of_fmap. exists x. by rewrite (proj2 (is_attempt_false _ _) Hne). }
  case_decide as Hb.
  - subst b. pose proof (find_row_elem (set_row a r d) r Hu') as H. rewrite Hr in H. apply H.
    unfold set_row, update_rows. cbn [db_jobs with_jobs]. apply list_elem_of_fmap. exists r0.
    by rewrite (proj2 (is_attempt_spec _ _) Ha).
  - destruct (find_row b d) as [x|] eqn:Ex.
    + destruct (find_row_Some _ _ _ Ex) as [Hxb Hx]. rewrite <- Hxb. apply find_row_elem; [done|].
      apply Hkeep; congruence.
    + apply find_row_None in Ex; [|done]. apply find_row_None; [done|]. by rewrite set_row_ids.
Qed.

(** The table as a finite map from attempts to rows. *)
Definition entries_of (d : db) : gmap ustr job_row :=
  list_to_map ((λ r, (r_attempt_id r, r)) <$> db_jobs d).

Lemma lookup_entries d a : unique_attempts d → entries_of d !! a = find_row a d.
Proof.
  intros Hu. unfold entries_of.
  assert (NoDup ((λ r, (r_attempt_id r, r)) <$> db_jobs d).*1) as Hn by (by rewrite <- list_fmap_compose).
  destruct (find_row a d) as [r|] eqn:E.
  - destruct (find_row_Some _ _ _ E) as [<- Hr]. apply elem_of_list_to_map_1; [done|].
    by apply (list_elem_of_fmap_2 (λ r, (r_attempt_id r, r))).
  - apply find_row_None in E; [|done]. apply not_elem_of_list_to_map_1.
    by rewrite <- list_fmap_compose.
Qed.

Lemma entries_set_row a r r0 d :
  unique_attempts d → find_row a d = Some r0 → r_attempt_id r = a →
  entries_of (set_row a r d) = <[a := r]> (entries_of d).
Proof.
  intros Hu Hf Hr. apply map_eq. intros b.
  rewrite lookup_entries by (by apply set_row_unique).
  rewrite (find_set_row _ _ r0) by done. case_decide as Hb.
  - subst. by rewrite lookup_insert_eq.
  - rewrite lookup_insert_ne by done. by rewrite lookup_entries.
Qed.

(** Updates by predicate that keep identifiers act on each entry alone. *)
Lemma update_unique p f d :
  (∀ r, r_attempt_id (f r) = r_attempt_id r) → unique_attempts d →
  unique_attempts (with_jobs d (update_rows p f (db_jobs d))).
Proof. unfold unique_attempts. cbn [db_jobs with_jobs]. intros Hf. by rewrite update_rows_column. Qed.

Lemma entries_update p f d :
  (∀ r, r_attempt_id (f r) = r_attempt_id r) → unique_attempts d →
  entries_of (with_jobs d (update_rows p f (db_jobs d))) =
  (λ r, if p r then f r else r) <$> entries_of d.
Proof.
  intros Hf Hu. apply map_eq. intros a. rewrite lookup_fmap, !lookup_entries by (by try apply update_unique).
  destruct (find_row a d) as [r|] eqn:E; cbn.
  - destruct (find_row_Some _ _ _ E) as [<- Hr].
    assert (r_attempt_id r = r_attempt_id (if p r then f r else r)) as -> by (by destruct (p r)).
    apply find_row_elem; [by apply update_unique|].
    by apply (list_elem_of_fmap_2 (λ r, if p r then f r else r)).
  - apply find_row_None in E; [|done]. apply find_row_absent. cbn [db_jobs with_jobs].
    by rewrite update_rows_column.
Qed.

Lemma count_rows_ext {A} (p q : A → bool) l : (∀ x, p x = q x) → count_rows p l = count_rows q l.
Proof. intros H. unfold count_rows. by rewrite (filter_ext_eq p q). Qed.
