(* ===== verification/Store.v ===== *)
(** The durable queue (class [SQLiteQueueStore] of
    src/src/build_engine/queue/store.py): one definition per method, over the
    connection state of [Db].  The clock ([datetime.now(UTC)]) and the random
    lease token ([secrets.token_urlsafe]) are arguments. *)

From S2P Require Import Prelude PyStr Dict Json Clock Uuid Db.

Local Open Scope Z_scope.

Definition SCHEMA_VERSION : Z := 2.
Definition MAX_LOCAL_CRASHES : Z := 3.

Definition queue_error (msg : ustr) : exn := PyExn QueueError msg.

(** * Records returned to the callers *)

Record JobRecord := MkJobRecord {
  jr_build_job_id : ustr;
  jr_attempt_id : ustr;
  jr_payload : json;
  jr_state : job_state;
  jr_attempts : Z;
  jr_sequence_cursor : Z;
  jr_lease_owner : option ustr;
  jr_lease_expires_at : option ustr;
  jr_error : option ustr;
  jr_created_at : ustr;
  jr_updated_at : ustr;
  jr_lease_token : option ustr;
  jr_cancel_requested : bool;
}.

Record EnqueueResult := MkEnqueueResult { er_job : JobRecord; er_inserted : bool }.

Record DeadLetterRecord := MkDeadLetterRecord {
  dl_build_job_id : ustr;
  dl_attempt_id : ustr;
  dl_payload : json;
  dl_error : ustr;
  dl_attempts : Z;
  dl_created_at : ustr;
}.

(** * The connection *)

(** The committed database, the uncommitted one inside a transaction, the
    payloads kept in memory only, and whether a connection is open. *)
Record store := Store {
  st_disk : db;
  st_tx : option db;
  st_transient : list (ustr * jdict);
  st_open : bool;
}.

(** What a statement of the connection sees. *)
Definition view (s : store) : db := default (st_disk s) (st_tx s).

Definition write (f : db → db) (s : store) : store :=
  match st_tx s with
  | Some d => Store (st_disk s) (Some (f d)) (st_transient s) (st_open s)
  | None => Store (f (st_disk s)) None (st_transient s) (st_open s)
  end.

Definition query {A} (f : db → A) : M store A := gets (λ s, f (view s)).
Definition execute (f : db → db) : M store () := modify (write f).

Definition begin_immediate : M store () := λ s,
  match st_tx s with
  | Some _ => (Err (PyExn SqliteOperationalError
                 (u "cannot start a transaction within a transaction")), s)
  | None => (Ok (), Store (st_disk s) (Some (st_disk s)) (st_transient s) (st_open s))
  end.

Definition commit : M store () := modify (λ s,
  Store (view s) None (st_transient s) (st_open s)).

Definition rollback : M store () := modify (λ s,
  Store (st_disk s) None (st_transient s) (st_open s)).

Definition open_connection : M store () := modify (λ s,
  Store (st_disk s) (st_tx s) (st_transient s) true).

(** [with self._connect() as db:], the body's exceptions rolling back. *)
Definition connect {A} (body : M store A) : M store A :=
  open_connection;;
  try_except body (λ e,
    (if isinstance e ExceptionC then
       in_tx ← gets (λ s, match st_tx s with Some _ => true | None => false end);
       if (in_tx : bool) then rollback else mret ()
     else mret ());;
    raise e).

(** [UPDATE jobs SET f WHERE p], returning [cursor.rowcount]. *)
Definition update_jobs (p : job_row → bool) (f : job_row → job_row) : M store nat :=
  n ← query (λ d, count_rows p (db_jobs d));
  execute (λ d, with_jobs d (update_rows p f (db_jobs d)));;
  mret n.

(** [SELECT * FROM jobs WHERE p], and its [fetchone]. *)
Definition select_jobs (p : job_row → bool) : M store (list job_row) :=
  query (λ d, List.filter p (db_jobs d)).
Definition select_job (p : job_row → bool) : M store (option job_row) :=
  query (λ d, head (List.filter p (db_jobs d))).

(** [_job_row]. *)
Definition job_row_of (build_job_id attempt_id : ustr) : M store (option job_row) :=
  select_job (λ r, is_build build_job_id r && is_attempt attempt_id r).

(** * Rows to records *)

Definition job_from_row (r : job_row) : result JobRecord :=
  payload ← loads (r_payload_json r);
  Ok (MkJobRecord (r_build_job_id r) (r_attempt_id r) payload (r_state r) (r_attempts r)
        (r_sequence_cursor r) (r_lease_owner r) (r_lease_expires_at r) (r_error r) (r_created_at r)
        (r_updated_at r) (r_lease_token r) (r_cancel_requested r)).

Definition dlq_from_row (r : dlq_row) : result DeadLetterRecord :=
  payload ← loads (d_payload_json r);
  Ok (MkDeadLetterRecord (d_build_job_id r) (d_attempt_id r) payload (d_error r) (d_attempts r)
        (d_created_at r)).

Definition with_payload (job : JobRecord) (payload : json) : JobRecord :=
  MkJobRecord (jr_build_job_id job) (jr_attempt_id job) payload (jr_state job) (jr_attempts job)
    (jr_sequence_cursor job) (jr_lease_owner job) (jr_lease_expires_at job) (jr_error job)
    (jr_created_at job) (jr_updated_at job) (jr_lease_token job) (jr_cancel_requested job).

(** [_with_transient_payload]. *)
Definition with_transient_payload (job : JobRecord) : M store JobRecord :=
  payload ← gets (λ s, dget (jr_attempt_id job) (st_transient s));
  mret (match payload with Some p => with_payload job (JObj p) | None => job end).

(** [self._with_transient_payload(_job_from_row(row))]. *)
Definition load_job (r : job_row) : M store JobRecord :=
  job ← lift (job_from_row r); with_transient_payload job.

(** [if row is None: raise QueueError(...)], else the record. *)
Definition reload (row : option job_row) (msg : ustr) : M store JobRecord :=
  match row with
  | None => raise (queue_error msg)
  | Some r => load_job r
  end.

(** * Schema *)

(** [_create_v1_schema]: [CREATE TABLE IF NOT EXISTS], with the version 2 columns. *)
Definition create_v1_schema (d : db) : db :=
  if db_schema d then d
  else Db (db_version d) true true true (db_jobs d) (db_events d) (db_dlq d).

(** [_migrate_to_v2]: add the missing columns with their defaults. *)
Definition migrate_to_v2 (d : db) : db :=
  let d := if db_lease_token_col d then d
           else Db (db_version d) (db_schema d) true (db_cancel_col d)
                  ((λ r, JobRow (r_rowid r) (r_build_job_id r) (r_attempt_id r) (r_payload_json r)
                     (r_state r) (r_lease_owner r) None (r_lease_expires_at r) (r_attempts r)
                     (r_sequence_cursor r) (r_created_at r) (r_updated_at r) (r_error r)
                     (r_cancel_requested r)) <$> db_jobs d)
                  (db_events d) (db_dlq d) in
  if db_cancel_col d then d
  else Db (db_version d) (db_schema d) (db_lease_token_col d) true
         ((λ r, JobRow (r_rowid r) (r_build_job_id r) (r_attempt_id r) (r_payload_json r)
            (r_state r) (r_lease_owner r) (r_lease_token r) (r_lease_expires_at r) (r_attempts r)
            (r_sequence_cursor r) (r_created_at r) (r_updated_at r) (r_error r) false) <$> db_jobs d)
         (db_events d) (db_dlq d).

Definition set_version (v : Z) (d : db) : db :=
  Db v (db_schema d) (db_lease_token_col d) (db_cancel_col d) (db_jobs d) (db_events d) (db_dlq d).

Definition initialize : M store () :=
  connect (
    version ← query db_version;
    if version <? 1 then
      execute create_v1_schema;;
      execute migrate_to_v2;;
      execute (set_version SCHEMA_VERSION)
    else if version =? 1 then
      execute migrate_to_v2;;
      execute (set_version SCHEMA_VERSION)
    else raise_if (SCHEMA_VERSION <? version)
      (queue_error (u "Queue schema version " ++ str_of_Z version ++ u " is newer than supported "
                      ++ str_of_Z SCHEMA_VERSION))).

(** * Enqueueing *)

(** Strip expiring URLs and secret values. *)
Definition SECRET_KEYS : list ustr := [u "secrets"; u "source_download_url"; u "secret_env"].
Definition durable_payload (payload : jdict) : jdict :=
  dfilter (λ k, negb (mem_str k SECRET_KEYS)) payload.

Definition json_dumps (value : jdict) : ustr := dumps (compact true) (JObj value).

Definition required_payload_str (payload : jdict) (key : ustr) : result ustr :=
  match dget key payload with
  | Some (JStr (c :: s)) => Ok (c :: s)
  | _ => Err (queue_error (u "payload " ++ key ++ u " is required"))
  end.

Definition required_payload_uuid (payload : jdict) (key : ustr) : result ustr :=
  value ← required_payload_str payload key;
  match uuid_parse value with
  | None => Err (queue_error (u "payload " ++ key ++ u " must be a canonical UUID"))
  | Some parsed =>
      fail_if (negb (ustr_eqb (uuid_str parsed) value))
        (queue_error (u "payload " ++ key ++ u " must be a canonical UUID"));;
      Ok value
  end.

Definition new_row (build_job_id attempt_id payload_json now : ustr) (d : db) : job_row :=
  JobRow (next_rowid (db_jobs d)) build_job_id attempt_id payload_json QUEUED None None None 0 0
    now now None false.

Definition enqueue (now_dt : instant) (payload : jdict) : M store EnqueueResult :=
  build_job_id ← lift (required_payload_uuid payload (u "build_job_id"));
  attempt_id ← lift (required_payload_uuid payload (u "attempt_id"));
  let now := format_datetime now_dt in
  let payload_json := json_dumps (durable_payload payload) in
  modify (λ s, Store (st_disk s) (st_tx s) (dsetdefault attempt_id payload (st_transient s)) (st_open s));;
  connect (
    inserted ← query (λ d, (insert_job (new_row build_job_id attempt_id payload_json now d) d).2);
    execute (λ d, (insert_job (new_row build_job_id attempt_id payload_json now d) d).1);;
    row ← job_row_of build_job_id attempt_id;
    job ← reload row (u "Enqueued job could not be reloaded");
    mret (MkEnqueueResult job inserted)).

(** * Reading *)

Definition get_job (build_job_id attempt_id : ustr) : M store (option JobRecord) :=
  row ← connect (job_row_of build_job_id attempt_id);
  match row with
  | Some r => job ← load_job r; mret (Some job)
  | None => mret None
  end.

Fixpoint load_jobs (rows : list job_row) : M store (list JobRecord) :=
  match rows with
  | [] => mret []
  | r :: rows => job ← load_job r; jobs ← load_jobs rows; mret (job :: jobs)
  end.

Definition jobs_for_build (build_job_id : ustr) : M store (list JobRecord) :=
  rows ← connect (query (λ d, sort_by job_leb (List.filter (is_build build_job_id) (db_jobs d))));
  load_jobs rows.

Definition is_current_attempt (build_job_id attempt_id : ustr) : M store bool :=
  newer ← connect (
    row ← job_row_of build_job_id attempt_id;
    match row with
    | None => raise (queue_error (u "Cannot check freshness for unknown attempt"))
    | Some r => select_job (λ r', is_build build_job_id r' && (r_rowid r <? r_rowid r')%N)
    end);
  mret (match newer with None => true | Some _ => false end).

(** * Leases *)

Definition opt_leb (t : ustr) (o : option ustr) : bool :=
  match o with Some e => ustr_leb e t | None => false end.

(** [state = 'QUEUED' OR (state IN ('LEASED', 'RUNNING') AND lease_expires_at <= ?)]. *)
Definition eligible (now : ustr) (r : job_row) : bool :=
  bool_decide (r_state r = QUEUED) || (active (r_state r) && opt_leb now (r_lease_expires_at r)).

Definition next_eligible (now : ustr) (d : db) : option job_row :=
  head (sort_by job_leb (List.filter (eligible now) (db_jobs d))).

(** Leave the active states for [st], dropping lease and cancellation request. *)
Definition finish_row (st : job_state) (error : option ustr) (now : ustr) (r : job_row) : job_row :=
  JobRow (r_rowid r) (r_build_job_id r) (r_attempt_id r) (r_payload_json r) st None None None
    (r_attempts r) (r_sequence_cursor r) (r_created_at r) now error false.

Definition lease_row (owner token expires now : ustr) (r : job_row) : job_row :=
  JobRow (r_rowid r) (r_build_job_id r) (r_attempt_id r) (r_payload_json r) LEASED (Some owner)
    (Some token) (Some expires) (r_attempts r + 1) (r_sequence_cursor r) (r_created_at r) now
    (r_error r) (r_cancel_requested r).

(** The selection loop: each pass cancels an eligible attempt whose
    cancellation was requested, or stops. [None] is running out of fuel. *)
Fixpoint acquire_loop (fuel : nat) (now : ustr) : M store (option (option job_row)) :=
  match fuel with
  | O => mret None
  | S fuel =>
      row ← query (next_eligible now);
      match row with
      | None => mret (Some None)
      | Some r =>
          if r_cancel_requested r then
            update_jobs (is_attempt (r_attempt_id r)) (λ r', finish_row CANCELLED (r_error r') now r');;
            acquire_loop fuel now
          else mret (Some (Some r))
      end
  end.

Definition out_of_fuel : exn := PyExn BaseException (u "acquire_lease does not terminate").

Definition acquire_lease (now_dt : instant) (lease_token : ustr) (lease_owner : ustr)
    (visibility_timeout_seconds : Z) : M store (option JobRecord) :=
  let now := format_datetime now_dt in
  expires_dt ← lift (add_time now_dt (seconds visibility_timeout_seconds));
  let expires_at := format_datetime expires_dt in
  connect (
    begin_immediate;;
    fuel ← query (λ d, S (length (db_jobs d)));
    found ← acquire_loop fuel now;
    match found with
    | None => raise out_of_fuel
    | Some None => commit;; mret None
    | Some (Some row) =>
        update_jobs (is_attempt (r_attempt_id row)) (lease_row lease_owner lease_token expires_at now);;
        commit;;
        refreshed ← job_row_of (r_build_job_id row) (r_attempt_id row);
        job ← reload refreshed (u "Leased job could not be reloaded");
        mret (Some job)
    end).

(** [(? IS NULL OR column = ?)]. *)
Definition matches (wanted column : option ustr) : bool :=
  match wanted with
  | None => true
  | Some w => bool_decide (column = Some w)
  end.

Definition refresh_row (expires now : ustr) (r : job_row) : job_row :=
  JobRow (r_rowid r) (r_build_job_id r) (r_attempt_id r) (r_payload_json r) (r_state r)
    (r_lease_owner r) (r_lease_token r) (Some expires) (r_attempts r) (r_sequence_cursor r)
    (r_created_at r) now (r_error r) (r_cancel_requested r).

Definition refresh_lease (now_dt : instant) (attempt_id lease_owner : ustr)
    (visibility_timeout_seconds : Z) (lease_token : option ustr) : M store JobRecord :=
  let now := format_datetime now_dt in
  expires_dt ← lift (add_time now_dt (seconds visibility_timeout_seconds));
  let expires_at := format_datetime expires_dt in
  connect (
    rowcount ← update_jobs (λ r, is_attempt attempt_id r && bool_decide (r_lease_owner r = Some lease_owner)
                                 && matches lease_token (r_lease_token r) && active (r_state r))
                 (refresh_row expires_at now);
    raise_if (negb (rowcount =? 1)%nat)
      (queue_error (u "Cannot refresh lease for unknown or unowned attempt"));;
    row ← select_job (is_attempt attempt_id);
    reload row (u "Refreshed job could not be reloaded")).

(** * Transitions *)

(** [_LEGAL_PREVIOUS_STATES]. *)
Definition LEGAL_PREVIOUS_STATES (s : job_state) : list job_state :=
  match s with
  | QUEUED => [LEASED; RUNNING]
  | LEASED => [QUEUED]
  | RUNNING => [LEASED]
  | SUCCEEDED => [RUNNING]
  | FAILED | CANCELLED | TIMED_OUT => [QUEUED; LEASED; RUNNING]
  end.

Definition unexpected (wanted : option ustr) (column : option ustr) : bool := negb (matches wanted column).

Definition transition_row (st : job_state) (error : option ustr) (now : ustr) (r : job_row) : job_row :=
  if terminal st then finish_row st error now r
  else JobRow (r_rowid r) (r_build_job_id r) (r_attempt_id r) (r_payload_json r) st
         (r_lease_owner r) (r_lease_token r) (r_lease_expires_at r) (r_attempts r)
         (r_sequence_cursor r) (r_created_at r) now error (r_cancel_requested r).

Definition is_none {A} (o : option A) : bool := match o with None => true | Some _ => false end.

Definition transition (now_dt : instant) (attempt_id state : ustr) (error expected_state : option ustr)
    (lease_owner lease_token : option ustr) : M store JobRecord :=
  match parse_state state with
  | None => raise (queue_error (u "Invalid queue state: " ++ state))
  | Some st =>
      let now := format_datetime now_dt in
      connect (
        begin_immediate;;
        current ← select_job (is_attempt attempt_id);
        match current with
        | None => raise (queue_error (u "Cannot transition unknown attempt"))
        | Some current =>
            let current_state := r_state current in
            raise_if (unexpected expected_state (Some (state_text current_state)))
              (queue_error (u "Cannot transition attempt from an unexpected state"));;
            raise_if (unexpected lease_owner (r_lease_owner current))
              (queue_error (u "Cannot transition attempt owned by another worker"));;
            raise_if (unexpected lease_token (r_lease_token current))
              (queue_error (u "Cannot transition attempt with a stale lease token"));;
            if bool_decide (current_state = st) then
              if is_none expected_state && is_none lease_owner && is_none lease_token then
                commit;; load_job current
              else raise (queue_error (u "Cannot transition attempt from the current state"))
            else
              raise_if (negb (bool_decide (current_state ∈ LEGAL_PREVIOUS_STATES st)))
                (queue_error (u "Cannot transition attempt from the current state"));;
              rowcount ← update_jobs
                (λ r, is_attempt attempt_id r && bool_decide (r_state r = current_state)
                      && matches lease_owner (r_lease_owner r) && matches lease_token (r_lease_token r))
                (transition_row st error now);
              raise_if (negb (rowcount =? 1)%nat)
                (queue_error (u "Cannot transition attempt after its state changed"));;
              row ← select_job (is_attempt attempt_id);
              match row with
              | None => raise (queue_error (u "Transitioned job could not be reloaded"))
              | Some r => commit;; load_job r
              end
        end)
  end.

(** * Cancellation *)

Definition cancel_row (now : ustr) (r : job_row) : job_row :=
  JobRow (r_rowid r) (r_build_job_id r) (r_attempt_id r) (r_payload_json r) (r_state r)
    (r_lease_owner r) (r_lease_token r) (r_lease_expires_at r) (r_attempts r) (r_sequence_cursor r)
    (r_created_at r) now (r_error r) true.

Definition request_cancel (now_dt : instant) (build_job_id : ustr) (attempt_id : option ustr)
    : M store (list ustr) :=
  let now := format_datetime now_dt in
  connect (
    match attempt_id with
    | None =>
        rows ← select_jobs (λ r, is_build build_job_id r && negb (terminal (r_state r)));
        update_jobs (λ r, is_build build_job_id r && negb (terminal (r_state r))) (cancel_row now);;
        mret (r_attempt_id <$> rows)
    | Some attempt_id =>
        update_jobs (λ r, is_build build_job_id r && is_attempt attempt_id r && negb (terminal (r_state r)))
          (cancel_row now);;
        mret [attempt_id]
    end).

Definition is_cancel_requested (attempt_id : ustr) : M store bool :=
  row ← connect (select_job (is_attempt attempt_id));
  mret (match row with Some r => r_cancel_requested r | None => false end).

(** * Crashes and the dead-letter queue *)

(** The ownership test of the crash statements. *)
Definition owned_active (attempt_id : ustr) (lease_owner lease_token : option ustr) (r : job_row) : bool :=
  is_attempt attempt_id r && active (r_state r)
  && matches lease_owner (r_lease_owner r) && matches lease_token (r_lease_token r).

Definition record_executor_crash (now_dt : instant) (attempt_id error : ustr)
    (lease_owner lease_token : option ustr) : M store JobRecord :=
  let now := format_datetime now_dt in
  let mine := owned_active attempt_id lease_owner lease_token in
  connect (
    begin_immediate;;
    row ← select_job mine;
    match row with
    | None => rollback;; raise (queue_error (u "Cannot record crash for unknown attempt"))
    | Some r =>
        let local_crashes := r_attempts r in
        (if MAX_LOCAL_CRASHES <=? local_crashes then
           execute (insert_dlq (DlqRow (r_attempt_id r) (r_build_job_id r) (r_payload_json r) error
                                  local_crashes now));;
           update_jobs mine (finish_row FAILED (Some error) now)
         else update_jobs mine (finish_row QUEUED (Some error) now));;
        commit;;
        refreshed ← select_job (is_attempt attempt_id);
        reload refreshed (u "Crashed job could not be reloaded")
    end).

Fixpoint dlq_records (rows : list dlq_row) : result (list DeadLetterRecord) :=
  match rows with
  | [] => Ok []
  | r :: rows => d ← dlq_from_row r; ds ← dlq_records rows; Ok (d :: ds)
  end.

Definition dlq_entries : M store (list DeadLetterRecord) :=
  rows ← connect (query (λ d, sort_by dlq_leb (db_dlq d)));
  lift (dlq_records rows).

Definition queue_depth : M store nat :=
  connect (query (λ d, count_rows (λ r, bool_decide (r_state r = QUEUED)) (db_jobs d))).

(** * Retention and shutdown *)

Definition prune_terminal (now_dt : instant) (retention_days : Z) : M store nat :=
  cutoff_dt ← lift (add_time now_dt (- days retention_days));
  let cutoff := format_datetime cutoff_dt in
  let old r := terminal (r_state r) && ustr_ltb (r_updated_at r) cutoff in
  connect (
    n ← query (λ d, count_rows old (db_jobs d));
    execute (delete_jobs old);;
    mret n).

(** Closing drops an unfinished transaction. *)
Definition close : M store () := modify (λ s,
  if st_open s then Store (st_disk s) None (st_transient s) false else s).
