(* ===== verification/StoreRun.v ===== *)
(** What each queue method does on a store that is not inside a transaction:
    the row-level specifications, and the lemmas that every method of [Store]
    computes exactly what its specification says, on every branch. *)

From S2P Require Import Prelude PyStr Dict Json Clock Uuid Db Store.

Local Open Scope Z_scope.

(** * Specifications of the methods on one row *)

(** [transition]: the guards, in the order the code tests them. *)
Definition transition_spec (now state : ustr) (error expected owner token : option ustr)
    (row : option job_row) : result job_row :=
  match parse_state state with
  | None => Err (queue_error (u "Invalid queue state: " ++ state))
  | Some st =>
      match row with
      | None => Err (queue_error (u "Cannot transition unknown attempt"))
      | Some r =>
          if unexpected expected (Some (state_text (r_state r)))
          then Err (queue_error (u "Cannot transition attempt from an unexpected state"))
          else if unexpected owner (r_lease_owner r)
          then Err (queue_error (u "Cannot transition attempt owned by another worker"))
          else if unexpected token (r_lease_token r)
          then Err (queue_error (u "Cannot transition attempt with a stale lease token"))
          else if bool_decide (r_state r = st) then
            if is_none expected && is_none owner && is_none token then Ok r
            else Err (queue_error (u "Cannot transition attempt from the current state"))
          else if bool_decide (r_state r ∈ LEGAL_PREVIOUS_STATES st)
          then Ok (transition_row st error now r)
          else Err (queue_error (u "Cannot transition attempt from the current state"))
      end
  end.

Definition refresh_spec (now expires owner : ustr) (token : option ustr) (row : option job_row)
    : result job_row :=
  match row with
  | Some r => if bool_decide (r_lease_owner r = Some owner) && matches token (r_lease_token r)
                 && active (r_state r)
              then Ok (refresh_row expires now r)
              else Err (queue_error (u "Cannot refresh lease for unknown or unowned attempt"))
  | None => Err (queue_error (u "Cannot refresh lease for unknown or unowned attempt"))
  end.

(** [record_executor_crash]: back to the queue, or parked on the third crash. *)
Definition crash_spec (now error : ustr) (owner token : option ustr) (row : option job_row)
    : result job_row :=
  match row with
  | Some r => if active (r_state r) && matches owner (r_lease_owner r) && matches token (r_lease_token r)
              then Ok (finish_row (if MAX_LOCAL_CRASHES <=? r_attempts r then FAILED else QUEUED)
                         (Some error) now r)
              else Err (queue_error (u "Cannot record crash for unknown attempt"))
  | None => Err (queue_error (u "Cannot record crash for unknown attempt"))
  end.

Definition dlq_row_of (error now : ustr) (r : job_row) : dlq_row :=
  DlqRow (r_attempt_id r) (r_build_job_id r) (r_payload_json r) error (r_attempts r) now.

(** The dead-letter table after a crash of [r]. *)
Definition crash_dlq (error now : ustr) (r : job_row) (d : db) : db :=
  if MAX_LOCAL_CRASHES <=? r_attempts r then insert_dlq (dlq_row_of error now r) d else d.

(** [acquire_lease]: the requested cancellations of eligible attempts that come
    before the first other eligible attempt take effect. *)
Fixpoint settle (fuel : nat) (now : ustr) (d : db) : db * option job_row :=
  match fuel with
  | O => (d, None)
  | S fuel =>
      match next_eligible now d with
      | Some r => if r_cancel_requested r
                  then settle fuel now (set_row (r_attempt_id r) (finish_row CANCELLED (r_error r) now r) d)
                  else (d, Some r)
      | None => (d, None)
      end
  end.

(** * Well-formed tables, and the records their rows give *)

Definition readable (r : job_row) : Prop := ∃ p, loads (r_payload_json r) = Ok (JObj p).

Record table_ok (d : db) : Prop := TableOk {
  tk_unique : unique_attempts d;
  tk_readable : Forall readable (db_jobs d);
}.

Definition payload_of (r : job_row) : json :=
  match loads (r_payload_json r) with Ok j => j | Err _ => JNull end.

Definition record_of (tr : list (ustr * jdict)) (r : job_row) : JobRecord :=
  MkJobRecord (r_build_job_id r) (r_attempt_id r)
    (match dget (r_attempt_id r) tr with Some p => JObj p | None => payload_of r end)
    (r_state r) (r_attempts r) (r_sequence_cursor r) (r_lease_owner r) (r_lease_expires_at r)
    (r_error r) (r_created_at r) (r_updated_at r) (r_lease_token r) (r_cancel_requested r).

(** [m], started on [s], gives [r] and leaves the connection outside of any
    transaction over the database [d] and the transient payloads [tr]. *)
Definition runs {A} (m : M store A) (s : store) (r : result A) (d : db) (tr : list (ustr * jdict)) : Prop :=
  ∃ op, m s = (r, Store d None tr op).

Definition idle (s : store) : Prop := st_tx s = None.

(** * Lemmas: running the connection *)

Lemma load_job_run r s : readable r → load_job r s = (Ok (record_of (st_transient s) r), s).
Proof.
  intros [p Hp]. unfold load_job, with_transient_payload, job_from_row. munfold. rewrite Hp.
  unfold record_of, payload_of. rewrite Hp. cbn. by destruct (dget _ _).
Qed.

Lemma readable_same_payload r r' : r_payload_json r' = r_payload_json r → readable r → readable r'.
Proof. unfold readable. by intros ->. Qed.

Lemma reload_run r msg s : readable r → reload (Some r) msg s = (Ok (record_of (st_transient s) r), s).
Proof. apply load_job_run. Qed.

Lemma find_row_readable a d r : table_ok d → find_row a d = Some r → readable r.
Proof. intros [_ H] [_ Hr]%find_row_Some. rewrite Forall_forall in H. by apply H. Qed.

Lemma set_row_id a r d : unique_attempts d → find_row a d = Some r → set_row a r d = d.
Proof.
  intros Hu Hf. destruct (find_row_Some _ _ _ Hf) as [Ha _].
  unfold set_row. destruct d as [v b1 b2 b3 js es ds]. cbn [db_jobs with_jobs].
  unfold with_jobs. f_equal. unfold update_rows. rewrite <- (list_fmap_id js) at 2.
  apply list_fmap_ext. intros i x Hx. simpl. destruct (is_attempt a x) eqn:E; [|done].
  apply is_attempt_spec in E. apply list_elem_of_lookup_2 in Hx.
  apply (find_row_elem (Db v b1 b2 b3 js es ds)) in Hx; [|done]. rewrite E in Hx. congruence.
Qed.

Lemma head_find a d : head (List.filter (is_attempt a) (db_jobs d)) = find_row a d.
Proof. done. Qed.

(** Scans for one attempt, in terms of [find_row] and [set_row]. *)
Lemma select_hit a p d : unique_attempts d →
  head (List.filter (λ r, is_attempt a r && p r) (db_jobs d)) = hit p (find_row a d).
Proof. intros Hu. apply (scan_attempt a p id _ Hu). Qed.

Lemma count_hit a p d : unique_attempts d →
  count_rows (λ r, is_attempt a r && p r) (db_jobs d) =
    match hit p (find_row a d) with Some _ => 1%nat | None => 0%nat end.
Proof. intros Hu. apply (scan_attempt a p id _ Hu). Qed.

Lemma update_hit a p f d : unique_attempts d →
  with_jobs d (update_rows (λ r, is_attempt a r && p r) f (db_jobs d)) =
    match hit p (find_row a d) with Some r => set_row a (f r) d | None => d end.
Proof.
  intros Hu. destruct (scan_attempt a p f _ Hu) as (_ & H & _). rewrite H. unfold find_row.
  destruct (hit _ _); [done|]. by destruct d.
Qed.

Lemma update_attempt a f d r : unique_attempts d → find_row a d = Some r →
  with_jobs d (update_rows (is_attempt a) f (db_jobs d)) = set_row a (f r) d.
Proof.
  intros Hu Hf. rewrite (update_rows_ext (is_attempt a) (λ r, is_attempt a r && true))
    by (intros; by rewrite andb_true_r).
  rewrite update_hit by done. by rewrite Hf.
Qed.

Lemma set_row_table_ok a r d : r_attempt_id r = a → readable r → table_ok d → table_ok (set_row a r d).
Proof.
  intros Ha Hr [Hu Hd]. split; [by apply set_row_unique|]. rewrite Forall_forall in *.
  intros x [[Hx _]| ->]%elem_of_set_row; auto.
Qed.

(** Compute with the connection primitives on a concrete store. *)
Ltac sql := cbv [connect open_connection begin_immediate commit rollback query execute write
  update_jobs select_job select_jobs job_row_of view
  mbind M_bind mret M_ret raise lift gets modify raise_if try_except
  st_disk st_tx st_transient st_open from_option id isinstance exn_cls queue_error].

Lemma transition_run now a state err exp own tok s :
  idle s → table_ok (st_disk s) →
  let d := st_disk s in let tr := st_transient s in
  match transition_spec (format_datetime now) state err exp own tok (find_row a d) with
  | Ok r => runs (transition now a state err exp own tok) s (Ok (record_of tr r)) (set_row a r d) tr
  | Err e => runs (transition now a state err exp own tok) s (Err e) d tr
  end.
Proof.
  destruct s as [d tx tr op]. unfold idle. cbn [st_tx st_disk st_transient]. intros -> Hok.
  pose proof (tk_unique _ Hok) as Hu. unfold transition_spec.
  assert (∀ r, find_row a d = Some r → readable r) as Hr by eauto using find_row_readable.
  destruct (parse_state state) as [st|] eqn:Est.
  2:{ exists op. unfold transition. by rewrite Est. }
  unfold transition. rewrite Est. unfold runs. sql. rewrite head_find.
  destruct (find_row a d) as [r|] eqn:Ef; [|by eexists].
  destruct (unexpected exp _) eqn:E1; [by eexists|].
  destruct (unexpected own _) eqn:E2; [by eexists|].
  destruct (unexpected tok _) eqn:E3; [by eexists|].
  destruct (bool_decide (r_state r = st)) eqn:E4.
  { destruct (_ && _); [|by eexists]. exists true. sql. rewrite load_job_run by auto.
    by rewrite set_row_id. }
  destruct (bool_decide (r_state r ∈ _)) eqn:E5; [|by eexists]. sql. cbn [negb].
  rewrite (count_rows_ext _ (λ r', is_attempt a r' && (bool_decide (r_state r' = r_state r)
     && matches own (r_lease_owner r') && matches tok (r_lease_token r')))) by (intros; by rewrite !andb_assoc).
  rewrite (update_rows_ext _ (λ r', is_attempt a r' && (bool_decide (r_state r' = r_state r)
     && matches own (r_lease_owner r') && matches tok (r_lease_token r')))) by (intros; by rewrite !andb_assoc).
  rewrite update_hit, count_hit by done. rewrite Ef. unfold unexpected in *.
  apply negb_false_iff in E2, E3. cbn [hit]. rewrite (bool_decide_true (r_state r = r_state r)), E2, E3 by done.
  cbn [Nat.eqb negb andb st_tx st_disk st_transient st_open]. rewrite head_find.
  assert (r_attempt_id (transition_row st err (format_datetime now) r) = a) as Ha.
  { destruct (find_row_Some _ _ _ Ef) as [<- _]. unfold transition_row. by destruct (terminal st). }
  assert (readable (transition_row st err (format_datetime now) r)) as Hr'.
  { eapply readable_same_payload; [|by apply Hr]. unfold transition_row. by destruct (terminal st). }
  rewrite (find_set_row _ _ r), decide_True by done. sql. exists true. by rewrite load_job_run.
Qed.

Lemma refresh_lease_run now a owner v tok s :
  idle s → table_ok (st_disk s) →
  let d := st_disk s in let tr := st_transient s in
  match (e ← add_time now (seconds v);
         refresh_spec (format_datetime now) (format_datetime e) owner tok (find_row a d)) with
  | Ok r => runs (refresh_lease now a owner v tok) s (Ok (record_of tr r)) (set_row a r d) tr
  | Err e => runs (refresh_lease now a owner v tok) s (Err e) d tr
  end.
Proof.
  destruct s as [d tx tr op]. unfold idle. cbn [st_tx st_disk st_transient]. intros -> Hok.
  pose proof (tk_unique _ Hok) as Hu. unfold refresh_lease, runs. sql.
  destruct (add_time now (seconds v)) as [exp|e]; cbn [mbind result_bind]; [|by eexists]. unfold refresh_spec.
  rewrite (count_rows_ext _ (λ r', is_attempt a r' && (bool_decide (r_lease_owner r' = Some owner)
     && matches tok (r_lease_token r') && active (r_state r')))) by (intros; by rewrite !andb_assoc).
  rewrite (update_rows_ext _ (λ r', is_attempt a r' && (bool_decide (r_lease_owner r' = Some owner)
     && matches tok (r_lease_token r') && active (r_state r')))) by (intros; by rewrite !andb_assoc).
  rewrite update_hit, count_hit by done. destruct (find_row a d) as [r|] eqn:Ef; [|by eexists].
  cbn [hit]. destruct (_ && _); [|by eexists]. cbn [Nat.eqb negb]. rewrite head_find.
  destruct (find_row_Some _ _ _ Ef) as [Ha _].
  rewrite (find_set_row _ _ r), decide_True by done. exists true. unfold reload. rewrite load_job_run; [done|].
  eapply readable_same_payload; [|by eapply find_row_readable]. done.
Qed.

Lemma insert_dlq_jobs r d : db_jobs (insert_dlq r d) = db_jobs d.
Proof. unfold insert_dlq. by destruct (mem_str _ _). Qed.

Lemma insert_dlq_find r a d : find_row a (insert_dlq r d) = find_row a d.
Proof. unfold find_row. by rewrite insert_dlq_jobs. Qed.

Lemma crash_dlq_jobs err now r d : db_jobs (crash_dlq err now r d) = db_jobs d.
Proof. unfold crash_dlq. case_match; [apply insert_dlq_jobs|done]. Qed.

Lemma crash_dlq_find err now r a d : find_row a (crash_dlq err now r d) = find_row a d.
Proof. unfold find_row. by rewrite crash_dlq_jobs. Qed.

Lemma record_crash_run now a error own tok s :
  idle s → table_ok (st_disk s) →
  let d := st_disk s in let tr := st_transient s in
  match crash_spec (format_datetime now) error own tok (find_row a d), find_row a d with
  | Ok r', Some r => runs (record_executor_crash now a error own tok) s (Ok (record_of tr r'))
              (set_row a r' (crash_dlq error (format_datetime now) r d)) tr
  | Ok _, None => False
  | Err e, _ => runs (record_executor_crash now a error own tok) s (Err e) d tr
  end.
Proof.
  destruct s as [d tx tr op]. unfold idle. cbn [st_tx st_disk st_transient]. intros -> Hok.
  pose proof (tk_unique _ Hok) as Hu. unfold record_executor_crash, runs, crash_spec, owned_active.
  assert (∀ x, is_attempt a x && active (r_state x) && matches own (r_lease_owner x)
     && matches tok (r_lease_token x) = is_attempt a x && (active (r_state x)
       && matches own (r_lease_owner x) && matches tok (r_lease_token x))) as Hp
    by (intros; by rewrite !andb_assoc).
  sql. rewrite (filter_ext_eq _ _ _ Hp), select_hit by done.
  destruct (find_row a d) as [r|] eqn:Ef; [|by eexists]. cbn [hit].
  destruct (active _ && _ && _) eqn:E; [|by eexists]. destruct (find_row_Some _ _ _ Ef) as [Ha _].
  assert (∀ d' st, db_jobs d' = db_jobs d →
    with_jobs d' (update_rows (λ x, is_attempt a x && active (r_state x) && matches own (r_lease_owner x)
     && matches tok (r_lease_token x)) (finish_row st (Some error) (format_datetime now)) (db_jobs d'))
    = set_row a (finish_row st (Some error) (format_datetime now) r) d') as Hup.
  { intros d' st Hd. rewrite (update_rows_ext _ _ _ _ Hp), update_hit by (unfold unique_attempts; by rewrite Hd).
    unfold find_row in *. rewrite Hd, Ef. cbn [hit]. by rewrite E. }
  assert (∀ st d', db_jobs d' = db_jobs d →
    head (List.filter (is_attempt a) (db_jobs (set_row a (finish_row st (Some error) (format_datetime now) r) d')))
    = Some (finish_row st (Some error) (format_datetime now) r)) as Hsel.
  { intros st d' Hd. rewrite head_find, (find_set_row _ _ r), decide_True; try done.
    - unfold unique_attempts. by rewrite Hd.
    - unfold find_row in *. by rewrite Hd. }
  assert (∀ st s', reload (Some (finish_row st (Some error) (format_datetime now) r))
    (u "Crashed job could not be reloaded") s' =
    (Ok (record_of (st_transient s') (finish_row st (Some error) (format_datetime now) r)), s')) as Hld.
  { intros st s'. apply reload_run. eapply readable_same_payload; [|by eapply find_row_readable]. done. }
  unfold crash_dlq. destruct (MAX_LOCAL_CRASHES <=? r_attempts r).
  - rewrite Hup by apply insert_dlq_jobs. rewrite Hsel by apply insert_dlq_jobs. rewrite Hld.
    exists true. by rewrite <- Ha.
  - rewrite Hup, Hsel, Hld by done. by exists true.
Qed.

(** * Lemmas: leasing *)

Lemma head_build_attempt b a d : unique_attempts d →
  head (List.filter (λ r, is_build b r && is_attempt a r) (db_jobs d)) = hit (is_build b) (find_row a d).
Proof.
  intros Hu. rewrite (filter_ext_eq _ (λ r, is_attempt a r && is_build b r)) by (intros; by rewrite andb_comm).
  by apply select_hit.
Qed.

Lemma next_eligible_Some now d r :
  next_eligible now d = Some r →
  r ∈ db_jobs d ∧ eligible now r = true ∧ ∀ r', r' ∈ db_jobs d → eligible now r' = true → job_leb r r' = true.
Proof.
  intros H. apply sort_by_head in H as [Hr Hmin]; [|apply job_leb_total|apply job_leb_trans].
  apply list_elem_of_In, List.filter_In in Hr as [Hr He].
  split_and!; [by apply list_elem_of_In|done|]. intros r' Hr' He'. apply Hmin.
  apply list_elem_of_In, List.filter_In. split; [by apply list_elem_of_In|done].
Qed.

Lemma next_eligible_None now d : next_eligible now d = None ↔ ∀ r, r ∈ db_jobs d → eligible now r = false.
Proof.
  unfold next_eligible. rewrite head_sort_by_None. split.
  - intros H r Hr. destruct (eligible now r) eqn:E; [|done].
    assert (r ∈ List.filter (eligible now) (db_jobs d)) as Hin.
    { apply list_elem_of_In, List.filter_In. split; [by apply list_elem_of_In|done]. }
    rewrite H in Hin. by apply not_elem_of_nil in Hin.
  - intros H. apply filter_false, Forall_forall, H.
Qed.

Lemma next_eligible_find now d r :
  unique_attempts d → next_eligible now d = Some r → find_row (r_attempt_id r) d = Some r.
Proof. intros Hu (Hr & _)%next_eligible_Some. by apply find_row_elem. Qed.

(** How many attempts are eligible: each cancellation of the loop removes one. *)
Definition pending (now : ustr) (d : db) : nat := count_rows (eligible now) (db_jobs d).

Lemma finished_not_eligible now st e t r : terminal st = true → eligible now (finish_row st e t r) = false.
Proof. by destruct st. Qed.

Lemma count_update_lt {A} (p q : A → bool) f l x :
  (∀ y, y ∈ l → p y = true → q y = true ∧ q (f y) = false) →
  x ∈ l → p x = true → (count_rows q (update_rows p f l) < count_rows q l)%nat.
Proof.
  unfold count_rows, update_rows.
  assert (∀ l', (∀ y, y ∈ l' → p y = true → q y = true ∧ q (f y) = false) →
    (length (List.filter q ((λ r, if p r then f r else r) <$> l')) <= length (List.filter q l'))%nat) as Hle.
  { intros l' H. induction l' as [|y l' IH]; cbn; [lia|].
    assert (∀ z, z ∈ l' → p z = true → q z = true ∧ q (f z) = false) as H'
      by (intros; apply H; [by right|done]). specialize (IH H').
    destruct (p y) eqn:E.
    - destruct (H y) as [-> ->]; [by left|done|]. simpl. lia.
    - destruct (q y); simpl; lia. }
  induction l as [|y l IH]; intros H Hx Hp; [by apply not_elem_of_nil in Hx|].
  assert (∀ z, z ∈ l → p z = true → q z = true ∧ q (f z) = false) as H'
    by (intros; apply H; [by right|done]).
  cbn. apply elem_of_cons in Hx as [<-|Hx].
  - rewrite Hp. destruct (H x) as [-> ->]; [by left|done|]. specialize (Hle l H'). simpl. lia.
  - specialize (IH H' Hx Hp). destruct (p y) eqn:E.
    + destruct (H y) as [-> ->]; [by left|done|]. simpl. lia.
    + destruct (q y); simpl; lia.
Qed.

Lemma settle_pending now e d r :
  unique_attempts d → next_eligible now d = Some r →
  (pending now (set_row (r_attempt_id r) (finish_row CANCELLED e now r) d) < pending now d)%nat.
Proof.
  intros Hu (Hr & He & _)%next_eligible_Some. unfold pending, set_row. cbn [db_jobs with_jobs].
  apply (count_update_lt _ _ _ _ r); [|done|by apply is_attempt_spec].
  intros y Hy Ha%is_attempt_spec. split; [|by apply finished_not_eligible].
  apply find_row_elem in Hy, Hr; [|done..]. congruence.
Qed.

Lemma settle_row_id e now r : r_attempt_id (finish_row CANCELLED e now r) = r_attempt_id r.
Proof. done. Qed.

(** Enough fuel for every pending attempt: the loop ends, as [settle] says. *)
Lemma acquire_loop_run fuel now d0 d tr op :
  unique_attempts d → (pending now d < fuel)%nat →
  acquire_loop fuel now (Store d0 (Some d) tr op) =
    (Ok (Some (settle fuel now d).2), Store d0 (Some (settle fuel now d).1) tr op).
Proof.
  revert d. induction fuel as [|fuel IH]; intros d Hu Hf; [lia|]. cbn [acquire_loop settle]. sql.
  destruct (next_eligible now d) as [r|] eqn:E; [|done].
  destruct (r_cancel_requested r) eqn:Ec; [|done]. sql.
  rewrite (update_attempt _ _ _ r) by (try apply next_eligible_find with now; done).
  apply IH; [by apply set_row_unique|]. pose proof (settle_pending now (r_error r) d r Hu E). lia.
Qed.

Definition settled (now : ustr) (d : db) : db * option job_row := settle (S (length (db_jobs d))) now d.

Lemma count_rows_le {A} (p : A → bool) l : (count_rows p l <= length l)%nat.
Proof. unfold count_rows. induction l; simpl; [lia|]. destruct (p a); simpl; lia. Qed.

Lemma settle_table_ok fuel now d : table_ok d → table_ok (settle fuel now d).1.
Proof.
  revert d. induction fuel as [|fuel IH]; intros d Hok; [done|]. cbn [settle].
  destruct (next_eligible now d) as [r|] eqn:E; [|done]. destruct (r_cancel_requested r); [|done].
  apply IH, set_row_table_ok; [done| |done]. destruct Hok as [Hu Hr].
  apply next_eligible_Some in E as (E & _). rewrite Forall_forall in Hr.
  by apply (readable_same_payload r); [|apply Hr].
Qed.

Lemma settle_Some fuel now d d' r :
  settle fuel now d = (d', Some r) → next_eligible now d' = Some r ∧ r_cancel_requested r = false.
Proof.
  revert d. induction fuel as [|fuel IH]; intros d; cbn [settle]; [done|].
  destruct (next_eligible now d) as [r'|] eqn:E; [|done].
  destruct (r_cancel_requested r') eqn:Ec; [apply IH|]. by intros [= <- <-].
Qed.

Lemma acquire_lease_run now tok owner v s :
  idle s → table_ok (st_disk s) →
  let d := st_disk s in let tr := st_transient s in let nowt := format_datetime now in
  match add_time now (seconds v), settled nowt d with
  | Err e, _ => runs (acquire_lease now tok owner v) s (Err e) d tr
  | Ok _, (d', None) => runs (acquire_lease now tok owner v) s (Ok None) d' tr
  | Ok e, (d', Some r) =>
      let r' := lease_row owner tok (format_datetime e) nowt r in
      runs (acquire_lease now tok owner v) s (Ok (Some (record_of tr r'))) (set_row (r_attempt_id r) r' d') tr
  end.
Proof.
  destruct s as [d tx tr op]. unfold idle. cbn [st_tx st_disk st_transient]. intros -> Hok.
  pose proof (tk_unique _ Hok) as Hu. unfold acquire_lease, runs. cbv zeta. sql.
  destruct (add_time now (seconds v)) as [e|e]; [|by eexists]. unfold settled.
  rewrite acquire_loop_run by (try done; unfold pending; pose proof (count_rows_le (eligible (format_datetime now)) (db_jobs d)); lia).
  pose proof (settle_table_ok (S (length (db_jobs d))) (format_datetime now) d Hok) as Hok'.
  destruct (settle _ _ d) as [d' [r|]] eqn:Es; cbn [fst snd] in *; [|by exists true].
  apply settle_Some in Es as [En _]. pose proof (tk_unique _ Hok') as Hu'.
  pose proof (next_eligible_find _ _ _ Hu' En) as Ef. sql.
  rewrite (update_attempt _ _ _ r) by done. rewrite head_build_attempt by (by apply set_row_unique).
  rewrite (find_set_row _ _ r), decide_True by done. cbn [hit].
  rewrite (proj2 (is_build_spec _ _)) by done. exists true. rewrite reload_run; [done|].
  eapply readable_same_payload; [|by eapply find_row_readable]. done.
Qed.

(** * Lemmas: enqueueing *)

Lemma required_payload_uuid_Ok p k v :
  required_payload_uuid p k = Ok v ↔ dget k p = Some (JStr v) ∧ canonical_uuid v.
Proof.
  unfold required_payload_uuid, required_payload_str. rewrite <- is_uuid_canonical. split.
  - intros H. destruct (dget k p) as [[]|] eqn:E; try done. destruct s as [|c s]; [done|].
    munfold. destruct (uuid_parse (c :: s)) as [n|] eqn:Ep; [|done]. unfold ustr_eqb in H.
    destruct (bool_decide (uuid_str n = c :: s)) eqn:Eb; [|done]. injection H as <-.
    split; [done|]. unfold is_uuid. by rewrite Ep.
  - intros [-> H]. pose proof (is_uuid_nonempty v H). destruct v as [|c v]; [done|]. munfold.
    unfold is_uuid, ustr_eqb in *. destruct (uuid_parse (c :: v)) as [n|]; [|done]. by rewrite H.
Qed.

Lemma required_payload_uuid_err p k e : required_payload_uuid p k = Err e → ∃ m, e = queue_error m.
Proof.
  unfold required_payload_uuid, required_payload_str, fail_if. munfold. intros H.
  repeat case_match; simplify_eq; eauto.
Qed.

(** The database after [INSERT OR IGNORE] of a fresh row for the attempt. *)
Definition enqueue_db (b a payload_json now : ustr) (d : db) : db :=
  match find_row a d with
  | Some _ => d
  | None => with_jobs d (db_jobs d ++ [new_row b a payload_json now d])
  end.

Lemma insert_new_row b a pj now d : unique_attempts d →
  insert_job (new_row b a pj now d) d =
    (enqueue_db b a pj now d, match find_row a d with Some _ => false | None => true end).
Proof.
  intros Hu. unfold insert_job, enqueue_db, mem_str. cbn [r_attempt_id new_row].
  case_bool_decide as H; destruct (find_row a d) eqn:E; try done.
  - by apply find_row_None in E.
  - destruct (find_row_Some _ _ _ E) as [<- Hr]. exfalso. by apply H, list_elem_of_fmap_2.
Qed.

Lemma find_append a d r :
  find_row a (with_jobs d (db_jobs d ++ [r])) =
    match find_row a d with Some x => Some x | None => if is_attempt a r then Some r else None end.
Proof.
  unfold find_row. cbn [db_jobs with_jobs]. rewrite List.filter_app. cbn [List.filter].
  destruct (List.filter (is_attempt a) (db_jobs d)); [|done]. simpl. by destruct (is_attempt a r).
Qed.

Lemma append_unique d r :
  unique_attempts d → find_row (r_attempt_id r) d = None → unique_attempts (with_jobs d (db_jobs d ++ [r])).
Proof.
  unfold unique_attempts. cbn [db_jobs with_jobs]. intros Hu H. rewrite fmap_app. apply NoDup_app.
  split_and!; [done| |apply NoDup_singleton]. apply find_row_None in H; [|done].
  intros x Hx ->%list_elem_of_singleton. done.
Qed.

Lemma durable_payload_json_ok p : json_ok (JObj p) = true → json_ok (JObj (durable_payload p)) = true.
Proof.
  cbn [json_ok]. unfold durable_payload, dfilter. intros [Hn Hf]%andb_true_iff. apply andb_true_iff. split.
  - apply bool_decide_eq_true in Hn. apply bool_decide_eq_true. exact (dfilter_NoDup (λ k, negb (mem_str k SECRET_KEYS)) p Hn).
  - rewrite forallb_forall in *. intros kv Hkv. apply Hf. apply list_elem_of_In.
    by apply list_elem_of_In, list_elem_of_filter in Hkv as [_ Hkv].
Qed.

Lemma new_row_readable b a p now d : json_ok (JObj p) = true →
  readable (new_row b a (json_dumps (durable_payload p)) now d).
Proof.
  intros Hp. unfold readable. cbn [r_payload_json new_row]. unfold json_dumps.
  rewrite loads_dumps_style by (auto using durable_payload_json_ok with engine).
  rewrite json_norm_obj. eauto.
Qed.

Definition not_reloaded : exn := queue_error (u "Enqueued job could not be reloaded").

Lemma enqueue_run now p s :
  idle s → table_ok (st_disk s) → json_ok (JObj p) = true →
  let d := st_disk s in let tr := st_transient s in
  match (b ← required_payload_uuid p (u "build_job_id"); a ← required_payload_uuid p (u "attempt_id"); Ok (b, a)) with
  | Err e => runs (enqueue now p) s (Err e) d tr
  | Ok (b, a) =>
      let d' := enqueue_db b a (json_dumps (durable_payload p)) (format_datetime now) d in
      let tr' := dsetdefault a p tr in
      match hit (is_build b) (find_row a d') with
      | Some r => runs (enqueue now p) s
                    (Ok (MkEnqueueResult (record_of tr' r)
                           (match find_row a d with Some _ => false | None => true end))) d' tr'
      | None => runs (enqueue now p) s (Err not_reloaded) d' tr'
      end
  end.
Proof.
  destruct s as [d tx tr op]. unfold idle. cbn [st_tx st_disk st_transient]. intros -> Hok Hp.
  pose proof (tk_unique _ Hok) as Hu. unfold enqueue, runs. cbv zeta. sql. munfold.
  destruct (required_payload_uuid p (u "build_job_id")) as [b|e]; [|by eexists].
  destruct (required_payload_uuid p (u "attempt_id")) as [a|e]; [|by eexists]. sql.
  rewrite insert_new_row by done. cbn [fst snd].
  assert (unique_attempts (enqueue_db b a (json_dumps (durable_payload p)) (format_datetime now) d)) as Hu'.
  { unfold enqueue_db. destruct (find_row a d) eqn:E; [done|]. by apply append_unique. }
  rewrite head_build_attempt by done. destruct (hit _ _) as [r|] eqn:Eh; [|by exists true].
  exists true. rewrite reload_run; [done|]. revert Eh. unfold enqueue_db.
  destruct (find_row a d) as [r'|] eqn:E.
  - rewrite E. cbn [hit]. case_match; intros [= <-]. by eapply find_row_readable.
  - rewrite find_append, E. destruct (is_attempt _ _); [|done]. cbn [hit]. destruct (is_build _ _); [|done]. intros [= <-]. by apply new_row_readable.
Qed.

(** * Lemmas: the other methods *)

Lemma get_job_run b a s : idle s → table_ok (st_disk s) →
  runs (get_job b a) s (Ok (record_of (st_transient s) <$> hit (is_build b) (find_row a (st_disk s))))
    (st_disk s) (st_transient s).
Proof.
  destruct s as [d tx tr op]. unfold idle. cbn [st_tx st_disk st_transient]. intros -> Hok.
  pose proof (tk_unique _ Hok) as Hu. unfold get_job, runs. sql. rewrite head_build_attempt by done.
  exists true. destruct (hit _ _) as [r|] eqn:E; [|done]. rewrite load_job_run; [done|].
  destruct (find_row a d) eqn:Ef; [|done]. cbn [hit] in E. case_match; simplify_eq. by eapply find_row_readable.
Qed.

Lemma is_cancel_requested_run a s : idle s →
  runs (is_cancel_requested a) s
    (Ok (match find_row a (st_disk s) with Some r => r_cancel_requested r | None => false end))
    (st_disk s) (st_transient s).
Proof. destruct s as [d tx tr op]. unfold idle. cbn [st_tx]. intros ->. by exists true. Qed.

Lemma queue_depth_run s : idle s →
  runs queue_depth s (Ok (count_rows (λ r, bool_decide (r_state r = QUEUED)) (db_jobs (st_disk s))))
    (st_disk s) (st_transient s).
Proof. destruct s as [d tx tr op]. unfold idle. cbn [st_tx]. intros ->. by exists true. Qed.

(** The newest row of a build: no row of it has a larger [rowid]. *)
Definition newest (b : ustr) (r : job_row) (d : db) : bool :=
  forallb (λ r', negb (is_build b r' && (r_rowid r <? r_rowid r')%N)) (db_jobs d).

Lemma head_filter_forallb {A} (p : A → bool) l :
  match head (List.filter p l) with None => true | Some _ => false end = forallb (λ x, negb (p x)) l.
Proof. induction l as [|x l IH]; [done|]. cbn [List.filter forallb]. by destruct (p x). Qed.

Lemma is_current_run b a s : idle s → table_ok (st_disk s) →
  match hit (is_build b) (find_row a (st_disk s)) with
  | Some r => runs (is_current_attempt b a) s (Ok (newest b r (st_disk s))) (st_disk s) (st_transient s)
  | None => runs (is_current_attempt b a) s
              (Err (queue_error (u "Cannot check freshness for unknown attempt"))) (st_disk s) (st_transient s)
  end.
Proof.
  destruct s as [d tx tr op]. unfold idle. cbn [st_tx st_disk st_transient]. intros -> Hok.
  unfold is_current_attempt, runs. sql. rewrite head_build_attempt by (by apply tk_unique).
  destruct (hit _ _) as [r|]; exists true; [|done]. cbn. unfold newest. by rewrite <- head_filter_forallb.
Qed.

(** Every non-terminal attempt of the build (or the one attempt named) is flagged. *)
Definition cancel_target (b : ustr) (a : option ustr) (r : job_row) : bool :=
  is_build b r && match a with Some a => is_attempt a r | None => true end && negb (terminal (r_state r)).

Lemma request_cancel_run now b a s : idle s →
  runs (request_cancel now b a) s
    (Ok (match a with
         | Some a => [a]
         | None => r_attempt_id <$> List.filter (cancel_target b None) (db_jobs (st_disk s))
         end))
    (with_jobs (st_disk s)
       (update_rows (cancel_target b a) (cancel_row (format_datetime now)) (db_jobs (st_disk s))))
    (st_transient s).
Proof.
  destruct s as [d tx tr op]. unfold idle. cbn [st_tx st_disk st_transient]. intros ->. exists true.
  unfold request_cancel, cancel_target. destruct a as [a|]; sql; [done|].
  rewrite (filter_ext_eq _ (λ r, is_build b r && true && negb (terminal (r_state r))))
    by (intros; by rewrite andb_true_r).
  rewrite (update_rows_ext _ (λ r, is_build b r && true && negb (terminal (r_state r))))
    by (intros; by rewrite andb_true_r). done.
Qed.

(** Terminal attempts not updated since the cutoff. *)
Definition expired (cutoff : ustr) (r : job_row) : bool :=
  terminal (r_state r) && ustr_ltb (r_updated_at r) cutoff.

Lemma prune_terminal_run now n s : idle s →
  match add_time now (- days n) with
  | Ok c => runs (prune_terminal now n) s (Ok (count_rows (expired (format_datetime c)) (db_jobs (st_disk s))))
              (delete_jobs (expired (format_datetime c)) (st_disk s)) (st_transient s)
  | Err e => runs (prune_terminal now n) s (Err e) (st_disk s) (st_transient s)
  end.
Proof.
  destruct s as [d tx tr op]. unfold idle. cbn [st_tx st_disk st_transient]. intros ->.
  unfold prune_terminal, runs. sql. destruct (add_time now (- days n)) as [c|e]; [|by eexists].
  by exists true.
Qed.

(** The schema after [initialize]. *)
Definition initialized (d : db) : db :=
  if db_version d <? 1 then set_version 2 (migrate_to_v2 (create_v1_schema d))
  else if db_version d =? 1 then set_version 2 (migrate_to_v2 d) else d.

Lemma initialize_run s : idle s →
  if SCHEMA_VERSION <? db_version (st_disk s) then
    ∃ m, runs initialize s (Err (queue_error m)) (st_disk s) (st_transient s)
  else runs initialize s (Ok ()) (initialized (st_disk s)) (st_transient s).
Proof.
  destruct s as [d tx tr op]. unfold idle. cbn [st_tx st_disk st_transient]. intros ->.
  unfold initialize, initialized, runs, SCHEMA_VERSION. sql.
  destruct (2 <? db_version d) eqn:E2; destruct (db_version d <? 1) eqn:E1; try lia;
    destruct (db_version d =? 1) eqn:E1'; try lia; sql; rewrite ?E2; sql; eauto.
Qed.
