(* ===== verification/StoreInv.v ===== *)
(** Invariants of the durable queue: what holds of the database after every
    method, and the life cycle of an attempt. *)

From Stdlib Require Import Sorted.
From S2P Require Import Prelude PyStr Dict Json Clock Uuid Db Store StoreRun.

Local Open Scope Z_scope.

(** * The queue as a transition system *)

(** One call of a method that changes the database, with its arguments. *)
Inductive queue_op :=
| OpEnqueue (now : instant) (payload : jdict)
| OpAcquire (now : instant) (token owner : ustr) (timeout : Z)
| OpRefresh (now : instant) (attempt owner : ustr) (timeout : Z) (token : option ustr)
| OpTransition (now : instant) (attempt state : ustr) (error expected owner token : option ustr)
| OpCancel (now : instant) (build : ustr) (attempt : option ustr)
| OpCrash (now : instant) (attempt error : ustr) (owner token : option ustr)
| OpPrune (now : instant) (retention_days : Z).

Definition run_op (o : queue_op) : M store () :=
  match o with
  | OpEnqueue now p => enqueue now p;; mret ()
  | OpAcquire now tok owner v => acquire_lease now tok owner v;; mret ()
  | OpRefresh now a owner v tok => refresh_lease now a owner v tok;; mret ()
  | OpTransition now a st err exp own tok => transition now a st err exp own tok;; mret ()
  | OpCancel now b a => request_cancel now b a;; mret ()
  | OpCrash now a err own tok => record_executor_crash now a err own tok;; mret ()
  | OpPrune now n => prune_terminal now n;; mret ()
  end.

(** Payloads are decoded JSON values. *)
Definition op_ok (o : queue_op) : Prop :=
  match o with OpEnqueue _ p => json_ok (JObj p) = true | _ => True end.

(** * The invariant *)

(** No secret among the members of a stored payload. *)
Definition public_payload (text : ustr) : Prop :=
  ∃ p, loads text = Ok (JObj p) ∧ ∀ k, k ∈ SECRET_KEYS → dget k p = None.

Record row_ok (r : job_row) : Prop := RowOk {
  ro_build : canonical_uuid (r_build_job_id r);
  ro_attempt : canonical_uuid (r_attempt_id r);
  ro_payload : public_payload (r_payload_json r);
  ro_attempts : 0 <= r_attempts r;
  ro_terminal : terminal (r_state r) = true →
    r_lease_owner r = None ∧ r_lease_token r = None ∧ r_lease_expires_at r = None ∧
    r_cancel_requested r = false;
}.

Record dlq_ok (r : dlq_row) : Prop := DlqOk {
  do_payload : public_payload (d_payload_json r);
  do_attempts : MAX_LOCAL_CRASHES <= d_attempts r;
}.

Record db_ok (d : db) : Prop := DbOk {
  ok_unique : unique_attempts d;
  ok_rowids : StronglySorted (λ a b, (a < b)%N) (r_rowid <$> db_jobs d);
  ok_rows : Forall row_ok (db_jobs d);
  ok_dlq : Forall dlq_ok (db_dlq d);
  ok_dlq_unique : NoDup (d_attempt_id <$> db_dlq d);
  ok_foreign : Forall (λ e, e_attempt_id e ∈ r_attempt_id <$> db_jobs d) (db_events d);
}.

(** * Lemmas: what the statements preserve *)

Lemma public_readable r : public_payload (r_payload_json r) → readable r.
Proof. intros (p & Hp & _). by exists p. Qed.

Lemma db_ok_table d : db_ok d → table_ok d.
Proof.
  intros [Hu _ Hr _ _ _]. split; [done|]. eapply List.Forall_impl; [|exact Hr].
  intros r Hok. apply public_readable, Hok.
Qed.

(** An update that keeps identifiers and row invariants keeps the database's. *)
Lemma db_ok_update p f d :
  (∀ r, r_attempt_id (f r) = r_attempt_id r ∧ r_rowid (f r) = r_rowid r) →
  (∀ r, r ∈ db_jobs d → p r = true → row_ok r → row_ok (f r)) →
  db_ok d → db_ok (with_jobs d (update_rows p f (db_jobs d))).
Proof.
  intros Hf Hok [Hu Hi Hr Hd Hdu He].
  assert (∀ r, r_attempt_id (f r) = r_attempt_id r) as Ha by apply Hf.
  assert (∀ r, r_rowid (f r) = r_rowid r) as Hid by apply Hf.
  split; cbn [db_jobs with_jobs db_dlq db_events]; try done.
  - by apply update_unique.
  - by rewrite update_rows_column.
  - rewrite Forall_forall in *. intros x [[Hx _]|(y & Hy & Hp & ->)]%elem_of_update; auto.
  - by rewrite update_rows_column.
Qed.

Lemma set_row_update a r r' d :
  unique_attempts d → find_row a d = Some r → r_attempt_id r' = r_attempt_id r → r_rowid r' = r_rowid r →
  set_row a r' d = with_jobs d (update_rows (is_attempt a)
    (λ x, if bool_decide (x = r) then r' else x) (db_jobs d)).
Proof.
  intros Hu Hf _ _. unfold set_row, update_rows. f_equal. apply list_fmap_ext. intros i x Hx. simpl.
  destruct (is_attempt a x) eqn:E; [|done]. apply is_attempt_spec in E. apply list_elem_of_lookup_2 in Hx.
  apply find_row_elem in Hx; [|done]. rewrite E, Hf in Hx. injection Hx as ->. by rewrite bool_decide_true.
Qed.

Lemma db_ok_set_row a r r' d :
  find_row a d = Some r → r_attempt_id r' = r_attempt_id r → r_rowid r' = r_rowid r →
  (row_ok r → row_ok r') → db_ok d → db_ok (set_row a r' d).
Proof.
  intros Hf Ha Hid Hr Hd. rewrite (set_row_update _ r) by (apply Hd || done).
  apply db_ok_update; [| |done].
  - intros x. case_bool_decide; by subst.
  - intros x _ _ Hx. case_bool_decide; subst; auto.
Qed.

Lemma finish_row_ok st e t r : row_ok r → row_ok (finish_row st e t r).
Proof. intros []. by split. Qed.

Lemma transition_row_ok st e t r : row_ok r → row_ok (transition_row st e t r).
Proof.
  intros Hr. unfold transition_row. destruct (terminal st) eqn:E; [by apply finish_row_ok|].
  destruct Hr. split; try done. cbn [r_state]. by rewrite E.
Qed.

Lemma lease_row_ok o t x n r : row_ok r → row_ok (lease_row o t x n r).
Proof. intros []. split; try done. cbn. lia. Qed.

Lemma refresh_row_ok x n r : active (r_state r) = true → row_ok r → row_ok (refresh_row x n r).
Proof. intros Ha []. split; try done. cbn [r_state refresh_row]. by destruct (r_state r). Qed.

Lemma cancel_row_ok n r : terminal (r_state r) = false → row_ok r → row_ok (cancel_row n r).
Proof. intros Ht []. split; try done. cbn [r_state cancel_row]. by rewrite Ht. Qed.

Lemma dget_printed p k : NoDup (dkeys p) → dget k p = None → dget k (map (λ kv, (kv.1, json_norm true kv.2)) (printed true p)) = None.
Proof.
  intros Hn H. rewrite (dget_map (json_norm true)). apply fmap_None.
  rewrite <- H. symmetry. apply dget_perm; [done|]. symmetry. apply printed_perm.
Qed.

Lemma durable_public p : json_ok (JObj p) = true → public_payload (json_dumps (durable_payload p)).
Proof.
  intros Hp. pose proof (durable_payload_json_ok p Hp) as Hd. unfold json_dumps.
  eexists. rewrite loads_dumps_style by auto with engine. rewrite json_norm_obj. split; [done|].
  intros k Hk. cbn [compact sort_keys]. apply dget_printed.
  - cbn [json_ok] in Hd. apply andb_true_iff in Hd as [Hd _]. by apply bool_decide_eq_true in Hd.
  - unfold durable_payload. rewrite dget_dfilter. unfold mem_str. by rewrite bool_decide_true.
Qed.

Lemma StronglySorted_snoc {A} (R : A → A → Prop) l x :
  StronglySorted R l → Forall (λ y, R y x) l → StronglySorted R (l ++ [x]).
Proof.
  induction 1 as [|y l Hs IH Hy]; intros Hx; cbn; [repeat constructor|].
  inversion Hx; subst. constructor; [by apply IH|]. apply Forall_app. split; [done|by repeat constructor].
Qed.

Lemma db_ok_append b a p now d :
  canonical_uuid b → canonical_uuid a → json_ok (JObj p) = true → find_row a d = None → db_ok d →
  db_ok (with_jobs d (db_jobs d ++ [new_row b a (json_dumps (durable_payload p)) now d])).
Proof.
  intros Hb Ha Hp Hf [Hu Hi Hr Hd Hdu He]. split; cbn [db_jobs with_jobs db_dlq db_events]; try done.
  - by apply append_unique.
  - rewrite fmap_app. apply StronglySorted_snoc; [done|]. rewrite Forall_forall.
    intros i (r & -> & Hin)%list_elem_of_fmap. by apply next_rowid_fresh.
  - apply Forall_app. split; [done|]. constructor; [|constructor].
    split; cbn; [done|done|by apply durable_public|lia|done].
  - eapply List.Forall_impl; [|exact He]. intros e Hin. rewrite fmap_app. apply elem_of_app. by left.
Qed.

Lemma db_ok_insert_dlq r d : dlq_ok r → db_ok d → db_ok (insert_dlq r d).
Proof.
  intros Hr Hd. unfold insert_dlq, mem_str. case_bool_decide as H; [done|]. destruct Hd.
  split; cbn [db_jobs with_dlq db_dlq db_events]; try done.
  - apply Forall_app. split; [done|by constructor].
  - rewrite fmap_app. apply NoDup_app. split_and!; [done| |apply NoDup_singleton].
    intros x Hx ->%list_elem_of_singleton. done.
Qed.

Lemma StronglySorted_filter {A} (R : A → A → Prop) (g : job_row → A) p js :
  StronglySorted R (g <$> js) → StronglySorted R (g <$> List.filter p js).
Proof.
  induction js as [|j js IH]; cbn; [done|]. inversion 1 as [|? ? Hs Hall]; subst.
  destruct (p j); [|by apply IH]. cbn. constructor; [by apply IH|].
  rewrite Forall_forall in *. intros x (y & -> & Hy)%list_elem_of_fmap. apply Hall.
  apply list_elem_of_fmap_2. by apply list_elem_of_In, List.filter_In in Hy as [Hy%list_elem_of_In _].
Qed.

Lemma NoDup_filter_ids p js : NoDup (r_attempt_id <$> js) → NoDup (r_attempt_id <$> List.filter p js).
Proof.
  induction js as [|j js IH]; cbn; [done|]. intros [Hj Hn]%NoDup_cons.
  destruct (p j); [|by apply IH]. cbn. constructor; [|by apply IH].
  intros (y & E & Hy)%list_elem_of_fmap. apply Hj. rewrite E. apply list_elem_of_fmap_2.
  by apply list_elem_of_In, List.filter_In in Hy as [Hy%list_elem_of_In _].
Qed.

Lemma Forall_list_filter {A} (P : A → Prop) q l : Forall P l → Forall P (List.filter q l).
Proof.
  rewrite !Forall_forall. intros H x Hx. apply H.
  by apply list_elem_of_In, List.filter_In in Hx as [Hx%list_elem_of_In _].
Qed.

Lemma db_ok_delete p d : db_ok d → db_ok (delete_jobs p d).
Proof.
  intros [Hu Hi Hr Hd Hdu He]. split; cbn [delete_jobs db_jobs with_jobs with_events db_dlq db_events]; try done.
  - by apply NoDup_filter_ids.
  - by apply StronglySorted_filter.
  - by apply Forall_list_filter.
  - rewrite Forall_forall in *. intros e [He1 He2]%list_elem_of_In%List.filter_In.
    apply list_elem_of_In, He in He1. apply list_elem_of_fmap in He1 as (j & E & Hj). rewrite E.
    apply list_elem_of_fmap_2, list_elem_of_In, List.filter_In. split; [by apply list_elem_of_In|].
    destruct (p j) eqn:Ep; [|done]. exfalso. apply negb_true_iff, bool_decide_eq_false in He2. apply He2.
    rewrite E. apply list_elem_of_fmap_2, list_elem_of_In, List.filter_In. split; [by apply list_elem_of_In|done].
Qed.

Lemma settle_ok fuel now d : db_ok d → db_ok (settle fuel now d).1.
Proof.
  revert d. induction fuel as [|fuel IH]; intros d Hd; [done|]. cbn [settle].
  destruct (next_eligible now d) as [r|] eqn:E; [|done]. destruct (r_cancel_requested r); [|done].
  apply IH, (db_ok_set_row _ r); try done; [|by apply finish_row_ok].
  apply next_eligible_find in E; [done|apply Hd].
Qed.

(** * Lemmas: every method keeps the invariant *)

Lemma runs_ignore {A} (m : M store A) s r d tr :
  runs m s r d tr → ∃ r', runs (m;; mret ()) s r' d tr ∧ is_ok r' = is_ok r.
Proof.
  intros [op H]. unfold runs. munfold. rewrite H. destruct r as [a|e]; eexists; (split; [by exists op|done]).
Qed.

Lemma idle_runs {A} (m : M store A) s r d tr :
  runs m s r d tr → idle (m s).2 ∧ st_disk (m s).2 = d ∧ st_transient (m s).2 = tr ∧ (m s).1 = r.
Proof. intros [op H]. by rewrite H. Qed.

(** The row specifications keep identity and the row invariant. *)
Lemma transition_spec_Ok now st e x o t row r' :
  transition_spec now st e x o t row = Ok r' →
  ∃ r s, row = Some r ∧ parse_state st = Some s ∧
    (r' = r ∧ r_state r = s ∨
     r' = transition_row s e now r ∧ r_state r ∈ LEGAL_PREVIOUS_STATES s ∧
     matches x (Some (state_text (r_state r))) = true ∧
     matches o (r_lease_owner r) = true ∧ matches t (r_lease_token r) = true).
Proof.
  unfold transition_spec, unexpected. intros H. destruct (parse_state st) as [s|]; [|done].
  destruct row as [r|]; [|done]. exists r, s. split_and!; [done..|].
  destruct (matches x _), (matches o _), (matches t _); try done. cbn [negb] in H.
  case_bool_decide; [|case_bool_decide; [|done]].
  - destruct (_ && _); [|done]. injection H as <-. by left.
  - injection H as <-. by right.
Qed.

Lemma refresh_spec_Ok now x o t row r' :
  refresh_spec now x o t row = Ok r' →
  ∃ r, row = Some r ∧ r' = refresh_row x now r ∧ active (r_state r) = true ∧ r_lease_owner r = Some o ∧
    matches t (r_lease_token r) = true.
Proof.
  unfold refresh_spec. intros H. destruct row as [r|]; [|done]. exists r.
  destruct (bool_decide _) eqn:E1, (matches t _) eqn:E2, (active _) eqn:E3; try done.
  injection H as <-. by apply bool_decide_eq_true in E1.
Qed.

Lemma crash_spec_Ok now e o t row r' :
  crash_spec now e o t row = Ok r' →
  ∃ r, row = Some r ∧ active (r_state r) = true ∧ matches o (r_lease_owner r) = true ∧
    matches t (r_lease_token r) = true ∧
    r' = finish_row (if MAX_LOCAL_CRASHES <=? r_attempts r then FAILED else QUEUED) (Some e) now r.
Proof.
  unfold crash_spec. intros H. destruct row as [r|]; [|done]. exists r.
  destruct (active _) eqn:E1, (matches o _) eqn:E2, (matches t _) eqn:E3; try done. by injection H as <-.
Qed.

Lemma elem_row_ok d a r : db_ok d → find_row a d = Some r → row_ok r.
Proof. intros Hd [_ Hr]%find_row_Some. pose proof (ok_rows _ Hd) as H. rewrite Forall_forall in H. auto. Qed.

Lemma crash_dlq_ok err now a r d : db_ok d → find_row a d = Some r → db_ok (crash_dlq err now r d).
Proof.
  intros Hd Hf. unfold crash_dlq. destruct (MAX_LOCAL_CRASHES <=? r_attempts r) eqn:E; [|done].
  apply db_ok_insert_dlq; [|done]. destruct (elem_row_ok _ _ _ Hd Hf). split; [done|]. cbn. lia.
Qed.

(** The database each method leaves. *)
Definition op_db (o : queue_op) (d : db) : db :=
  match o with
  | OpEnqueue now p =>
      match (b ← required_payload_uuid p (u "build_job_id"); a ← required_payload_uuid p (u "attempt_id"); Ok (b, a)) with
      | Ok (b, a) => enqueue_db b a (json_dumps (durable_payload p)) (format_datetime now) d
      | Err _ => d
      end
  | OpAcquire now tok owner v =>
      match add_time now (seconds v), settled (format_datetime now) d with
      | Ok e, (d', Some r) =>
          set_row (r_attempt_id r) (lease_row owner tok (format_datetime e) (format_datetime now) r) d'
      | Ok e, (d', None) => d'
      | Err _, _ => d
      end
  | OpRefresh now a owner v tok =>
      match (e ← add_time now (seconds v);
             refresh_spec (format_datetime now) (format_datetime e) owner tok (find_row a d)) with
      | Ok r => set_row a r d
      | Err _ => d
      end
  | OpTransition now a st err exp own tok =>
      match transition_spec (format_datetime now) st err exp own tok (find_row a d) with
      | Ok r => set_row a r d
      | Err _ => d
      end
  | OpCancel now b a =>
      with_jobs d (update_rows (cancel_target b a) (cancel_row (format_datetime now)) (db_jobs d))
  | OpCrash now a err own tok =>
      match crash_spec (format_datetime now) err own tok (find_row a d), find_row a d with
      | Ok r', Some r => set_row a r' (crash_dlq err (format_datetime now) r d)
      | _, _ => d
      end
  | OpPrune now n =>
      match add_time now (- days n) with
      | Ok c => delete_jobs (expired (format_datetime c)) d
      | Err _ => d
      end
  end.

Definition runs_to {A} (m : M store A) (s : store) (d : db) : Prop := ∃ r tr, runs m s r d tr.

Lemma runs_to_ignore {A} (m : M store A) s r d tr : runs m s r d tr → runs_to (m;; mret ()) s d.
Proof. intros (r' & H & _)%runs_ignore. by exists r', tr. Qed.

Lemma run_op_db o s :
  idle s → table_ok (st_disk s) → op_ok o → runs_to (run_op o) s (op_db o (st_disk s)).
Proof.
  intros Hi Ht Ho. destruct o; cbn [run_op op_db op_ok] in *.
  - pose proof (enqueue_run now payload s Hi Ht Ho) as H. cbv zeta in H.
    destruct (_ ≫= _) as [[b a]|e]; [|by eapply runs_to_ignore].
    destruct (hit _ _); by eapply runs_to_ignore.
  - pose proof (acquire_lease_run now token owner timeout s Hi Ht) as H. cbv zeta in H.
    destruct (add_time _ _); [|by eapply runs_to_ignore].
    destruct (settled _ _) as [d' [r|]]; by eapply runs_to_ignore.
  - pose proof (refresh_lease_run now attempt owner timeout token s Hi Ht) as H. cbv zeta in H.
    destruct (_ ≫= _); by eapply runs_to_ignore.
  - pose proof (transition_run now attempt state error expected owner token s Hi Ht) as H. cbv zeta in H.
    destruct (transition_spec _ _ _ _ _ _ _); by eapply runs_to_ignore.
  - eapply runs_to_ignore, request_cancel_run, Hi.
  - pose proof (record_crash_run now attempt error owner token s Hi Ht) as H. cbv zeta in H.
    destruct (crash_spec _ _ _ _ _); [destruct (find_row attempt (st_disk s)); [|done]|]; by eapply runs_to_ignore.
  - pose proof (prune_terminal_run now retention_days s Hi) as H.
    destruct (add_time _ _); by eapply runs_to_ignore.
Qed.

Lemma op_db_ok o d : op_ok o → db_ok d → db_ok (op_db o d).
Proof.
  intros Ho Hd. pose proof (ok_unique _ Hd) as Hu. destruct o; cbn [op_db op_ok] in *.
  - destruct (_ ≫= _) as [[b a]|e] eqn:E; [|done]. apply result_bind_Ok_inv in E as (b' & Hb & E).
    apply result_bind_Ok_inv in E as (a' & Ha & [= -> ->]).
    apply required_payload_uuid_Ok in Hb as [_ Hb]. apply required_payload_uuid_Ok in Ha as [_ Ha].
    unfold enqueue_db. destruct (find_row a d) eqn:Ef; [done|]. by apply db_ok_append.
  - destruct (add_time _ _) as [e|]; [|done]. unfold settled.
    pose proof (settle_ok (S (length (db_jobs d))) (format_datetime now) d Hd) as Hs.
    destruct (settle _ _ d) as [d' [r|]] eqn:Es; cbn [fst] in Hs; [|done].
    apply settle_Some in Es as [En _].
    eapply (db_ok_set_row _ r); try done; [|by apply lease_row_ok].
    eapply next_eligible_find; [apply Hs|done].
  - destruct (_ ≫= _) as [r|] eqn:E; [|done]. apply result_bind_Ok_inv in E as (e & _ & E).
    apply refresh_spec_Ok in E as (r0 & Hf & -> & Ha & _).
    eapply (db_ok_set_row _ r0); try done. by apply refresh_row_ok.
  - destruct (transition_spec _ _ _ _ _ _ _) as [r|] eqn:E; [|done].
    apply transition_spec_Ok in E as (r0 & s & Hf & _ & [[-> _]|(-> & _)]).
    + by eapply (db_ok_set_row _ r0).
    + eapply (db_ok_set_row _ r0); try done; [..|apply transition_row_ok];
        unfold transition_row; by destruct (terminal s).
  - apply db_ok_update; try done. intros r _ Hp. apply cancel_row_ok.
    unfold cancel_target in Hp. destruct (terminal _); [|done]. by rewrite andb_false_r in Hp.
  - destruct (crash_spec _ _ _ _ _) as [r'|] eqn:E; [|done].
    apply crash_spec_Ok in E as (r & Hf & _ & _ & _ & ->). rewrite Hf.
    eapply (db_ok_set_row _ r); try done; [by rewrite crash_dlq_find|by apply finish_row_ok|by eapply crash_dlq_ok].
  - destruct (add_time _ _); [|done]. by apply db_ok_delete.
Qed.
