(* ===== verification/Queue.v ===== *)
(** Properties of the durable queue: life cycle, leasing order and exclusion,
    fencing by token, crash accounting, cancellation, idempotence, freshness,
    atomicity and migration. *)

From S2P Require Import Prelude PyStr Dict Json Clock Uuid Db Store StoreRun StoreInv.

Local Open Scope Z_scope.

(** * Reachable stores *)

(** Stores obtained from a new database file by calls of the methods. *)
Inductive reachable : store → Prop :=
| reach_new : reachable (initialize (Store empty_db None [] false)).2
| reach_op s o : reachable s → op_ok o → reachable (run_op o s).2.

(** * The life cycle of an attempt *)

Inductive state_step : job_state → job_state → Prop :=
| step_lease : state_step QUEUED LEASED
| step_release s : active s = true → state_step s LEASED        (* an expired lease taken over *)
| step_run : state_step LEASED RUNNING
| step_requeue s : active s = true → state_step s QUEUED
| step_succeed : state_step RUNNING SUCCEEDED
| step_end s t : terminal s = false → t ∈ [FAILED; CANCELLED; TIMED_OUT] → state_step s t.

(** What one method may do to a row it finds: its identity, payload and
    creation time stay, its count of leases grows by at most one, its state
    stays or follows the life cycle, and a terminal row stays as it is. *)
Record evolves (r r' : job_row) : Prop := Evolves {
  ev_rowid : r_rowid r' = r_rowid r;
  ev_build : r_build_job_id r' = r_build_job_id r;
  ev_attempt : r_attempt_id r' = r_attempt_id r;
  ev_payload : r_payload_json r' = r_payload_json r;
  ev_created : r_created_at r' = r_created_at r;
  ev_cursor : r_sequence_cursor r' = r_sequence_cursor r;
  ev_attempts : r_attempts r <= r_attempts r' <= r_attempts r + 1;
  ev_state : r_state r' = r_state r ∨ state_step (r_state r) (r_state r');
  ev_terminal : terminal (r_state r) = true → r' = r;
}.

(** * Lemmas: rows through the methods *)

Lemma evolves_refl r : evolves r r.
Proof. split; auto; lia. Qed.

Lemma evolves_finish st e t r :
  terminal (r_state r) = false → state_step (r_state r) st → evolves r (finish_row st e t r).
Proof. intros Ht Hs. split; try done; cbn; try lia. by right. Qed.

Lemma eligible_not_terminal now r : eligible now r = true → terminal (r_state r) = false.
Proof. unfold eligible. by destruct (r_state r). Qed.

Lemma active_not_terminal s : active s = true → terminal s = false.
Proof. by destruct s. Qed.

Lemma evolves_lease o t x n r : eligible n r = true → evolves r (lease_row o t x n r).
Proof.
  intros He. pose proof (eligible_not_terminal _ _ He) as Ht. split; try done; cbn; try lia; try (intros; congruence).
  right. unfold eligible in He. destruct (r_state r); try done; by constructor.
Qed.

Lemma legal_step s t : s ∈ LEGAL_PREVIOUS_STATES t → terminal s = false ∧ state_step s t.
Proof.
  destruct t; cbn [LEGAL_PREVIOUS_STATES]; rewrite !elem_of_cons; intros H;
    destruct_or! H; try (by apply not_elem_of_nil in H); subst; (split; [done|]); try (by constructor);
    constructor; try done; set_solver.
Qed.

Lemma evolves_transition st e t r :
  r_state r ∈ LEGAL_PREVIOUS_STATES st → evolves r (transition_row st e t r).
Proof.
  intros [Ht Hs]%legal_step. unfold transition_row. destruct (terminal st); [by apply evolves_finish|].
  split; try done; cbn; try lia; by right.
Qed.

(** The settled cancellations touch only eligible attempts with the flag. *)
Lemma settle_find fuel now d a :
  unique_attempts d →
  find_row a (settle fuel now d).1 = find_row a d ∨
  ∃ r, find_row a d = Some r ∧ eligible now r = true ∧ r_cancel_requested r = true ∧
       find_row a (settle fuel now d).1 = Some (finish_row CANCELLED (r_error r) now r).
Proof.
  revert d. induction fuel as [|fuel IH]; intros d Hu; [by left|]. cbn [settle].
  destruct (next_eligible now d) as [r|] eqn:E; [|by left].
  destruct (r_cancel_requested r) eqn:Ec; [|by left].
  pose proof (next_eligible_find _ _ _ Hu E) as Hf. apply next_eligible_Some in E as (_ & He & _).
  set (c := finish_row CANCELLED (r_error r) now r).
  destruct (IH (set_row (r_attempt_id r) c d)) as [IH'|(r1 & Hr1 & He1 & Hc1 & Hs1)];
    [by apply set_row_unique|..].
  - rewrite IH', (find_set_row _ _ r) by done. case_decide; [right|by left].
    subst a. by exists r.
  - rewrite (find_set_row _ _ r) in Hr1 by done. case_decide.
    + injection Hr1 as <-. unfold c in He1. by rewrite finished_not_eligible in He1.
    + right. by exists r1.
Qed.

Lemma settled_find now d a r :
  unique_attempts d → find_row a d = Some r → r_cancel_requested r = false ∨ eligible now r = false →
  find_row a (settled now d).1 = Some r.
Proof.
  intros Hu Hf Hr. unfold settled.
  destruct (settle_find (S (length (db_jobs d))) now d a Hu) as [->|(r1 & Hf1 & He & Hc & _)]; [done|].
  rewrite Hf in Hf1. injection Hf1 as <-. destruct Hr; congruence.
Qed.

(** When the loop stops without a row, nothing is eligible any more. *)
Lemma settle_None fuel now d d' :
  unique_attempts d → (pending now d < fuel)%nat → settle fuel now d = (d', None) → next_eligible now d' = None.
Proof.
  revert d. induction fuel as [|fuel IH]; intros d Hu Hp; cbn [settle]; [lia|].
  destruct (next_eligible now d) as [r|] eqn:E; [|by intros [= <-]].
  destruct (r_cancel_requested r); [|done]. apply IH; [by apply set_row_unique|].
  pose proof (settle_pending now (r_error r) d r Hu E). lia.
Qed.

Lemma pending_fuel now d : (pending now d < S (length (db_jobs d)))%nat.
Proof. unfold pending. pose proof (count_rows_le (eligible now) (db_jobs d)). lia. Qed.

(** What the selection loop does to a row: an eligible attempt whose
    cancellation was requested, and which comes before the row the loop stops
    at, is cancelled; any other row is kept. *)
Definition sweep (now : ustr) (ahead : job_row → bool) (r : job_row) : job_row :=
  if eligible now r && r_cancel_requested r && ahead r then finish_row CANCELLED (r_error r) now r else r.

Lemma job_leb_antisym a b : job_leb a b = true → job_leb b a = true → r_attempt_id a = r_attempt_id b.
Proof.
  unfold job_leb. rewrite (ustr_compare_antisym (r_created_at a)).
  destruct (ustr_compare _ _); simpl; try done. apply ustr_leb_antisym.
Qed.

Lemma settle_unique fuel now d : unique_attempts d → unique_attempts (settle fuel now d).1.
Proof.
  revert d. induction fuel as [|fuel IH]; intros d Hu; [done|]. cbn [settle].
  destruct (next_eligible now d); [|done]. destruct (r_cancel_requested _); [|done].
  by apply IH, set_row_unique.
Qed.

(** The row the loop stops at was there, as it is, from the beginning. *)
Lemma settle_stop fuel now d d' l :
  unique_attempts d → settle fuel now d = (d', Some l) →
  find_row (r_attempt_id l) d = Some l ∧ find_row (r_attempt_id l) d' = Some l ∧
  (∀ x, x ∈ db_jobs d' → eligible now x = true → job_leb l x = true) ∧
  eligible now l = true ∧ r_cancel_requested l = false.
Proof.
  intros Hu Hs. pose proof (settle_unique fuel now d Hu) as Hu'.
  pose proof (settle_find fuel now d (r_attempt_id l) Hu) as Hl. rewrite Hs in Hu', Hl. cbn [fst] in Hu', Hl.
  apply settle_Some in Hs as [Hn Hc]. pose proof (next_eligible_find _ _ _ Hu' Hn) as Hf.
  apply next_eligible_Some in Hn as (_ & Hel & Hmin). rewrite Hf in Hl.
  destruct Hl as [Hl|(x & _ & _ & _ & [= ->])]; [done|by rewrite finished_not_eligible in Hel].
Qed.

(** The loop cancels in the order of the queue. *)
Lemma settle_order fuel now d d' l a r :
  unique_attempts d → settle fuel now d = (d', Some l) → find_row a d = Some r →
  find_row a d' = Some r ∨ job_leb r l = true.
Proof.
  revert d. induction fuel as [|fuel IH]; intros d Hu Hs Hr; [done|].
  destruct (settle_stop _ _ _ _ _ Hu Hs) as (Hl & _ & _ & Hel & _). cbn [settle] in Hs.
  destruct (next_eligible now d) as [c|] eqn:E; [|done].
  destruct (r_cancel_requested c) eqn:Ec; [|injection Hs as <- ->; by left].
  pose proof (next_eligible_find _ _ _ Hu E) as Hf. apply next_eligible_Some in E as (_ & _ & Hmin).
  destruct (decide (a = r_attempt_id c)) as [->|Hne].
  - right. rewrite Hf in Hr. injection Hr as <-. apply find_row_Some in Hl as [_ Hl]. by apply Hmin.
  - refine (IH _ _ Hs _); [by apply set_row_unique|].
    rewrite (find_set_row _ _ c) by done. by rewrite decide_False.
Qed.

Lemma settle_sweep fuel now d d' l a :
  unique_attempts d → settle fuel now d = (d', Some l) →
  find_row a d' = sweep now (λ r, job_leb r l) <$> find_row a d.
Proof.
  intros Hu Hs. destruct (settle_stop _ _ _ _ _ Hu Hs) as (_ & _ & Hmin & _ & Hcl).
  pose proof (settle_find fuel now d a Hu) as Hf. rewrite Hs in Hf. cbn [fst] in Hf. unfold sweep.
  destruct (find_row a d) as [r|] eqn:Hr; [|by destruct Hf as [Hf|(? & ? & _)]]. cbn [fmap option_fmap option_map].
  destruct Hf as [Hf|(r1 & [= <-] & He & Hc & Hf)]; rewrite Hf.
  - destruct (eligible now r && r_cancel_requested r && job_leb r l) eqn:Eb; [exfalso|done].
    apply andb_true_iff in Eb as [[He Hc]%andb_true_iff Hle].
    assert (r_attempt_id r = r_attempt_id l) as Ha.
    { apply job_leb_antisym; [done|]. apply Hmin; [|done]. by apply find_row_Some in Hf as [_ Hf]. }
    destruct (settle_stop _ _ _ _ _ Hu Hs) as (Hl & _). pose proof (find_row_Some _ _ _ Hr) as [Hra _].
    rewrite <- Ha, Hra, Hr in Hl. congruence.
  - rewrite He, Hc. cbn [andb]. destruct (settle_order _ _ _ _ _ _ _ Hu Hs Hr) as [H|Hle]; [|by rewrite Hle].
    rewrite H in Hf. injection Hf as Hf. by rewrite Hf in Hc.
Qed.

(** When it stops without a row, every eligible attempt was cancelled. *)
Lemma settle_all fuel now d d' :
  unique_attempts d → (pending now d < fuel)%nat → settle fuel now d = (d', None) →
  (∀ r, r ∈ db_jobs d → eligible now r = true → r_cancel_requested r = true) ∧
  ∀ a, find_row a d' =
       (λ r, if eligible now r then finish_row CANCELLED (r_error r) now r else r) <$> find_row a d.
Proof.
  intros Hu Hp Hs. pose proof (settle_None _ _ _ _ Hu Hp Hs) as Hn. rewrite next_eligible_None in Hn.
  assert (∀ a r, find_row a d = Some r → eligible now r = true →
    r_cancel_requested r = true ∧ find_row a d' = Some (finish_row CANCELLED (r_error r) now r)) as Hc.
  { intros a r Hr He. pose proof (settle_find fuel now d a Hu) as Hf. rewrite Hs in Hf. cbn [fst] in Hf.
    destruct Hf as [Hf|(r1 & Hr1 & _ & Hc & Hf)]; rewrite Hf; [|by rewrite Hr in Hr1; injection Hr1 as <-].
    rewrite Hr in Hf. apply find_row_Some in Hf as [_ Hf]. apply Hn in Hf. congruence. }
  split; [intros r Hr He; apply find_row_elem in Hr; [|done]; by apply (Hc _ _ Hr)|].
  intros a. destruct (find_row a d) as [r|] eqn:Hr; cbn [fmap option_fmap option_map];
    [destruct (eligible now r) eqn:He; [by apply Hc|]|];
    pose proof (settle_find fuel now d a Hu) as Hf; rewrite Hs in Hf; cbn [fst] in Hf;
    rewrite Hr in Hf; destruct Hf as [Hf|(r1 & Hr1 & He1 & _)]; congruence.
Qed.

(** Before and after one method, for one attempt. *)
Definition row_step (before after : option job_row) : Prop :=
  match before, after with
  | Some r, Some r' => evolves r r'
  | Some r, None => terminal (r_state r) = true
  | None, Some r' => r_state r' = QUEUED ∧ r_attempts r' = 0 ∧ r_sequence_cursor r' = 0
  | None, None => True
  end.

Lemma row_step_refl o : row_step o o.
Proof. destruct o; [apply evolves_refl|done]. Qed.

Lemma row_step_set a r r' d b :
  unique_attempts d → find_row a d = Some r → r_attempt_id r' = a → evolves r r' →
  row_step (find_row b d) (find_row b (set_row a r' d)).
Proof.
  intros Hu Hf Ha He. rewrite (find_set_row _ _ r) by done. case_decide as Hb; [|apply row_step_refl].
  subst b. by rewrite Hf.
Qed.

Lemma row_step_update p f d b :
  unique_attempts d → (∀ r, r_attempt_id (f r) = r_attempt_id r) →
  (∀ r, p r = true → evolves r (f r)) →
  row_step (find_row b d) (find_row b (with_jobs d (update_rows p f (db_jobs d)))).
Proof.
  intros Hu Hf He. rewrite <- (lookup_entries (with_jobs d (update_rows p f (db_jobs d))) b) by (by apply update_unique).
  rewrite entries_update by done. rewrite lookup_fmap, lookup_entries by done.
  destruct (find_row b d) as [r|]; [|done]. cbn. destruct (p r) eqn:E; [by apply He|apply evolves_refl].
Qed.

Lemma find_delete p d b :
  unique_attempts d →
  find_row b (delete_jobs p d) = match find_row b d with Some r => if p r then None else Some r | None => None end.
Proof.
  intros Hu. assert (unique_attempts (delete_jobs p d)) as Hu' by (by apply NoDup_filter_ids).
  destruct (find_row b d) as [r|] eqn:E.
  - destruct (find_row_Some _ _ _ E) as [<- Hr]. destruct (p r) eqn:Ep.
    + apply find_row_None; [done|]. intros (x & Ex & Hx)%list_elem_of_fmap.
      apply list_elem_of_In, List.filter_In in Hx as [Hx Hpx]. apply list_elem_of_In in Hx.
      apply find_row_elem in Hx; [|done]. rewrite <- Ex, E in Hx. injection Hx as <-. by rewrite Ep in Hpx.
    + apply find_row_elem; [done|]. apply list_elem_of_In, List.filter_In.
      split; [by apply list_elem_of_In|by rewrite Ep].
  - apply find_row_None in E; [|done]. apply find_row_absent. intros (x & -> & Hx)%list_elem_of_fmap.
    apply list_elem_of_In, List.filter_In in Hx as [Hx _]. by apply E, list_elem_of_fmap_2, list_elem_of_In.
Qed.

Lemma op_row_step o d b :
  op_ok o → db_ok d → row_step (find_row b d) (find_row b (op_db o d)).
Proof.
  intros Ho Hd. pose proof (ok_unique _ Hd) as Hu. destruct o; cbn [op_db op_ok] in *.
  - destruct (_ ≫= _) as [[b' a]|e]; [|apply row_step_refl]. unfold enqueue_db.
    destruct (find_row a d) eqn:Ef; [apply row_step_refl|]. rewrite find_append.
    destruct (find_row b d); [apply evolves_refl|]. by destruct (is_attempt b _).
  - destruct (add_time _ _) as [e|]; [|apply row_step_refl]. unfold settled.
    set (nowt := format_datetime now). pose proof (settle_ok (S (length (db_jobs d))) nowt d Hd) as Hok.
    assert (row_step (find_row b d) (find_row b (settle (S (length (db_jobs d))) nowt d).1)) as Hs.
    { destruct (settle_find (S (length (db_jobs d))) nowt d b Hu) as [->|(r & -> & He & _ & ->)];
        [apply row_step_refl|]. apply evolves_finish; [by eapply eligible_not_terminal|].
      apply step_end; [by eapply eligible_not_terminal|set_solver]. }
    pose proof (settle_find (S (length (db_jobs d))) nowt d) as Hfind.
    destruct (settle _ _ d) as [d' [r|]] eqn:Es; [|done]. cbn [fst] in *.
    apply settle_Some in Es as [En Ec].
    pose proof (next_eligible_find _ _ _ (ok_unique _ Hok) En) as Hf.
    rewrite (find_set_row _ _ r) by (done || apply Hok). case_decide; [|done]. subst b.
    assert (find_row (r_attempt_id r) d = Some r) as ->.
    { destruct (Hfind (r_attempt_id r) Hu) as [<-|(r1 & _ & _ & _ & H)]; [done|].
      rewrite Hf in H. injection H as ->. apply next_eligible_Some in En as (_ & En & _).
      by rewrite finished_not_eligible in En. }
    apply next_eligible_Some in En as (_ & En & _). by apply evolves_lease.
  - destruct (_ ≫= _) as [r|] eqn:E; [|apply row_step_refl]. apply result_bind_Ok_inv in E as (e & _ & E).
    apply refresh_spec_Ok in E as (r0 & Hf & -> & Ha & _).
    eapply row_step_set; try done; [by apply find_row_Some in Hf as [Hf _]|].
    split; try done; cbn; [lia|by left|]. intros Ht. apply terminal_not_active in Ht. congruence.
  - destruct (transition_spec _ _ _ _ _ _ _) as [r|] eqn:E; [|apply row_step_refl].
    apply transition_spec_Ok in E as (r0 & s & Hf & _ & Hr). destruct (find_row_Some _ _ _ Hf) as [Ha _].
    destruct Hr as [[-> _]|(-> & Hl & _)]; eapply row_step_set; try done; [apply evolves_refl| |].
    + unfold transition_row. by destruct (terminal s).
    + by apply evolves_transition.
  - apply row_step_update; try done. intros r Hp. unfold cancel_target in Hp.
    destruct (terminal _) eqn:Et; [by rewrite andb_false_r in Hp|].
    split; try done; cbn; [lia|by left|congruence].
  - destruct (crash_spec _ _ _ _ _) as [r'|] eqn:E; [|apply row_step_refl].
    apply crash_spec_Ok in E as (r & Hf & Ha & _ & _ & ->). rewrite Hf. rewrite <- (crash_dlq_find error (format_datetime now) r b d).
    eapply row_step_set; [|by rewrite crash_dlq_find| |].
    + unfold unique_attempts. by rewrite crash_dlq_jobs.
    + by apply find_row_Some in Hf as [Hf _].
    + apply evolves_finish; [by apply active_not_terminal|]. case_match; [|by constructor].
      constructor; [by apply active_not_terminal|set_solver].
  - destruct (add_time _ _); [|apply row_step_refl]. rewrite find_delete by done.
    destruct (find_row b d) as [r|]; [|done]. destruct (expired _ r) eqn:E; [|apply evolves_refl].
    unfold expired in E. by apply andb_true_iff in E as [E _].
Qed.

(** * Lemmas: reachable stores *)

Lemma initialized_empty : db_ok (initialized empty_db).
Proof. split; cbn; repeat constructor. Qed.

Lemma runs_to_idle {A} (m : M store A) s d : runs_to m s d → idle (m s).2 ∧ st_disk (m s).2 = d.
Proof. intros (r & tr & op & H). by rewrite H. Qed.

Lemma reachable_ok s : reachable s → idle s ∧ db_ok (st_disk s).
Proof.
  induction 1 as [|s o Hs [Hi Hd] Ho].
  - split; [done|]. apply initialized_empty.
  - destruct (runs_to_idle _ _ _ (run_op_db o s Hi (db_ok_table _ Hd) Ho)) as [Hi' ->].
    split; [done|]. by apply op_db_ok.
Qed.

Lemma enqueue_db_hit b a pj now d :
  hit (is_build b) (find_row a (enqueue_db b a pj now d)) = None → enqueue_db b a pj now d = d.
Proof.
  unfold enqueue_db. destruct (find_row a d) eqn:E; [done|].
  rewrite find_append, E. rewrite (proj2 (is_attempt_spec _ _)) by done. cbn [hit].
  by rewrite (proj2 (is_build_spec _ _)).
Qed.

Lemma runs_err {A} (m : M store A) s r d tr e :
  runs m s r d tr → ((m;; mret ()) s).1 = Err e → r = Err e.
Proof. intros [op H]. munfold. rewrite H. by destruct r; intros [= <-]. Qed.

Lemma run_op_err o s e :
  idle s → table_ok (st_disk s) → op_ok o → (run_op o s).1 = Err e → op_db o (st_disk s) = st_disk s.
Proof.
  intros Hi Ht Ho He. destruct o; cbn [run_op op_db op_ok] in *.
  - pose proof (enqueue_run now payload s Hi Ht Ho) as H. cbv zeta in H.
    destruct (required_payload_uuid _ _ ≫= _) as [[b a]|e']; [|done].
    destruct (hit _ _) eqn:E; [by pose proof (runs_err _ _ _ _ _ _ H He)|]. by apply enqueue_db_hit.
  - pose proof (acquire_lease_run now token owner timeout s Hi Ht) as H. cbv zeta in H.
    destruct (add_time _ _); [|done]. by destruct (settled _ _) as [d' [r|]]; pose proof (runs_err _ _ _ _ _ _ H He).
  - pose proof (refresh_lease_run now attempt owner timeout token s Hi Ht) as H. cbv zeta in H.
    destruct (add_time _ _ ≫= _); [by pose proof (runs_err _ _ _ _ _ _ H He)|done].
  - pose proof (transition_run now attempt state error expected owner token s Hi Ht) as H. cbv zeta in H.
    destruct (transition_spec _ _ _ _ _ _ _); [by pose proof (runs_err _ _ _ _ _ _ H He)|done].
  - by pose proof (runs_err _ _ _ _ _ _ (request_cancel_run now build attempt s Hi) He).
  - pose proof (record_crash_run now attempt error owner token s Hi Ht) as H. cbv zeta in H.
    destruct (crash_spec _ _ _ _ _); [|done]. destruct (find_row attempt (st_disk s)); [by pose proof (runs_err _ _ _ _ _ _ H He)|done].
  - pose proof (prune_terminal_run now retention_days s Hi) as H.
    destruct (add_time _ _); [by pose proof (runs_err _ _ _ _ _ _ H He)|done].
Qed.

(** * Properties: invariant, atomicity, life cycle *)

(** C25: a method that raises leaves the committed database as it was, and
    leaves no transaction open. *)
Theorem method_atomic o s e :
  reachable s → op_ok o → (run_op o s).1 = Err e →
  st_disk (run_op o s).2 = st_disk s ∧ idle (run_op o s).2.
Proof.
  intros [Hi Hd%db_ok_table]%reachable_ok Ho He.
  destruct (runs_to_idle _ _ _ (run_op_db o s Hi Hd Ho)) as [Hi' ->].
  split; [|done]. by apply (run_op_err o s e).
Qed.

(** C12: one method moves an attempt along the life cycle or not at all:
    identity, payload and event cursor are kept, a terminal attempt is frozen,
    only terminal attempts disappear, and a new attempt starts queued. *)
Theorem attempt_life_cycle o s a :
  reachable s → op_ok o →
  row_step (find_row a (st_disk s)) (find_row a (st_disk (run_op o s).2)).
Proof.
  intros [Hi Hd]%reachable_ok Ho.
  destruct (runs_to_idle _ _ _ (run_op_db o s Hi (db_ok_table _ Hd) Ho)) as [_ ->].
  by apply op_row_step.
Qed.

(** * Properties: leases *)

(** C1: when the lease's expiry is a date, [acquire_lease] ends without an
    exception and leases the oldest attempt that is queued or whose lease has expired and whose cancellation was not
    requested.  An eligible attempt with a cancellation request that comes
    before it in the queue (every such attempt, when none is leased) becomes
    [CANCELLED], its lease and request cleared and its error kept; every other
    attempt keeps its row. *)
Theorem acquire_oldest now tok owner v e s :
  idle s → db_ok (st_disk s) → add_time now (seconds v) = Ok e →
  let nowt := format_datetime now in
  let '(res, s') := acquire_lease now tok owner v s in
  idle s' ∧
  match res with
  | Err _ => False
  | Ok None =>
      (∀ r, r ∈ db_jobs (st_disk s) → eligible nowt r = true → r_cancel_requested r = true) ∧
      ∀ a, find_row a (st_disk s') =
           (λ r, if eligible nowt r then finish_row CANCELLED (r_error r) nowt r else r) <$> find_row a (st_disk s)
  | Ok (Some job) => ∃ r,
      r ∈ db_jobs (st_disk s) ∧ eligible nowt r = true ∧ r_cancel_requested r = false ∧
      (∀ r', r' ∈ db_jobs (st_disk s) → eligible nowt r' = true → r_cancel_requested r' = false →
             job_leb r r' = true) ∧
      job = record_of (st_transient s) (lease_row owner tok (format_datetime e) nowt r) ∧
      find_row (r_attempt_id r) (st_disk s') = Some (lease_row owner tok (format_datetime e) nowt r) ∧
      ∀ a, a ≠ r_attempt_id r →
           find_row a (st_disk s') =
           (λ r', if eligible nowt r' && r_cancel_requested r' && job_leb r' r
                  then finish_row CANCELLED (r_error r') nowt r' else r') <$> find_row a (st_disk s)
  end.
Proof.
  intros Hi Hd He nowt. pose proof (acquire_lease_run now tok owner v s Hi (db_ok_table _ Hd)) as H.
  cbv zeta in H. rewrite He in H. fold nowt in H. pose proof (ok_unique _ Hd) as Hu.
  unfold settled in H. destruct (settle _ _ _) as [d' [r|]] eqn:Es; cbn [fst] in *; destruct H as [op ->].
  - destruct (settle_stop _ _ _ _ _ Hu Es) as (Hf0 & Hf & Hmin & Hel & Ec).
    pose proof (settle_unique (S (length (db_jobs (st_disk s)))) nowt _ Hu) as Hu'. rewrite Es in Hu'. cbn [fst] in Hu'.
    split; [done|]. exists r. split_and!; [by apply find_row_Some in Hf0 as [_ Hf0]|done|done| |done| |].
    + intros r' Hr' He' Hc'. apply Hmin; [|done]. apply find_row_elem in Hr'; [|done].
      pose proof (settle_sweep _ _ _ _ _ (r_attempt_id r') Hu Es) as Hs.
      rewrite Hr' in Hs. cbn [fmap option_fmap option_map] in Hs. unfold sweep in Hs. rewrite He', Hc' in Hs.
      by apply find_row_Some in Hs as [_ Hs].
    + cbn [st_disk]. by rewrite (find_set_row _ _ r), decide_True.
    + intros a Hne. cbn [st_disk]. rewrite (find_set_row _ _ r), decide_False by done.
      by rewrite (settle_sweep _ _ _ _ _ a Hu Es).
  - split; [done|]. apply (settle_all _ _ _ _ Hu (pending_fuel _ _) Es).
Qed.

(** C26: an attempt under a live lease (its expiry lies, in milliseconds, after
    the acquiring clock) is neither handed to another worker nor changed. *)
Theorem live_lease_exclusive now tok owner v s r exp :
  idle s → db_ok (st_disk s) → r ∈ db_jobs (st_disk s) → active (r_state r) = true →
  r_lease_expires_at r = Some (format_datetime exp) →
  in_range now → in_range exp → now / 1000 < exp / 1000 →
  let '(res, s') := acquire_lease now tok owner v s in
  find_row (r_attempt_id r) (st_disk s') = Some r ∧
  ∀ job, res = Ok (Some job) → jr_attempt_id job ≠ r_attempt_id r.
Proof.
  intros Hi Hd Hr Ha Hx Hnow Hexp Hlt. pose proof (ok_unique _ Hd) as Hu.
  pose proof (find_row_elem _ _ Hu Hr) as Hf.
  assert (eligible (format_datetime now) r = false) as Hne.
  { unfold eligible. rewrite Hx. cbn [opt_leb]. rewrite format_datetime_leb by done.
    rewrite bool_decide_false by (intros E; by rewrite E in Ha). rewrite Ha. cbn. lia. }
  pose proof (acquire_lease_run now tok owner v s Hi (db_ok_table _ Hd)) as H. cbv zeta in H.
  destruct (add_time now (seconds v)) as [e|e]; [|destruct H as [op ->]; by split].
  pose proof (settled_find (format_datetime now) _ _ _ Hu Hf (or_intror Hne)) as Hs. unfold settled in *.
  pose proof (settle_ok (S (length (db_jobs (st_disk s)))) (format_datetime now) _ Hd) as Hok.
  destruct (settle _ _ _) as [d' [r'|]] eqn:Es; cbn [fst] in *; destruct H as [op ->]; [|by split].
  apply settle_Some in Es as [En _]. pose proof (next_eligible_find _ _ _ (ok_unique _ Hok) En) as Hf'.
  apply next_eligible_Some in En as (_ & Hel & _).
  assert (r_attempt_id r ≠ r_attempt_id r') as Hid by (intros E; rewrite E, Hf' in Hs; congruence).
  cbn [st_disk]. rewrite (find_set_row _ _ r'), decide_False by (done || apply Hok).
  split; [done|]. intros job [= <-]. cbn. congruence.
Qed.

(** C27: a worker whose lease token was replaced can no longer touch the
    attempt: its transition, its lease refresh and its crash report all fail
    and change nothing. *)
Theorem stale_token_fenced now s a r stale :
  idle s → db_ok (st_disk s) → find_row a (st_disk s) = Some r → r_lease_token r ≠ Some stale →
  (∀ st err exp own, ∃ e s', transition now a st err exp own (Some stale) s = (Err e, s') ∧ st_disk s' = st_disk s) ∧
  (∀ own v, ∃ e s', refresh_lease now a own v (Some stale) s = (Err e, s') ∧ st_disk s' = st_disk s) ∧
  (∀ err own, ∃ e s', record_executor_crash now a err own (Some stale) s = (Err e, s') ∧ st_disk s' = st_disk s).
Proof.
  intros Hi Hd Hf Ht. pose proof (db_ok_table _ Hd) as Hok.
  assert (matches (Some stale) (r_lease_token r) = false) as Hm by (by apply bool_decide_eq_false).
  split_and!.
  - intros st err exp own. pose proof (transition_run now a st err exp own (Some stale) s Hi Hok) as H.
    cbv zeta in H. rewrite Hf in H. unfold transition_spec, unexpected in H. rewrite Hm in H. cbn [negb] in H.
    destruct (parse_state st) as [x|]; [|destruct H as [op ->]; eauto].
    destruct (negb (matches exp _)); [destruct H as [op ->]; eauto|].
    destruct (negb (matches own _)); destruct H as [op ->]; eauto.
  - intros own v. pose proof (refresh_lease_run now a own v (Some stale) s Hi Hok) as H.
    cbv zeta in H. rewrite Hf in H. unfold refresh_spec in H. rewrite Hm, andb_false_r in H. munfold.
    destruct (add_time now (seconds v)); destruct H as [op ->]; eauto.
  - intros err own. pose proof (record_crash_run now a err own (Some stale) s Hi Hok) as H.
    cbv zeta in H. rewrite Hf in H. unfold crash_spec in H. rewrite Hm, andb_false_r in H.
    destruct H as [op ->]; eauto.
Qed.

Lemma set_row_dlq a r d : db_dlq (set_row a r d) = db_dlq d.
Proof. done. Qed.

Lemma insert_dlq_present r d : d_attempt_id r ∈ d_attempt_id <$> db_dlq (insert_dlq r d).
Proof.
  unfold insert_dlq, mem_str. case_bool_decide as H; [done|]. cbn [db_dlq with_dlq].
  rewrite fmap_app. apply elem_of_app. right. by left.
Qed.

(** * Properties: transitions and crashes as operations on a map of attempts *)

(** C2: [transition] refines a guarded update of one entry of a finite map:
    the specification of the attempt's row decides result and error, and the
    map changes at that attempt only. *)
Theorem transition_refines now a state err exp own tok s :
  idle s → db_ok (st_disk s) →
  let q := entries_of (st_disk s) in
  let '(res, s') := transition now a state err exp own tok s in
  idle s' ∧ st_transient s' = st_transient s ∧
  match transition_spec (format_datetime now) state err exp own tok (q !! a) with
  | Ok r => res = Ok (record_of (st_transient s) r) ∧ entries_of (st_disk s') = <[a := r]> q
  | Err e => res = Err e ∧ st_disk s' = st_disk s
  end.
Proof.
  intros Hi Hd q. pose proof (ok_unique _ Hd) as Hu. unfold q. rewrite lookup_entries by done.
  pose proof (transition_run now a state err exp own tok s Hi (db_ok_table _ Hd)) as H. cbv zeta in H.
  destruct (transition_spec _ _ _ _ _ _ _) as [r|e] eqn:E; destruct H as [op ->]; [|done].
  split_and!; try done. cbn [st_disk]. apply transition_spec_Ok in E as (r0 & st & Hf & _ & Hr).
  apply (entries_set_row _ _ r0); [done|done|]. apply find_row_Some in Hf as [<- _].
  destruct Hr as [[-> _]|(-> & _)]; [done|]. unfold transition_row. by destruct (terminal st).
Qed.

(** C4: a crash report by the holder of the lease sends the attempt back to
    the queue before its third lease, and from the third on fails it and parks
    it in the dead-letter table with its payload; any other report is refused
    and changes nothing. *)
Theorem executor_crash_accounting now a err own tok s :
  idle s → db_ok (st_disk s) →
  let '(res, s') := record_executor_crash now a err own tok s in
  idle s' ∧
  match crash_spec (format_datetime now) err own tok (entries_of (st_disk s) !! a) with
  | Ok r' => res = Ok (record_of (st_transient s) r') ∧
      entries_of (st_disk s') = <[a := r']> (entries_of (st_disk s)) ∧
      (if MAX_LOCAL_CRASHES <=? r_attempts r'
       then r_state r' = FAILED ∧ a ∈ d_attempt_id <$> db_dlq (st_disk s')
       else r_state r' = QUEUED ∧ db_dlq (st_disk s') = db_dlq (st_disk s))
  | Err e => res = Err e ∧ st_disk s' = st_disk s
  end.
Proof.
  intros Hi Hd. pose proof (ok_unique _ Hd) as Hu. rewrite lookup_entries by done.
  pose proof (record_crash_run now a err own tok s Hi (db_ok_table _ Hd)) as H. cbv zeta in H.
  destruct (crash_spec _ _ _ _ _) as [r'|e] eqn:E; [|by destruct H as [op ->]].
  apply crash_spec_Ok in E as (r & Hf & _ & _ & _ & ->). rewrite Hf in H. destruct H as [op ->].
  destruct (find_row_Some _ _ _ Hf) as [Ha _]. set (d' := crash_dlq err (format_datetime now) r (st_disk s)).
  assert (unique_attempts d') as Hu' by (unfold unique_attempts, d'; by rewrite crash_dlq_jobs).
  split_and!; try done.
  - cbn [st_disk]. rewrite (entries_set_row _ _ r) by (done || unfold d'; by rewrite crash_dlq_find).
    f_equal. unfold entries_of, d'. by rewrite crash_dlq_jobs.
  - cbn [r_attempts finish_row r_state st_disk]. unfold d', crash_dlq.
    destruct (MAX_LOCAL_CRASHES <=? r_attempts r); [|done]. split; [done|].
    rewrite set_row_dlq, <- Ha. apply (insert_dlq_present (dlq_row_of err (format_datetime now) r)).
Qed.

(** Leasing and crashing compose to three strikes: after
    [acquire_lease] returned a job, the crash report of its worker, with the
    owner and token of that lease, is accepted; the attempt is queued again
    exactly when this was its first or second lease. *)
Theorem crash_after_lease now now' tok owner v err s job s' :
  idle s → db_ok (st_disk s) →
  acquire_lease now tok owner v s = (Ok (Some job), s') →
  ∃ job' s'', record_executor_crash now' (jr_attempt_id job) err (Some owner) (Some tok) s' = (Ok job', s'') ∧
    jr_attempts job' = jr_attempts job ∧ 1 <= jr_attempts job ∧
    (jr_state job' = QUEUED ∧ jr_attempts job < 3 ∨ jr_state job' = FAILED ∧ 3 <= jr_attempts job).
Proof.
  intros Hi Hd Hacq. pose proof (acquire_lease_run now tok owner v s Hi (db_ok_table _ Hd)) as H.
  cbv zeta in H. destruct (add_time now (seconds v)) as [e|e]; [|destruct H as [op H]; congruence].
  unfold settled in H. pose proof (settle_ok (S (length (db_jobs (st_disk s)))) (format_datetime now) _ Hd) as Hok.
  destruct (settle _ _ _) as [d' [r|]] eqn:Es; cbn [fst] in *; destruct H as [op H]; [|congruence].
  rewrite H in Hacq. injection Hacq as <- <-. apply settle_Some in Es as [En _].
  pose proof (next_eligible_find _ _ _ (ok_unique _ Hok) En) as Hf.
  set (r' := lease_row owner tok (format_datetime e) (format_datetime now) r).
  set (s1 := Store _ _ _ _). assert (db_ok (st_disk s1)) as Hd1.
  { apply (db_ok_set_row _ r); try done. by apply lease_row_ok. }
  pose proof (record_crash_run now' (r_attempt_id r) err (Some owner) (Some tok) s1 eq_refl (db_ok_table _ Hd1)) as Hc.
  cbv zeta in Hc. cbn [st_disk s1] in Hc.
  rewrite (find_set_row _ _ r), decide_True in Hc by (done || apply Hok). unfold crash_spec in Hc.
  assert (active (r_state r') && matches (Some owner) (r_lease_owner r') && matches (Some tok) (r_lease_token r') = true) as Hm.
  { cbn. by rewrite !bool_decide_true. }
  rewrite Hm in Hc. destruct Hc as [op' Hc]. eexists _, _. split; [exact Hc|].
  pose proof (ro_attempts _ (elem_row_ok _ _ _ Hok Hf)). unfold MAX_LOCAL_CRASHES. cbn.
  split_and!; [done|lia|]. destruct (3 <=? r_attempts r + 1) eqn:E3; [right|left]; (split; [done|lia]).
Qed.

(** * Properties: cancellation *)

(** After a cancellation request for a queued attempt the flag reads as
    set, and the next [acquire_lease], whenever it comes, does not hand the
    attempt out. *)
Theorem cancelled_attempt_not_leased now now' tok owner v b a s r :
  idle s → db_ok (st_disk s) → find_row a (st_disk s) = Some r → r_build_job_id r = b → r_state r = QUEUED →
  let s1 := (request_cancel now b (Some a) s).2 in
  (is_cancel_requested a s1).1 = Ok true ∧
  ∀ job, (acquire_lease now' tok owner v s1).1 = Ok (Some job) → jr_attempt_id job ≠ a.
Proof.
  intros Hi Hd Hf Hb Hq s1.
  destruct (runs_to_idle _ _ _ (run_op_db (OpCancel now b (Some a)) s Hi (db_ok_table _ Hd) I)) as [_ _].
  pose proof (op_db_ok (OpCancel now b (Some a)) _ I Hd) as Hd1. cbn [op_db] in Hd1.
  destruct (request_cancel_run now b (Some a) s Hi) as [op Hs1].
  assert (s1 = (request_cancel now b (Some a) s).2) as Es1 by done. rewrite Hs1 in Es1. cbn [snd] in Es1.
  assert (find_row a (st_disk s1) = Some (cancel_row (format_datetime now) r)) as Hf1.
  { rewrite Es1. cbn [st_disk]. rewrite <- lookup_entries by apply Hd1.
    rewrite entries_update by (done || apply Hd). rewrite lookup_fmap, lookup_entries, Hf by apply Hd.
    cbn. unfold cancel_target. apply find_row_Some in Hf as [Ha _].
    by rewrite (proj2 (is_build_spec _ _) Hb), (proj2 (is_attempt_spec _ _) Ha), Hq. }
  assert (idle s1) as Hi1 by (by rewrite Es1). assert (db_ok (st_disk s1)) as Hd1' by (by rewrite Es1).
  split.
  - destruct (is_cancel_requested_run a s1 Hi1) as [op' ->]. by rewrite Hf1.
  - intros job Hj. pose proof (acquire_lease_run now' tok owner v s1 Hi1 (db_ok_table _ Hd1')) as H.
    cbv zeta in H. destruct (add_time now' (seconds v)) as [e|e]; [|destruct H as [op' H]; by rewrite H in Hj].
    unfold settled in H. pose proof (settle_ok (S (length (db_jobs (st_disk s1)))) (format_datetime now') _ Hd1') as Hok.
    pose proof (settle_find (S (length (db_jobs (st_disk s1)))) (format_datetime now') (st_disk s1) a (ok_unique _ Hd1')) as Hs.
    destruct (settle _ _ _) as [d' [r'|]] eqn:Es; cbn [fst] in *; destruct H as [op' H]; rewrite H in Hj; [|done].
    injection Hj as <-. cbn. intros <-. apply settle_Some in Es as [En Ec].
    rewrite (next_eligible_find _ _ _ (ok_unique _ Hok) En) in Hs.
    apply next_eligible_Some in En as (_ & Hel & _).
    destruct Hs as [Hs|(r2 & _ & _ & _ & [= ->])]; [rewrite Hf1 in Hs; by injection Hs as ->|].
    by rewrite finished_not_eligible in Hel.
Qed.

(** A crash of a leased attempt before its third lease forgets a pending
    cancellation: the attempt is queued with the flag cleared, and a later
    [acquire_lease] may run it again although its cancellation was requested. *)
Theorem crash_forgets_cancellation now a err s r :
  idle s → db_ok (st_disk s) → find_row a (st_disk s) = Some r → active (r_state r) = true →
  r_attempts r < MAX_LOCAL_CRASHES → r_cancel_requested r = true →
  ∃ job s', record_executor_crash now a err None None s = (Ok job, s') ∧ jr_state job = QUEUED ∧
    (is_cancel_requested a s').1 = Ok false.
Proof.
  intros Hi Hd Hf Ha Hlt Hc. pose proof (record_crash_run now a err None None s Hi (db_ok_table _ Hd)) as H.
  cbv zeta in H. rewrite Hf in H. unfold crash_spec in H. rewrite Ha in H. cbn [matches andb] in H.
  unfold crash_dlq in H. assert ((MAX_LOCAL_CRASHES <=? r_attempts r) = false) as E by lia. rewrite E in H.
  destruct H as [op ->]. eexists _, _. split_and!; [done|done|].
  destruct (is_cancel_requested_run a (Store (set_row a (finish_row QUEUED (Some err) (format_datetime now) r) (st_disk s))
    None (st_transient s) op) eq_refl) as [op' ->]. cbn [fst st_disk].
  rewrite (find_set_row _ _ r), decide_True by (done || apply Hd || by apply find_row_Some in Hf as [Hf _]). done.
Qed.

(** * Properties: enqueueing, freshness, retention, migration *)

(** The identifiers of an assignment. *)
Definition assigns (p : jdict) (b a : ustr) : Prop :=
  required_payload_uuid p (u "build_job_id") = Ok b ∧ required_payload_uuid p (u "attempt_id") = Ok a.

(** Assigning the same attempt again (with whatever payload and clock)
    reports it as not inserted, returns the attempt's own row and leaves the
    database as it was. *)
Theorem enqueue_idempotent now now' p p' b a s :
  idle s → db_ok (st_disk s) → json_ok (JObj p) = true → json_ok (JObj p') = true →
  assigns p b a → assigns p' b a → (enqueue now p s).1 ≠ Err not_reloaded →
  let s1 := (enqueue now p s).2 in
  ∃ r s2, find_row a (st_disk s1) = Some r ∧ r_build_job_id r = b ∧
    enqueue now' p' s1 = (Ok (MkEnqueueResult (record_of (st_transient s1) r) false), s2) ∧
    st_disk s2 = st_disk s1.
Proof.
  intros Hi Hd Hp Hp' [Hb Ha] [Hb' Ha'] Hne s1.
  pose proof (op_db_ok (OpEnqueue now p) _ Hp Hd) as Hd1. cbn [op_db] in Hd1.
  pose proof (enqueue_run now p s Hi (db_ok_table _ Hd) Hp) as H. cbv zeta in H.
  unfold s1 in *. clear s1. munfold. rewrite Hb, Ha in *.
  destruct (hit _ _) as [r|] eqn:Eh; destruct H as [op H]; rewrite H in *; [|done]. cbn [fst snd st_disk st_transient].
  set (d1 := enqueue_db b a _ _ _) in *. set (tr1 := dsetdefault a p _). set (s1 := Store d1 None tr1 op).
  pose proof (enqueue_run now' p' s1 eq_refl (db_ok_table _ Hd1) Hp') as H'. cbv zeta in H'. munfold.
  rewrite Hb', Ha' in H'. cbn [st_disk st_transient s1] in H'.
  destruct (find_row a d1) as [r1|] eqn:Ef; [|done]. cbn [hit] in Eh. destruct (is_build b r1) eqn:Eb; [|done].
  injection Eh as <-.
  assert (enqueue_db b a (json_dumps (durable_payload p')) (format_datetime now') d1 = d1) as E1
    by (unfold enqueue_db; by rewrite Ef).
  rewrite E1, Ef in H'. cbn [hit] in H'. rewrite Eb in H'. destruct H' as [op' H'].
  assert (dsetdefault a p' tr1 = tr1) as E2.
  { unfold tr1, dsetdefault. destruct (dmem a (st_transient s)) eqn:Em; [by rewrite Em|].
    assert (dmem a (dset a p (st_transient s)) = true) as ->; [|done].
    apply dmem_spec. rewrite dget_dset_eq. eauto. }
  rewrite E2 in H'. exists r1, (Store d1 None tr1 op').
  split_and!; [done|by apply is_build_spec|exact H'|done].
Qed.

(** An assignment that reuses a stored attempt identifier under another
    build is refused, but its payload is kept in memory first: after a restart
    (no payloads in memory) the stored job is returned with the payload of the
    refused assignment. *)
Theorem refused_assignment_leaks_payload now p b b' a s r :
  idle s → db_ok (st_disk s) → json_ok (JObj p) = true → st_transient s = [] →
  assigns p b a → find_row a (st_disk s) = Some r → r_build_job_id r = b' → b ≠ b' →
  ∃ s1, enqueue now p s = (Err not_reloaded, s1) ∧ st_disk s1 = st_disk s ∧
    ∃ job, (get_job b' a s1).1 = Ok (Some job) ∧ jr_payload job = JObj p.
Proof.
  intros Hi Hd Hp Ht [Hb Ha] Hf Hb' Hne.
  pose proof (enqueue_run now p s Hi (db_ok_table _ Hd) Hp) as H. cbv zeta in H. munfold.
  rewrite Hb, Ha in H. assert (∀ pj n, enqueue_db b a pj n (st_disk s) = st_disk s) as E
    by (intros; unfold enqueue_db; by rewrite Hf).
  rewrite E, Hf in H. cbn [hit] in H.
  assert (is_build b r = false) as Eb.
  { apply not_true_iff_false. rewrite is_build_spec. congruence. }
  rewrite Eb in H. destruct H as [op H]. eexists. split; [exact H|]. split; [done|].
  set (s1 := Store _ _ _ _). destruct (get_job_run b' a s1 eq_refl (db_ok_table _ Hd)) as [op' ->].
  cbn [fst st_disk s1 st_transient]. rewrite Hf. cbn [hit]. rewrite (proj2 (is_build_spec _ _) Hb').
  eexists. split; [done|]. cbn. rewrite Ht. apply find_row_Some in Hf as [Hra _]. rewrite Hra.
  change (dsetdefault a p []) with [(a, p)]. cbn. by rewrite decide_True.
Qed.

(** An attempt is current exactly until a newer assignment of its build
    arrives: enqueueing a new attempt makes that one current and every other
    attempt of the build stale. *)
Theorem newer_assignment_supersedes now p b a s r :
  idle s → db_ok (st_disk s) → json_ok (JObj p) = true → assigns p b a →
  find_row a (st_disk s) = None → r ∈ db_jobs (st_disk s) → r_build_job_id r = b →
  let s1 := (enqueue now p s).2 in
  (is_current_attempt b a s1).1 = Ok true ∧
  (is_current_attempt b (r_attempt_id r) s1).1 = Ok false.
Proof.
  intros Hi Hd Hp [Hb Ha] Hf Hr Hrb s1.
  pose proof (op_db_ok (OpEnqueue now p) _ Hp Hd) as Hd1. cbn [op_db] in Hd1.
  pose proof (enqueue_run now p s Hi (db_ok_table _ Hd) Hp) as H. cbv zeta in H.
  assert (s1 = (enqueue now p s).2) as Es by done. munfold. rewrite Hb, Ha in *.
  unfold enqueue_db in *. rewrite Hf in *. set (n := new_row b a _ _ _) in *.
  assert (is_attempt a n = true) as Hna by (by apply is_attempt_spec).
  assert (is_build b n = true) as Hnb by (by apply is_build_spec).
  rewrite find_append, Hf, Hna in H. cbn [hit] in H. rewrite Hnb in H. destruct H as [op H].
  rewrite H in Es. cbn [snd] in Es. assert (idle s1) as Hi1 by (by rewrite Es).
  assert (st_disk s1 = with_jobs (st_disk s) (db_jobs (st_disk s) ++ [n])) as Ed by (by rewrite Es).
  rewrite <- Ed in Hd1. pose proof (next_rowid_fresh (db_jobs (st_disk s))) as Hnew.
  split.
  - pose proof (is_current_run b a s1 Hi1 (db_ok_table _ Hd1)) as Hc.
    rewrite Ed, find_append, Hf, Hna in Hc. cbn [hit] in Hc. rewrite Hnb in Hc. destruct Hc as [op' ->].
    cbn [fst]. f_equal. unfold newest. cbn [db_jobs with_jobs]. apply forallb_forall.
    intros x [Hx|[<-|[]]]%in_app_or; apply negb_true_iff, andb_false_iff; right; [|cbn; lia].
    apply list_elem_of_In, Hnew in Hx. change (r_rowid n) with (next_rowid (db_jobs (st_disk s))). lia.
  - pose proof (is_current_run b (r_attempt_id r) s1 Hi1 (db_ok_table _ Hd1)) as Hc.
    rewrite Ed, find_append in Hc. rewrite (find_row_elem _ _ (ok_unique _ Hd) Hr) in Hc. cbn [hit] in Hc.
    rewrite (proj2 (is_build_spec _ _) Hrb) in Hc. destruct Hc as [op' ->]. cbn [fst]. f_equal.
    unfold newest. cbn [db_jobs with_jobs]. apply not_true_iff_false. intros Hall.
    rewrite forallb_forall in Hall. specialize (Hall n). rewrite in_app_iff in Hall. specialize (Hall (or_intror (or_introl eq_refl))).
    rewrite Hnb in Hall. apply Hnew in Hr. change (r_rowid n) with (next_rowid (db_jobs (st_disk s))) in Hall. lia.
Qed.

(** Pruning removes exactly the terminal attempts last updated before the
    cutoff, and with them their events; every other attempt and its events stay. *)
Theorem prune_terminal_exact now n c s :
  idle s → db_ok (st_disk s) → add_time now (- days n) = Ok c →
  let '(res, s') := prune_terminal now n s in
  idle s' ∧ (∃ k, res = Ok k) ∧
  (∀ a, find_row a (st_disk s') =
        match find_row a (st_disk s) with
        | Some r => if terminal (r_state r) && ustr_ltb (r_updated_at r) (format_datetime c) then None else Some r
        | None => None
        end) ∧
  (∀ e, e ∈ db_events (st_disk s') ↔
        e ∈ db_events (st_disk s) ∧ is_Some (find_row (e_attempt_id e) (st_disk s'))).
Proof.
  intros Hi Hd Hc. pose proof (ok_unique _ Hd) as Hu. pose proof (prune_terminal_run now n s Hi) as H.
  rewrite Hc in H. destruct H as [op ->]. cbn [st_disk].
  set (p := expired (format_datetime c)) in *. split_and!; [done|by eexists|by intros; apply find_delete|].
  intros e. unfold delete_jobs at 1. cbn [db_events with_events].
  rewrite list_elem_of_In, List.filter_In, <- list_elem_of_In, find_delete by done.
  split; intros [He Hk]; (split; [done|]).
  - pose proof (ok_foreign _ Hd) as Hfk. rewrite Forall_forall in Hfk.
    apply Hfk in He. apply list_elem_of_fmap in He as (r & E & Hr). rewrite E, find_row_elem by done.
    destruct (p r) eqn:Ep; [|eauto]. exfalso. apply negb_true_iff, bool_decide_eq_false in Hk. apply Hk.
    rewrite E. apply list_elem_of_fmap_2, list_elem_of_In, List.filter_In. split; [by apply list_elem_of_In|done].
  - apply negb_true_iff, bool_decide_eq_false. intros (r & E & Hr)%list_elem_of_fmap.
    apply list_elem_of_In, List.filter_In in Hr as [Hr Hp]. apply list_elem_of_In in Hr.
    rewrite E, find_row_elem, Hp in Hk by done. by destruct Hk.
Qed.

Lemma migrate_cols d : db_lease_token_col (migrate_to_v2 d) = true ∧ db_cancel_col (migrate_to_v2 d) = true.
Proof.
  unfold migrate_to_v2. destruct (db_lease_token_col d) eqn:E1, (db_cancel_col d) eqn:E2;
    cbn [db_lease_token_col db_cancel_col]; rewrite ?E2; done.
Qed.

Definition row_core (r : job_row) : ustr * ustr * ustr * job_state * Z * Z :=
  (r_attempt_id r, r_build_job_id r, r_payload_json r, r_state r, r_attempts r, r_sequence_cursor r).

Lemma migrate_core d : row_core <$> db_jobs (migrate_to_v2 d) = row_core <$> db_jobs d.
Proof.
  unfold migrate_to_v2. destruct (db_lease_token_col d), (db_cancel_col d) eqn:E2;
    cbn [db_jobs db_cancel_col]; rewrite ?E2; cbn [db_jobs]; rewrite <- ?list_fmap_compose; done.
Qed.

(** Opening a database file brings every older schema to version 2 with
    both added columns, keeping identity, payload, state and counters of every
    row; a newer schema is refused and left alone; opening twice is opening once. *)
Theorem initialize_migrates s :
  idle s →
  let d := st_disk s in
  let '(res, s') := initialize s in
  let d' := st_disk s' in
  idle s' ∧
  if 2 <? db_version d then (∃ m, res = Err (queue_error m)) ∧ d' = d
  else res = Ok () ∧
    (db_version d < 2 → db_version d' = 2 ∧ db_lease_token_col d' = true ∧ db_cancel_col d' = true) ∧
    row_core <$> db_jobs d' = row_core <$> db_jobs d ∧
    st_disk (initialize s').2 = d'.
Proof.
  intros Hi. cbv zeta. pose proof (initialize_run s Hi) as H. unfold SCHEMA_VERSION in H.
  destruct (2 <? db_version (st_disk s)) eqn:E2.
  - destruct H as [m [op ->]]. split; [done|]. split; [by exists m|done].
  - destruct H as [op ->]. cbn [st_disk]. split; [done|]. split; [done|].
    set (s1 := Store _ _ _ _). pose proof (initialize_run s1 eq_refl) as H1. unfold SCHEMA_VERSION in H1.
    unfold initialized in *. cbn [st_disk s1] in H1.
    assert (db_version (st_disk s) < 2 → db_version (initialized (st_disk s)) = 2) as Hv.
    { unfold initialized. intros. destruct (db_version (st_disk s) <? 1) eqn:E; [done|].
      by assert ((db_version (st_disk s) =? 1) = true) as -> by lia. }
    unfold initialized in Hv.
    destruct (db_version (st_disk s) <? 1) eqn:E1; [|destruct (db_version (st_disk s) =? 1) eqn:E1'].
    + rewrite Hv in H1 by lia. destruct H1 as [op' ->]. split_and!; try done.
      * intros _. split; [done|]. apply migrate_cols.
      * cbn [db_jobs set_version]. rewrite migrate_core. unfold create_v1_schema. by destruct (db_schema _).
    + rewrite Hv in H1 by lia. destruct H1 as [op' ->]. split_and!; try done.
      * intros _. split; [done|]. apply migrate_cols.
      * cbn [db_jobs set_version]. apply migrate_core.
    + rewrite E2, E1, E1' in H1. destruct H1 as [op' ->]. split_and!; try done. lia.
Qed.
