(* ===== verification/QueueExamples.v ===== *)
(** The properties of the queue at concrete stores: each property with
    hypotheses is applied to a store built by the methods themselves. *)

From S2P Require Import Prelude PyStr Dict Json Clock Uuid Db Store StoreRun StoreInv Queue.

Local Open Scope Z_scope.

(** * Example stores *)

Definition ex_build : ustr := u "22222222-2222-4222-8222-222222222222".
Definition ex_attempt : ustr := u "33333333-3333-4333-8333-333333333333".
Definition ex_attempt2 : ustr := u "44444444-4444-4444-8444-444444444444".
Definition ex_other_build : ustr := u "55555555-5555-4555-8555-555555555555".

Definition ex_now : instant := instant_of 2026 7 13 9 30 0 0.

Definition ex_payload : jdict :=
  [(u "build_job_id", JStr ex_build); (u "attempt_id", JStr ex_attempt); (u "site_id", JStr (u "site-1"));
   (u "secrets", JObj [(u "TOKEN", JStr (u "s3cr3t"))]); (u "timeout_seconds", JInt 600)].
Definition ex_payload2 : jdict :=
  [(u "build_job_id", JStr ex_build); (u "attempt_id", JStr ex_attempt2)].
Definition ex_payload_conflict : jdict :=
  [(u "build_job_id", JStr ex_other_build); (u "attempt_id", JStr ex_attempt)].

(** A new queue; one attempt queued; that attempt leased for two minutes. *)
Definition ex_store0 : store := (initialize (Store empty_db None [] false)).2.
Definition ex_store1 : store := (run_op (OpEnqueue ex_now ex_payload) ex_store0).2.
Definition ex_store2 : store :=
  (run_op (OpAcquire (ex_now + seconds 5) (u "token-1") (u "worker-0") 120) ex_store1).2.
(** The queue reopened: the payloads kept in memory are gone. *)
Definition ex_store1_restarted : store := Store (st_disk ex_store1) None [] false.
(** The leased attempt with a cancellation request. *)
Definition ex_store3 : store := (run_op (OpCancel (ex_now + seconds 6) ex_build None) ex_store2).2.

(** * Lemmas: the example stores *)

Lemma ex_reachable1 : reachable ex_store1.
Proof. apply reach_op; [apply reach_new|]. vm_compute. reflexivity. Qed.

Lemma ex_reachable2 : reachable ex_store2.
Proof. apply reach_op; [apply ex_reachable1|exact I]. Qed.

Lemma ex_reachable3 : reachable ex_store3.
Proof. apply reach_op; [apply ex_reachable2|exact I]. Qed.

Lemma ex_ok1 : idle ex_store1 ∧ db_ok (st_disk ex_store1).
Proof. apply reachable_ok, ex_reachable1. Qed.

Lemma ex_ok2 : idle ex_store2 ∧ db_ok (st_disk ex_store2).
Proof. apply reachable_ok, ex_reachable2. Qed.

Lemma ex_ok3 : idle ex_store3 ∧ db_ok (st_disk ex_store3).
Proof. apply reachable_ok, ex_reachable3. Qed.

Lemma ex_in_range t : MIN_INSTANT <=? t = true → t <? MAX_INSTANT = true → in_range t.
Proof. intros. split; lia. Qed.

(** * Witnesses *)

Lemma method_atomic_witness : ∃ e,
  (run_op (OpTransition ex_now ex_attempt (u "SUCCEEDED") None None None None) ex_store1).1 = Err e ∧
  st_disk (run_op (OpTransition ex_now ex_attempt (u "SUCCEEDED") None None None None) ex_store1).2 = st_disk ex_store1.
Proof.
  eexists. split; [vm_compute; reflexivity|].
  eapply (proj1 (method_atomic (OpTransition ex_now ex_attempt (u "SUCCEEDED") None None None None)
    ex_store1 _ ex_reachable1 I _)).
  Unshelve. 2: vm_compute; reflexivity.
Defined.

Lemma attempt_life_cycle_witness :
  row_step (find_row ex_attempt (st_disk ex_store1)) (find_row ex_attempt (st_disk ex_store2)).
Proof.
  exact (attempt_life_cycle (OpAcquire (ex_now + seconds 5) (u "token-1") (u "worker-0") 120)
    ex_store1 ex_attempt ex_reachable1 I).
Defined.

Lemma acquire_oldest_witness : ∃ e,
  add_time ex_now (seconds 120) = Ok e ∧
  let nowt := format_datetime ex_now in
  let '(res, s') := acquire_lease ex_now (u "t") (u "w") 120 ex_store1 in
  idle s' ∧
  match res with
  | Err _ => False
  | Ok None =>
      (∀ r, r ∈ db_jobs (st_disk ex_store1) → eligible nowt r = true → r_cancel_requested r = true) ∧
      ∀ a, find_row a (st_disk s') =
           (λ r, if eligible nowt r then finish_row CANCELLED (r_error r) nowt r else r)
             <$> find_row a (st_disk ex_store1)
  | Ok (Some job) => ∃ r,
      r ∈ db_jobs (st_disk ex_store1) ∧ eligible nowt r = true ∧ r_cancel_requested r = false ∧
      (∀ r', r' ∈ db_jobs (st_disk ex_store1) → eligible nowt r' = true → r_cancel_requested r' = false →
             job_leb r r' = true) ∧
      job = record_of (st_transient ex_store1) (lease_row (u "w") (u "t") (format_datetime e) nowt r) ∧
      find_row (r_attempt_id r) (st_disk s') = Some (lease_row (u "w") (u "t") (format_datetime e) nowt r) ∧
      ∀ a, a ≠ r_attempt_id r →
           find_row a (st_disk s') =
           (λ r', if eligible nowt r' && r_cancel_requested r' && job_leb r' r
                  then finish_row CANCELLED (r_error r') nowt r' else r') <$> find_row a (st_disk ex_store1)
  end.
Proof.
  exists (ex_now + seconds 120). split; [reflexivity|].
  apply (acquire_oldest ex_now (u "t") (u "w") 120 (ex_now + seconds 120) ex_store1);
    [apply ex_ok1|apply ex_ok1|reflexivity].
Defined.

Lemma live_lease_exclusive_witness : ∃ r,
  find_row ex_attempt (st_disk ex_store2) = Some r ∧
  let '(res, s') := acquire_lease (ex_now + seconds 30) (u "t") (u "w") 120 ex_store2 in
  find_row (r_attempt_id r) (st_disk s') = Some r ∧
  ∀ job, res = Ok (Some job) → jr_attempt_id job ≠ r_attempt_id r.
Proof.
  eexists. split; [vm_compute; reflexivity|].
  apply (live_lease_exclusive _ _ _ _ ex_store2 _ (ex_now + seconds 125)).
  - apply ex_ok2.
  - apply ex_ok2.
  - apply list_elem_of_In. vm_compute. left. reflexivity.
  - reflexivity.
  - vm_compute. reflexivity.
  - apply ex_in_range; vm_compute; reflexivity.
  - apply ex_in_range; vm_compute; reflexivity.
  - vm_compute. reflexivity.
Defined.

Lemma stale_token_fenced_witness : ∃ e s',
  transition ex_now ex_attempt (u "RUNNING") None None None (Some (u "old")) ex_store2 = (Err e, s') ∧
  st_disk s' = st_disk ex_store2.
Proof.
  assert (∃ r, find_row ex_attempt (st_disk ex_store2) = Some r ∧ r_lease_token r ≠ Some (u "old")) as (r & Hf & Ht).
  { eexists. split; [vm_compute; reflexivity|]. apply (bool_decide_unpack _). vm_compute. exact I. }
  exact (proj1 (stale_token_fenced ex_now ex_store2 ex_attempt r (u "old") (proj1 ex_ok2) (proj2 ex_ok2) Hf Ht)
    (u "RUNNING") None None None).
Defined.

Lemma transition_refines_witness :
  let q := entries_of (st_disk ex_store2) in
  let '(res, s') := transition ex_now ex_attempt (u "RUNNING") None (Some (u "LEASED")) (Some (u "worker-0"))
                      (Some (u "token-1")) ex_store2 in
  idle s' ∧ st_transient s' = st_transient ex_store2 ∧
  match transition_spec (format_datetime ex_now) (u "RUNNING") None (Some (u "LEASED")) (Some (u "worker-0"))
          (Some (u "token-1")) (q !! ex_attempt) with
  | Ok r => res = Ok (record_of (st_transient ex_store2) r) ∧ entries_of (st_disk s') = <[ex_attempt := r]> q
  | Err e => res = Err e ∧ st_disk s' = st_disk ex_store2
  end.
Proof.
  apply (transition_refines ex_now ex_attempt (u "RUNNING") None (Some (u "LEASED")) (Some (u "worker-0"))
    (Some (u "token-1")) ex_store2); apply ex_ok2.
Defined.

Lemma executor_crash_accounting_witness :
  let '(res, s') := record_executor_crash ex_now ex_attempt (u "boom") None None ex_store2 in
  idle s' ∧
  match crash_spec (format_datetime ex_now) (u "boom") None None (entries_of (st_disk ex_store2) !! ex_attempt) with
  | Ok r' => res = Ok (record_of (st_transient ex_store2) r') ∧
      entries_of (st_disk s') = <[ex_attempt := r']> (entries_of (st_disk ex_store2)) ∧
      (if MAX_LOCAL_CRASHES <=? r_attempts r'
       then r_state r' = FAILED ∧ ex_attempt ∈ d_attempt_id <$> db_dlq (st_disk s')
       else r_state r' = QUEUED ∧ db_dlq (st_disk s') = db_dlq (st_disk ex_store2))
  | Err e => res = Err e ∧ st_disk s' = st_disk ex_store2
  end.
Proof. apply (executor_crash_accounting ex_now ex_attempt (u "boom") None None ex_store2); apply ex_ok2. Defined.

Lemma crash_after_lease_witness : ∃ job s', acquire_lease ex_now (u "t") (u "w") 120 ex_store1 = (Ok (Some job), s') ∧
  ∃ job' s'', record_executor_crash ex_now (jr_attempt_id job) (u "boom") (Some (u "w")) (Some (u "t")) s' = (Ok job', s'') ∧
    jr_attempts job' = jr_attempts job ∧ 1 <= jr_attempts job ∧
    (jr_state job' = QUEUED ∧ jr_attempts job < 3 ∨ jr_state job' = FAILED ∧ 3 <= jr_attempts job).
Proof.
  destruct (acquire_lease ex_now (u "t") (u "w") 120 ex_store1) as [res s'] eqn:E.
  assert (∃ job, res = Ok (Some job)) as [job ->].
  { assert (res = (acquire_lease ex_now (u "t") (u "w") 120 ex_store1).1) as -> by (rewrite E; reflexivity).
    eexists. vm_compute. reflexivity. }
  exists job, s'. split; [reflexivity|].
  exact (crash_after_lease ex_now ex_now (u "t") (u "w") 120 (u "boom") ex_store1 job s'
    (proj1 ex_ok1) (proj2 ex_ok1) E).
Defined.

Lemma cancelled_attempt_not_leased_witness :
  let s1 := (request_cancel ex_now ex_build (Some ex_attempt) ex_store1).2 in
  (is_cancel_requested ex_attempt s1).1 = Ok true ∧
  ∀ job, (acquire_lease ex_now (u "t") (u "w") 120 s1).1 = Ok (Some job) → jr_attempt_id job ≠ ex_attempt.
Proof.
  assert (∃ r, find_row ex_attempt (st_disk ex_store1) = Some r ∧ r_build_job_id r = ex_build ∧ r_state r = QUEUED)
    as (r & Hf & Hb & Hq) by (eexists; split; [vm_compute; reflexivity|]; split; vm_compute; reflexivity).
  exact (cancelled_attempt_not_leased ex_now ex_now (u "t") (u "w") 120 ex_build ex_attempt ex_store1 r
    (proj1 ex_ok1) (proj2 ex_ok1) Hf Hb Hq).
Defined.

Lemma crash_forgets_cancellation_witness :
  (is_cancel_requested ex_attempt ex_store3).1 = Ok true ∧
  ∃ job s', record_executor_crash ex_now ex_attempt (u "boom") None None ex_store3 = (Ok job, s') ∧
    jr_state job = QUEUED ∧ (is_cancel_requested ex_attempt s').1 = Ok false.
Proof.
  split; [vm_compute; reflexivity|].
  assert (∃ r, find_row ex_attempt (st_disk ex_store3) = Some r ∧ active (r_state r) = true ∧
    (r_attempts r <? MAX_LOCAL_CRASHES) = true ∧ r_cancel_requested r = true)
    as (r & Hf & Ha & Hlt & Hc) by (eexists; split; [vm_compute; reflexivity|]; split_and!; vm_compute; reflexivity).
  exact (crash_forgets_cancellation ex_now ex_attempt (u "boom") ex_store3 r (proj1 ex_ok3) (proj2 ex_ok3) Hf Ha
    (proj1 (Z.ltb_lt _ _) Hlt) Hc).
Defined.

Lemma enqueue_idempotent_witness :
  let s1 := (enqueue ex_now ex_payload ex_store0).2 in
  ∃ r s2, find_row ex_attempt (st_disk s1) = Some r ∧ r_build_job_id r = ex_build ∧
    enqueue (ex_now + seconds 9) ex_payload s1 = (Ok (MkEnqueueResult (record_of (st_transient s1) r) false), s2) ∧
    st_disk s2 = st_disk s1.
Proof.
  apply (enqueue_idempotent ex_now (ex_now + seconds 9) ex_payload ex_payload ex_build ex_attempt ex_store0).
  - reflexivity.
  - exact (proj2 (reachable_ok _ reach_new)).
  - vm_compute. reflexivity.
  - vm_compute. reflexivity.
  - split; vm_compute; reflexivity.
  - split; vm_compute; reflexivity.
  - vm_compute. discriminate.
Defined.

Lemma refused_assignment_leaks_payload_witness :
  ∃ s1, enqueue ex_now ex_payload_conflict ex_store1_restarted = (Err not_reloaded, s1) ∧
    st_disk s1 = st_disk ex_store1_restarted ∧
    ∃ job, (get_job ex_build ex_attempt s1).1 = Ok (Some job) ∧ jr_payload job = JObj ex_payload_conflict.
Proof.
  assert (∃ r, find_row ex_attempt (st_disk ex_store1_restarted) = Some r ∧ r_build_job_id r = ex_build)
    as (r & Hf & Hb) by (eexists; split; vm_compute; reflexivity).
  apply (refused_assignment_leaks_payload ex_now ex_payload_conflict ex_other_build ex_build ex_attempt
    ex_store1_restarted r); try assumption.
  - reflexivity.
  - apply ex_ok1.
  - vm_compute. reflexivity.
  - reflexivity.
  - split; vm_compute; reflexivity.
  - apply (bool_decide_unpack _). vm_compute. exact I.
Defined.

Lemma newer_assignment_supersedes_witness :
  let s1 := (enqueue ex_now ex_payload2 ex_store1).2 in
  (is_current_attempt ex_build ex_attempt2 s1).1 = Ok true ∧
  (is_current_attempt ex_build ex_attempt s1).1 = Ok false.
Proof.
  assert (∃ r, find_row ex_attempt (st_disk ex_store1) = Some r ∧ r_build_job_id r = ex_build)
    as (r & Hf & Hb) by (eexists; split; vm_compute; reflexivity).
  destruct (find_row_Some _ _ _ Hf) as [Ha Hr].
  assert (find_row ex_attempt2 (st_disk ex_store1) = None) as Hn by (vm_compute; reflexivity).
  rewrite <- Ha. apply (newer_assignment_supersedes ex_now ex_payload2 ex_build ex_attempt2 ex_store1 r);
    try assumption.
  - apply ex_ok1.
  - apply ex_ok1.
  - vm_compute. reflexivity.
  - split; vm_compute; reflexivity.
Defined.

Lemma prune_terminal_exact_witness : ∃ c,
  add_time ex_now (- days 7) = Ok c ∧
  let '(res, s') := prune_terminal ex_now 7 ex_store1 in
  idle s' ∧ (∃ k, res = Ok k) ∧
  (∀ a, find_row a (st_disk s') =
        match find_row a (st_disk ex_store1) with
        | Some r => if terminal (r_state r) && ustr_ltb (r_updated_at r) (format_datetime c) then None else Some r
        | None => None
        end) ∧
  (∀ e, e ∈ db_events (st_disk s') ↔
        e ∈ db_events (st_disk ex_store1) ∧ is_Some (find_row (e_attempt_id e) (st_disk s'))).
Proof.
  exists (ex_now - days 7). split; [reflexivity|].
  apply (prune_terminal_exact ex_now 7 (ex_now - days 7) ex_store1); [apply ex_ok1|apply ex_ok1|reflexivity].
Defined.

Lemma initialize_migrates_witness :
  let s := Store (Db 1 true false false (db_jobs (st_disk ex_store1)) [] []) None [] false in
  let '(res, s') := initialize s in
  idle s' ∧ res = Ok () ∧ db_version (st_disk s') = 2.
Proof.
  cbv zeta. pose proof (initialize_migrates
    (Store (Db 1 true false false (db_jobs (st_disk ex_store1)) [] []) None [] false) eq_refl) as H.
  cbv zeta in H. destruct (initialize _) as [res s']. destruct H as (Hi & Hr & Hv & _).
  split; [exact Hi|]. split; [exact Hr|]. apply Hv. reflexivity.
Defined.
