(* ===== verification/Outbox.v ===== *)
(** The event outbox (class [SQLiteEventOutbox] of
    src/src/build_engine/queue/store.py): the spool of outbound attempt events,
    on its own autocommit connection to the queue's database.  Every statement
    is committed by itself, so a computation here is a sequence of committed
    changes of the database; [self._db.commit()] has nothing left to do. *)

From S2P Require Import Prelude PyStr Dict Json Clock Uuid Protocol Db Store.

Local Open Scope Z_scope.

(** * Configuration *)

Record outbox_config := OutboxConfig { ob_max_bytes : Z; ob_retention_days : Z }.
Definition default_outbox : outbox_config := OutboxConfig 268435456 7.

(** * Appending *)

(** [_event_bytes]: the characters of all stored envelopes. *)
Definition event_bytes (d : db) : Z :=
  Z.of_nat (list_sum ((λ e, length (e_envelope_json e)) <$> db_events d)).

(** The oldest log event, or the oldest event when there is no log. *)
Definition oldest_event (d : db) : option event_row :=
  match head (sort_by event_leb (List.filter (λ e, ustr_eqb (e_type e) (u "attempt.log")) (db_events d))) with
  | Some e => Some e
  | None => head (sort_by event_leb (db_events d))
  end.

Definition is_event (id : ustr) (e : event_row) : bool := ustr_eqb (e_id e) id.

(** The size loop of [_prune_sync]; every pass deletes an event, so the number
    of events is fuel enough. [None] is running out of fuel. *)
Fixpoint prune_size (fuel : nat) (max_bytes : Z) (removed : nat) : M db (option nat) :=
  match fuel with
  | O => mret None
  | S fuel =>
      over ← gets (λ d, max_bytes <? event_bytes d);
      if (over : bool) then
        oldest ← gets oldest_event;
        match oldest with
        | None => mret (Some removed)
        | Some e =>
            modify (delete_events (is_event (e_id e)));;
            prune_size fuel max_bytes (S removed)
        end
      else mret (Some removed)
  end.

(** Events of terminal attempts older than the cutoff. *)
Definition old_event (cutoff : ustr) (d : db) (e : event_row) : bool :=
  ustr_ltb (e_created_at e) cutoff &&
  mem_str (e_attempt_id e) (r_attempt_id <$> List.filter (λ r, terminal (r_state r)) (db_jobs d)).

Definition prune (cfg : outbox_config) (now : instant) : M db nat :=
  cutoff_dt ← lift (add_time now (- days (ob_retention_days cfg)));
  let cutoff := format_datetime cutoff_dt in
  removed ← gets (λ d, count_rows (old_event cutoff d) (db_events d));
  modify (λ d, delete_events (old_event cutoff d) d);;
  fuel ← gets (λ d, S (length (db_events d)));
  n ← prune_size fuel (ob_max_bytes cfg) removed;
  match n with Some n => mret n | None => raise (PyExn BaseException (u "prune does not terminate")) end.

Definition find_event (attempt_id : ustr) (seq : Z) (d : db) : option event_row :=
  head (List.filter (λ e, ustr_eqb (e_attempt_id e) attempt_id && (e_seq e =? seq)) (db_events d)).

Definition event_of (e : Envelope) (attempt_id : ustr) (seq : Z) (text : ustr) (now : instant) : event_row :=
  EventRow (env_id e) attempt_id seq (env_type e) text (format_datetime now).

(** [UPDATE jobs SET sequence_cursor = MAX(sequence_cursor, ?), updated_at = ?]. *)
Definition cursor_row (seq : Z) (now : ustr) (r : job_row) : job_row :=
  JobRow (r_rowid r) (r_build_job_id r) (r_attempt_id r) (r_payload_json r) (r_state r)
    (r_lease_owner r) (r_lease_token r) (r_lease_expires_at r) (r_attempts r)
    (Z.max (r_sequence_cursor r) seq) (r_created_at r) now (r_error r) (r_cancel_requested r).

(** The first statement of [_append_sync]; [false] when the event is there already. *)
Definition append_insert (now : instant) (e : Envelope) (attempt_id : ustr) (seq : Z) : M db bool :=
  existing ← gets (find_event attempt_id seq);
  match existing with
  | Some row =>
      text ← lift (to_json e);
      raise_if (negb (ustr_eqb (e_envelope_json row) text))
        (queue_error (u "Conflicting event reused an attempt sequence"));;
      mret false
  | None =>
      text ← lift (to_json e);
      d ← gets id;
      d' ← lift (insert_event (event_of e attempt_id seq text now) d);
      modify (λ _, d');;
      mret true
  end.

(** The second statement. *)
Definition append_cursor (now : instant) (attempt_id : ustr) (seq : Z) : M db () :=
  modify (λ d, with_jobs d (update_rows (is_attempt attempt_id) (cursor_row seq (format_datetime now)) (db_jobs d))).

Definition append (cfg : outbox_config) (now : instant) (e : Envelope) : M db () :=
  match env_attempt_id e, env_seq e with
  | Some attempt_id, Some seq =>
      inserted ← append_insert now e attempt_id seq;
      if (inserted : bool) then append_cursor now attempt_id seq;; prune cfg now;; mret ()
      else mret ()
  | _, _ => raise (protocol_error (u "Outbox events require attempt_id and seq"))
  end.

(** * Acknowledgement and sequence numbers *)

Definition ack_through (attempt_id : ustr) (last_seq : Z) : M db () :=
  modify (delete_events (λ e, ustr_eqb (e_attempt_id e) attempt_id && (e_seq e <=? last_seq))).

Definition next_seq (attempt_id : ustr) : M db Z :=
  row ← gets (find_row attempt_id);
  match row with
  | Some r => mret (r_sequence_cursor r + 1)
  | None => raise (queue_error (u "Cannot allocate an event sequence for an unknown attempt"))
  end.

(** * Replay *)

(** [cursors.get(attempt_id, 0)]. *)
Definition cursor_of (attempt_id : ustr) (cursors : list (ustr * Z)) : Z :=
  default 0 (dget attempt_id cursors).

(** [json.loads(text)] used as a dict. *)
Definition loads_dict (text : ustr) : result jdict :=
  j ← loads text;
  match j with
  | JObj d => Ok d
  | _ => Err (PyExn TypeError (u "not a dict"))
  end.

(** [int(d.get("seq", 0))] for the numbers [append] stores. *)
Definition row_seq (d : jdict) : result Z :=
  match dget (u "seq") d with
  | None => Ok 0
  | Some (JInt n) => Ok n
  | Some (JBool b) => Ok (if b then 1 else 0)
  | Some _ => Err (PyExn TypeError (u "int() argument must be a number"))
  end.

(** [_replay_rows_sync]: rows after the cursors, in spool order. *)
Fixpoint filter_replay (cursors : list (ustr * Z)) (rows : list event_row) : result (list event_row) :=
  match rows with
  | [] => Ok []
  | row :: rows =>
      d ← loads_dict (e_envelope_json row);
      seq ← row_seq d;
      rest ← filter_replay cursors rows;
      let attempt_id := py_str (default (JStr []) (dget (u "attempt_id") d)) in
      Ok (if cursor_of attempt_id cursors <? seq then row :: rest else rest)
  end.

(** One row of the loop of [replay_after]; [None] is [continue]. *)
Definition replay_row (now : instant) (cursors : list (ustr * Z)) (row : event_row) : result (option Envelope) :=
  raw ← loads_dict (e_envelope_json row);
  let raw := dsetdefault (u "engine_id") (JStr ZERO_ENGINE_ID) raw in
  match decode_frame now (Some OUTBOUND_MESSAGE_TYPES) (FrameText (dumps (compact false) (JObj raw))) with
  | Err e => if isinstance e ProtocolError then Ok None else Err e
  | Ok e =>
      match env_attempt_id e, env_seq e with
      | Some a, Some n => Ok (if cursor_of a cursors <? n then Some e else None)
      | _, _ => Ok None
      end
  end.

Fixpoint replay_rows (now : instant) (cursors : list (ustr * Z)) (rows : list event_row) : result (list Envelope) :=
  match rows with
  | [] => Ok []
  | row :: rows =>
      e ← replay_row now cursors row;
      es ← replay_rows now cursors rows;
      Ok (match e with Some e => e :: es | None => es end)
  end.

Definition replay_after (now : instant) (cursors : list (ustr * Z)) : M db (list Envelope) :=
  rows ← gets (λ d, sort_by event_leb (db_events d));
  rows ← lift (filter_replay cursors rows);
  lift (replay_rows now cursors rows).

(** * The interface of the spool

    What the uplink expects of an event spool ([EventSpoolLike]): operations in
    a state of the spool's own, and the promises its users rely on. *)

Class EventSpool (S : Type) := {
  spool_append : instant → Envelope → M S ();
  spool_replay_after : instant → list (ustr * Z) → M S (list Envelope);
  spool_next_seq : ustr → M S Z;
  spool_ack_through : ustr → Z → M S ();
}.

(** [spool_ok] is the spool's invariant; a sequence number handed out is not
    negative and is the one an appended event moves past. *)
Class EventSpoolLaws (S : Type) `{EventSpool S} := {
  spool_ok : S → Prop;
  spool_next_seq_pure : ∀ a s, (spool_next_seq a s).2 = s;
  spool_next_seq_pos : ∀ a s n, spool_ok s → (spool_next_seq a s).1 = Ok n → 0 < n;
  spool_append_ok : ∀ now e s, spool_ok s → spool_ok (spool_append now e s).2;
  spool_append_advances : ∀ now e a n s s',
    spool_ok s → env_attempt_id e = Some a → env_seq e = Some n →
    (spool_next_seq a s).1 = Ok n → spool_append now e s = (Ok (), s') →
    (spool_next_seq a s').1 = Ok (n + 1);
}.

(** The SQLite outbox as a spool. *)
#[export] Instance outbox_spool (cfg : outbox_config) : EventSpool db := {
  spool_append := append cfg;
  spool_replay_after := replay_after;
  spool_next_seq := next_seq;
  spool_ack_through := ack_through;
}.
