(* ===== verification/OutboxProofs.v ===== *)
(** The outbox: its invariant, the promises of the spool interface, pruning,
    replay, acknowledgement, and the window between the two commits of an append. *)

From Stdlib Require Import Sorted.
From S2P Require Import Prelude PyStr Dict Json Clock Uuid Protocol Db Store StoreRun StoreInv Outbox.

Local Open Scope Z_scope.

(** * The invariant of the spool *)

Record spool_inv (d : db) : Prop := SpoolInv {
  sp_attempts : unique_attempts d;
  sp_cursor : Forall (λ r, 0 <= r_sequence_cursor r) (db_jobs d);
  sp_ids : NoDup (e_id <$> db_events d);
  sp_pairs : NoDup ((λ e, (e_attempt_id e, e_seq e)) <$> db_events d);
  (** no event lies beyond its attempt's cursor *)
  sp_seq : Forall (λ e, ∃ r, find_row (e_attempt_id e) d = Some r ∧ e_seq e <= r_sequence_cursor r) (db_events d);
}.

(** What deleting events leaves. *)
Definition thinned (d d' : db) : Prop :=
  ∃ es, d' = with_events d es ∧ (∀ e, e ∈ es → e ∈ db_events d) ∧ sublist es (db_events d).

(** * Lemmas: deleting events *)

Lemma sublist_fmap {A B} (f : A → B) l l' : sublist l l' → sublist (f <$> l) (f <$> l').
Proof. apply fmap_sublist. Qed.

Lemma thinned_refl d : thinned d d.
Proof. exists (db_events d). split; [by destruct d|by split]. Qed.

Lemma thinned_trans d d' d'' : thinned d d' → thinned d' d'' → thinned d d''.
Proof.
  intros (es & -> & H & S1) (es' & -> & H' & S2). exists es'. split; [done|].
  cbn [db_events with_events] in *. split; [auto|by etrans].
Qed.

Lemma sublist_filter {A} (p : A → bool) l : sublist (List.filter p l) l.
Proof. induction l as [|x l IH]; simpl; [constructor|]. destruct (p x); by constructor. Qed.

Lemma delete_events_thinned p d : thinned d (delete_events p d).
Proof.
  exists (List.filter (λ e, negb (p e)) (db_events d)). split_and!; [done| |apply sublist_filter].
  intros e He. by apply list_elem_of_In, List.filter_In in He as [He%list_elem_of_In _].
Qed.

Lemma thinned_jobs d d' : thinned d d' → db_jobs d' = db_jobs d ∧ db_dlq d' = db_dlq d.
Proof. by intros (es & -> & _). Qed.

Lemma thinned_find a d d' : thinned d d' → find_row a d' = find_row a d.
Proof. intros [H _]%thinned_jobs. unfold find_row. by rewrite H. Qed.

Lemma thinned_inv d d' : thinned d d' → spool_inv d → spool_inv d'.
Proof.
  intros Ht [Hu Hc Hi Hp Hs]. pose proof (thinned_find) as Hf. destruct Ht as (es & -> & He & Hsub).
  split; cbn [db_jobs db_events with_events]; try done.
  - eapply sublist_NoDup; [exact Hi|]. by apply sublist_fmap.
  - eapply sublist_NoDup; [exact Hp|]. by apply sublist_fmap.
  - rewrite Forall_forall in *. intros e Hin. by apply Hs, He.
Qed.

Lemma elem_delete_events p d e : e ∈ db_events (delete_events p d) ↔ e ∈ db_events d ∧ p e = false.
Proof.
  unfold delete_events. cbn [db_events with_events]. rewrite list_elem_of_In, List.filter_In, <- list_elem_of_In.
  by rewrite negb_true_iff.
Qed.

Lemma sublist_sum {A} (f : A → nat) l l' : sublist l l' → (list_sum (f <$> l) <= list_sum (f <$> l'))%nat.
Proof. unfold list_sum. induction 1; cbn in *; lia. Qed.

(** * Lemmas: the size loop *)

Definition is_log (e : event_row) : bool := ustr_eqb (e_type e) (u "attempt.log").

Lemma lex3_trans (a b c : event_row) : event_leb a b = true → event_leb b c = true → event_leb a c = true.
Proof.
  unfold event_leb.
  destruct (ustr_compare (e_created_at a) (e_created_at b)) eqn:E1; try done;
  destruct (ustr_compare (e_created_at b) (e_created_at c)) eqn:E2; try done.
  - apply ustr_compare_eq in E1, E2. rewrite E1, E2, ustr_compare_refl.
    destruct (ustr_compare (e_attempt_id a) (e_attempt_id b)) eqn:F1; try done;
    destruct (ustr_compare (e_attempt_id b) (e_attempt_id c)) eqn:F2; try done.
    + apply ustr_compare_eq in F1, F2. rewrite F1, F2, ustr_compare_refl. lia.
    + apply ustr_compare_eq in F1. by rewrite F1, F2.
    + apply ustr_compare_eq in F2. by rewrite <- F2, F1.
    + by rewrite (ustr_compare_trans _ _ _ _ F1 F2).
  - apply ustr_compare_eq in E1. by rewrite E1, E2.
  - apply ustr_compare_eq in E2. by rewrite <- E2, E1.
  - by rewrite (ustr_compare_trans _ _ _ _ E1 E2).
Qed.

Lemma event_leb_total a b : event_leb a b = true ∨ event_leb b a = true.
Proof.
  unfold event_leb. rewrite (ustr_compare_antisym (e_created_at a)), (ustr_compare_antisym (e_attempt_id a)).
  destruct (ustr_compare (e_created_at a) _); cbn; auto.
  destruct (ustr_compare (e_attempt_id a) _); cbn; auto. lia.
Qed.

(** The order in which events are given up for their size: log events before
    the others, the oldest first. *)
Definition prune_leb (a b : event_row) : bool :=
  if is_log a then (if is_log b then event_leb a b else true) else negb (is_log b) && event_leb a b.

(** The events that would be left when [e]'s turn comes: [e] and what comes after it. *)
Definition from_event (e : event_row) (d : db) : db := delete_events (λ x, negb (prune_leb e x)) d.

Lemma event_leb_antisym a b :
  event_leb a b = true → event_leb b a = true → e_attempt_id a = e_attempt_id b ∧ e_seq a = e_seq b.
Proof.
  unfold event_leb. rewrite (ustr_compare_antisym (e_created_at a)), (ustr_compare_antisym (e_attempt_id a)).
  destruct (ustr_compare (e_created_at a) _); cbn; try done.
  destruct (ustr_compare (e_attempt_id a) _) eqn:E; cbn; try done.
  apply ustr_compare_eq in E. intros; split; [done|lia].
Qed.

Lemma prune_leb_antisym a b :
  prune_leb a b = true → prune_leb b a = true → e_attempt_id a = e_attempt_id b ∧ e_seq a = e_seq b.
Proof.
  unfold prune_leb. destruct (is_log a), (is_log b); cbn; try done; apply event_leb_antisym.
Qed.

Lemma oldest_event_Some d e :
  oldest_event d = Some e → e ∈ db_events d ∧ ∀ x, x ∈ db_events d → prune_leb e x = true.
Proof.
  unfold oldest_event. fold is_log. unfold prune_leb.
  destruct (head (sort_by event_leb (List.filter is_log (db_events d)))) as [x|] eqn:E.
  - intros [= <-]. apply sort_by_head in E as [E Hmin]; [|apply event_leb_total|apply lex3_trans].
    apply list_elem_of_In, List.filter_In in E as [E El]. split; [by apply list_elem_of_In|]. rewrite El.
    intros y Hy. destruct (is_log y) eqn:Ey; [|done]. apply Hmin, list_elem_of_In, List.filter_In.
    by rewrite <- list_elem_of_In.
  - apply head_sort_by_None in E. intros Hh.
    apply sort_by_head in Hh as [Hh Hmin]; [|apply event_leb_total|apply lex3_trans].
    assert (∀ y, y ∈ db_events d → is_log y = false) as Hno.
    { intros y Hy. destruct (is_log y) eqn:El; [|done].
      assert (y ∈ List.filter is_log (db_events d)) as Hin
        by (apply list_elem_of_In, List.filter_In; by rewrite <- list_elem_of_In).
      rewrite E in Hin. by apply not_elem_of_nil in Hin. }
    split; [done|]. intros y Hy. rewrite (Hno e Hh), (Hno y Hy). by apply Hmin.
Qed.

Lemma oldest_event_None d : oldest_event d = None → db_events d = [].
Proof. unfold oldest_event. case_match; [done|]. apply head_sort_by_None. Qed.

Lemma delete_shorter e d :
  e ∈ db_events d → (length (db_events (delete_events (is_event (e_id e)) d)) < length (db_events d))%nat.
Proof.
  unfold delete_events. cbn [db_events with_events]. intros He. induction (db_events d) as [|x l IH].
  { by apply not_elem_of_nil in He. }
  assert (length (List.filter (λ y, negb (is_event (e_id e) y)) l) <= length l)%nat as Hle
    by (apply (count_rows_le (λ y, negb (is_event (e_id e) y)))).
  cbn [List.filter length]. apply elem_of_cons in He as [->|He].
  - unfold is_event at 1, ustr_eqb. rewrite bool_decide_true by done. cbn [negb]. lia.
  - specialize (IH He). destruct (negb _); cbn [length]; lia.
Qed.

Lemma filter_every {A} (p : A → bool) l : (∀ x, In x l → p x = true) → List.filter p l = l.
Proof. intros H. induction l as [|x l IH]; [done|]. cbn. rewrite H by (by left). f_equal. apply IH. intros y Hy. apply H. by right. Qed.

Lemma from_event_le e d : event_bytes (from_event e d) <= event_bytes d.
Proof.
  unfold event_bytes. destruct (delete_events_thinned (λ x, negb (prune_leb e x)) d) as (es & He & _ & Hs).
  unfold from_event. rewrite He. cbn [db_events with_events]. by apply inj_le, sublist_sum.
Qed.

Lemma from_event_all e d :
  (∀ x, x ∈ db_events d → prune_leb e x = true) → event_bytes (from_event e d) = event_bytes d.
Proof.
  intros H. unfold from_event, delete_events, event_bytes. cbn [db_events with_events].
  rewrite filter_every; [done|]. intros x Hx%list_elem_of_In. by rewrite H.
Qed.

Lemma from_event_delete e e0 d :
  (∀ x, x ∈ db_events d → e_id x = e_id e0 → prune_leb e x = false) →
  event_bytes (from_event e (delete_events (is_event (e_id e0)) d)) = event_bytes (from_event e d).
Proof.
  intros H. unfold from_event, delete_events, event_bytes. cbn [db_events with_events].
  do 3 f_equal. induction (db_events d) as [|x l IH]; [done|]. cbn [List.filter].
  assert (∀ x, x ∈ l → e_id x = e_id e0 → prune_leb e x = false) as Hl by (intros; apply H; [by right|done]).
  specialize (IH Hl). unfold is_event at 1, ustr_eqb. destruct (decide (e_id x = e_id e0)) as [E|E].
  - rewrite bool_decide_true by done. cbn [negb]. rewrite (H x) by (done || by left). done.
  - rewrite bool_decide_false by done. cbn [negb List.filter]. destruct (prune_leb e x); cbn [negb]; congruence.
Qed.

(** Rows of one spool with the same identifier, or with the same attempt and number, are one row. *)
Lemma event_unique {A} (f : event_row → A) d x y :
  NoDup (f <$> db_events d) → x ∈ db_events d → y ∈ db_events d → f x = f y → x = y.
Proof.
  intros Hn [i Hi]%list_elem_of_lookup [j Hj]%list_elem_of_lookup E.
  assert (i = j) as ->; [|congruence].
  apply (NoDup_lookup _ i j (f y) Hn); rewrite list_lookup_fmap; [rewrite Hi|by rewrite Hj]. cbn. by rewrite E.
Qed.

Lemma delete_one e d :
  NoDup (e_id <$> db_events d) → e ∈ db_events d →
  S (length (db_events (delete_events (is_event (e_id e)) d))) = length (db_events d).
Proof.
  unfold delete_events. cbn [db_events with_events].
  induction (db_events d) as [|x l IH]; [by intros _ ?%not_elem_of_nil|].
  cbn [fmap list_fmap List.filter length]. intros [Hx Hn]%NoDup_cons He. unfold is_event at 1, ustr_eqb.
  destruct (decide (e_id x = e_id e)) as [E|E].
  - rewrite bool_decide_true by done. cbn [negb]. f_equal.
    rewrite filter_every; [done|]. intros y Hy%list_elem_of_In. unfold is_event, ustr_eqb.
    rewrite bool_decide_false; [done|]. intros E'. apply Hx. rewrite E, <- E'. by apply list_elem_of_fmap_2.
  - rewrite bool_decide_false by done. cbn [negb length]. f_equal. apply IH; [done|].
    apply elem_of_cons in He as [->|He]; done.
Qed.

(** What is not the first to go comes after it. *)
Lemma after_min d e x :
  spool_inv d → e ∈ db_events d → x ∈ db_events d → (∀ y, y ∈ db_events d → prune_leb e y = true) →
  e_id x ≠ e_id e → ∀ y, y ∈ db_events d → e_id y = e_id e → prune_leb x y = false.
Proof.
  intros Hd He Hx Hmin Hne y Hy E. apply (event_unique e_id d) in E as ->; [|apply Hd|done..].
  destruct (prune_leb x e) eqn:El; [|done]. destruct Hne. f_equal.
  destruct (prune_leb_antisym x e El (Hmin x Hx)) as [Ea Es].
  apply (event_unique (λ e, (e_attempt_id e, e_seq e)) d); [apply Hd|done|done|congruence].
Qed.

(** The loop ends within its fuel, under the limit, and keeps exactly the
    events that fit the limit together with everything that comes after them
    in the order of giving up. *)
Lemma prune_size_run fuel max n d :
  (length (db_events d) < fuel)%nat →
  ∃ m d', prune_size fuel max n d = (Ok (Some m), d') ∧ thinned d d' ∧
    (event_bytes d' <= max ∨ db_events d' = []) ∧
    (spool_inv d → (m + length (db_events d') = n + length (db_events d))%nat ∧
     ∀ e, e ∈ db_events d' ↔ e ∈ db_events d ∧ event_bytes (from_event e d) <= max).
Proof.
  revert n d. induction fuel as [|fuel IH]; intros n d Hl; [lia|]. cbn [prune_size]. munfold.
  destruct (max <? event_bytes d) eqn:Eo.
  2:{ exists n, d. split_and!; [done|apply thinned_refl|left; lia|]. intros _. split; [done|].
      intros e. pose proof (from_event_le e d). split; [|tauto]. split; [done|lia]. }
  destruct (oldest_event d) as [e|] eqn:Ee.
  2:{ exists n, d. apply oldest_event_None in Ee. split_and!; [done|apply thinned_refl|by right|].
      intros _. split; [done|]. intros x. rewrite Ee. split; [by intros ?%not_elem_of_nil|by intros [?%not_elem_of_nil _]]. }
  destruct (oldest_event_Some _ _ Ee) as [He Hmin].
  destruct (IH (S n) (delete_events (is_event (e_id e)) d)) as (m & d' & Hr & Ht & Hb & Hk).
  { pose proof (delete_shorter _ _ He). lia. }
  pose proof (delete_events_thinned (is_event (e_id e)) d) as Ht0.
  exists m, d'. split_and!; [done|eapply thinned_trans; [apply Ht0|done]|done|].
  intros Hd. destruct (Hk (thinned_inv _ _ Ht0 Hd)) as [Hm Hel].
  split; [pose proof (delete_one e d (sp_ids _ Hd) He); lia|].
  intros x. rewrite Hel, elem_delete_events. unfold is_event at 1, ustr_eqb. rewrite bool_decide_eq_false.
  split; [intros [[Hx Hne] Hs]|intros [Hx Hs]].
  - split; [done|]. by rewrite from_event_delete in Hs by (apply after_min; done).
  - assert (e_id x ≠ e_id e) as Hne.
    { intros E. apply (event_unique e_id d) in E as ->; [|apply Hd|done..].
      rewrite from_event_all in Hs by done. lia. }
    split; [done|]. by rewrite from_event_delete by (apply after_min; done).
Qed.

(** * Lemmas: pruning and appending *)

Lemma prune_run cfg now d :
  match add_time now (- days (ob_retention_days cfg)) with
  | Err e => prune cfg now d = (Err e, d)
  | Ok c => let young := delete_events (old_event (format_datetime c) d) d in
      ∃ n d', prune cfg now d = (Ok n, d') ∧ thinned d d' ∧
      (event_bytes d' <= ob_max_bytes cfg ∨ db_events d' = []) ∧
      (spool_inv d → (n + length (db_events d') = length (db_events d))%nat ∧
       ∀ e, e ∈ db_events d' ↔ e ∈ db_events young ∧ event_bytes (from_event e young) <= ob_max_bytes cfg)
  end.
Proof.
  unfold prune. munfold. destruct (add_time _ _) as [c|e]; [|done]. cbv zeta.
  set (old := old_event (format_datetime c) d).
  destruct (prune_size_run (S (length (db_events (delete_events old d)))) (ob_max_bytes cfg)
    (count_rows old (db_events d)) (delete_events old d) ltac:(lia)) as (m & d' & Hr & Ht & Hb & Hk).
  rewrite Hr. exists m, d'. pose proof (delete_events_thinned old d) as Ht0.
  split_and!; [done|by eapply thinned_trans|done|]. intros Hd.
  destruct (Hk (thinned_inv _ _ Ht0 Hd)) as [Hm Hel]. split; [|done].
  rewrite Hm. unfold count_rows, delete_events. cbn [db_events with_events].
  rewrite <- (List.filter_length old (db_events d)). done.
Qed.

Lemma prune_thinned cfg now d : thinned d (prune cfg now d).2.
Proof.
  pose proof (prune_run cfg now d) as H. destruct (add_time _ _).
  - by destruct H as (n & d' & -> & Ht & _).
  - rewrite H. apply thinned_refl.
Qed.

Lemma insert_event_Ok r d d' :
  insert_event r d = Ok d' →
  d' = with_events d (db_events d ++ [r]) ∧ e_id r ∉ e_id <$> db_events d ∧
  (∀ e, e ∈ db_events d → (e_attempt_id e, e_seq e) ≠ (e_attempt_id r, e_seq r)) ∧
  0 <= e_seq r ∧ e_attempt_id r ∈ r_attempt_id <$> db_jobs d.
Proof.
  unfold insert_event. intros H.
  apply fail_if_bind_Ok in H as [H1 H]. apply fail_if_bind_Ok in H as [H2 H].
  apply fail_if_bind_Ok in H as [H3 H]. apply fail_if_bind_Ok in H as [H4 H]. injection H as <-.
  apply bool_decide_eq_false in H1. apply negb_false_iff, bool_decide_eq_true in H4.
  split_and!; [done|done| |lia|done].
  intros e He [= Ea Es]. assert (existsb (λ r', ustr_eqb (e_attempt_id r') (e_attempt_id r) && (e_seq r' =? e_seq r)) (db_events d) = true); [|congruence].
  apply existsb_exists. exists e. split; [by apply list_elem_of_In|]. rewrite Ea, Es.
  unfold ustr_eqb. rewrite bool_decide_true by done. cbn. lia.
Qed.

Lemma append_insert_run now e a n d :
  match append_insert now e a n d with
  | (Ok true, d') => ∃ text, to_json e = Ok text ∧ find_event a n d = None ∧
                     insert_event (event_of e a n text now) d = Ok d'
  | (Ok false, d') => d' = d ∧ ∃ row, find_event a n d = Some row ∧ to_json e = Ok (e_envelope_json row)
  | (Err _, d') => d' = d
  end.
Proof.
  unfold append_insert. munfold. destruct (find_event a n d) as [row|] eqn:Ef.
  - destruct (to_json e) as [text|]; [|done]. unfold ustr_eqb.
    destruct (bool_decide (e_envelope_json row = text)) eqn:E; cbn; [|done].
    apply bool_decide_eq_true in E as <-. split; [done|]. by exists row.
  - destruct (to_json e) as [text|]; [|done]. cbn. destruct (insert_event _ d) eqn:Ei; [|done].
    by exists text.
Qed.

Lemma cursor_find now a n d b :
  unique_attempts d →
  find_row b (append_cursor now a n d).2 =
    match find_row b d with
    | Some r => Some (if is_attempt a r then cursor_row n (format_datetime now) r else r)
    | None => None
    end.
Proof.
  intros Hu. unfold append_cursor. cbn [modify snd].
  rewrite <- (lookup_entries (with_jobs _ _)) by (by apply update_unique).
  rewrite entries_update, lookup_fmap, lookup_entries by done. by destruct (find_row b d).
Qed.

Lemma spool_inv_append now e a n text d d' :
  insert_event (event_of e a n text now) d = Ok d' → spool_inv d → spool_inv (append_cursor now a n d').2.
Proof.
  intros (-> & Hid & Hpair & Hn & Ha)%insert_event_Ok [Hu Hc Hi Hp Hs].
  cbn [event_of e_id e_attempt_id e_seq] in *.
  set (d1 := with_events d _). assert (unique_attempts d1) as Hu1 by done.
  split.
  - by apply update_unique.
  - unfold append_cursor. cbn [modify snd db_jobs with_jobs]. rewrite Forall_forall in *.
    intros x [[Hx _]|(y & Hy & _ & ->)]%elem_of_update; [by apply Hc|]. cbn. specialize (Hc _ Hy). cbn in Hc. lia.
  - unfold append_cursor. cbn [modify snd db_events with_jobs d1 with_events]. rewrite fmap_app.
    apply NoDup_app. split_and!; [done| |apply NoDup_singleton]. by intros x Hx ->%list_elem_of_singleton.
  - unfold append_cursor. cbn [modify snd db_events with_jobs d1 with_events]. rewrite fmap_app.
    apply NoDup_app. split_and!; [done| |apply NoDup_singleton].
    intros x (y & -> & Hy)%list_elem_of_fmap Hx%list_elem_of_singleton. by apply (Hpair y).
  - apply Forall_app. split.
    + eapply List.Forall_impl; [|exact Hs]. intros x (r & Hr & Hle). rewrite cursor_find by done.
      change (find_row (e_attempt_id x) d1) with (find_row (e_attempt_id x) d). rewrite Hr.
      eexists. split; [done|]. destruct (is_attempt a r); cbn; lia.
    + constructor; [|constructor]. cbn [e_attempt_id e_seq event_of].
      apply list_elem_of_fmap in Ha as (r & -> & Hr). rewrite cursor_find by done.
      change (find_row (r_attempt_id r) d1) with (find_row (r_attempt_id r) d). rewrite find_row_elem by done.
      eexists. split; [done|]. rewrite (proj2 (is_attempt_spec _ _) eq_refl). cbn. lia.
Qed.

Lemma append_inv cfg now e d : spool_inv d → spool_inv (append cfg now e d).2.
Proof.
  intros Hd. unfold append. destruct (env_attempt_id e) as [a|], (env_seq e) as [n|]; try done.
  munfold. pose proof (append_insert_run now e a n d) as H.
  destruct (append_insert now e a n d) as [[[]|x] d']; [|by destruct H as [-> _]|by subst].
  destruct H as (text & _ & _ & Hins). pose proof (spool_inv_append _ _ _ _ _ _ _ Hins Hd) as H1.
  change (append_cursor now a n d') with (Ok (A := ()) (), (append_cursor now a n d').2). cbn.
  pose proof (prune_thinned cfg now (append_cursor now a n d').2) as Ht. cbn [append_cursor modify snd] in Ht.
  destruct (prune _ _ _) as [[]]; by eapply thinned_inv.
Qed.

(** An event beyond every stored one of its attempt. *)
Lemma fresh_seq d a n : spool_inv d → (next_seq a d).1 = Ok n → find_event a n d = None ∧ 0 < n.
Proof.
  intros [Hu Hc Hi Hp Hs]. unfold next_seq. munfold. destruct (find_row a d) as [r|] eqn:Ef; [|done].
  intros [= <-]. destruct (find_row_Some _ _ _ Ef) as [_ Hr]. rewrite Forall_forall in Hc. rewrite Forall_forall in Hs.
  specialize (Hc _ Hr). cbn in Hc. split; [|lia]. unfold find_event.
  rewrite filter_false; [done|]. rewrite Forall_forall. intros e He. destruct (Hs e He) as (r' & Hf & Hle).
  apply not_true_iff_false. intros [Ea%bool_decide_eq_true En]%andb_true_iff. rewrite Ea, Ef in Hf.
  injection Hf as <-. lia.
Qed.

Lemma append_advances cfg now e a n d d' :
  spool_inv d → env_attempt_id e = Some a → env_seq e = Some n → (next_seq a d).1 = Ok n →
  append cfg now e d = (Ok (), d') → (next_seq a d').1 = Ok (n + 1).
Proof.
  intros Hd Ha Hn Hseq. pose proof (fresh_seq d a n Hd Hseq) as [Hfresh _]. unfold append. rewrite Ha, Hn. munfold.
  pose proof (append_insert_run now e a n d) as H.
  destruct (append_insert now e a n d) as [[[]|x] d1]; [| |done].
  2:{ destruct H as (_ & row & Hrow & _). congruence. }
  destruct H as (text & _ & _ & Hins).
  change (append_cursor now a n d1) with (Ok (A := ()) (), (append_cursor now a n d1).2). cbn.
  pose proof (prune_thinned cfg now (append_cursor now a n d1).2) as Ht. cbn [append_cursor modify snd] in Ht.
  destruct (prune _ _ _) as [[m|x] d2]; [|done]. cbn [snd] in Ht. intros [= <-].
  unfold next_seq in *. munfold. rewrite (thinned_find a _ _ Ht).
  change (with_jobs d1 _) with (append_cursor now a n d1).2.
  apply insert_event_Ok in Hins as (-> & _ & _ & _ & _).
  rewrite cursor_find by apply Hd. change (find_row a (with_events d _)) with (find_row a d).
  destruct (find_row a d) as [r|] eqn:Ef; [|done]. destruct (find_row_Some _ _ _ Ef) as [Hra _].
  rewrite (proj2 (is_attempt_spec _ _) Hra). cbn in *. injection Hseq as <-. f_equal. lia.
Qed.

Lemma next_seq_pure a d : (next_seq a d).2 = d.
Proof. unfold next_seq. munfold. by destruct (find_row a d). Qed.

#[export] Program Instance outbox_spool_laws (cfg : outbox_config) : EventSpoolLaws db (H := outbox_spool cfg) := {
  spool_ok := spool_inv;
}.
Next Obligation. intros cfg a s. apply next_seq_pure. Qed.
Next Obligation. intros cfg a s n Hs Hn. exact (proj2 (fresh_seq s a n Hs Hn)). Qed.
Next Obligation. intros cfg now e s Hs. by apply append_inv. Qed.
Next Obligation. intros cfg now e a n s s' H1 H2 H3 H4 H5. exact (append_advances cfg now e a n s s' H1 H2 H3 H4 H5). Qed.
