(* ===== verification/Spool.v ===== *)
(** Properties of the event outbox: replay after a reconnect, acknowledgement,
    the size and age limits, repeated appends and the window between the two
    commits of an append. *)

From S2P Require Import Prelude PyStr Dict Json Clock Uuid Protocol Db Store StoreRun StoreInv Outbox OutboxProofs.

Local Open Scope Z_scope.

(** [row] holds the printed form of [e], under its attempt and number. *)
Record row_prints (e : Envelope) (row : event_row) : Prop := RowPrints {
  rp_text : to_json e = Ok (e_envelope_json row);
  rp_ok : envelope_ok e;
  rp_attempt : env_attempt_id e = Some (e_attempt_id row);
  rp_seq : env_seq e = Some (e_seq row);
}.

(** The validator's window at [now]: five minutes to either side. *)
Definition in_window (now t : instant) : bool :=
  (now - MAX_TIMESTAMP_SKEW <=? t) && (t <=? now + MAX_TIMESTAMP_SKEW).

(** The instant named by the timestamp of the envelope a row holds. *)
Definition row_instant (row : event_row) : option instant :=
  match loads_dict (e_envelope_json row) with
  | Ok d => match dget (u "ts") d with
            | Some (JStr ts) => match parse_timestamp ts with Ok t => Some t | Err _ => None end
            | _ => None
            end
  | Err _ => None
  end.

Definition row_in_window (now : instant) (row : event_row) : bool :=
  match row_instant row with Some t => in_window now t | None => false end.

(** * Lemmas: what is stored decodes to what was appended *)

Lemma to_json_text e text : to_json e = Ok text → text = dumps (compact true) (JObj (to_dict e)).
Proof.
  unfold to_json. intros (n & _ & H)%result_bind_Ok_inv.
  destruct (MAX_FRAME_BYTES <? n)%N; [done|]. congruence.
Qed.

Lemma loads_dict_printed e row :
  row_prints e row → loads_dict (e_envelope_json row) = Ok (sorted_payload (to_dict e)).
Proof.
  intros [Ht Hok _ _]. apply to_json_text in Ht. rewrite Ht. unfold loads_dict.
  rewrite loads_dumps_style by (done || apply compact_ok). by rewrite json_norm_obj.
Qed.

Lemma dget_printed_dict e k :
  dget k (sorted_payload (to_dict e)) = json_norm true <$> envelope_field e k.
Proof. rewrite dget_sorted_payload by apply to_dict_NoDup. by rewrite dget_to_dict. Qed.

Lemma reprinted e row :
  row_prints e row →
  dumps (compact false) (JObj (dsetdefault (u "engine_id") (JStr ZERO_ENGINE_ID) (sorted_payload (to_dict e))))
    = e_envelope_json row.
Proof.
  intros [Ht _ _ _]. apply to_json_text in Ht. rewrite Ht. unfold dsetdefault.
  assert (dmem (u "engine_id") (sorted_payload (to_dict e)) = true) as ->.
  { apply dmem_spec. rewrite dget_printed_dict. by eexists. }
  change (JObj (sorted_payload (to_dict e))) with (JObj (map (λ kv, (kv.1, json_norm true kv.2)) (printed true (to_dict e)))).
  rewrite <- json_norm_obj. apply dumps_norm.
Qed.

Lemma filter_replay_printed cursors rows :
  Forall (λ row, ∃ e, row_prints e row) rows →
  filter_replay cursors rows =
    Ok (List.filter (λ row, cursor_of (e_attempt_id row) cursors <? e_seq row) rows).
Proof.
  induction 1 as [|row rows (e & He) _ IH]; [done|]. cbn [filter_replay List.filter].
  rewrite (loads_dict_printed _ _ He). munfold. unfold row_seq.
  rewrite !dget_printed_dict, IH.
  change (envelope_field e (u "seq")) with (JInt <$> env_seq e). rewrite (rp_seq _ _ He).
  change (envelope_field e (u "attempt_id")) with (JStr <$> env_attempt_id e). rewrite (rp_attempt _ _ He).
  cbn. by destruct (_ <? _).
Qed.

Lemma replay_row_decode now cursors e row :
  row_prints e row → cursor_of (e_attempt_id row) cursors <? e_seq row = true →
  wire_contract now OUTBOUND_MESSAGE_TYPES (to_dict e) →
  replay_row now cursors row = Ok (Some (normalised e)).
Proof.
  intros He Hc Hw. unfold replay_row. rewrite (loads_dict_printed _ _ He). munfold. cbv zeta.
  rewrite (reprinted _ _ He).
  rewrite (decode_encode now (Some OUTBOUND_MESSAGE_TYPES) e (e_envelope_json row) _ Hw (rp_ok _ _ He) (rp_text _ _ He))
    by (by left).
  cbn [normalised env_attempt_id env_seq]. by rewrite (rp_attempt _ _ He), (rp_seq _ _ He), Hc.
Qed.

(** A computation that ends in [ProtocolError]. *)
Definition refused {A} (r : result A) : Prop := ∃ m, r = Err (protocol_error m).

Lemma refused_bind {A B} (m : result A) (f : A → result B) :
  (∀ e, m = Err e → ∃ x, e = protocol_error x) → (∀ a, m = Ok a → refused (f a)) → refused (m ≫= f).
Proof. unfold refused. munfold. destruct m as [a|e]; [eauto|]. intros H _. destruct (H e eq_refl) as [x ->]. eauto. Qed.

Lemma fail_if_refuses b m e : fail_if b (protocol_error m) = Err e → ∃ x, e = protocol_error x.
Proof. destruct b; intros [= <-]. eauto. Qed.

(** A timestamp outside the window is refused before the payload is looked at. *)
Lemma validate_stale now allowed d ts t :
  dget (u "ts") d = Some (JStr ts) → names_instant ts t → in_window now t = false →
  refused (validate_envelope now allowed (JObj d)).
Proof.
  intros Hd Ht%parse_timestamp_Ok Hlt. unfold validate_envelope. cbv zeta.
  do 3 (apply refused_bind; [intros e; apply fail_if_refuses|intros _ _]).
  apply refused_bind; [intros e; apply require_uuid_err|intros _ _].
  apply refused_bind; [intros e; case_match; intros; simplify_eq; eauto|intros ty _].
  apply refused_bind; [intros e; apply fail_if_refuses|intros _ _].
  rewrite (field_Some _ _ _ Hd). munfold. rewrite Ht.
  assert ((t <? now - MAX_TIMESTAMP_SKEW) || (now + MAX_TIMESTAMP_SKEW <? t) = true) as ->
    by (unfold in_window in Hlt; lia).
  by eexists.
Qed.

Lemma replay_row_stale now cursors e row t :
  row_prints e row → names_instant (env_ts e) t → in_window now t = false →
  replay_row now cursors row = Ok None.
Proof.
  intros He Ht Hlt. unfold replay_row. rewrite (loads_dict_printed _ _ He). munfold. cbv zeta.
  rewrite (reprinted _ _ He). pose proof (rp_text _ _ He) as Htext. unfold to_json in Htext.
  apply result_bind_Ok_inv in Htext as (n & Hn & Htext).
  destruct (MAX_FRAME_BYTES <? n)%N eqn:En; [done|].
  assert (dumps (compact true) (JObj (to_dict e)) = e_envelope_json row) as E by congruence. rewrite E in Hn.
  rewrite (decode_frame_text _ _ (e_envelope_json row) _ n) by (by left || done || lia). rewrite <- E.
  rewrite loads_dumps_style by (apply compact_ok || apply He). rewrite json_norm_obj. munfold.
  unfold envelope_from_mapping. munfold.
  destruct (validate_stale now (Some OUTBOUND_MESSAGE_TYPES) (sorted_payload (to_dict e)) (env_ts e) t) as [m Hm];
    [by rewrite dget_printed_dict|done|done|].
  unfold sorted_payload in Hm. cbn [compact sort_keys]. by rewrite Hm.
Qed.

Lemma row_in_window_printed now e row t :
  row_prints e row → names_instant (env_ts e) t → row_in_window now row = in_window now t.
Proof.
  intros He Ht%parse_timestamp_Ok. unfold row_in_window, row_instant.
  rewrite (loads_dict_printed _ _ He), dget_printed_dict.
  change (envelope_field e (u "ts")) with (Some (JStr (env_ts e))). cbn [fmap option_fmap option_map json_norm].
  by rewrite Ht.
Qed.

(** The contract depends on the clock through the window only. *)
Lemma wire_contract_at t0 now allowed e :
  wire_contract t0 allowed (to_dict e) →
  ∃ t, names_instant (env_ts e) t ∧ (in_window now t = true → wire_contract now allowed (to_dict e)).
Proof.
  intros [H1 H2 H3 (ts & t & Hts & Ht & _) H4 H5 H6 H7 H8].
  rewrite dget_to_dict in Hts. injection Hts as <-. exists t. split; [done|].
  intros Hw. split; try done. exists (env_ts e), t. rewrite dget_to_dict. split_and!; [done|done|..];
    unfold in_window in Hw; lia.
Qed.

(** * Properties *)

(** C9: let each spooled event have met the wire contract at some time, as
    every appended one did.  After a reconnect the outbox then replays, in
    spool order, exactly the events after the backend's cursors whose
    timestamp lies within five minutes of the clock, each equal to what was
    appended (with its payload's members in key order); the other events are
    passed over without an error, and the spool is not changed. *)
Theorem replay_exact now cursors d :
  Forall (λ row, ∃ e t0, row_prints e row ∧ wire_contract t0 OUTBOUND_MESSAGE_TYPES (to_dict e)) (db_events d) →
  ∃ es, replay_after now cursors d = (Ok es, d) ∧
    Forall2 (λ row e', ∃ e, row_prints e row ∧ e' = normalised e)
      (List.filter (λ row, (cursor_of (e_attempt_id row) cursors <? e_seq row) && row_in_window now row)
         (sort_by event_leb (db_events d))) es.
Proof.
  intros H. rewrite <- (sort_by_perm event_leb) in H. unfold replay_after. munfold.
  rewrite filter_replay_printed by (eapply List.Forall_impl; [|exact H]; intros row (e & t0 & He & _); eauto).
  generalize dependent (sort_by event_leb (db_events d)). intros rows H.
  assert (∃ es, replay_rows now cursors
    (List.filter (λ row, cursor_of (e_attempt_id row) cursors <? e_seq row) rows) = Ok es ∧
    Forall2 (λ row e', ∃ e, row_prints e row ∧ e' = normalised e)
      (List.filter (λ row, (cursor_of (e_attempt_id row) cursors <? e_seq row) && row_in_window now row) rows) es)
    as (es & -> & Hes); [|by exists es].
  induction H as [|row rows (e & t0 & He & Hw) _ (es & IH & IHf)]; cbn [List.filter]; [by exists []|].
  destruct (cursor_of _ _ <? e_seq row) eqn:E; [|by exists es]. cbn [andb].
  destruct (wire_contract_at t0 now _ e Hw) as (t & Ht & Hnow).
  rewrite (row_in_window_printed now e row t) by done. cbn [replay_rows].
  destruct (in_window now t) eqn:Ew.
  - exists (normalised e :: es). rewrite (replay_row_decode _ _ e) by auto. munfold.
    rewrite IH. split; [done|]. constructor; [by exists e|done].
  - exists es. rewrite (replay_row_stale now cursors e row t) by done. munfold. by rewrite IH.
Qed.

(** An event whose timestamp is more than five minutes behind the clock
    is never replayed: when every spooled event is that old (an outage longer
    than five minutes), the replay is empty whatever the backend's cursors,
    although the rows stay in the spool. *)
Theorem replay_drops_old_events now cursors d :
  Forall (λ row, ∃ e t, row_prints e row ∧ names_instant (env_ts e) t ∧ t < now - MAX_TIMESTAMP_SKEW) (db_events d) →
  replay_after now cursors d = (Ok [], d).
Proof.
  intros H. rewrite <- (sort_by_perm event_leb) in H. unfold replay_after. munfold.
  rewrite filter_replay_printed by (eapply List.Forall_impl; [|exact H]; intros row (e & t & He & _); eauto).
  generalize dependent (sort_by event_leb (db_events d)). intros rows H.
  assert (replay_rows now cursors
    (List.filter (λ row, cursor_of (e_attempt_id row) cursors <? e_seq row) rows) = Ok []) as ->; [|done].
  induction H as [|row rows (e & t & He & Ht & Hlt) _ IH]; cbn [List.filter]; [done|].
  destruct (_ <? _); [|done]. cbn [replay_rows]. rewrite (replay_row_stale now cursors e row t)
    by (done || unfold in_window; lia).
  munfold. by rewrite IH.
Qed.

(** Appending an event under the next sequence number of its attempt
    succeeds when its text fits a frame and its identifier is new, keeps the
    spool's invariant, and moves the next sequence number on by one. *)
Theorem append_next_event cfg now e a n text c d :
  spool_inv d → env_attempt_id e = Some a → env_seq e = Some n → (next_seq a d).1 = Ok n →
  to_json e = Ok text → env_id e ∉ e_id <$> db_events d →
  add_time now (- days (ob_retention_days cfg)) = Ok c →
  let '(res, d') := append cfg now e d in
  res = Ok () ∧ spool_inv d' ∧ (next_seq a d').1 = Ok (n + 1).
Proof.
  intros Hd Ha Hn Hseq Ht Hid Hc. destruct (append cfg now e d) as [res d'] eqn:E.
  assert (spool_inv d') as Hd' by (pose proof (append_inv cfg now e d Hd) as H; by rewrite E in H).
  enough (res = Ok ()) as -> by (split_and!; [done|done|exact (append_advances cfg now e a n d d' Hd Ha Hn Hseq E)]).
  destruct (fresh_seq d a n Hd Hseq) as [Hfresh Hpos].
  assert (insert_event (event_of e a n text now) d = Ok (with_events d (db_events d ++ [event_of e a n text now]))) as Hi.
  { unfold insert_event, mem_str. cbn [e_id e_attempt_id e_seq event_of]. rewrite (bool_decide_false (env_id e ∈ e_id <$> db_events d)) by done.
    assert (existsb (λ r', ustr_eqb (e_attempt_id r') a && (e_seq r' =? n)) (db_events d) = false) as ->.
    { unfold find_event in Hfresh. apply not_true_iff_false. intros (x & Hx & Hp)%existsb_exists.
      assert (x ∈ List.filter (λ e, ustr_eqb (e_attempt_id e) a && (e_seq e =? n)) (db_events d)) as Hin
        by (by apply list_elem_of_In, List.filter_In).
      destruct (List.filter _ _); [by apply not_elem_of_nil in Hin|done]. }
    assert ((n <? 0) = false) as -> by lia. rewrite bool_decide_true; [done|].
    unfold next_seq, mbind, M_bind, gets in Hseq. destruct (find_row a d) as [r|] eqn:Ef; [|done].
    destruct (find_row_Some _ _ _ Ef) as [<- Hr]. by apply list_elem_of_fmap_2. }
  revert E. unfold append. rewrite Ha, Hn. munfold.
  unfold append_insert. munfold. rewrite Hfresh, Ht. cbn.
  rewrite Hi.
  cbn. pose proof (prune_run cfg now (append_cursor now a n (with_events d (db_events d ++ [event_of e a n text now]))).2) as Hp.
  rewrite Hc in Hp. destruct Hp as (k & d2 & Hp & _).
  destruct (prune cfg now _) as [[k'|x] d3] eqn:Ep; [by intros [= <- _]|].
  done.
Qed.

(** An append that is repeated after it was stored (the same envelope
    again, as a retry sends it) changes nothing. *)
Theorem append_repeated cfg now e a n row d :
  env_attempt_id e = Some a → env_seq e = Some n → find_event a n d = Some row →
  to_json e = Ok (e_envelope_json row) →
  append cfg now e d = (Ok (), d).
Proof.
  intros Ha Hn Hf Ht. unfold append. rewrite Ha, Hn. munfold. unfold append_insert. munfold.
  rewrite Hf, Ht. unfold ustr_eqb. by rewrite bool_decide_true.
Qed.

(** An append is two commits. When the process stops after the first one,
    the event is stored but its number was not taken: the next event of the
    attempt gets the same number and is refused as conflicting, and so is
    every later one. *)
Theorem append_crash_window cfg now now' e e' a n d d' text' :
  spool_inv d → env_attempt_id e = Some a → env_seq e = Some n → (next_seq a d).1 = Ok n →
  append_insert now e a n d = (Ok true, d') →
  env_attempt_id e' = Some a → env_seq e' = Some n → to_json e' = Ok text' → to_json e ≠ Ok text' →
  (next_seq a d').1 = Ok n ∧
  append cfg now' e' d' = (Err (queue_error (u "Conflicting event reused an attempt sequence")), d').
Proof.
  intros Hd Ha Hn Hseq Hins Ha' Hn' Ht' Hne. destruct (fresh_seq d a n Hd Hseq) as [Hfresh _].
  pose proof (append_insert_run now e a n d) as H. rewrite Hins in H.
  destruct H as (text & Ht & _ & (-> & _)%insert_event_Ok). split.
  { rewrite <- Hseq. unfold next_seq. munfold. change (find_row a (with_events d _)) with (find_row a d).
    by destruct (find_row a d). }
  unfold append. rewrite Ha', Hn'. munfold. unfold append_insert. munfold.
  assert (find_event a n (with_events d (db_events d ++ [event_of e a n text now])) = Some (event_of e a n text now)) as ->.
  { unfold find_event in *. cbn [db_events with_events]. rewrite List.filter_app.
    destruct (List.filter _ (db_events d)); [|done]. cbn. unfold ustr_eqb.
    by rewrite bool_decide_true, Z.eqb_refl. }
  rewrite Ht'. cbn. unfold ustr_eqb. rewrite bool_decide_false; [done|]. intros <-. congruence.
Qed.

(** C40: with a retention period that dates can express, pruning ends and does
    not raise.  It removes every event of a terminal attempt that is older than
    that period, and gives up the others in one
    order, log events before the rest and the oldest first, only as long as
    the spool is over its size limit: an event is kept exactly when it is not
    that old and fits the limit together with everything that comes after it
    in that order.  It reports the number of removed events and leaves the
    attempts alone. *)
Theorem prune_limits cfg now c d :
  spool_inv d → add_time now (- days (ob_retention_days cfg)) = Ok c →
  let young := delete_events (old_event (format_datetime c) d) d in
  let '(res, d') := prune cfg now d in
  spool_inv d' ∧ db_jobs d' = db_jobs d ∧
  (event_bytes d' <= ob_max_bytes cfg ∨ db_events d' = []) ∧
  (∃ k, res = Ok k ∧ (k + length (db_events d') = length (db_events d))%nat) ∧
  ∀ e, e ∈ db_events d' ↔
    e ∈ db_events d ∧ old_event (format_datetime c) d e = false ∧
    event_bytes (delete_events (λ x, negb (prune_leb e x)) young) <= ob_max_bytes cfg.
Proof.
  intros Hd Hc young. pose proof (prune_run cfg now d) as H. rewrite Hc in H.
  destruct H as (k & d' & -> & Ht & Hb & Hk). destruct (Hk Hd) as [Hn Hel].
  split_and!; [by eapply thinned_inv|by destruct (thinned_jobs _ _ Ht)|done|by eexists|].
  intros e. rewrite Hel. unfold young. rewrite elem_delete_events. unfold from_event. tauto.
Qed.

(** An acknowledgement removes exactly the attempt's events up to the
    acknowledged number, and they are not replayed any more. *)
Theorem ack_through_exact a n d :
  let '(res, d') := ack_through a n d in
  res = Ok () ∧ db_jobs d' = db_jobs d ∧
  ∀ e, e ∈ db_events d' ↔ e ∈ db_events d ∧ ¬ (e_attempt_id e = a ∧ e_seq e <= n).
Proof.
  split; [done|]. split; [done|]. intros e. rewrite elem_delete_events. unfold ustr_eqb.
  rewrite andb_false_iff, bool_decide_eq_false, Z.leb_gt.
  split; intros [He Hn]; (split; [done|]); [by intros [? ?]; destruct Hn; [|lia]|].
  destruct (decide (e_attempt_id e = a)); [right|by left]. apply Z.nle_gt. intros ?. by apply Hn.
Qed.
