(* ===== verification/System.v ===== *)
(** The queue and the outbox on one database: the two connections interleave
    call by call, and both invariants hold together in every reachable state. *)

From Stdlib Require Import Sorted.
From S2P Require Import Prelude PyStr Dict Json Clock Uuid Protocol Db Store StoreRun StoreInv Queue Outbox OutboxProofs.

Local Open Scope Z_scope.

(** * Calls on either connection *)

Inductive sys_op :=
| SysQueue (o : queue_op)
| SysAppend (cfg : outbox_config) (now : instant) (e : Envelope)
| SysAck (attempt : ustr) (last_seq : Z)
| SysPrune (cfg : outbox_config) (now : instant).

(** The outbox works on the committed database. *)
Definition on_disk {A} (m : M db A) : M store () := λ s,
  let '(r, d) := m (st_disk s) in
  (match r with Ok _ => Ok () | Err e => Err e end, Store d (st_tx s) (st_transient s) (st_open s)).

Definition run_sys (o : sys_op) : M store () :=
  match o with
  | SysQueue o => run_op o
  | SysAppend cfg now e => on_disk (append cfg now e)
  | SysAck a n => on_disk (ack_through a n)
  | SysPrune cfg now => on_disk (prune cfg now)
  end.

Definition sys_op_ok (o : sys_op) : Prop := match o with SysQueue o => op_ok o | _ => True end.

Inductive sys_reachable : store → Prop :=
| sys_new : sys_reachable (initialize (Store empty_db None [] false)).2
| sys_step s o : sys_reachable s → sys_op_ok o → sys_reachable (run_sys o s).2.

(** * Lemmas: queue methods keep the spool's invariant *)

Lemma settle_events fuel now d : db_events (settle fuel now d).1 = db_events d.
Proof.
  revert d. induction fuel as [|fuel IH]; intros d; [done|]. cbn [settle].
  destruct (next_eligible now d) as [r|]; [|done]. destruct (r_cancel_requested r); [|done]. by rewrite IH.
Qed.

Lemma insert_dlq_events r d : db_events (insert_dlq r d) = db_events d.
Proof. unfold insert_dlq. by destruct (mem_str _ _). Qed.

Lemma op_db_events o d : sublist (db_events (op_db o d)) (db_events d).
Proof.
  assert (∀ d', db_events d' = db_events d → sublist (db_events d') (db_events d)) as Heq by (by intros d' ->).
  destruct o; cbn [op_db].
  - destruct (_ ≫= _) as [[b a]|e]; [|done]. unfold enqueue_db. by destruct (find_row a d).
  - destruct (add_time _ _); [|done]. unfold settled.
    pose proof (settle_events (S (length (db_jobs d))) (format_datetime now) d) as H.
    destruct (settle _ _ d) as [d' [r|]]; by apply Heq.
  - by destruct (_ ≫= _).
  - by destruct (transition_spec _ _ _ _ _ _ _).
  - done.
  - destruct (crash_spec _ _ _ _ _); [|done]. destruct (find_row _ _); [|done]. apply Heq.
    cbn [set_row with_jobs db_events]. unfold crash_dlq. case_match; [apply insert_dlq_events|done].
  - destruct (add_time _ _); [|done]. apply sublist_filter.
Qed.

Lemma sublist_elem {A} (l l' : list A) x : sublist l l' → x ∈ l → x ∈ l'.
Proof.
  induction 1 as [|y l l' _ IH|y l l' _ IH]; [done| |]; rewrite ?elem_of_cons; [intros [->|?]; auto|auto].
Qed.

Lemma op_db_spool o d : op_ok o → db_ok d → spool_inv d → spool_inv (op_db o d).
Proof.
  intros Ho Hd [Hu Hc Hi Hp Hs]. pose proof (op_db_ok o d Ho Hd) as Hd'. pose proof (op_db_events o d) as He.
  assert (∀ r', r' ∈ db_jobs (op_db o d) → 0 <= r_sequence_cursor r' ∧
    ∀ r, find_row (r_attempt_id r') d = Some r → r_sequence_cursor r' = r_sequence_cursor r) as Hrow.
  { intros r' Hr'. pose proof (op_row_step o d (r_attempt_id r') Ho Hd) as H.
    rewrite (find_row_elem _ _ (ok_unique _ Hd') Hr') in H. destruct (find_row _ d) as [r|] eqn:Ef; cbn in H.
    - destruct (find_row_Some _ _ _ Ef) as [_ Hr]. rewrite Forall_forall in Hc. specialize (Hc _ Hr). cbn in Hc.
      rewrite (ev_cursor _ _ H). split; [done|]. by intros ? [= ->].
    - split; [lia|done]. }
  split.
  - apply Hd'.
  - rewrite Forall_forall. intros r' Hr'. by apply Hrow.
  - eapply sublist_NoDup; [exact Hi|]. by apply sublist_fmap.
  - eapply sublist_NoDup; [exact Hp|]. by apply sublist_fmap.
  - rewrite Forall_forall in *. intros e Hin. pose proof (ok_foreign _ Hd') as Hfk. rewrite Forall_forall in Hfk.
    apply Hfk in Hin as Hid. apply list_elem_of_fmap in Hid as (r' & E & Hr').
    destruct (Hs e) as (r & Hf & Hle); [by eapply sublist_elem|].
    exists r'. rewrite E, find_row_elem by (done || apply Hd'). split; [done|].
    destruct (Hrow r' Hr') as [_ H]. rewrite E in Hf. by rewrite (H _ Hf).
Qed.

(** * Lemmas: outbox calls keep the queue's invariant *)

Lemma thinned_ok d d' : thinned d d' → db_ok d → db_ok d'.
Proof.
  intros (es & -> & He & _) []. split; cbn [db_jobs db_dlq db_events with_events]; try done.
  rewrite Forall_forall in *. auto.
Qed.

Lemma cursor_db_ok now a n d : db_ok d → db_ok (append_cursor now a n d).2.
Proof.
  intros Hd. apply db_ok_update; [done| |done]. intros r _ _ []. split; try done.
Qed.

Lemma insert_event_db_ok r d d' : insert_event r d = Ok d' → db_ok d → db_ok d'.
Proof.
  intros (-> & _ & _ & _ & Ha)%insert_event_Ok []. split; cbn [db_jobs db_dlq db_events with_events]; try done.
  apply Forall_app. split; [done|]. by constructor.
Qed.

Lemma append_db_ok cfg now e d : db_ok d → db_ok (append cfg now e d).2.
Proof.
  intros Hd. unfold append. destruct (env_attempt_id e) as [a|], (env_seq e) as [n|]; try done.
  munfold. pose proof (append_insert_run now e a n d) as H.
  destruct (append_insert now e a n d) as [[[]|x] d']; [|by destruct H as [-> _]|by subst].
  destruct H as (text & _ & _ & Hins). apply (insert_event_db_ok _ _ _ Hins) in Hd.
  pose proof (cursor_db_ok now a n d' Hd) as H1.
  change (append_cursor now a n d') with (Ok (A := ()) (), (append_cursor now a n d').2). cbn.
  pose proof (prune_thinned cfg now (append_cursor now a n d').2) as Ht. cbn [append_cursor modify snd] in Ht.
  destruct (prune _ _ _) as [[]]; by eapply thinned_ok.
Qed.

Lemma on_disk_run {A} (m : M db A) s : idle s →
  idle (on_disk m s).2 ∧ st_disk (on_disk m s).2 = (m (st_disk s)).2.
Proof. intros Hi. unfold on_disk. by destruct (m (st_disk s)). Qed.

Lemma spool_inv_empty : spool_inv (initialized empty_db).
Proof. split; cbn; constructor. Qed.

Lemma sys_step_ok s o : sys_op_ok o → idle s → db_ok (st_disk s) → spool_inv (st_disk s) →
  idle (run_sys o s).2 ∧ db_ok (st_disk (run_sys o s).2) ∧ spool_inv (st_disk (run_sys o s).2).
Proof.
  intros Ho Hi Hd Hp. destruct o as [o|cfg now e|a n|cfg now]; cbn [run_sys sys_op_ok] in *.
  - destruct (runs_to_idle _ _ _ (run_op_db o s Hi (db_ok_table _ Hd) Ho)) as [Hi' ->].
    split_and!; [done|by apply op_db_ok|by apply op_db_spool].
  - destruct (on_disk_run (append cfg now e) s Hi) as [Hi' ->].
    split_and!; [done|by apply append_db_ok|by apply append_inv].
  - destruct (on_disk_run (ack_through a n) s Hi) as [Hi' ->].
    pose proof (delete_events_thinned (λ e, ustr_eqb (e_attempt_id e) a && (e_seq e <=? n)) (st_disk s)) as Ht.
    split_and!; [done|by eapply thinned_ok|by eapply thinned_inv].
  - destruct (on_disk_run (prune cfg now) s Hi) as [Hi' ->].
    pose proof (prune_thinned cfg now (st_disk s)) as Ht.
    split_and!; [done|by eapply thinned_ok|by eapply thinned_inv].
Qed.

Lemma sys_reachable_ok s : sys_reachable s → idle s ∧ db_ok (st_disk s) ∧ spool_inv (st_disk s).
Proof.
  induction 1 as [|s o Hs (Hi & Hd & Hp) Ho].
  - split_and!; [done|apply initialized_empty|apply spool_inv_empty].
  - by apply sys_step_ok.
Qed.

(** * Lemmas: appends keep the rows of the queue *)

(** What an event changes of a row: its cursor and its update time. *)
Definition same_job (r r' : job_row) : Prop :=
  r_build_job_id r' = r_build_job_id r ∧ r_state r' = r_state r ∧ r_payload_json r' = r_payload_json r ∧
  r_attempts r' = r_attempts r ∧ r_lease_token r' = r_lease_token r ∧ r_cancel_requested r' = r_cancel_requested r ∧
  r_lease_owner r' = r_lease_owner r ∧ r_error r' = r_error r.

Definition keeps_jobs (d d' : db) : Prop :=
  ∀ b, match find_row b d with
       | Some r => ∃ r', find_row b d' = Some r' ∧ same_job r r'
       | None => find_row b d' = None
       end.

Lemma keeps_refl d : keeps_jobs d d.
Proof. intros b. destruct (find_row b d) as [r|]; [|done]. exists r. by split. Qed.

Lemma keeps_same d d' : (∀ b, find_row b d' = find_row b d) → keeps_jobs d d'.
Proof. intros H b. rewrite H. apply keeps_refl. Qed.

Lemma append_keeps cfg now e d : spool_inv d → keeps_jobs d (append cfg now e d).2.
Proof.
  intros Hd. unfold append. destruct (env_attempt_id e) as [a|], (env_seq e) as [n|]; try apply keeps_refl.
  munfold. pose proof (append_insert_run now e a n d) as H.
  destruct (append_insert now e a n d) as [[[]|x] d']; [|destruct H as [-> _]; apply keeps_refl|subst; apply keeps_refl].
  destruct H as (text & _ & _ & (-> & _)%insert_event_Ok). set (d1 := with_events d _).
  change (append_cursor now a n d1) with (Ok (A := ()) (), (append_cursor now a n d1).2). cbn.
  pose proof (prune_thinned cfg now (append_cursor now a n d1).2) as Ht.
  assert (keeps_jobs d (prune cfg now (append_cursor now a n d1).2).2) as Hk.
  { intros b. rewrite (thinned_find b _ _ Ht), cursor_find by apply Hd. change (find_row b d1) with (find_row b d).
    destruct (find_row b d) as [r|]; [|done]. eexists. split; [done|]. by destruct (is_attempt a r). }
  cbn [append_cursor modify snd] in Hk. by destruct (prune _ _ _) as [[]].
Qed.

(** * Properties *)

(** C7: whatever calls of the queue and of the outbox follow each other on the
    shared database, no transaction is left open and both invariants hold.  The
    queue's: attempts are unique with canonical identifiers, rowids grow with
    insertion, no stored payload (queued or dead-lettered) has a secret member
    or a source URL, a terminal attempt holds no lease and no cancellation
    request, dead letters have three or more crashes, every event belongs to a
    stored attempt.  The spool's: event identifiers and sequence numbers are
    unique, and no event lies beyond its attempt's sequence cursor. *)
Theorem system_invariant s : sys_reachable s → idle s ∧ db_ok (st_disk s) ∧ spool_inv (st_disk s).
Proof. apply sys_reachable_ok. Qed.
