(* ===== verification/SpoolExamples.v ===== *)
(** The properties of the outbox and of the shared database at a concrete
    spool: one attempt, leased, with one event appended. *)

From S2P Require Import Prelude PyStr Dict Json Clock Uuid Protocol Db Store StoreRun StoreInv Queue QueueExamples.
From S2P Require Import Outbox OutboxProofs Spool System.

Local Open Scope Z_scope.

(** * Example events and stores *)

Definition ex_engine : ustr := u "22222222-2222-4222-8222-222222222222".

(** The [n]-th status event of [ex_attempt]. *)
Definition ex_event (id : ustr) (n : Z) (payload : jdict) : Envelope :=
  MkEnvelope (JInt PROTOCOL_VERSION) id (u "attempt.status") (format_datetime ex_now) payload
    ex_engine (Some ex_build) (Some ex_attempt) (Some n).

Definition ex_event1 : Envelope :=
  ex_event (u "11111111-1111-4111-8111-111111111111") 1 [(u "state", JStr (u "RUNNING"))].
(** Another event under the same sequence number. *)
Definition ex_event1' : Envelope :=
  ex_event (u "11111111-1111-4111-8111-111111111112") 1 [(u "state", JStr (u "FAILED"))].

(** The leased attempt; the same with its first event appended. *)
Definition ex_store4 : store := (run_sys (SysAppend default_outbox ex_now ex_event1) ex_store2).2.
Definition ex_spool0 : db := st_disk ex_store2.
Definition ex_spool1 : db := st_disk ex_store4.
(** The process stopped between the two commits of the append. *)
Definition ex_spool_torn : db := (append_insert ex_now ex_event1 ex_attempt 1 ex_spool0).2.

(** * Lemmas: the example stores *)

Lemma ex_sys_reachable2 : sys_reachable ex_store2.
Proof.
  apply (sys_step ex_store1 (SysQueue (OpAcquire (ex_now + seconds 5) (u "token-1") (u "worker-0") 120)));
    [|exact I].
  apply (sys_step ex_store0 (SysQueue (OpEnqueue ex_now ex_payload))); [apply sys_new|].
  vm_compute. reflexivity.
Qed.

Lemma ex_sys_reachable4 : sys_reachable ex_store4.
Proof. apply sys_step; [apply ex_sys_reachable2|exact I]. Qed.

Lemma ex_spool_ok0 : spool_inv ex_spool0.
Proof. apply (sys_reachable_ok _ ex_sys_reachable2). Qed.

Lemma ex_spool_ok1 : spool_inv ex_spool1.
Proof. apply (sys_reachable_ok _ ex_sys_reachable4). Qed.

Lemma ex_spool1_events : ∃ row, db_events ex_spool1 = [row] ∧ row_prints ex_event1 row.
Proof.
  eexists. split; [vm_compute; reflexivity|].
  split; [vm_compute; reflexivity|vm_compute; reflexivity|reflexivity|reflexivity].
Qed.

Lemma ex_event1_wire : wire_contract (ex_now + seconds 60) OUTBOUND_MESSAGE_TYPES (to_dict ex_event1).
Proof.
  destruct (validate_inv (ex_now + seconds 60) (Some OUTBOUND_MESSAGE_TYPES) (JObj (to_dict ex_event1))
    (to_dict ex_event1)) as [_ H]; [vm_compute; reflexivity|exact H].
Qed.

(** * Witnesses *)

Lemma system_invariant_witness : idle ex_store4 ∧ db_ok (st_disk ex_store4) ∧ spool_inv (st_disk ex_store4).
Proof. exact (system_invariant ex_store4 ex_sys_reachable4). Defined.

Lemma replay_exact_witness : ∃ es,
  replay_after (ex_now + seconds 60) [(ex_attempt, 0)] ex_spool1 = (Ok es, ex_spool1) ∧
  Forall2 (λ row e', ∃ e, row_prints e row ∧ e' = normalised e)
    (List.filter (λ row, (cursor_of (e_attempt_id row) [(ex_attempt, 0)] <? e_seq row)
                         && row_in_window (ex_now + seconds 60) row)
       (sort_by event_leb (db_events ex_spool1))) es.
Proof.
  apply (replay_exact (ex_now + seconds 60) [(ex_attempt, 0)] ex_spool1).
  destruct ex_spool1_events as (row & -> & Hrow). apply List.Forall_cons; [|apply List.Forall_nil].
  exists ex_event1, (ex_now + seconds 60). split; [exact Hrow|exact ex_event1_wire].
Defined.

(** One row of two minutes and one of ten: the window decides. *)
Example window_example row :
  row_prints ex_event1 row →
  row_in_window (ex_now + seconds 120) row = true ∧ row_in_window (ex_now + seconds 600) row = false.
Proof.
  intros H. assert (names_instant (env_ts ex_event1) (ex_now / 1000 * 1000)) as Ht.
  { apply names_instant_format. apply ex_in_range; vm_compute; reflexivity. }
  by rewrite !(row_in_window_printed _ _ _ _ H Ht).
Qed.

Lemma replay_drops_old_events_witness :
  replay_after (ex_now + seconds 301) [(ex_attempt, 0)] ex_spool1 = (Ok [], ex_spool1).
Proof.
  apply (replay_drops_old_events (ex_now + seconds 301) [(ex_attempt, 0)] ex_spool1).
  destruct ex_spool1_events as (row & -> & Hrow). apply List.Forall_cons; [|apply List.Forall_nil].
  exists ex_event1, (ex_now / 1000 * 1000). split; [exact Hrow|]. split.
  - apply names_instant_format. apply ex_in_range; vm_compute; reflexivity.
  - apply Z.ltb_lt. vm_compute. reflexivity.
Defined.

Lemma append_next_event_witness :
  let '(res, d') := append default_outbox ex_now ex_event1 ex_spool0 in
  res = Ok () ∧ spool_inv d' ∧ (next_seq ex_attempt d').1 = Ok 2.
Proof.
  assert (∃ text, to_json ex_event1 = Ok text) as [text Ht] by (eexists; vm_compute; reflexivity).
  apply (append_next_event default_outbox ex_now ex_event1 ex_attempt 1 text (ex_now - days 7) ex_spool0).
  - exact ex_spool_ok0.
  - reflexivity.
  - reflexivity.
  - vm_compute. reflexivity.
  - exact Ht.
  - apply (bool_decide_unpack _). vm_compute. exact I.
  - reflexivity.
Defined.

Lemma append_repeated_witness : append default_outbox (ex_now + seconds 9) ex_event1 ex_spool1 = (Ok (), ex_spool1).
Proof.
  assert (∃ row, find_event ex_attempt 1 ex_spool1 = Some row ∧ to_json ex_event1 = Ok (e_envelope_json row))
    as (row & Hf & Ht) by (eexists; split; vm_compute; reflexivity).
  exact (append_repeated default_outbox (ex_now + seconds 9) ex_event1 ex_attempt 1 row ex_spool1
    eq_refl eq_refl Hf Ht).
Defined.

Lemma append_crash_window_witness :
  (next_seq ex_attempt ex_spool_torn).1 = Ok 1 ∧
  append default_outbox (ex_now + seconds 9) ex_event1' ex_spool_torn =
    (Err (queue_error (u "Conflicting event reused an attempt sequence")), ex_spool_torn).
Proof.
  assert (∃ text, to_json ex_event1' = Ok text ∧ to_json ex_event1 ≠ Ok text) as (text & Ht & Hne).
  { eexists. split; [vm_compute; reflexivity|]. vm_compute. discriminate. }
  apply (append_crash_window default_outbox ex_now (ex_now + seconds 9) ex_event1 ex_event1' ex_attempt 1
    ex_spool0 ex_spool_torn text); try assumption.
  - exact ex_spool_ok0.
  - reflexivity.
  - reflexivity.
  - vm_compute. reflexivity.
  - vm_compute. reflexivity.
  - reflexivity.
  - reflexivity.
Defined.

Lemma prune_limits_witness : ∃ c,
  add_time ex_now (- days 7) = Ok c ∧
  let cfg := OutboxConfig 10 7 in
  let young := delete_events (old_event (format_datetime c) ex_spool1) ex_spool1 in
  let '(res, d') := prune cfg ex_now ex_spool1 in
  spool_inv d' ∧ db_jobs d' = db_jobs ex_spool1 ∧
  (event_bytes d' <= ob_max_bytes cfg ∨ db_events d' = []) ∧
  (∃ k, res = Ok k ∧ (k + length (db_events d') = length (db_events ex_spool1))%nat) ∧
  ∀ e, e ∈ db_events d' ↔
    e ∈ db_events ex_spool1 ∧ old_event (format_datetime c) ex_spool1 e = false ∧
    event_bytes (delete_events (λ x, negb (prune_leb e x)) young) <= ob_max_bytes cfg.
Proof.
  exists (ex_now - days 7). split; [reflexivity|].
  apply (prune_limits (OutboxConfig 10 7) ex_now (ex_now - days 7) ex_spool1); [exact ex_spool_ok1|reflexivity].
Defined.

(** Of a log event and two others, the log event goes first, then the older one. *)
Example prune_order_example :
  let ev id ty at_ n := EventRow (u id) (u "a") n (u ty) (u "0123456789") (u at_) in
  let d := with_events ex_spool1 [ev "1" "attempt.status" "2026-01-01" 1; ev "2" "attempt.log" "2026-01-03" 2;
                                  ev "3" "attempt.status" "2026-01-02" 3] in
  (e_id <$> db_events (prune (OutboxConfig 20 7) ex_now d).2 = [u "1"; u "3"]) ∧
  (e_id <$> db_events (prune (OutboxConfig 19 7) ex_now d).2 = [u "3"]).
Proof. split; vm_compute; reflexivity. Qed.
