(* ===== verification/Fs.v ===== *)
(** The file system as the engine uses it through [pathlib], [os] and
    [shutil]: files, directories and symbolic links in one tree, with path
    resolution, and the operations of the modelled code. *)

From S2P Require Import Prelude PyStr Clock.

Local Open Scope Z_scope.

(** * Paths and entries *)

(** An absolute path: its components below the root. *)
Abbreviation path := (list ustr).

Inductive entry :=
| EFile (content : list N) (mtime atime : instant)
| EDir (mtime : instant)
| ELink (absolute : bool) (target : list ustr).

#[export] Instance entry_eq_dec : EqDecision entry.
Proof. solve_decision. Defined.

(** A file system maps the paths that exist to their entries; the root exists. *)
Abbreviation fs := (gmap path entry).

Definition dir_entry (e : entry) : bool := match e with EDir _ => true | _ => false end.
Definition file_entry (e : entry) : bool := match e with EFile _ _ _ => true | _ => false end.

Definition lookup_entry (f : fs) (p : path) : option entry :=
  match p with [] => Some (EDir 0) | _ => f !! p end.

Definition parent (p : path) : path := removelast p.
(** [Path.name]. *)
Definition name (p : path) : ustr := default [] (last p).

(** * Path resolution

    The kernel follows at most 40 links; [None] is "no such file",
    "not a directory" or "too many links". The last component may be missing. *)

Definition MAX_LINKS : nat := 40.

Fixpoint walk (links : nat) (f : fs) : path → list ustr → option path :=
  match links with
  | O => λ _ _, None
  | S links => fix go (cur : path) (todo : list ustr) : option path :=
      match todo with
      | [] => Some cur
      | c :: todo' =>
          if ustr_eqb c (u ".") then go cur todo'
          else if ustr_eqb c (u "..") then go (parent cur) todo'
          else match f !! (cur ++ [c]) with
               | Some (ELink absolute target) =>
                   walk links f (if absolute then [] else cur) (target ++ todo')
               | Some (EDir _) => go (cur ++ [c]) todo'
               | Some (EFile _ _ _) | None =>
                   match todo' with [] => Some (cur ++ [c]) | _ => None end
               end
      end
  end.

(** Where a path leads, following links; where it lies, not following the last one. *)
Definition locate (f : fs) (p : path) : option path := walk MAX_LINKS f [] p.
Definition llocate (f : fs) (p : path) : option path :=
  match p with
  | [] => Some []
  | _ => d ← locate f (parent p);
         e ← lookup_entry f d;
         if dir_entry e then Some (d ++ [name p]) else None
  end.

Definition stat (f : fs) (p : path) : option entry := q ← locate f p; lookup_entry f q.
Definition lstat (f : fs) (p : path) : option entry := q ← llocate f p; lookup_entry f q.

Definition exists_ (f : fs) (p : path) : bool := match stat f p with Some _ => true | None => false end.
Definition is_dir (f : fs) (p : path) : bool := match stat f p with Some e => dir_entry e | None => false end.
Definition is_file (f : fs) (p : path) : bool := match stat f p with Some e => file_entry e | None => false end.
Definition is_symlink (f : fs) (p : path) : bool :=
  match lstat f p with Some (ELink _ _) => true | _ => false end.

(** * Operations *)

Definition os_error (msg : ustr) : exn := PyExn OSError msg.
Definition no_such_file : exn := PyExn FileNotFoundError (u "No such file or directory").
Definition not_a_directory : exn := os_error (u "Not a directory").
Definition file_exists : exn := os_error (u "File exists").
Definition is_a_directory : exn := os_error (u "Is a directory").
Definition dir_not_empty : exn := os_error (u "Directory not empty").

(** Adding or removing an entry updates its directory's modification time. *)
Definition touch_dir (now : instant) (p : path) (f : fs) : fs :=
  match f !! p with Some (EDir _) => <[p := EDir now]> f | _ => f end.
Definition put (now : instant) (q : path) (e : entry) (f : fs) : fs :=
  <[q := e]> (touch_dir now (parent q) f).

(** [q] itself or a path below it. *)
Definition under (q p : path) : bool := bool_decide (take (length q) p = q).
Definition remove_tree (now : instant) (q : path) (f : fs) : fs :=
  touch_dir now (parent q) (filter (λ pe : path * entry, under q pe.1 = false) f).

(** The entries below [q], not [q] itself. *)
Definition below (q p : path) : bool := under q p && negb (bool_decide (p = q)).

(** [os.mkdir]: only the last component is created. *)
Definition mkdir1 (now : instant) (p : path) : M fs () := λ f,
  match llocate f p with
  | None => (Err no_such_file, f)
  | Some q => match lookup_entry f q with
              | Some _ => (Err file_exists, f)
              | None => (Ok (), put now q (EDir now) f)
              end
  end.

(** [path.mkdir(parents=True, exist_ok=True)], from the top down: a directory
    in place is kept, anything else in place is an error. *)
Fixpoint mkdir_from (now : instant) (done : path) (todo : list ustr) : M fs () :=
  match todo with
  | [] => mret ()
  | c :: todo =>
      here ← gets (λ f, is_dir f (done ++ [c]));
      (if (here : bool) then mret ()
       else
         there ← gets (λ f, exists_ f (done ++ [c]));
         raise_if (there : bool) (match todo with [] => file_exists | _ => not_a_directory end);;
         mkdir1 now (done ++ [c]));;
      mkdir_from now (done ++ [c]) todo
  end.
Definition mkdir_parents (now : instant) (p : path) : M fs () := mkdir_from now [] p.

(** [path.write_text(s)] of text already encoded: through links, truncating. *)
Definition write_bytes (now : instant) (p : path) (content : list N) : M fs () := λ f,
  match locate f p with
  | None => (Err no_such_file, f)
  | Some q => match lookup_entry f q with
              | Some (EFile _ _ atime) => (Ok (), <[q := EFile content now atime]> f)
              | Some _ => (Err is_a_directory, f)
              | None => if match lookup_entry f (parent q) with Some e => dir_entry e | None => false end
                        then (Ok (), put now q (EFile content now now) f) else (Err no_such_file, f)
              end
  end.
Definition write_text (now : instant) (p : path) (s : ustr) : M fs () :=
  b ← lift (utf8_encode s); write_bytes now p b.

(** Text mode reads every line end as a newline. *)
Fixpoint universal_newlines (s : ustr) : ustr :=
  match s with
  | 13%N :: (10%N :: _) as rest => universal_newlines rest
  | 13%N :: rest => 10%N :: universal_newlines rest
  | c :: rest => c :: universal_newlines rest
  | [] => []
  end.

(** [path.read_bytes()] and [path.read_text(encoding="utf-8")]. *)
Definition read_bytes (p : path) : M fs (list N) := λ f,
  match stat f p with
  | Some (EFile content _ _) => (Ok content, f)
  | Some _ => (Err is_a_directory, f)
  | None => (Err no_such_file, f)
  end.
Definition read_text (p : path) : M fs ustr :=
  b ← read_bytes p; s ← lift (utf8_decode b); mret (universal_newlines s).

(** [str(path)]. *)
Definition path_str (p : path) : ustr := u "/" ++ join (u "/") p.
(** [root / text]: a relative path text. *)
Definition path_join (p : path) (text : ustr) : path := p ++ split_on 47 text.

(** [path.touch()]: the times of an existing entry, or a new empty file. *)
Definition touch (now : instant) (p : path) : M fs () := λ f,
  match locate f p with
  | None => (Err no_such_file, f)
  | Some q => match lookup_entry f q with
              | Some (EFile content _ _) => (Ok (), <[q := EFile content now now]> f)
              | Some (EDir _) => (Ok (), <[q := EDir now]> f)
              | Some (ELink _ _) => (Err no_such_file, f)
              | None => write_bytes now p [] f
              end
  end.

(** [path.unlink(missing_ok=...)]: the link itself, not what it points to. *)
Definition unlink (now : instant) (missing_ok : bool) (p : path) : M fs () := λ f,
  match lstat f p, llocate f p with
  | Some (EDir _), _ => (Err is_a_directory, f)
  | Some _, Some q => (Ok (), touch_dir now (parent q) (delete q f))
  | _, _ => if missing_ok then (Ok (), f) else (Err no_such_file, f)
  end.

(** [path.rmdir()]: only an empty directory. *)
Definition rmdir (now : instant) (p : path) : M fs () := λ f,
  match lstat f p, llocate f p with
  | Some (EDir _), Some q =>
      if bool_decide (filter (λ pe : path * entry, below q pe.1 = true) f = ∅)
      then (Ok (), touch_dir now (parent q) (delete q f)) else (Err dir_not_empty, f)
  | Some _, _ => (Err not_a_directory, f)
  | None, _ => (Err no_such_file, f)
  end.

(** [shutil.rmtree(path)]: refuses a link, never follows one. *)
Definition rmtree (now : instant) (p : path) : M fs () := λ f,
  match lstat f p, llocate f p with
  | Some (EDir _), Some q => (Ok (), remove_tree now q f)
  | Some _, _ => (Err not_a_directory, f)
  | None, _ => (Err no_such_file, f)
  end.

(** [source.replace(target)] of a file: [target] itself is replaced, a link not followed. *)
Definition replace_file (now : instant) (source target : path) : M fs () := λ f,
  match lstat f source, llocate f source, llocate f target with
  | Some (EFile c m a), Some qs, Some qt =>
      match lookup_entry f qt with
      | Some (EDir _) => (Err is_a_directory, f)
      | _ => (Ok (), put now qt (EFile c m a) (touch_dir now (parent qs) (delete qs f)))
      end
  | None, _, _ => (Err no_such_file, f)
  | _, _, _ => (Err no_such_file, f)
  end.

(** * Lemmas: real directories *)

(** A path component that names a file or directory of its own. *)
Definition plain_name (c : ustr) : Prop := c ≠ u "." ∧ c ≠ u "..".

(** [p] and every directory above it is a directory, not a link to one. *)
Definition real_dir (f : fs) (p : path) : Prop :=
  Forall plain_name p ∧ ∀ a b, p = a ++ b → a ≠ [] → ∃ t, f !! a = Some (EDir t).

Lemma walk_real links f cur p rest :
  Forall plain_name p →
  (∀ a b, p = a ++ b → a ≠ [] → ∃ t, f !! (cur ++ a) = Some (EDir t)) →
  walk (S links) f cur (p ++ rest) = walk (S links) f (cur ++ p) rest.
Proof.
  revert cur. induction p as [|c p IH]; intros cur Hp Hd; [by rewrite app_nil_r|].
  inversion Hp as [|? ? [H1 H2] Hp']; subst. cbn [app].
  destruct (Hd [c] p) as [t Ht]; [done|done|].
  cbn [walk]. unfold ustr_eqb. rewrite !bool_decide_false, Ht by done. change (c :: p) with ([c] ++ p). rewrite (app_assoc cur).
  apply IH; [done|]. intros a b -> Ha. destruct (Hd (c :: a) b) as [t' Ht']; [done|done|].
  exists t'. by rewrite <- app_assoc.
Qed.

Lemma locate_real f p rest : real_dir f p → locate f (p ++ rest) = walk MAX_LINKS f p rest.
Proof. intros [Hp Hd]. unfold locate, MAX_LINKS. by rewrite walk_real. Qed.

Lemma locate_real_dir f p : real_dir f p → locate f p = Some p.
Proof. intros H. rewrite <- (app_nil_r p) at 1. by rewrite locate_real. Qed.

Lemma real_dir_entry f p : real_dir f p → ∃ t, lookup_entry f p = Some (EDir t).
Proof.
  intros [_ H]. destruct p as [|c p]; [by exists 0|]. apply (H (c :: p) []); [by rewrite app_nil_r|done].
Qed.

(** The entry of [c] in the real directory [d] is not a link. *)
Definition no_link (f : fs) (p : path) : Prop := ∀ a t, f !! p ≠ Some (ELink a t).

Lemma locate_child f d c : real_dir f d → plain_name c → no_link f (d ++ [c]) → locate f (d ++ [c]) = Some (d ++ [c]).
Proof.
  intros Hd [H1 H2] Hl. rewrite locate_real by done. unfold MAX_LINKS. cbn [walk]. unfold ustr_eqb.
  rewrite !bool_decide_false by done. destruct (f !! (d ++ [c])) as [[| |a t]|] eqn:E; try done. by destruct (Hl a t).
Qed.

Lemma parent_child (d : path) c : parent (d ++ [c]) = d.
Proof. unfold parent. apply removelast_last. Qed.

Lemma name_child (d : path) c : name (d ++ [c]) = c.
Proof. unfold name. by rewrite last_snoc. Qed.

Lemma lookup_child f (d : path) c : lookup_entry f (d ++ [c]) = f !! (d ++ [c]).
Proof. unfold lookup_entry. by destruct d. Qed.

Lemma llocate_child f d c : real_dir f d → llocate f (d ++ [c]) = Some (d ++ [c]).
Proof.
  intros Hd. unfold llocate. destruct (d ++ [c]) as [|x l] eqn:E; [by destruct d|]. rewrite <- E, parent_child, name_child.
  rewrite locate_real_dir by done. destruct (real_dir_entry f d Hd) as [t Ht]. munfold. rewrite Ht. done.
Qed.

Lemma stat_child f d c : real_dir f d → plain_name c → no_link f (d ++ [c]) → stat f (d ++ [c]) = f !! (d ++ [c]).
Proof. intros. unfold stat. rewrite locate_child by done. munfold. apply lookup_child. Qed.

Lemma lstat_child f d c : real_dir f d → lstat f (d ++ [c]) = f !! (d ++ [c]).
Proof. intros. unfold lstat. rewrite llocate_child by done. munfold. apply lookup_child. Qed.

(** Two trees with the same entries up to the times of directories. *)
Definition same_entry (a b : option entry) : Prop :=
  a = b ∨ ∃ t t', a = Some (EDir t) ∧ b = Some (EDir t').

Lemma touch_dir_same now p f x : same_entry (f !! x) (touch_dir now p f !! x).
Proof.
  unfold touch_dir. destruct (f !! p) as [[| t |]|] eqn:E; try by left.
  destruct (decide (p = x)) as [<-|Hne].
  - right. exists t, now. by rewrite lookup_insert_eq.
  - left. by rewrite lookup_insert_ne.
Qed.

Lemma same_entry_dir a b t : same_entry a b → a = Some (EDir t) → ∃ t', b = Some (EDir t').
Proof. intros [->|(? & t' & -> & ->)]; eauto. Qed.

Lemma same_entry_file a b c m x : same_entry a b → a = Some (EFile c m x) → b = Some (EFile c m x).
Proof. intros [->|(? & ? & -> & ->)]; done. Qed.

Lemma same_entry_none a b : same_entry a b → a = None → b = None.
Proof. intros [->|(? & ? & -> & ->)]; done. Qed.

Lemma same_entry_link a b x y : same_entry a b → b = Some (ELink x y) → a = Some (ELink x y).
Proof. intros [->|(? & ? & -> & ->)]; done. Qed.

Lemma real_dir_same f f' p :
  (∀ a b, p = a ++ b → a ≠ [] → same_entry (f !! a) (f' !! a)) → real_dir f p → real_dir f' p.
Proof.
  intros Hs [Hp Hd]. split; [done|]. intros a b E Ha. destruct (Hd a b E Ha) as [t Ht].
  by eapply same_entry_dir; [eapply Hs|].
Qed.

Lemma put_lookup_eq now q e f : put now q e f !! q = Some e.
Proof. unfold put. apply lookup_insert_eq. Qed.

Lemma put_lookup_ne now q e f x : q ≠ x → same_entry (f !! x) (put now q e f !! x).
Proof. intros. unfold put. rewrite lookup_insert_ne by done. apply touch_dir_same. Qed.

(** Changing an entry below [d] keeps [d] a real directory. *)
Lemma child_not_prefix (d : path) c a b : d = a ++ b → d ++ [c] ≠ a.
Proof. intros -> H. apply (f_equal length) in H. rewrite !length_app in H. cbn in H. lia. Qed.

Lemma put_real_dir now d c e f : real_dir f d → real_dir (put now (d ++ [c]) e f) d.
Proof.
  intros Hd. eapply real_dir_same; [|exact Hd]. intros a b E _. apply put_lookup_ne. by eapply child_not_prefix.
Qed.

Lemma delete_real_dir now d c f : real_dir f d → real_dir (touch_dir now d (delete (d ++ [c]) f)) d.
Proof.
  intros Hd. eapply real_dir_same; [|exact Hd]. intros a b E _.
  assert (f !! a = delete (d ++ [c]) f !! a) as -> by (rewrite lookup_delete_ne; [done|by eapply child_not_prefix]).
  apply touch_dir_same.
Qed.

Lemma mkdir_from_real now done_ todo f :
  (∀ a b, todo = a ++ b → a ≠ [] → real_dir f (done_ ++ a)) → mkdir_from now done_ todo f = (Ok (), f).
Proof.
  revert done_. induction todo as [|c todo IH]; intros done_ H; [done|]. cbn [mkdir_from]. munfold.
  assert (real_dir f (done_ ++ [c])) as Hd by (by apply (H [c] todo)).
  assert (is_dir f (done_ ++ [c]) = true) as ->.
  { unfold is_dir, stat. rewrite locate_real_dir by done. destruct (real_dir_entry _ _ Hd) as [t Ht]. munfold. by rewrite Ht. }
  apply IH. intros a b -> Ha. rewrite <- app_assoc. by apply (H (c :: a) b).
Qed.

(** Creating a directory that is there does nothing. *)
Lemma mkdir_parents_real now f p : real_dir f p → mkdir_parents now p f = (Ok (), f).
Proof.
  intros [Hp Hd]. apply mkdir_from_real. cbn [app]. intros a b -> Ha. split; [by apply Forall_app in Hp as [? _]|].
  intros a' b' -> Ha'. apply (Hd a' (b' ++ b)); [by rewrite app_assoc|done].
Qed.

(** * Lemmas: files of a real directory *)

(** [p] is missing or a regular file. *)
Definition file_or_free (f : fs) (p : path) : Prop := f !! p = None ∨ ∃ c m a, f !! p = Some (EFile c m a).

Lemma file_or_free_no_link f p : file_or_free f p → no_link f p.
Proof. intros [H|(? & ? & ? & H)] a t; by rewrite H. Qed.

Lemma write_bytes_child now d c content f :
  real_dir f d → plain_name c → file_or_free f (d ++ [c]) →
  ∃ m a f', write_bytes now (d ++ [c]) content f = (Ok (), f') ∧ f' !! (d ++ [c]) = Some (EFile content m a) ∧
    real_dir f' d ∧ ∀ x, x ≠ d ++ [c] → same_entry (f !! x) (f' !! x).
Proof.
  intros Hd Hc Hf. unfold write_bytes. rewrite locate_child, lookup_child by eauto using file_or_free_no_link.
  destruct Hf as [->|(c0 & m & a & ->)].
  - rewrite parent_child. destruct (real_dir_entry f d Hd) as [t ->]. cbn [dir_entry].
    eexists _, _, _. split; [done|]. split; [apply put_lookup_eq|]. split; [by apply put_real_dir|].
    intros x Hx. by apply put_lookup_ne.
  - eexists _, _, _. split; [done|]. split; [apply lookup_insert_eq|]. split.
    + eapply real_dir_same; [|exact Hd]. intros a' b E _. left. rewrite lookup_insert_ne; [done|]. by eapply child_not_prefix.
    + intros x Hx. left. by rewrite lookup_insert_ne.
Qed.

Lemma replace_child now d c c' content m a f :
  real_dir f d → c ≠ c' → f !! (d ++ [c]) = Some (EFile content m a) → file_or_free f (d ++ [c']) →
  ∃ f', replace_file now (d ++ [c]) (d ++ [c']) f = (Ok (), f') ∧ f' !! (d ++ [c']) = Some (EFile content m a) ∧
    f' !! (d ++ [c]) = None ∧ real_dir f' d ∧ ∀ x, x ≠ d ++ [c] → x ≠ d ++ [c'] → same_entry (f !! x) (f' !! x).
Proof.
  intros Hd Hne Hc Hc'. unfold replace_file. rewrite lstat_child, !llocate_child, Hc, lookup_child, parent_child by done.
  assert (d ++ [c] ≠ d ++ [c']) as Hp by (by intros [= ?]%app_inv_head).
  exists (put now (d ++ [c']) (EFile content m a) (touch_dir now d (delete (d ++ [c]) f))). split.
  { destruct Hc' as [->|(? & ? & ? & ->)]; done. }
  split; [apply put_lookup_eq|]. split.
  { eapply same_entry_none; [apply put_lookup_ne; congruence|]. eapply same_entry_none; [apply touch_dir_same|].
    apply lookup_delete_eq. }
  split; [by apply put_real_dir, delete_real_dir|]. intros x H1 H2.
  assert (f !! x = delete (d ++ [c]) f !! x) as -> by (by rewrite lookup_delete_ne by congruence).
  pose proof (touch_dir_same now d (delete (d ++ [c]) f) x) as Ha.
  pose proof (put_lookup_ne now (d ++ [c']) (EFile content m a) (touch_dir now d (delete (d ++ [c]) f)) x (not_eq_sym H2)) as Hb.
  destruct Ha as [->|(t & t' & -> & Ha)]; [done|]. rewrite Ha in Hb. right. exists t.
  destruct Hb as [<-|(? & t2 & ? & ->)]; eauto.
Qed.

Lemma same_entry_trans a b c : same_entry a b → same_entry b c → same_entry a c.
Proof.
  intros [->|(t & t' & -> & ->)]; [done|]. intros [<-|(? & t2 & ? & ->)]; right; eauto.
Qed.

Lemma file_or_free_same f f' x : same_entry (f !! x) (f' !! x) → file_or_free f x → file_or_free f' x.
Proof.
  intros Hs [Hf|(c & m & a & Hf)]; [left; by eapply same_entry_none|]. right. exists c, m, a. by eapply same_entry_file.
Qed.

Lemma unlink_child now d c f : real_dir f d → file_or_free f (d ++ [c]) →
  ∃ f', unlink now true (d ++ [c]) f = (Ok (), f') ∧ f' !! (d ++ [c]) = None ∧ real_dir f' d ∧
    ∀ x, x ≠ d ++ [c] → same_entry (f !! x) (f' !! x).
Proof.
  intros Hd Hf. unfold unlink. rewrite lstat_child, llocate_child, parent_child by done.
  destruct Hf as [E|(c0 & m0 & a0 & E)]; rewrite E.
  - exists f. split_and!; try done. by left.
  - exists (touch_dir now d (delete (d ++ [c]) f)). split_and!; [done| |by apply delete_real_dir|].
    + eapply same_entry_none; [apply touch_dir_same|]. apply lookup_delete_eq.
    + intros x Hx. assert (f !! x = delete (d ++ [c]) f !! x) as -> by (by rewrite lookup_delete_ne by congruence).
      apply touch_dir_same.
Qed.
