(* ===== verification/Shlex.v ===== *)
(** Shell-style splitting ([shlex.split] of the standard library, POSIX mode,
    without comments) and whitespace splitting ([str.split()]). *)

From S2P Require Import Prelude PyStr.

Local Open Scope N_scope.

(** [str.split()]: maximal runs of non-space characters. *)
Fixpoint split_ws_go (word : ustr) (s : ustr) : list ustr :=
  match s with
  | [] => match word with [] => [] | _ => [word] end
  | c :: s => if is_space c
              then match word with [] => split_ws_go [] s | _ => word :: split_ws_go [] s end
              else split_ws_go (word ++ [c]) s
  end.
Definition split_ws (s : ustr) : list ustr := split_ws_go [] s.

(** * The state machine of [shlex.read_token] *)

Inductive shlex_state :=
| SSpace
| SWord
| SQuote (q : N)
(** after a backslash, with the state to return to *)
| SEscape (back : option N).

(** [' \t\r\n'] and the quote characters. *)
Definition shlex_space (c : N) : bool := (c =? 32) || (c =? 9) || (c =? 13) || (c =? 10).
Definition shlex_quote (c : N) : bool := (c =? 39) || (c =? 34).
Definition BACKSLASH : N := 92.

Definition shlex_error (msg : ustr) : exn := PyExn ValueError msg.

(** The token read so far is emitted when it is not empty or was quoted. *)
Definition emit (token : ustr) (quoted : bool) (rest : list ustr) : list ustr :=
  match token with [] => if quoted then [] :: rest else rest | _ => token :: rest end.

Fixpoint shlex_go (st : shlex_state) (token : ustr) (quoted : bool) (s : ustr) : result (list ustr) :=
  match s, st with
  | [], SQuote _ => Err (shlex_error (u "No closing quotation"))
  | [], SEscape _ => Err (shlex_error (u "No escaped character"))
  | [], (SSpace | SWord) => Ok (emit token quoted [])
  | c :: s, (SSpace | SWord) =>
      if shlex_space c then rest ← shlex_go SSpace [] false s; Ok (emit token quoted rest)
      else if c =? BACKSLASH then shlex_go (SEscape None) token quoted s
      else if shlex_quote c then shlex_go (SQuote c) token quoted s
      else shlex_go SWord (token ++ [c]) quoted s
  | c :: s, SQuote q =>
      if c =? q then shlex_go SWord token true s
      else if (c =? BACKSLASH) && (q =? 34) then shlex_go (SEscape (Some q)) token true s
      else shlex_go (SQuote q) (token ++ [c]) true s
  | c :: s, SEscape back =>
      let token := match back with
                   | Some q => if negb (c =? BACKSLASH) && negb (c =? q) then token ++ [BACKSLASH] else token
                   | None => token
                   end in
      shlex_go match back with Some q => SQuote q | None => SWord end (token ++ [c]) quoted s
  end.

Definition shlex_split (s : ustr) : result (list ustr) := shlex_go SSpace [] false s.

(** * Lemmas *)

(** Splitting plain text (no quotes, no backslashes) is splitting at whitespace. *)
Definition plain_char (c : N) : bool :=
  negb (c =? BACKSLASH) && negb (shlex_quote c) && Bool.eqb (is_space c) (shlex_space c).

Lemma shlex_go_plain st word s :
  (st = SSpace ∧ word = [] ∨ st = SWord) → Forall (λ c, plain_char c = true) s →
  shlex_go st word false s = Ok (split_ws_go word s).
Proof.
  intros Hst Hs. revert st word Hst. induction Hs as [|c s Hc _ IH]; intros st word Hst.
  - destruct Hst as [[-> ->]| ->]; [done|]. by destruct word.
  - unfold plain_char in Hc. apply andb_true_iff in Hc as [[Hb Hq]%andb_true_iff Heq%eqb_prop].
    apply negb_true_iff in Hb, Hq. cbn [shlex_go split_ws_go]. rewrite Hb, Hq, Heq.
    destruct (shlex_space c).
    + rewrite (IH SSpace []) by auto. munfold. destruct Hst as [[-> ->]| ->]; [done|by destruct word].
    + destruct Hst as [[-> ->]| ->]; apply IH; by right.
Qed.

Lemma shlex_split_plain s : Forall (λ c, plain_char c = true) s → shlex_split s = Ok (split_ws s).
Proof. intros H. apply shlex_go_plain; [by left|done]. Qed.

Lemma shlex_split_err s e : shlex_split s = Err e → isinstance e ValueError = true.
Proof.
  unfold shlex_split. generalize SSpace as st, ([] : ustr) as token, false as quoted.
  induction s as [|c s IH]; intros st token quoted; cbn [shlex_go].
  - destruct st; intros; simplify_eq; done.
  - destruct st; repeat case_match; try (by apply IH); munfold; case_match; intros; simplify_eq; by eapply IH.
Qed.
