(* ===== verification/PackageJson.v ===== *)
(** Package metadata and package-manager detection
    (src/src/build_engine/detect/package_json.py and lockfiles.py). *)

From S2P Require Import Prelude PyStr Dict Json Clock Protocol Fs.

(** * package.json *)

Definition package_json_error (msg : ustr) : exn := PyExn PackageJsonError msg.

Record PackageJson := MkPackageJson {
  pj_path : path;
  pj_raw : jdict;
  pj_scripts : list (ustr * ustr);
  pj_dependencies : list (ustr * ustr);
  pj_dev_dependencies : list (ustr * ustr);
  pj_optional_dependencies : list (ustr * ustr);
  pj_peer_dependencies : list (ustr * ustr);
  pj_package_manager : option ustr;
  pj_engines_node : option ustr;
}.

Definition all_dependencies (p : PackageJson) : list (ustr * ustr) :=
  let merged := dmerge [] (pj_peer_dependencies p) in
  let merged := dmerge merged (pj_optional_dependencies p) in
  let merged := dmerge merged (pj_dev_dependencies p) in
  dmerge merged (pj_dependencies p).

Definition has_dependency (p : PackageJson) (names : list ustr) : bool :=
  existsb (λ n, dmem n (all_dependencies p)) names.

Definition script (p : PackageJson) (name : ustr) : option ustr :=
  match dget name (pj_scripts p) with
  | Some [] | None => None
  | Some value => Some value
  end.

(** [f"{path} field {field} ..."]. *)
Definition field_error (p : path) (field rest : ustr) : exn :=
  package_json_error (path_str p ++ u " field " ++ field ++ rest).

Fixpoint string_items (items : jdict) (field : ustr) (p : path) : result (list (ustr * ustr)) :=
  match items with
  | [] => Ok []
  | (key, JStr item) :: items => rest ← string_items items field p; Ok ((key, item) :: rest)
  | _ => Err (field_error p field (u " must map strings to strings"))
  end.

Definition string_map (value : option json) (field : ustr) (p : path) : result (list (ustr * ustr)) :=
  match value with
  | None | Some JNull => Ok []
  | Some (JObj items) => string_items items field p
  | Some _ => Err (field_error p field (u " must be an object"))
  end.

Definition optional_string (value : option json) (field : ustr) (p : path) : result (option ustr) :=
  match value with
  | None | Some JNull => Ok None
  | Some (JStr s) => Ok (Some s)
  | Some _ => Err (field_error p field (u " must be a string"))
  end.

Definition engine_node (value : option json) (p : path) : result (option ustr) :=
  match value with
  | None | Some JNull => Ok None
  | Some (JObj engines) => optional_string (dget (u "node") engines) (u "engines.node") p
  | Some _ => Err (field_error p (u "engines") (u " must be an object"))
  end.

(** The fields of a parsed object, in the order the constructor reads them. *)
Definition package_json_of (p : path) (raw : jdict) : result PackageJson :=
  scripts ← string_map (dget (u "scripts") raw) (u "scripts") p;
  dependencies ← string_map (dget (u "dependencies") raw) (u "dependencies") p;
  dev ← string_map (dget (u "devDependencies") raw) (u "devDependencies") p;
  optional ← string_map (dget (u "optionalDependencies") raw) (u "optionalDependencies") p;
  peer ← string_map (dget (u "peerDependencies") raw) (u "peerDependencies") p;
  manager ← optional_string (dget (u "packageManager") raw) (u "packageManager") p;
  node ← engine_node (dget (u "engines") raw) p;
  Ok (MkPackageJson p raw scripts dependencies dev optional peer manager node).

Definition load_package_json (f : fs) (root : path) : result (option PackageJson) :=
  let p := root ++ [u "package.json"] in
  if negb (exists_ f p) then Ok None
  else
    text ← (read_text p f).1;
    raw ← match loads text with
          | Ok j => Ok j
          | Err e => if isinstance e JSONDecodeError
                     then Err (package_json_error (path_str p ++ u " is not valid JSON")) else Err e
          end;
    match raw with
    | JObj raw => pj ← package_json_of p raw; Ok (Some pj)
    | _ => Err (package_json_error (path_str p ++ u " must contain a JSON object"))
    end.

(** * Package managers *)

Inductive PackageManager := Npm | Pnpm | NoManager.

#[export] Instance package_manager_eq_dec : EqDecision PackageManager.
Proof. solve_decision. Defined.

Definition manager_text (m : PackageManager) : ustr :=
  match m with Npm => u "npm" | Pnpm => u "pnpm" | NoManager => u "none" end.

Definition LOCKFILE_PRIORITY : list (ustr * PackageManager) :=
  [(u "pnpm-lock.yaml", Pnpm); (u "package-lock.json", Npm); (u "npm-shrinkwrap.json", Npm)].
Definition UNSUPPORTED_LOCKFILES : list ustr := [u "bun.lockb"; u "bun.lock"; u "yarn.lock"].

Definition manager_error (msg : ustr) : exn := PyExn PackageManagerDetectionError msg.

Record PackageManagerDetection := MkPackageManagerDetection {
  pm_manager : PackageManager;
  pm_source : ustr;
  pm_version : option ustr;
  pm_lockfile : option path;
}.

(** [value.partition("@")] and the [match] on the name. *)
Definition parse_package_manager (value : ustr) : result (PackageManager * option ustr) :=
  let '(name, separator, version) := partition_on 64 value in
  match name with
  | [] => Err (manager_error (u "packageManager must name npm or pnpm"))
  | _ =>
      let parsed_version := match version with [] => None | _ => if separator : bool then Some version else None end in
      if ustr_eqb name (u "npm") then Ok (Npm, parsed_version)
      else if ustr_eqb name (u "pnpm") then Ok (Pnpm, parsed_version)
      else Err (manager_error (u "Unsupported packageManager " ++ py_repr_str name
                               ++ u "; supported managers: npm, pnpm"))
  end.

(** The two loops over lock-file names. *)
Fixpoint first_lockfile (f : fs) (root : path) (files : list (ustr * PackageManager)) : option (path * PackageManager) :=
  match files with
  | [] => None
  | (filename, manager) :: files =>
      if exists_ f (root ++ [filename]) then Some (root ++ [filename], manager) else first_lockfile f root files
  end.

Definition detect_package_manager (f : fs) (root : path) (package_json : option PackageJson)
    : result PackageManagerDetection :=
  package_json ← match package_json with Some p => Ok (Some p) | None => load_package_json f root end;
  let declared := match package_json with
                  | Some p => match pj_package_manager p with Some [] | None => None | Some v => Some v end
                  | None => None
                  end in
  match declared with
  | Some value =>
      '(manager, version) ← parse_package_manager value;
      Ok (MkPackageManagerDetection manager (u "packageManager") version None)
  | None =>
      match first_lockfile f root LOCKFILE_PRIORITY with
      | Some (p, manager) => Ok (MkPackageManagerDetection manager (u "lockfile") None (Some p))
      | None =>
          match List.find (λ filename, exists_ f (root ++ [filename])) UNSUPPORTED_LOCKFILES with
          | Some filename => Err (manager_error (u "Unsupported package manager lockfile " ++ py_repr_str filename
                                                 ++ u "; use npm or pnpm"))
          | None => Ok (MkPackageManagerDetection Npm (u "fallback") None None)
          end
      end
  end.

Definition has_npm_lock (f : fs) (root : path) : bool :=
  exists_ f (root ++ [u "package-lock.json"]) || exists_ f (root ++ [u "npm-shrinkwrap.json"]).

Definition install_command (f : fs) (manager : PackageManager) (root : path) : ustr :=
  match manager with
  | NoManager => []
  | Npm => if has_npm_lock f root then u "npm ci" else u "npm install"
  | Pnpm => u "pnpm install --frozen-lockfile"
  end.

Definition run_script_command (manager : PackageManager) (script_name : ustr) : result ustr :=
  match manager with
  | NoManager => Err (manager_error (u "The selected profile does not use a package manager"))
  | Npm => Ok (u "npm run " ++ script_name)
  | Pnpm => Ok (u "pnpm run " ++ script_name)
  end.
