(* ===== verification/Framework.v ===== *)
(** Framework detection and build plans
    (src/src/build_engine/detect/framework.py and compatibility.py). *)

From S2P Require Import Prelude PyStr Dict Json Clock Protocol Fs Shlex PackageJson.

Definition detection_error (msg : ustr) : exn := PyExn DetectionError msg.

(** [a or b] on optional text: empty text counts as absent. *)
Definition or_text (a b : option ustr) : option ustr :=
  match a with Some [] | None => b | Some _ => a end.

(** * Compatibility guidance *)

Record Guidance := MkGuidance {
  g_code : ustr; g_title : ustr; g_what_we_saw : ustr; g_how_to_fix : ustr; g_docs_url : ustr;
}.

Definition DOCS_BASE : ustr := u "https://docs.mincemeat.id/static-sites/frameworks".

Definition guidance_to_dict (g : Guidance) : jdict :=
  [(u "code", JStr (g_code g)); (u "title", JStr (g_title g)); (u "what_we_saw", JStr (g_what_we_saw g));
   (u "how_to_fix", JStr (g_how_to_fix g)); (u "docs_url", JStr (g_docs_url g))].

Record CompatibilityResult := MkCompatibilityResult { cr_compatible : bool; cr_guidance : list Guidance }.

Definition check_static_compatibility (framework_id : ustr) (supported : option (list ustr)) : CompatibilityResult :=
  match supported with
  | None => MkCompatibilityResult true []
  | Some ids =>
      if mem_str framework_id ids then MkCompatibilityResult true []
      else MkCompatibilityResult false
             [MkGuidance (u "FRAMEWORK_NOT_CERTIFIED") (u "Framework is not certified for this build engine release")
                (u "Detected framework profile: " ++ framework_id)
                (u "Choose one of the certified static-site profiles for this release.")
                (DOCS_BASE ++ u "/" ++ framework_id)]
  end.

Definition node_version_guidance (requested : ustr) (supported : list N) : Guidance :=
  MkGuidance (u "NODE_VERSION_UNSUPPORTED") (u "Node version is not supported by the build engine")
    (u "Requested Node version/range: " ++ requested)
    (u "Use one of the supported Node major versions: " ++ join (u ", ") (str_of_N <$> supported) ++ u ".")
    (DOCS_BASE ++ u "/node").

Definition generic_output_guidance (root : path) : Guidance :=
  MkGuidance (u "GENERIC_OUTPUT_NOT_FOUND") (u "Generic build output could not be inferred")
    (u "No candidate output directory under " ++ path_str root ++ u " contained index.html")
    (u "Set an explicit output directory or make the build write index.html to out, dist, "
     ++ u "build, public, _site, or .output/public.")
    (DOCS_BASE ++ u "/generic").

(** * The registry *)

Definition SUPPORTED_NODE_MAJORS : list N := [22%N].
Definition GENERIC_OUTPUT_CANDIDATES : list ustr :=
  [u "out"; u "dist"; u "build"; u "public"; u "_site"; u ".output/public"].

Record FrameworkProfile := MkProfile {
  fp_id : ustr;
  fp_name : ustr;
  fp_default_command : ustr;
  fp_output_dir : option ustr;
  fp_dependency_markers : list ustr;
  fp_script_markers : list ustr;
  fp_config_markers : list ustr;
  fp_node_based : bool;
}.

Definition FRAMEWORK_PROFILES : list (ustr * FrameworkProfile) :=
  (λ p, (fp_id p, p)) <$> [
    MkProfile (u "astro") (u "Astro") (u "astro build") (Some (u "dist"))
      [u "astro"] [u "astro build"] [] true;
    MkProfile (u "vite") (u "Vite") (u "vite build") (Some (u "dist"))
      [u "vite"] [u "vite build"] [] true;
    MkProfile (u "eleventy") (u "Eleventy") (u "eleventy") (Some (u "_site"))
      [u "@11ty/eleventy"; u "eleventy"] [u "eleventy"]
      [u ".eleventy.js"; u "eleventy.config.js"; u "eleventy.config.mjs"] true;
    MkProfile (u "docusaurus") (u "Docusaurus") (u "docusaurus build") (Some (u "build"))
      [u "@docusaurus/core"] [u "docusaurus build"] [u "docusaurus.config.js"; u "docusaurus.config.ts"] true;
    MkProfile (u "vitepress") (u "VitePress") (u "vitepress build") (Some (u ".vitepress/dist"))
      [u "vitepress"] [u "vitepress build"] [] true;
    MkProfile (u "vuepress") (u "VuePress") (u "vuepress build") (Some (u "dist"))
      [u "vuepress"; u "vuepress-vite"] [u "vuepress build"] [] true;
    MkProfile (u "gatsby") (u "Gatsby") (u "gatsby build") (Some (u "public"))
      [u "gatsby"] [u "gatsby build"] [] true;
    MkProfile (u "hugo") (u "Hugo") (u "hugo") (Some (u "public"))
      [] [] [u "hugo.toml"; u "hugo.yaml"; u "hugo.json"] false].

Definition SUPPORTED_FRAMEWORK_IDS : list ustr := dkeys FRAMEWORK_PROFILES.
Definition DEFERRED_FRAMEWORK_IDS : list ustr :=
  [u "bun"; u "yarn"; u "zola"; u "generic"; u "angular"; u "remix"; u "next"; u "nuxt"; u "sveltekit"].
Definition DETECTION_ORDER : list ustr :=
  [u "astro"; u "docusaurus"; u "vitepress"; u "vuepress"; u "gatsby"; u "eleventy"; u "vite"].

(** The profiles of [DETECTION_ORDER], looked up in the registry. *)
Definition ordered_profiles : list FrameworkProfile :=
  omap (λ id, dget id FRAMEWORK_PROFILES) DETECTION_ORDER.

(** * Command matching *)

Definition shell_tokens (value : ustr) : list ustr :=
  match shlex_split value with Ok l => l | Err _ => split_ws value end.

Definition command_tokens_match (script command : ustr) : bool :=
  let script_tokens := shell_tokens script in
  let command_tokens := shell_tokens command in
  match command_tokens with
  | [] => false
  | _ =>
      if (length script_tokens <? length command_tokens)%nat then false
      else existsb (λ index, bool_decide (take (length command_tokens) (drop index script_tokens) = command_tokens))
             (seq 0 (length script_tokens - length command_tokens + 1))
  end.

Definition script_contains_command (p : PackageJson) (command : ustr) : bool :=
  existsb (λ script, command_tokens_match script command) (pj_scripts p).*2.

Definition script_matches_profile (profile : FrameworkProfile) (script : ustr) : bool :=
  let commands := fp_script_markers profile ++ [fp_default_command profile]
                  ++ ((λ m, default [] (last (split_on 47 m))) <$> fp_dependency_markers profile) in
  existsb (λ command, match command with [] => false | _ => command_tokens_match script command end) commands.

Definition has_config_marker (f : fs) (root : path) (markers : list ustr) : bool :=
  existsb (λ m, exists_ f (root ++ [m])) markers.

(** * Detection *)

Record FrameworkDetection := MkFrameworkDetection { fd_profile : FrameworkProfile; fd_source : ustr }.

Definition HUGO : FrameworkProfile :=
  default (MkProfile [] [] [] None [] [] [] false) (dget (u "hugo") FRAMEWORK_PROFILES).

Definition detect_framework (f : fs) (root : path) (package_json : option PackageJson)
    (framework_override : option ustr) : result FrameworkDetection :=
  package_json ← match package_json with Some p => Ok (Some p) | None => load_package_json f root end;
  match or_text framework_override None with
  | Some override =>
      match dget override FRAMEWORK_PROFILES with
      | Some profile => Ok (MkFrameworkDetection profile (u "override"))
      | None =>
          if mem_str override DEFERRED_FRAMEWORK_IDS
          then Err (detection_error (u "Framework " ++ py_repr_str override
                                     ++ u " is deferred and not certified for this release"))
          else Err (detection_error (u "Unknown framework override: " ++ override))
      end
  | None =>
      if has_config_marker f root [u "hugo.toml"; u "hugo.yaml"; u "hugo.json"]
      then Ok (MkFrameworkDetection HUGO (u "config"))
      else
        let none_detected := Err (detection_error (u "No certified static-site framework was detected")) in
        match package_json with
        | None => none_detected
        | Some p =>
            if has_dependency p [u "next"; u "nuxt"; u "@sveltejs/kit"; u "@angular/core"]
            then Err (detection_error (u "Detected a deferred framework; this release supports only the curated eight"))
            else
              match List.find (λ profile, has_dependency p (fp_dependency_markers profile)) ordered_profiles with
              | Some profile => Ok (MkFrameworkDetection profile (u "dependency"))
              | None =>
                  match List.find (λ profile, existsb (script_contains_command p) (fp_script_markers profile))
                          ordered_profiles with
                  | Some profile => Ok (MkFrameworkDetection profile (u "script"))
                  | None => none_detected
                  end
              end
        end
  end.

Definition infer_generic_output (f : fs) (root : path) : result ustr :=
  match List.find (λ candidate, is_file f (path_join root candidate ++ [u "index.html"])) GENERIC_OUTPUT_CANDIDATES with
  | Some candidate => Ok candidate
  | None => Err (detection_error (g_how_to_fix (generic_output_guidance root)))
  end.

(** * Node versions

    Version specifiers belong to the [packaging] distribution; its parser and
    its membership test are the operations of this interface. *)

Class Packaging := {
  specifier_set : Type;
  (** [SpecifierSet(text)]; [None] is [InvalidSpecifier]. *)
  SpecifierSet : ustr → option specifier_set;
  (** [specifier.contains(Version(text), prereleases=True)]. *)
  spec_contains : specifier_set → ustr → bool;
}.

Definition invalid_specifier (text : ustr) : exn := PyExn InvalidSpecifier text.

Definition complete_node_version (version : ustr) : ustr :=
  let parts := split_on 46 version in
  join (u ".") (parts ++ repeat (u "0") (3 - length parts)).

(** The operator group of the token pattern. *)
Definition scan_op (s : ustr) : option ustr * ustr :=
  match List.find (startswith s) [u ">="; u "<="; u ">"; u "<"; u "="; u "^"; u "~"] with
  | Some op => (Some op, drop (length op) s)
  | None => (None, s)
  end.

(** [\d+], then at most two of [\.\d+]; the text matched and the rest. *)
Fixpoint scan_parts (fuel : nat) (s : ustr) : ustr * ustr :=
  match fuel, s with
  | S fuel, 46%N :: t =>
      match take_digits t with
      | ([], _) => ([], s)
      | (ds, rest) => let '(more, rest) := scan_parts fuel rest in (46%N :: ds ++ more, rest)
      end
  | _, _ => ([], s)
  end.

(** The whole pattern; the [op] and [version] groups. *)
Definition match_node_token (token : ustr) : option (option ustr * ustr) :=
  let '(op, s) := scan_op token in
  match take_digits s with
  | ([], _) => None
  | (ds, s) =>
      let '(more, s) := scan_parts 2 s in
      if mem_str s [[]; u ".x"; u ".X"; u ".*"] then Some (op, ds ++ more) else None
  end.

(** [int(text)] of decimal digits. *)
Definition int_of_digits (s : ustr) : result N :=
  if (MAX_STR_DIGITS <? length s)%nat then Err digits_error else Ok (N_of_digits s).

(** [str(n)]. *)
Definition text_of_int (n : N) : result ustr :=
  if (MAX_STR_DIGITS <? length (str_of_N n))%nat then Err digits_error else Ok (str_of_N n).

Definition node_token_to_specifier (token : ustr) : result ustr :=
  if mem_str token [u "*"; u "x"; u "X"] then Ok (u ">=0")
  else
    match match_node_token token with
    | None => Err (invalid_specifier token)
    | Some (op, raw_version) =>
        let op := default (u "==") op in
        let version := complete_node_version raw_version in
        let op := if ustr_eqb op (u "=") then u "==" else op in
        if ustr_eqb op (u "^") then
          major ← int_of_digits (default [] (head (split_on 46 version)));
          next ← text_of_int (major + 1);
          Ok (u ">=" ++ version ++ u ",<" ++ next ++ u ".0.0")
        else if ustr_eqb op (u "~") then
          match split_on 46 version with
          | [major_text; minor_text; _] =>
              minor ← int_of_digits minor_text;
              next ← text_of_int (minor + 1);
              Ok (u ">=" ++ version ++ u ",<" ++ major_text ++ u "." ++ next ++ u ".0")
          | _ => Err (PyExn ValueError (u "not enough values to unpack (expected 3)"))
          end
        else if ustr_eqb op (u "==") && existsb (endswith token) [u ".x"; u ".X"; u ".*"]
        then Ok (u "==" ++ raw_version ++ u ".*")
        else Ok (op ++ version)
    end.

Fixpoint node_specifiers (tokens : list ustr) : result (list ustr) :=
  match tokens with
  | [] => Ok []
  | t :: tokens => s ← node_token_to_specifier t; ss ← node_specifiers tokens; Ok (s :: ss)
  end.

(** The text given to [SpecifierSet]. *)
Definition node_clause_text (clause : ustr) : result ustr :=
  let normalized := strip is_space clause in
  if mem_str normalized [u "*"; u "x"; u "X"] then Ok (u ">=0")
  else
    parts ← node_specifiers (split_ws normalized);
    Ok (join (u ",") (List.filter (λ part, match part with [] => false | _ => true end) parts)).

(** [range_text.split("||")]. *)
Fixpoint split_bars (s : ustr) : list ustr :=
  match s with
  | [] => [[]]
  | c :: t =>
      let keep := match split_bars t with [] => [[c]] | p :: ps => (c :: p) :: ps end in
      match t with
      | d :: r => if ((c =? 124) && (d =? 124))%N then [] :: split_bars r else keep
      | [] => keep
      end
  end.

Section packaging.
Context `{Packaging}.

Definition node_clause_to_specifier_set (clause : ustr) : result specifier_set :=
  text ← node_clause_text clause;
  match SpecifierSet text with Some s => Ok s | None => Err (invalid_specifier text) end.

Definition node_clause_satisfies (major : N) (clause : ustr) : result bool :=
  match node_clause_to_specifier_set clause with
  | Ok specifier => Ok (existsb (spec_contains specifier)
                          [str_of_N major ++ u ".0.0"; str_of_N major ++ u ".999.999"])
  | Err e => if isinstance e InvalidSpecifier then Ok false else Err e
  end.

(** [any(...)] over the alternatives, from the left, stopping at the first match. *)
Fixpoint any_clause (major : N) (alternatives : list ustr) : result bool :=
  match alternatives with
  | [] => Ok false
  | [] :: alternatives => any_clause major alternatives
  | a :: alternatives =>
      ok ← node_clause_satisfies major a;
      if (ok : bool) then Ok true else any_clause major alternatives
  end.

Definition node_major_satisfies (major : N) (range_text : ustr) : result bool :=
  any_clause major (strip is_space <$> split_bars range_text).

Fixpoint satisfying (majors : list N) (requested : ustr) : result (list N) :=
  match majors with
  | [] => Ok []
  | m :: majors =>
      ok ← node_major_satisfies m requested;
      rest ← satisfying majors requested;
      Ok (if (ok : bool) then m :: rest else rest)
  end.

Record NodeSelection := MkNodeSelection {
  ns_major : N; ns_image : ustr; ns_source : ustr; ns_requested : option ustr;
}.

Definition max_of (l : list N) : N := foldr N.max 0%N l.

(** [override] is a text or a number. *)
Definition select_node_version (package_json : option PackageJson) (override : option (Z + ustr))
    (supported : list N) : result NodeSelection :=
  let requested := match override with
                   | Some (inl n) => Some (str_of_Z n)
                   | Some (inr s) => Some s
                   | None => match package_json with Some p => pj_engines_node p | None => None end
                   end in
  match or_text (strip is_space <$> requested) None with
  | None =>
      let major := max_of supported in
      Ok (MkNodeSelection major (u "node:" ++ str_of_N major) (u "default") None)
  | Some requested =>
      candidates ← satisfying supported requested;
      match candidates with
      | [] => Err (detection_error (g_how_to_fix (node_version_guidance requested supported)))
      | _ =>
          let major := max_of candidates in
          Ok (MkNodeSelection major (u "node:" ++ str_of_N major)
                match override with Some _ => u "override" | None => u "engines.node" end (Some requested))
      end
  end.

(** * Build plans *)

Record BuildPlan := MkBuildPlan {
  bp_root : path;
  bp_framework_id : ustr;
  bp_package_manager : PackageManager;
  bp_package_manager_source : ustr;
  bp_install_command : ustr;
  bp_build_command : ustr;
  bp_output_dir : option ustr;
  bp_detected_output_dir : option ustr;
  bp_image : ustr;
  bp_node_version : option N;
  bp_compatibility : CompatibilityResult;
}.

Definition preferred_script (profile : FrameworkProfile) (p : PackageJson) : option ustr :=
  match List.find (λ name, match script p name with
                           | Some s => script_matches_profile profile s
                           | None => false
                           end) [u "build"; u "docs:build"] with
  | Some name => Some name
  | None =>
      if mem_str (fp_id profile) [u "vitepress"; u "vuepress"]
      then match script p (u "docs:build") with Some _ => Some (u "docs:build") | None => None end
      else None
  end.

Definition default_build_command (profile : FrameworkProfile) (pm : PackageManagerDetection)
    (package_json : option PackageJson) : result ustr :=
  if negb (fp_node_based profile) then Ok (fp_default_command profile)
  else match package_json with
       | None => Ok (fp_default_command profile)
       | Some p => match preferred_script profile p with
                   | Some name => run_script_command (pm_manager pm) name
                   | None => Ok (fp_default_command profile)
                   end
       end.

Definition select_image (profile : FrameworkProfile) (node : option NodeSelection) : result ustr :=
  if negb (fp_node_based profile) then Ok (u "hugo:latest")
  else match node with
       | None => Err (detection_error (u "Node selection is required for Node-based framework profiles"))
       | Some n => Ok (ns_image n)
       end.

(** [\s+literal]: the text after at least one space and the literal. *)
Definition after_space_word (s w : ustr) : option ustr :=
  match s with
  | c :: _ => if is_space c then
                let t := lstrip is_space s in
                if startswith t w then Some (drop (length w) t) else None
              else None
  | [] => None
  end.

(** The pattern [(?:vitepress|vuepress)\s+build\s+docs(?:\s|$)] at the start of the text. *)
Definition docs_target_here (s : ustr) : bool :=
  existsb (λ tool,
    if startswith s tool then
      match after_space_word (drop (length tool) s) (u "build") with
      | Some t => match after_space_word t (u "docs") with
                  | Some [] => true
                  | Some (c :: _) => is_space c
                  | None => false
                  end
      | None => false
      end
    else false) [u "vitepress"; u "vuepress"].

Fixpoint docs_target (s : ustr) : bool :=
  docs_target_here s || match s with [] => false | _ :: s => docs_target s end.

Definition build_targets_docs (build_command : ustr) : bool :=
  contains build_command (u "docs:build") || docs_target build_command.

Definition profile_output_dir (profile : FrameworkProfile) (build_command : ustr) : option ustr :=
  if ustr_eqb (fp_id profile) (u "vitepress") && build_targets_docs build_command
  then Some (u "docs/.vitepress/dist")
  else if ustr_eqb (fp_id profile) (u "vuepress") && build_targets_docs build_command
  then Some (u "docs/.vuepress/dist")
  else fp_output_dir profile.

Definition plan_build (f : fs) (root : path) (framework_override build_command output_dir detected_output_dir : option ustr)
    (node_version : option (Z + ustr)) : result BuildPlan :=
  package_json ← load_package_json f root;
  pm ← detect_package_manager f root package_json;
  framework ← detect_framework f root package_json framework_override;
  let profile := fd_profile framework in
  fail_if (fp_node_based profile && negb (bool_decide (pm_manager pm ∈ [Npm; Pnpm])))
    (detection_error (u "Only npm and pnpm are certified for Node-based profiles"));;
  let manager := if fp_node_based profile then pm_manager pm else NoManager in
  node ← (if fp_node_based profile
          then n ← select_node_version package_json node_version SUPPORTED_NODE_MAJORS; Ok (Some n)
          else Ok None);
  image ← select_image profile node;
  let compatibility := check_static_compatibility (fp_id profile) (Some SUPPORTED_FRAMEWORK_IDS) in
  command ← match or_text build_command None with
            | Some c => Ok c
            | None => default_build_command profile pm package_json
            end;
  let out := or_text output_dir (or_text detected_output_dir (profile_output_dir profile command)) in
  Ok (MkBuildPlan root (fp_id profile) manager
        (if fp_node_based profile then pm_source pm else u "profile")
        (install_command f manager root) command out detected_output_dir image
        (ns_major <$> node) compatibility).

Definition to_job_payload_fields (p : BuildPlan) : jdict :=
  [(u "framework_id", JStr (bp_framework_id p));
   (u "package_manager", JStr (manager_text (bp_package_manager p)));
   (u "detected_output_dir", match bp_detected_output_dir p with Some d => JStr d | None => JNull end)].

End packaging.
