(* ===== verification/Detect.v ===== *)
(** Properties of project detection: which plans are certified, what evidence
    decides, how scripts and Node ranges are matched, and which exceptions
    leave the planner. *)

From S2P Require Import Prelude PyStr Dict Json Clock Protocol Fs Shlex PackageJson Framework.



(** * Lemmas: dependencies *)

Definition declares (p : PackageJson) (n : ustr) : Prop :=
  n ∈ dkeys (pj_dependencies p) ∨ n ∈ dkeys (pj_dev_dependencies p) ∨
  n ∈ dkeys (pj_optional_dependencies p) ∨ n ∈ dkeys (pj_peer_dependencies p).

Lemma dmem_dmerge {V} (d1 d2 : list (ustr * V)) k : k ∈ dkeys (dmerge d1 d2) ↔ k ∈ dkeys d1 ∨ k ∈ dkeys d2.
Proof.
  unfold dmerge. revert d1. induction d2 as [|[k' v] d2 IH]; intros d1; cbn [fold_left fst snd].
  - unfold dkeys. cbn. rewrite elem_of_nil. tauto.
  - rewrite IH, dkeys_dset. change (dkeys ((k', v) :: d2)) with (k' :: dkeys d2). rewrite elem_of_cons.
    unfold dmem. case_bool_decide as E; [naive_solver|]. rewrite elem_of_app, list_elem_of_singleton. tauto.
Qed.

Lemma dmem_all p n : dmem n (all_dependencies p) = true ↔ declares p n.
Proof.
  unfold dmem, all_dependencies, declares. cbv zeta. rewrite bool_decide_eq_true, !dmem_dmerge.
  change (dkeys (V := ustr) []) with (@nil ustr). rewrite elem_of_nil. tauto.
Qed.

Lemma has_dependency_spec p names : has_dependency p names = true ↔ ∃ n, n ∈ names ∧ declares p n.
Proof.
  unfold has_dependency. rewrite existsb_exists. split; intros (n & Hn & H); exists n;
    (split; [by apply list_elem_of_In|by apply dmem_all]).
Qed.

Lemma has_dependency_iff p p' names :
  (∀ n, declares p n ↔ declares p' n) → has_dependency p names = has_dependency p' names.
Proof.
  intros H. apply eq_true_iff_eq. rewrite !has_dependency_spec.
  split; intros (n & Hn & Hd); exists n; (split; [done|by apply H]).
Qed.

(** * Lemmas: scripts *)

(** The words of the command occur in a row among the words of the script. *)
Definition runs_command (script command : ustr) : Prop :=
  shell_tokens command ≠ [] ∧ ∃ before after, shell_tokens script = before ++ shell_tokens command ++ after.

Lemma command_tokens_match_spec script command :
  command_tokens_match script command = true ↔ runs_command script command.
Proof.
  unfold command_tokens_match, runs_command. cbv zeta.
  destruct (shell_tokens command) as [|c cs] eqn:Ec; [naive_solver|]. rewrite <- Ec.
  assert (shell_tokens command ≠ []) as Hne by (by rewrite Ec).
  destruct (Nat.ltb_spec (length (shell_tokens script)) (length (shell_tokens command))) as [Hlt|Hge].
  - split; [done|]. intros (_ & b & a & E). rewrite E, !length_app in Hlt. lia.
  - rewrite existsb_exists. split.
    + intros (i & Hi & H%bool_decide_eq_true). split; [done|].
      exists (take i (shell_tokens script)), (drop (length (shell_tokens command)) (drop i (shell_tokens script))).
      rewrite <- (take_drop i (shell_tokens script)) at 1. f_equal.
      rewrite <- (take_drop (length (shell_tokens command)) (drop i (shell_tokens script))) at 1. by rewrite H.
    + intros (_ & b & a & E). exists (length b). split.
      * apply in_seq. rewrite E, !length_app. lia.
      * apply bool_decide_eq_true. rewrite E, drop_app_length. by rewrite take_app_length.
Qed.

Lemma existsb_perm {A} (f : A → bool) l l' : l ≡ₚ l' → existsb f l = existsb f l'.
Proof.
  intros H. apply eq_true_iff_eq. rewrite !existsb_exists.
  split; intros (x & Hx & Hf); exists x; (split; [|done]); apply list_elem_of_In; apply list_elem_of_In in Hx;
    by (rewrite H || rewrite <- H).
Qed.

Lemma find_ext {A} (f g : A → bool) l : (∀ x, f x = g x) → List.find f l = List.find g l.
Proof. intros H. induction l as [|x l IH]; simpl; [done|]. by rewrite H, IH. Qed.

Lemma find_split {A} (f : A → bool) l x :
  List.find f l = Some x → ∃ b a, l = b ++ x :: a ∧ f x = true ∧ ∀ y, y ∈ b → f y = false.
Proof.
  induction l as [|y l IH]; simpl; [done|]. destruct (f y) eqn:E.
  - intros [= <-]. exists [], l. split_and!; [done|done|]. by intros ? ?%not_elem_of_nil.
  - intros (b & a & -> & Hx & Hb)%IH. exists (y :: b), a. split_and!; [done|done|].
    intros z [->|Hz]%elem_of_cons; auto.
Qed.

(** * Lemmas: profiles *)

Definition certified (p : FrameworkProfile) : Prop := dget (fp_id p) FRAMEWORK_PROFILES = Some p.

(** Facts read off the registry. *)
Record profile_facts (p : FrameworkProfile) : Prop := ProfileFacts {
  pf_supported : fp_id p ∈ SUPPORTED_FRAMEWORK_IDS;
  pf_command : fp_default_command p ≠ [];
  pf_output : ∃ d, fp_output_dir p = Some d ∧ d ≠ [];
  pf_hugo : fp_node_based p = negb (bool_decide (fp_id p = u "hugo"));
}.

Lemma registry_facts : Forall (λ kp, fp_id kp.2 = kp.1 ∧ profile_facts kp.2) FRAMEWORK_PROFILES.
Proof.
  assert (Forall (λ kp : ustr * FrameworkProfile, fp_id kp.2 = kp.1 ∧ fp_id kp.2 ∈ SUPPORTED_FRAMEWORK_IDS ∧
      fp_default_command kp.2 ≠ [] ∧ (match fp_output_dir kp.2 with Some d => d ≠ [] | None => False end) ∧
      fp_node_based kp.2 = negb (bool_decide (fp_id kp.2 = u "hugo"))) FRAMEWORK_PROFILES) as H.
  { unfold FRAMEWORK_PROFILES. repeat constructor; cbn [fst snd fp_id fp_default_command fp_output_dir fp_node_based];
      try done; try (apply (bool_decide_unpack _); vm_compute; exact I); vm_compute; reflexivity. }
  eapply List.Forall_impl; [|exact H]. intros [k p] (H1 & H2 & H3 & H4 & H5). cbn [fst snd] in *.
  split; [done|]. split; [done|done| |done]. destruct (fp_output_dir p) as [d|]; [by exists d|done].
Qed.

Lemma dget_profile k p : dget k FRAMEWORK_PROFILES = Some p → certified p ∧ profile_facts p.
Proof.
  intros H. pose proof registry_facts as F. rewrite Forall_forall in F.
  destruct (F _ (dget_Some_elem _ _ _ H)) as [E Hf]. cbn in E. unfold certified. rewrite E. done.
Qed.

Lemma hugo_certified : certified HUGO.
Proof. vm_compute. reflexivity. Qed.

Lemma ordered_certified p : p ∈ ordered_profiles → certified p.
Proof.
  unfold ordered_profiles. intros (k & _ & H)%list_elem_of_omap. by apply dget_profile in H as [? _].
Qed.

#[local] Opaque ordered_profiles.

Lemma detect_certified f root pj o fd : detect_framework f root pj o = Ok fd → certified (fd_profile fd).
Proof.
  unfold detect_framework. intros (pj' & _ & H)%result_bind_Ok_inv.
  destruct (or_text o None) as [ov|].
  { destruct (dget ov FRAMEWORK_PROFILES) as [p|] eqn:E; [|by destruct (mem_str _ _)].
    simplify_eq/=. by apply dget_profile in E as [? _]. }
  destruct (has_config_marker _ _ _); [simplify_eq/=; apply hugo_certified|].
  cbv zeta in H. destruct pj' as [p|]; [|done]. destruct (has_dependency _ _); [done|].
  destruct (List.find _ ordered_profiles) as [q|] eqn:E1.
  { simplify_eq/=. apply ordered_certified, list_elem_of_In. by apply find_some in E1 as [? _]. }
  destruct (List.find _ ordered_profiles) as [q|] eqn:E2 in H; [|done].
  simplify_eq/=. apply ordered_certified, list_elem_of_In. by apply find_some in E2 as [? _].
Qed.

Lemma certified_facts p : certified p → profile_facts p.
Proof. intros H. by apply dget_profile in H as [_ ?]. Qed.

Lemma or_text_nonempty a b : (∀ s, b = Some s → s ≠ []) → ∀ s, or_text a b = Some s → s ≠ [].
Proof. intros H s. destruct a as [[|]|]; cbn; [apply H|by intros [= <-]|apply H]. Qed.

Lemma profile_output_some p c : profile_facts p → ∃ d, profile_output_dir p c = Some d ∧ d ≠ [].
Proof.
  intros [_ _ Ho _]. unfold profile_output_dir.
  destruct (_ && _); [eexists; split; [done|by vm_compute]|].
  destruct (_ && _); [eexists; split; [done|by vm_compute]|]. done.
Qed.

Lemma or_text_some a b d : b = Some d → d ≠ [] → ∃ s, or_text a b = Some s ∧ s ≠ [].
Proof. intros -> Hd. destruct a as [[|c a]|]; cbn; eauto. Qed.

Lemma detect_manager f root pj d : detect_package_manager f root pj = Ok d → pm_manager d ≠ NoManager.
Proof.
  unfold detect_package_manager. intros (pj' & _ & H)%result_bind_Ok_inv.
  destruct (match pj' with Some _ => _ | None => _ end) as [v|].
  - apply result_bind_Ok_inv in H as ([m ver] & Hp & H). simplify_eq/=.
    unfold parse_package_manager in Hp. destruct (partition_on 64 v) as [[[|] ?] ?]; [done|].
    destruct (ustr_eqb _ (u "npm")); [by simplify_eq|]. destruct (ustr_eqb _ (u "pnpm")); by simplify_eq.
  - destruct (first_lockfile f root LOCKFILE_PRIORITY) as [[q m]|] eqn:E.
    + simplify_eq/=. unfold LOCKFILE_PRIORITY in E. cbn [first_lockfile] in E.
      repeat (destruct (exists_ f _); [by simplify_eq|]). done.
    + destruct (List.find _ _); by simplify_eq.
Qed.

Lemma default_command_nonempty profile pm pj c :
  profile_facts profile → default_build_command profile pm pj = Ok c → c ≠ [].
Proof.
  intros Hp. unfold default_build_command. destruct (fp_node_based profile); cbn [negb]; [|intros [= <-]; apply Hp].
  destruct pj as [p|]; [|intros [= <-]; apply Hp].
  destruct (preferred_script profile p) as [n|]; [|intros [= <-]; apply Hp].
  destruct (pm_manager pm); cbn; by intros [= <-].
Qed.

Lemma install_nonempty f m root : m ≠ NoManager → install_command f m root ≠ [].
Proof. destruct m; cbn; [by destruct (has_npm_lock f root)|done|done]. Qed.

Lemma satisfying_sub `{Packaging} ms r l : satisfying ms r = Ok l → ∀ m, m ∈ l → m ∈ ms.
Proof.
  revert l. induction ms as [|m ms IH]; cbn [satisfying]; intros l; [by intros [= <-]|].
  intros (ok & _ & H1)%result_bind_Ok_inv. apply result_bind_Ok_inv in H1 as (rest & Hr & [= <-]).
  intros x Hx. rewrite elem_of_cons. destruct ok; [|right; by eapply IH].
  apply elem_of_cons in Hx as [->|Hx]; [by left|right; by eapply IH].
Qed.

(** The only certified Node major is 22. *)
Lemma select_22 `{Packaging} pj o sel :
  select_node_version pj o SUPPORTED_NODE_MAJORS = Ok sel → ns_major sel = 22%N ∧ ns_image sel = u "node:22".
Proof.
  unfold select_node_version. cbv zeta. destruct (or_text _ None) as [r|].
  2: { intros [= <-]. split; vm_compute; reflexivity. }
  intros (l & Hl & H1)%result_bind_Ok_inv. cbn [satisfying SUPPORTED_NODE_MAJORS] in Hl.
  apply result_bind_Ok_inv in Hl as (ok & _ & Hl). munfold. injection Hl as <-.
  destruct ok; [|done]. injection H1 as <-. split; vm_compute; reflexivity.
Qed.

(** * Lemmas: version texts *)

(** [major.minor.patch]. *)
Definition ver (v : N * N * N) : ustr :=
  str_of_N v.1.1 ++ 46%N :: str_of_N v.1.2 ++ 46%N :: str_of_N v.2.

(** A text of digits and dots. *)
Definition version_char (c : N) : bool := is_digit c || (c =? 46)%N.

Lemma digits_version s : Forall (λ c, is_digit c = true) s → Forall (λ c, version_char c = true) s.
Proof. apply List.Forall_impl. unfold version_char. by intros c ->. Qed.

Lemma ver_chars v : Forall (λ c, version_char c = true) (ver v).
Proof.
  unfold ver. repeat (apply Forall_app; split; [apply digits_version, str_of_N_digits|apply List.Forall_cons; [done|]]).
  apply digits_version, str_of_N_digits.
Qed.

Lemma version_char_not_space c : version_char c = true → is_space c = false.
Proof.
  unfold version_char, is_digit, is_space. intros H.
  assert (bool_decide (c ∈ [133; 160; 5760; 8232; 8233; 8239; 8287; 12288]%N) = false) as ->.
  { apply bool_decide_eq_false. rewrite !elem_of_cons, elem_of_nil. lia. }
  lia.
Qed.

(** A token of the pattern: an operator, digits and dots, a wildcard. *)
Definition token_char (c : N) : bool := negb (is_space c) && negb (c =? 124)%N.

Lemma version_token c : version_char c = true → token_char c = true.
Proof.
  intros H. unfold token_char. rewrite version_char_not_space by done. cbn.
  unfold version_char, is_digit in H. lia.
Qed.

Lemma split_bars_token s : Forall (λ c, token_char c = true) s → split_bars s = [s].
Proof.
  induction 1 as [|c s Hc _ IH]; [done|]. cbn [split_bars]. rewrite IH.
  unfold token_char in Hc. apply andb_true_iff in Hc as [_ Hc%negb_true_iff].
  rewrite Hc. by destruct s.
Qed.

Lemma strip_token s : Forall (λ c, is_space c = false) s → strip is_space s = s.
Proof.
  intros H. assert (∀ t, Forall (λ c, is_space c = false) t → lstrip is_space t = t) as L.
  { intros t Ht. destruct Ht as [|c t Hc _]; [done|]. cbn. by rewrite Hc. }
  unfold strip, rstrip. rewrite (L s) by done. rewrite L by by apply Forall_reverse. apply reverse_involutive.
Qed.

Lemma split_ws_token w s :
  Forall (λ c, is_space c = false) s → split_ws_go w s = match w ++ s with [] => [] | t => [t] end.
Proof.
  intros H. revert w. induction H as [|c s Hc _ IH]; intros w; cbn [split_ws_go].
  - rewrite app_nil_r. by destruct w.
  - rewrite Hc, IH, <- app_assoc. done.
Qed.

Lemma take_digits_stop d rest :
  Forall (λ c, is_digit c = true) d → match rest with c :: _ => is_digit c = false | [] => True end →
  take_digits (d ++ rest) = (d, rest).
Proof.
  intros Hd Hr. induction Hd as [|c d Hc _ IH]; simpl.
  - destruct rest as [|c rest]; simpl; [done|]. by rewrite Hr.
  - by rewrite Hc, IH.
Qed.

Lemma str_of_N_nonempty n : str_of_N n ≠ [].
Proof. destruct (str_of_N_head n) as [[_ ->]|(d & r & -> & _)]; done. Qed.

Lemma split_on_digits d : Forall (λ c, is_digit c = true) d → split_on 46 d = [d].
Proof.
  induction 1 as [|c d Hc _ IH]; [done|]. cbn [split_on]. rewrite IH.
  assert ((c =? 46)%N = false) as -> by (unfold is_digit in Hc; lia). done.
Qed.

Lemma split_on_digits_dot d rest :
  Forall (λ c, is_digit c = true) d → split_on 46 (d ++ 46%N :: rest) = d :: split_on 46 rest.
Proof.
  induction 1 as [|c d Hc _ IH]; [done|]. cbn [app split_on]. rewrite IH.
  assert ((c =? 46)%N = false) as -> by (unfold is_digit in Hc; lia). done.
Qed.

Lemma split_ver v : split_on 46 (ver v) = [str_of_N v.1.1; str_of_N v.1.2; str_of_N v.2].
Proof.
  unfold ver. rewrite split_on_digits_dot, split_on_digits_dot, split_on_digits by apply str_of_N_digits. done.
Qed.

Lemma complete_ver v : complete_node_version (ver v) = ver v.
Proof. unfold complete_node_version. rewrite split_ver. cbn. done. Qed.

(** The numeric part of a token, with what follows it. *)
Lemma match_version op s v tail :
  scan_op s = (op, ver v ++ tail) →
  match tail with c :: _ => version_char c = false | [] => True end →
  match_node_token s = if mem_str tail [[]; u ".x"; u ".X"; u ".*"] then Some (op, ver v) else None.
Proof.
  intros Hs Ht. unfold match_node_token. rewrite Hs. unfold ver.
  rewrite <- app_assoc, take_digits_stop by (apply str_of_N_digits || done).
  destruct (str_of_N v.1.1) as [|d0 ds0] eqn:E0; [by destruct (str_of_N_nonempty v.1.1)|]. rewrite <- E0.
  cbn [scan_parts app]. rewrite <- app_assoc, take_digits_stop by (apply str_of_N_digits || done).
  destruct (str_of_N v.1.2) as [|d1 ds1] eqn:E1; [by destruct (str_of_N_nonempty v.1.2)|]. rewrite <- E1.
  cbn [scan_parts app]. rewrite take_digits_stop.
  2: apply str_of_N_digits.
  2: { destruct tail as [|c tail]; [done|]. unfold version_char in Ht. by apply orb_false_iff in Ht as [? _]. }
  destruct (str_of_N v.2) as [|d2 ds2] eqn:E2; [by destruct (str_of_N_nonempty v.2)|]. rewrite <- E2.
  cbn [scan_parts]. by rewrite app_nil_r.
Qed.

(** * The version library's documented behaviour

    Membership in the specifier sets the planner builds, for plain release
    versions: between two versions, equal to one, under a prefix. *)

Definition ver_le (a b : N * N * N) : bool :=
  (a.1.1 <? b.1.1)%N || (a.1.1 =? b.1.1)%N && ((a.1.2 <? b.1.2)%N || (a.1.2 =? b.1.2)%N && (a.2 <=? b.2)%N).
Definition ver_lt (a b : N * N * N) : bool := negb (ver_le b a).

Class PackagingLaws `{Packaging} : Prop := {
  pk_between : ∀ a b, ∃ s, SpecifierSet (u ">=" ++ ver a ++ u ",<" ++ ver b) = Some s ∧
    ∀ v, spec_contains s (ver v) = ver_le a v && ver_lt v b;
  pk_exact : ∀ a, ∃ s, SpecifierSet (u "==" ++ ver a) = Some s ∧
    ∀ v, spec_contains s (ver v) = bool_decide (v = a);
}.

(** * Lemmas: ranges of one token *)

Section ranges.
Context `{PackagingLaws}.

Lemma range_one_token major token text s :
  token ≠ [] → Forall (λ c, token_char c = true) token → mem_str token [u "*"; u "x"; u "X"] = false →
  node_token_to_specifier token = Ok text → text ≠ [] → SpecifierSet text = Some s →
  node_major_satisfies major token = Ok (spec_contains s (ver (major, 0%N, 0%N)) || spec_contains s (ver (major, 999%N, 999%N))).
Proof.
  intros Hne Htok Hstar Htext Hnt Hs.
  assert (Forall (λ c, is_space c = false) token) as Hsp.
  { eapply List.Forall_impl; [|exact Htok]. intros c Hc. unfold token_char in Hc. by destruct (is_space c). }
  unfold node_major_satisfies. rewrite split_bars_token by done. cbn [fmap list_fmap].
  rewrite strip_token by done. destruct token as [|c0 token0] eqn:Etok; [done|]. rewrite <- Etok in *.
  assert (any_clause major [token] = ok ← node_clause_satisfies major token; Ok ok) as ->.
  { rewrite Etok. cbn [any_clause]. munfold. destruct (node_clause_satisfies _ _) as [[]|]; done. }
  unfold node_clause_satisfies, node_clause_to_specifier_set, node_clause_text. munfold.
  rewrite strip_token, Hstar by done. unfold split_ws. rewrite split_ws_token by done. cbn [app].
  rewrite Etok at 1. rewrite <- Etok. cbn [node_specifiers]. munfold. rewrite Htext. munfold.
  cbn [List.filter]. destruct text as [|c1 text1] eqn:Et; [done|]. rewrite <- Et in *. cbn [join]. rewrite Hs.
  cbn [existsb]. by rewrite orb_false_r.
Qed.

Lemma ver_nonempty v : ver v ≠ [].
Proof. unfold ver. destruct (str_of_N_head v.1.1) as [[_ ->]|(d & r & -> & _)]; done. Qed.

Lemma scan_op_ver v tail : scan_op (ver v ++ tail) = (None, ver v ++ tail).
Proof.
  unfold ver. destruct (str_of_N v.1.1) as [|c s] eqn:E; [by destruct (str_of_N_nonempty v.1.1)|].
  assert (is_digit c = true) as Hc.
  { pose proof (str_of_N_digits v.1.1) as Hd. rewrite E in Hd. by inversion Hd. }
  assert (c ≠ 62 ∧ c ≠ 60 ∧ c ≠ 61 ∧ c ≠ 94 ∧ c ≠ 126)%N as (H1 & H2 & H3 & H4 & H5) by (unfold is_digit in Hc; lia).
  unfold scan_op. cbn [app List.find]. vm_compute (u _). cbn [startswith].
  rewrite !(proj2 (N.eqb_neq _ _)) by done. done.
Qed.

Lemma mem_star_false s : (1 < length s)%nat → mem_str s [u "*"; u "x"; u "X"] = false.
Proof.
  intros Hl. unfold mem_str. apply bool_decide_eq_false. rewrite !elem_of_cons, elem_of_nil.
  intros [->|[->|[->|[]]]]; vm_compute in Hl; lia.
Qed.

Lemma ver_length v : (5 <= length (ver v))%nat.
Proof.
  unfold ver. rewrite !length_app. cbn [length]. rewrite length_app. cbn [length].
  pose proof (str_of_N_nonempty v.1.1). pose proof (str_of_N_nonempty v.1.2). pose proof (str_of_N_nonempty v.2).
  destruct (str_of_N v.1.1), (str_of_N v.1.2), (str_of_N v.2); try done. cbn [length]. lia.
Qed.

(** [int(text)] and [str(n)] accept the number. *)
Definition printable (n : N) : Prop := (length (str_of_N n) <= MAX_STR_DIGITS)%nat.

Lemma int_of_printable n : printable n → int_of_digits (str_of_N n) = Ok n.
Proof.
  unfold printable, int_of_digits. intros Hp. destruct (Nat.ltb_spec MAX_STR_DIGITS (length (str_of_N n))); [lia|].
  by rewrite N_of_str_of_N.
Qed.

Lemma text_of_printable n : printable n → text_of_int n = Ok (str_of_N n).
Proof.
  unfold printable, text_of_int. intros Hp. by destruct (Nat.ltb_spec MAX_STR_DIGITS (length (str_of_N n))); [lia|].
Qed.

Lemma ver_token v : Forall (λ c, token_char c = true) (ver v).
Proof. eapply List.Forall_impl; [|apply ver_chars]. apply version_token. Qed.

Lemma caret_specifier M m p :
  printable M → printable (M + 1) →
  node_token_to_specifier (u "^" ++ ver (M, m, p)) =
    Ok (u ">=" ++ ver (M, m, p) ++ u ",<" ++ ver ((M + 1)%N, 0%N, 0%N)).
Proof.
  intros H1 H2. unfold node_token_to_specifier.
  rewrite mem_star_false by (rewrite length_app; pose proof (ver_length (M, m, p)); lia).
  rewrite (match_version (Some (u "^")) _ (M, m, p) []) by (rewrite ?app_nil_r; done). cbv zeta.
  change (mem_str [] _) with true. cbn [default id]. rewrite complete_ver.
  change (ustr_eqb (u "^") (u "=")) with false. change (ustr_eqb (u "^") (u "^")) with true. cbv iota.
  rewrite split_ver. cbn [head default id fst snd]. rewrite int_of_printable by done. munfold.
  rewrite text_of_printable by done. munfold. done.
Qed.

Lemma tilde_specifier M m p :
  printable m → printable (m + 1) →
  node_token_to_specifier (u "~" ++ ver (M, m, p)) =
    Ok (u ">=" ++ ver (M, m, p) ++ u ",<" ++ ver (M, (m + 1)%N, 0%N)).
Proof.
  intros H1 H2. unfold node_token_to_specifier.
  rewrite mem_star_false by (rewrite length_app; pose proof (ver_length (M, m, p)); lia).
  rewrite (match_version (Some (u "~")) _ (M, m, p) []) by (rewrite ?app_nil_r; done). cbv zeta.
  change (mem_str [] _) with true. cbn [default id]. rewrite complete_ver.
  change (ustr_eqb (u "~") (u "=")) with false. change (ustr_eqb (u "~") (u "^")) with false.
  change (ustr_eqb (u "~") (u "~")) with true. cbv iota.
  rewrite split_ver. cbn [fst snd]. rewrite int_of_printable by done. munfold.
  rewrite text_of_printable by done. munfold. unfold ver. cbn [fst snd]. by rewrite <- ?app_assoc.
Qed.

Lemma pin_specifier v : node_token_to_specifier (ver v) = Ok (u "==" ++ ver v).
Proof.
  unfold node_token_to_specifier. rewrite mem_star_false by (pose proof (ver_length v); lia).
  assert (scan_op (ver v) = (None, ver v ++ [])) as Hs by (rewrite <- (app_nil_r (ver v)) at 1; apply scan_op_ver).
  rewrite (match_version None _ v [] Hs I). cbv zeta.
  change (mem_str [] _) with true. cbn [default id]. rewrite complete_ver.
  change (ustr_eqb (u "==") (u "=")) with false. change (ustr_eqb (u "==") (u "^")) with false.
  change (ustr_eqb (u "==") (u "~")) with false. cbv iota.
  assert (existsb (endswith (ver v)) [u ".x"; u ".X"; u ".*"] = false) as ->; [|by rewrite andb_false_r].
  apply not_true_iff_false. intros (w & Hw & He)%existsb_exists. unfold endswith in He.
  apply startswith_spec in He as [r He]. apply (f_equal reverse) in He.
  rewrite reverse_involutive, reverse_app, reverse_involutive in He.
  pose proof (ver_chars v) as Hc. rewrite He in Hc. apply Forall_app in Hc as [_ Hc].
  apply list_elem_of_In in Hw. rewrite !elem_of_cons, elem_of_nil in Hw.
  destruct Hw as [->|[->|[->|[]]]]; apply Forall_cons in Hc as [_ Hc]; apply Forall_cons in Hc as [Hc _]; done.
Qed.

End ranges.

(** * Lemmas: exceptions *)

(** What planning can raise. *)
Definition plan_error (e : exn) : Prop :=
  exn_cls e ∈ [DetectionError; PackageJsonError; PackageManagerDetectionError; ValueError; UnicodeDecodeError; OSError; FileNotFoundError].

Lemma plan_error_cls e : bool_decide (plan_error e) = true → plan_error e.
Proof. by rewrite bool_decide_eq_true. Qed.

(** Computations all of whose exceptions are of these classes. *)
Definition plan_errs {A} (r : result A) : Prop := ∀ e, r = Err e → plan_error e.

Lemma plan_errs_bind {A B} (m : result A) (f : A → result B) :
  plan_errs m → (∀ a, m = Ok a → plan_errs (f a)) → plan_errs (m ≫= f).
Proof.
  unfold plan_errs. intros Hm Hf. apply result_bind_Err_all; [done|]. intros a e Ha. by apply Hf.
Qed.

Lemma plan_errs_Ok {A} (a : A) : plan_errs (Ok a).
Proof. by intros e. Qed.

Lemma plan_errs_Err {A} e : bool_decide (plan_error e) = true → plan_errs (Err e : result A).
Proof. intros H e' [= <-]. by apply plan_error_cls. Qed.

Ltac plan_step :=
  first [ apply plan_errs_Ok | apply plan_errs_bind; [|intros ? _] | apply plan_errs_Err; reflexivity | assumption ].

Lemma string_items_errs l fld p : plan_errs (string_items l fld p).
Proof. induction l as [|[k v] l IH]; cbn [string_items]; [plan_step|]. destruct v; repeat plan_step. Qed.

Lemma string_map_errs v fld p : plan_errs (string_map v fld p).
Proof. destruct v as [[| | | | | |l]|]; cbn; repeat plan_step. apply string_items_errs. Qed.

Lemma optional_string_errs v fld p : plan_errs (optional_string v fld p).
Proof. destruct v as [[| | | | | |l]|]; cbn; repeat plan_step. Qed.

Lemma package_json_of_errs p raw : plan_errs (package_json_of p raw).
Proof.
  unfold package_json_of. repeat plan_step; try apply string_map_errs; try apply optional_string_errs.
  destruct (dget _ raw) as [[| | | | | |l]|]; cbn [engine_node]; repeat plan_step. apply optional_string_errs.
Qed.

Lemma read_text_errs p f : plan_errs (read_text p f).1.
Proof.
  unfold read_text, read_bytes. munfold. destruct (stat f p) as [[]|]; cbn; try plan_step.
  destruct (utf8_decode content) as [|e] eqn:E; cbn; [plan_step|].
  apply utf8_decode_err in E as [m ->]. plan_step.
Qed.

Lemma load_package_json_errs f root : plan_errs (load_package_json f root).
Proof.
  unfold load_package_json. cbv zeta. destruct (negb _); [plan_step|].
  plan_step; [apply read_text_errs|]. plan_step.
  - destruct (loads a) as [|e] eqn:E; [plan_step|]. apply loads_err in E as [->| ->]; plan_step.
  - destruct a0; try (apply plan_errs_Err; reflexivity). plan_step; [apply package_json_of_errs|plan_step].
Qed.

Lemma detect_package_manager_errs f root pj : plan_errs (detect_package_manager f root pj).
Proof.
  unfold detect_package_manager. plan_step; [destruct pj; [plan_step|apply load_package_json_errs]|].
  destruct (match a with Some _ => _ | None => _ end) as [v|].
  - plan_step; [|destruct a0; plan_step]. unfold parse_package_manager.
    destruct (partition_on 64 v) as [[[|] ?] ?]; repeat case_match; plan_step.
  - destruct (first_lockfile _ _ _) as [[]|]; [plan_step|]. destruct (List.find _ _); plan_step.
Qed.

Lemma detect_framework_errs f root pj o : plan_errs (detect_framework f root pj o).
Proof.
  unfold detect_framework. plan_step; [destruct pj; [plan_step|apply load_package_json_errs]|].
  destruct (or_text o None); [repeat case_match; plan_step|].
  destruct (has_config_marker _ _ _); [plan_step|]. cbv zeta. destruct a; [|plan_step].
  destruct (has_dependency _ _); [plan_step|]. destruct (List.find _ _); [plan_step|].
  destruct (List.find _ _); plan_step.
Qed.

Lemma node_token_errs t e : node_token_to_specifier t = Err e → plan_error e ∨ isinstance e InvalidSpecifier = true.
Proof.
  unfold node_token_to_specifier. destruct (mem_str _ _); [done|].
  destruct (match_node_token t) as [[op v]|]; [|intros [= <-]; by right]. cbv zeta. intros H. left. revert e H.
  match goal with |- ∀ e, ?r = Err e → _ => change (plan_errs r) end.
  assert (∀ s, plan_errs (int_of_digits s)) as Hi by (intros s; unfold int_of_digits; case_match; plan_step).
  assert (∀ s, plan_errs (text_of_int s)) as Hx by (intros s; unfold text_of_int; case_match; plan_step).
  destruct (ustr_eqb _ (u "^")); [repeat plan_step; auto|].
  destruct (ustr_eqb _ (u "~")); [repeat case_match; repeat plan_step; auto|].
  case_match; plan_step.
Qed.

Lemma node_clause_errs `{Packaging} m c : plan_errs (node_clause_satisfies m c).
Proof.
  unfold node_clause_satisfies. destruct (node_clause_to_specifier_set c) as [s|e] eqn:E; [plan_step|].
  assert (plan_error e ∨ isinstance e InvalidSpecifier = true) as [He|He].
  { revert e E. unfold node_clause_to_specifier_set. apply result_bind_Err_all.
    - unfold node_clause_text. cbv zeta. destruct (mem_str _ _); [done|]. apply result_bind_Err_all; [|done].
      induction (split_ws _) as [|t ts IH]; cbn [node_specifiers]; [done|].
      apply result_bind_Err_all; [apply node_token_errs|]. intros a e _. revert e.
      by apply result_bind_Err_all.
    - intros t e _. destruct (SpecifierSet t); [done|]. intros [= <-]. by right. }
  - destruct (isinstance e InvalidSpecifier); [plan_step|]. by intros ? [= <-].
  - rewrite He. plan_step.
Qed.

Lemma select_node_errs `{Packaging} pj o s : plan_errs (select_node_version pj o s).
Proof.
  unfold select_node_version. cbv zeta. destruct (or_text _ None) as [r|]; [|plan_step].
  plan_step; [|destruct a; plan_step].
  induction s as [|m s IH]; cbn [satisfying]; repeat plan_step.
  unfold node_major_satisfies. induction (strip is_space <$> split_bars r) as [|a l IH']; cbn [any_clause]; [plan_step|].
  destruct a; [done|]. plan_step; [apply node_clause_errs|]. destruct a0; [plan_step|done].
Qed.

Lemma plan_build_errs `{Packaging} f root fw c o d n : plan_errs (plan_build f root fw c o d n).
Proof.
  unfold plan_build. plan_step; [apply load_package_json_errs|]. plan_step; [apply detect_package_manager_errs|].
  plan_step; [apply detect_framework_errs|]. cbv zeta.
  plan_step; [unfold fail_if; case_match; plan_step|]. plan_step.
  { destruct (fp_node_based _); [|plan_step]. plan_step; [apply select_node_errs|plan_step]. }
  plan_step; [unfold select_image; repeat case_match; plan_step|]. plan_step; [|plan_step].
  destruct (or_text c None); [plan_step|]. unfold default_build_command, run_script_command.
  repeat case_match; plan_step.
Qed.

(** * Properties *)

(** The script of package.json that builds a Node project, and the declared package manager. *)
Definition build_script (fd : FrameworkDetection) (pj : option PackageJson) : option ustr :=
  if fp_node_based (fd_profile fd) then pj ≫= preferred_script (fd_profile fd) else None.
Definition declared_manager (pj : option PackageJson) : option ustr :=
  match pj with Some p => match pj_package_manager p with Some (c :: v) => Some (c :: v) | _ => None end | None => None end.

(** Which manager is detected: the declared one, else by the lock files. *)
Lemma detected_manager f root pj pm :
  load_package_json f root = Ok pj → detect_package_manager f root pj = Ok pm →
  match declared_manager pj with
  | Some v => manager_text (pm_manager pm) = (partition_on 64 v).1.1
  | None => pm_manager pm = if exists_ f (root ++ [u "pnpm-lock.yaml"]) then Pnpm else Npm
  end.
Proof.
  intros Hl. unfold detect_package_manager. intros (pj' & E & H)%result_bind_Ok_inv.
  assert (pj' = pj) as -> by (destruct pj; congruence). unfold declared_manager.
  destruct (match pj with Some p => _ | None => _ end) as [v|] eqn:Ed.
  - assert (match pj with Some p => match pj_package_manager p with Some (c :: v) => Some (c :: v) | _ => None end
            | None => None end = Some v) as ->.
    { destruct pj as [q|]; [|done]. by destruct (pj_package_manager q) as [[|]|]. }
    apply result_bind_Ok_inv in H as ([m ver] & Hp & H). simplify_eq/=. unfold parse_package_manager in Hp.
    destruct (partition_on 64 v) as [[[|c name] ?] ?]; [done|]. cbn [fst].
    destruct (ustr_eqb _ (u "npm")) eqn:En; [apply bool_decide_eq_true in En; by simplify_eq|].
    destruct (ustr_eqb _ (u "pnpm")) eqn:Ep; [apply bool_decide_eq_true in Ep; by simplify_eq|done].
  - assert (match pj with Some p => match pj_package_manager p with Some (c :: v) => Some (c :: v) | _ => None end
            | None => None end = None) as ->.
    { destruct pj as [q|]; [|done]. by destruct (pj_package_manager q) as [[|]|]. }
    unfold LOCKFILE_PRIORITY in H. cbn [first_lockfile] in H. repeat (destruct (exists_ f _); [by simplify_eq|]).
    destruct (List.find _ _); by simplify_eq.
Qed.

Lemma default_command_exact fd pm pj c :
  profile_facts (fd_profile fd) → default_build_command (fd_profile fd) pm pj = Ok c →
  c = match build_script fd pj with
      | Some name => manager_text (pm_manager pm) ++ u " run " ++ name
      | None => fp_default_command (fd_profile fd)
      end.
Proof.
  intros Hp. unfold default_build_command, build_script. destruct (fp_node_based _); cbn [negb]; [|by intros [= <-]].
  destruct pj as [p|]; [|by intros [= <-]]. cbn [mbind option_bind].
  destruct (preferred_script _ p) as [n|]; [|by intros [= <-]].
  destruct (pm_manager pm); cbn; by intros [= <-].
Qed.

(** C34: a plan is always for a certified framework, the detected one: its
    identifier is one of the eight profiles and the static compatibility check
    has passed, it has an output directory, and the image, the package manager,
    the commands and the Node version fit together. A Hugo plan runs in the Hugo
    image without package manager. Every other plan runs, in the image of Node
    22, the manager package.json declares or, without a declaration, pnpm when
    there is its lock file and npm otherwise; an npm plan installs by [npm ci]
    when an npm lock file is there and by [npm install] otherwise, a pnpm plan
    by [pnpm install --frozen-lockfile]. The build command is the given one;
    without one it is that manager's run of the build script found in
    package.json, or the profile's own command. *)
Theorem plan_certified `{Packaging} f root framework command out detected node p :
  plan_build f root framework command out detected node = Ok p →
  ∃ pj fd, load_package_json f root = Ok pj ∧ detect_framework f root pj framework = Ok fd ∧
  bp_framework_id p = fp_id (fd_profile fd) ∧
  bp_framework_id p ∈ SUPPORTED_FRAMEWORK_IDS ∧ cr_compatible (bp_compatibility p) = true ∧
  (∃ d, bp_output_dir p = Some d ∧ d ≠ []) ∧
  bp_build_command p ≠ [] ∧
  bp_build_command p = match or_text command None, build_script fd pj with
                       | Some c, _ => c
                       | None, Some name => manager_text (bp_package_manager p) ++ u " run " ++ name
                       | None, None => fp_default_command (fd_profile fd)
                       end ∧
  if bool_decide (bp_framework_id p = u "hugo")
  then bp_package_manager p = NoManager ∧ bp_install_command p = [] ∧
       bp_image p = u "hugo:latest" ∧ bp_node_version p = None
  else match declared_manager pj with
       | Some v => manager_text (bp_package_manager p) = (partition_on 64 v).1.1
       | None => bp_package_manager p = if exists_ f (root ++ [u "pnpm-lock.yaml"]) then Pnpm else Npm
       end ∧
       match bp_package_manager p with
       | Npm => bp_install_command p =
           if exists_ f (root ++ [u "package-lock.json"]) || exists_ f (root ++ [u "npm-shrinkwrap.json"])
           then u "npm ci" else u "npm install"
       | Pnpm => bp_install_command p = u "pnpm install --frozen-lockfile"
       | NoManager => False
       end ∧
       bp_image p = u "node:22" ∧ bp_node_version p = Some 22%N.
Proof.
  unfold plan_build. intros (pj & Hpj & H1)%result_bind_Ok_inv.
  apply result_bind_Ok_inv in H1 as (pm & Hpm & H1). apply result_bind_Ok_inv in H1 as (fd & Hfd & H1).
  exists pj, fd. split; [done|]. split; [done|].
  apply detect_certified, certified_facts in Hfd. pose proof (detected_manager _ _ _ _ Hpj Hpm) as Hdm.
  apply detect_manager in Hpm.
  cbv zeta in H1. apply result_bind_Ok_inv in H1 as ([] & _ & H1).
  apply result_bind_Ok_inv in H1 as (n & Hn & H1). apply result_bind_Ok_inv in H1 as (image & Himg & H1).
  apply result_bind_Ok_inv in H1 as (c & Hc & H1). injection H1 as <-. cbn [bp_framework_id bp_compatibility
    bp_build_command bp_output_dir bp_package_manager bp_install_command bp_image bp_node_version].
  split; [done|]. split; [apply Hfd|]. split.
  { unfold check_static_compatibility, mem_str. rewrite bool_decide_true; [done|apply Hfd]. }
  split.
  { apply (profile_output_some _ c) in Hfd as (d & Hd & Hne).
    destruct (or_text_some detected _ d Hd Hne) as (d' & Hd' & Hne'). by apply (or_text_some out _ d'). }
  split.
  { destruct (or_text command None) as [c'|] eqn:Eo; [injection Hc as <-; by eapply or_text_nonempty in Eo|].
    eapply default_command_nonempty; [exact Hfd|exact Hc]. }
  split.
  { destruct (or_text command None) as [c'|]; [by injection Hc as <-|]. rewrite (default_command_exact _ _ _ _ Hfd Hc).
    unfold build_script. by destruct (fp_node_based _). }
  pose proof (pf_hugo _ Hfd) as Eh. unfold select_image in Himg.
  destruct (bool_decide (fp_id (fd_profile fd) = u "hugo")); rewrite Eh in *; cbn [negb] in *.
  - injection Hn as <-. by injection Himg as <-.
  - apply result_bind_Ok_inv in Hn as (sel & Hsel & Hn). injection Hn as <-. injection Himg as <-.
    split; [done|]. split; [unfold install_command, has_npm_lock; by destruct (pm_manager pm)|].
    cbn. by apply select_22 in Hsel as [-> ->].
Qed.

(** Detection looks only at evidence that survives a rewrite of
    package.json: two projects without an override that declare the same
    dependency names (in whichever of the four dependency maps, in any order,
    at any version), have the same scripts up to order and the same Hugo
    configuration files are detected alike. *)
Theorem detect_framework_stable f f' root root' p p' :
  (∀ n, declares p n ↔ declares p' n) → (pj_scripts p).*2 ≡ₚ (pj_scripts p').*2 →
  (∀ m, m ∈ fp_config_markers HUGO → exists_ f (root ++ [m]) = exists_ f' (root' ++ [m])) →
  detect_framework f root (Some p) None = detect_framework f' root' (Some p') None.
Proof.
  intros Hd Hs Hc. unfold detect_framework. munfold. cbn [or_text].
  assert (has_config_marker f root [u "hugo.toml"; u "hugo.yaml"; u "hugo.json"] =
          has_config_marker f' root' [u "hugo.toml"; u "hugo.yaml"; u "hugo.json"]) as ->.
  { unfold has_config_marker. cbn [existsb]. rewrite !Hc by (vm_compute; set_solver). done. }
  rewrite (has_dependency_iff p p') by done.
  rewrite (find_ext _ (λ profile, has_dependency p' (fp_dependency_markers profile)) ordered_profiles)
    by (intros x; by apply has_dependency_iff).
  rewrite (find_ext (λ profile, existsb (script_contains_command p) (fp_script_markers profile))
             (λ profile, existsb (script_contains_command p') (fp_script_markers profile)) ordered_profiles); [done|].
  intros x. induction (fp_script_markers x) as [|m ms IH]; [done|]. cbn [existsb]. rewrite IH. f_equal.
  by apply existsb_perm.
Qed.

(** What the detected profile rests on. With no override: a Hugo
    configuration file decides before everything else; a declared dependency of
    a deferred framework is refused; otherwise the profile is the first of the
    detection order with a declared dependency, and only when there is none the
    first whose build command occurs, word for word in a row, in some script. *)
Theorem detect_framework_evidence f root p fd :
  detect_framework f root (Some p) None = Ok fd →
  let prof := fd_profile fd in
  match List.find (λ m, exists_ f (root ++ [m])) (fp_config_markers HUGO) with
  | Some _ => prof = HUGO
  | None =>
      (∀ n, n ∈ [u "next"; u "nuxt"; u "@sveltejs/kit"; u "@angular/core"] → ¬ declares p n) ∧
      ∃ before after, ordered_profiles = before ++ prof :: after ∧
        ((∃ n, n ∈ fp_dependency_markers prof ∧ declares p n) ∧
         (∀ q n, q ∈ before → n ∈ fp_dependency_markers q → ¬ declares p n) ∨
         (∃ m s, m ∈ fp_script_markers prof ∧ s ∈ (pj_scripts p).*2 ∧ runs_command s m) ∧
         (∀ q n, q ∈ ordered_profiles → n ∈ fp_dependency_markers q → ¬ declares p n) ∧
         (∀ q m s, q ∈ before → m ∈ fp_script_markers q → s ∈ (pj_scripts p).*2 → ¬ runs_command s m))
  end.
Proof.
  unfold detect_framework. munfold. cbn [or_text]. cbv zeta.
  assert (has_config_marker f root [u "hugo.toml"; u "hugo.yaml"; u "hugo.json"] =
    match List.find (λ m, exists_ f (root ++ [m])) (fp_config_markers HUGO) with Some _ => true | None => false end) as ->.
  { unfold has_config_marker. change (fp_config_markers HUGO) with [u "hugo.toml"; u "hugo.yaml"; u "hugo.json"].
    cbn [existsb List.find]. by repeat destruct (exists_ f _). }
  destruct (List.find _ (fp_config_markers HUGO)); [by intros [= <-]|].
  destruct (has_dependency p [_; _; _; _]) eqn:Edef; [done|].
  intros H. split.
  { intros n Hn Hdec. apply not_true_iff_false in Edef. apply Edef, has_dependency_spec. eauto. }
  destruct (List.find _ ordered_profiles) as [q|] eqn:E1.
  - injection H as <-. cbn [fd_profile]. apply find_split in E1 as (b & a & -> & Hq & Hb). exists b, a. split; [done|]. left.
    split; [by apply has_dependency_spec in Hq as (n & ? & ?); exists n|].
    intros q' n Hq' Hn Hdec. specialize (Hb _ Hq'). apply not_true_iff_false in Hb. apply Hb, has_dependency_spec. eauto.
  - destruct (List.find _ ordered_profiles) as [q|] eqn:E2 in H; [|done].
    injection H as <-. cbn [fd_profile]. apply find_split in E2 as (b & a & E & Hq & Hb). exists b, a. split; [done|]. right.
    split_and!.
    + apply existsb_exists in Hq as (m & Hm & Hq). apply existsb_exists in Hq as (s & Hs & Hq).
      apply list_elem_of_In in Hm, Hs. exists m, s. split_and!; [done|done|by apply command_tokens_match_spec].
    + intros q' n Hq' Hn Hdec. apply list_elem_of_In in Hq'. pose proof (find_none _ _ E1 _ Hq') as Hf. cbn in Hf.
      apply not_true_iff_false in Hf. apply Hf, has_dependency_spec. eauto.
    + intros q' m s Hq' Hm Hs Hr. specialize (Hb _ Hq'). apply not_true_iff_false in Hb. apply Hb.
      apply existsb_exists. exists m. split; [by apply list_elem_of_In|]. apply existsb_exists. exists s.
      split; [by apply list_elem_of_In|by apply command_tokens_match_spec].
Qed.

(** Which of the usual [engines.node] ranges a Node major satisfies: a
    caret range exactly its own major, an exact version only at the two
    versions the planner probes, [<major>.0.0] and [<major>.999.999], and a
    tilde range only when it contains one of these: [22.11.0] and [~22.11.0]
    are refused although the major is 22. *)
Theorem node_ranges `{PackagingLaws} major M m p :
  printable M → printable (M + 1) → printable m → printable (m + 1) → (m <= 999)%N → (p <= 999)%N →
  node_major_satisfies major (u "^" ++ ver (M, m, p)) = Ok (major =? M)%N ∧
  node_major_satisfies major (ver (M, m, p)) =
    Ok ((major =? M)%N && ((m =? 0)%N && (p =? 0)%N || (m =? 999)%N && (p =? 999)%N)) ∧
  node_major_satisfies major (u "~" ++ ver (M, m, p)) =
    Ok ((major =? M)%N && ((m =? 0)%N && (p =? 0)%N || (m =? 999)%N)).
Proof.
  intros HM HM1 Hm Hm1 Hm9 Hp9.
  assert (∀ c v, token_char c = true → Forall (λ c, token_char c = true) (c :: ver v)) as Htok
    by (intros; constructor; [done|apply ver_token]).
  assert (∀ v, (1 < length (ver v))%nat) as Hlen by (intros v; pose proof (ver_length v); lia).
  split_and!.
  - destruct (pk_between (M, m, p) ((M + 1)%N, 0%N, 0%N)) as (s & Hs & Hc).
    rewrite (range_one_token _ _ _ s) by first [done|by apply (Htok 94%N)|by apply caret_specifier|
      apply mem_star_false; cbn; specialize (Hlen (M, m, p)); lia]. rewrite !Hc. f_equal. unfold ver_lt, ver_le. cbn [fst snd]. lia.
  - destruct (pk_exact (M, m, p)) as (s & Hs & Hc).
    rewrite (range_one_token _ _ _ s) by first [done|apply ver_nonempty|apply ver_token|apply pin_specifier|
      by apply mem_star_false]. rewrite !Hc. f_equal.
    assert (∀ x y, bool_decide ((major, x, y) = (M, m, p)) = (major =? M)%N && ((m =? x)%N && (p =? y)%N)) as E.
    { intros x y. apply eq_true_iff_eq. rewrite bool_decide_eq_true, !andb_true_iff, !N.eqb_eq. naive_solver. }
    rewrite !E. by destruct (_ =? M)%N.
  - destruct (pk_between (M, m, p) (M, (m + 1)%N, 0%N)) as (s & Hs & Hc).
    rewrite (range_one_token _ _ _ s) by first [done|by apply (Htok 126%N)|by apply tilde_specifier|
      apply mem_star_false; cbn; specialize (Hlen (M, m, p)); lia]. rewrite !Hc. f_equal. unfold ver_lt, ver_le. cbn [fst snd]. lia.
Qed.
