(* ===== verification/DetectExamples.v ===== *)
(** The properties of project detection at concrete projects, with a version
    library for plain release versions. *)

From S2P Require Import Prelude PyStr Dict Json Clock Protocol Fs Shlex PackageJson Framework Detect.

(** * A version library *)

(** The clauses of a specifier set, separated by commas. *)
Definition parse_ver (s : ustr) : N * N * N :=
  match split_on 46 s with
  | [a; b; c] => (N_of_digits a, N_of_digits b, N_of_digits c)
  | _ => (0, 0, 0)%N
  end.

Definition clause_ok (v : ustr) (c : ustr) : bool :=
  if startswith c (u ">=") then ver_le (parse_ver (drop 2 c)) (parse_ver v)
  else if startswith c (u "==") then bool_decide (parse_ver v = parse_ver (drop 2 c))
  else if startswith c (u "<") then ver_lt (parse_ver v) (parse_ver (drop 1 c))
  else false.

#[export] Instance release_packaging : Packaging := {
  specifier_set := list ustr;
  SpecifierSet := λ s, Some (split_on 44 s);
  spec_contains := λ s v, forallb (clause_ok v) s;
}.

Lemma parse_ver_ver v : parse_ver (ver v) = v.
Proof. unfold parse_ver. rewrite split_ver, !N_of_str_of_N. by destruct v as [[]]. Qed.

Lemma ver_no_comma v : Forall (λ c, (c =? 44)%N = false) (ver v).
Proof.
  eapply List.Forall_impl; [|apply ver_chars]. unfold version_char, is_digit. intros c Hc. lia.
Qed.

#[export] Instance release_packaging_laws : PackagingLaws.
Proof.
  split.
  - intros a b. eexists. split; [done|]. intros v.
    change (split_on 44 (u ">=" ++ ver a ++ u ",<" ++ ver b)) with (split_on 44 ((u ">=" ++ ver a) ++ 44%N :: u "<" ++ ver b)) ||
      (assert (u ">=" ++ ver a ++ u ",<" ++ ver b = (u ">=" ++ ver a) ++ 44%N :: u "<" ++ ver b) as ->
         by (by rewrite <- app_assoc)).
    rewrite split_on_cons, split_on_none by (apply Forall_app; split; [by repeat constructor|apply ver_no_comma]).
    unfold spec_contains, release_packaging. cbn [forallb]. rewrite andb_true_r.
    change (clause_ok (ver v) (u ">=" ++ ver a)) with (ver_le (parse_ver (ver a)) (parse_ver (ver v))).
    change (clause_ok (ver v) (u "<" ++ ver b)) with (ver_lt (parse_ver (ver v)) (parse_ver (ver b))).
    by rewrite !parse_ver_ver.
  - intros a. eexists. split; [done|]. intros v.
    rewrite split_on_none by (apply Forall_app; split; [by repeat constructor|apply ver_no_comma]).
    unfold spec_contains, release_packaging. cbn [forallb]. rewrite andb_true_r.
    change (clause_ok (ver v) (u "==" ++ ver a)) with (bool_decide (parse_ver (ver v) = parse_ver (ver a))).
    by rewrite !parse_ver_ver.
Qed.

(** * Example projects *)

Definition ex_root : path := [u "srv"; u "project"].
Definition ex_file (s : ustr) : entry := EFile s 0%Z 0%Z.

(** An Astro project with a pnpm lock file. *)
Definition ex_package_text : ustr :=
  u "{" ++ quote (u "scripts") ++ u ":{" ++ quote (u "build") ++ u ":" ++ quote (u "astro build --silent") ++ u "},"
  ++ quote (u "devDependencies") ++ u ":{" ++ quote (u "astro") ++ u ":" ++ quote (u "^5.0.0") ++ u "},"
  ++ quote (u "engines") ++ u ":{" ++ quote (u "node") ++ u ":" ++ quote (u "^22.1.0") ++ u "}}".
Definition ex_project : fs :=
  <[[u "srv"] := EDir 0%Z]> (<[ex_root := EDir 0%Z]>
  (<[ex_root ++ [u "package.json"] := ex_file ex_package_text]>
  (<[ex_root ++ [u "pnpm-lock.yaml"] := ex_file []]> ∅))).

(** Two descriptions of one project: the dependency moved, the scripts reordered. *)
Definition ex_pj (scripts dev deps : list (ustr * ustr)) : PackageJson :=
  MkPackageJson (ex_root ++ [u "package.json"]) [] scripts deps dev [] [] None None.
Definition ex_pj1 : PackageJson :=
  ex_pj [(u "build", u "vite build"); (u "test", u "vitest")] [(u "vite", u "7")] [].
Definition ex_pj2 : PackageJson :=
  ex_pj [(u "test", u "vitest"); (u "build", u "vite build")] [] [(u "vite", u "6")].
(** A project known by its script only. *)
Definition ex_pj3 : PackageJson := ex_pj [(u "docs", u "cross-env CI=1 vitepress build docs")] [] [].

(** * Witnesses *)

Lemma plan_certified_witness : ∃ p, plan_build ex_project ex_root None None None None None = Ok p ∧
  bp_framework_id p = u "astro" ∧ bp_build_command p = u "pnpm run build" ∧
  bp_package_manager p = Pnpm ∧ bp_install_command p = u "pnpm install --frozen-lockfile" ∧
  bp_image p = u "node:22" ∧ bp_node_version p = Some 22%N.
Proof.
  assert (∃ p, plan_build ex_project ex_root None None None None None = Ok p ∧ bp_framework_id p = u "astro" ∧
    bp_build_command p = u "pnpm run build" ∧ bp_package_manager p = Pnpm) as (p & Hp & Hi & Hb & Hm).
  { eexists. split; [vm_compute; reflexivity|]. split_and!; vm_compute; reflexivity. }
  destruct (plan_certified _ _ _ _ _ _ _ p Hp) as (pj & fd & _ & _ & _ & _ & _ & _ & _ & _ & Hk).
  rewrite Hi, Hm in Hk. destruct Hk as (_ & Hins & Himg & Hnode).
  exists p. exact (conj Hp (conj Hi (conj Hb (conj Hm (conj Hins (conj Himg Hnode)))))).
Defined.

Lemma detect_framework_stable_witness :
  detect_framework ex_project ex_root (Some ex_pj1) None = detect_framework ex_project ex_root (Some ex_pj2) None.
Proof.
  apply (detect_framework_stable ex_project ex_project ex_root ex_root ex_pj1 ex_pj2).
  - intros n. unfold declares. vm_compute (dkeys _). rewrite !elem_of_cons, !elem_of_nil. tauto.
  - apply perm_swap.
  - intros m _. reflexivity.
Defined.

Lemma detect_framework_evidence_witness : ∃ fd,
  detect_framework ex_project ex_root (Some ex_pj3) None = Ok fd ∧ fp_id (fd_profile fd) = u "vitepress" ∧
  ∃ before after, ordered_profiles = before ++ fd_profile fd :: after.
Proof.
  assert (∃ fd, detect_framework ex_project ex_root (Some ex_pj3) None = Ok fd ∧
    fp_id (fd_profile fd) = u "vitepress") as (fd & Hfd & Hid).
  { eexists. split; [vm_compute; reflexivity|]. vm_compute. reflexivity. }
  exists fd. split; [exact Hfd|]. split; [exact Hid|].
  pose proof (detect_framework_evidence ex_project ex_root ex_pj3 fd Hfd) as H.
  assert (List.find (λ m, exists_ ex_project (ex_root ++ [m])) (fp_config_markers HUGO) = None) as E
    by (vm_compute; reflexivity).
  cbv zeta in H. rewrite E in H. destruct H as (_ & b & a & H & _). exists b, a. exact H.
Defined.

Lemma node_ranges_witness :
  node_major_satisfies 22 (u "^22.1.0") = Ok true ∧
  node_major_satisfies 22 (u "22.11.0") = Ok false ∧
  node_major_satisfies 22 (u "~22.1.0") = Ok false.
Proof.
  assert (∀ n, (n < 1000)%N → printable n) as Hp.
  { intros n Hn. unfold printable, str_of_N. assert (N.size n <= 10)%N as Hs.
    { destruct (N.eq_dec n 0%N) as [->|Hn0]; [vm_compute; discriminate|].
      rewrite N.size_log2 by exact Hn0. assert (N.log2 n < 10)%N; [|lia]. apply N.log2_lt_pow2; lia. }
    assert (∀ fuel k acc, (length (digits_go fuel k acc) <= fuel + length acc)%nat) as Hl.
    { induction fuel as [|fuel IH]; intros k acc; cbn [digits_go]; [lia|].
      destruct (k <? 10)%N; [cbn; lia|]. specialize (IH (k / 10)%N ((48 + k mod 10)%N :: acc)). cbn [length] in IH. lia. }
    specialize (Hl (S (N.to_nat (N.size n))) n []). unfold MAX_STR_DIGITS. cbn [length] in Hl. lia. }
  destruct (node_ranges 22%N 22%N 1%N 0%N) as (H1 & _ & H3); try (apply Hp; lia); try lia.
  destruct (node_ranges 22%N 22%N 11%N 0%N) as (_ & H2 & _); try (apply Hp; lia); try lia.
  split; [exact H1|]. split; [exact H2|exact H3].
Defined.
