(* ===== verification/Sha256.v ===== *)
(** SHA-256 ([hashlib.sha256]) on byte lists, with 32-bit words as [N]. *)

From S2P Require Import Prelude PyStr Json.

Local Open Scope N_scope.

Definition MASK32 : N := 4294967295.
Definition add32 (a b : N) : N := N.land (a + b) MASK32.
Definition rotr (n x : N) : N := N.land (N.lor (N.shiftr x n) (N.shiftl x (32 - n))) MASK32.
Definition not32 (x : N) : N := N.lxor x MASK32.

(** The largest [r] below [2 ^ bits] that satisfies [small], bit by bit. *)
Fixpoint largest (small : N → bool) (bits : nat) (r : N) : N :=
  match bits with
  | O => r
  | S bits => let r' := r + 2 ^ N.of_nat bits in largest small bits (if small r' then r' else r)
  end.

Definition is_prime (n : N) : bool :=
  forallb (λ d, negb (n mod N.of_nat d =? 0)) (seq 2 (N.to_nat n - 2)).
Definition primes_below (n : nat) : list N := List.filter is_prime (N.of_nat <$> seq 2 (n - 2)).

(** The 32 bits after the point of the square and cube roots of the first
    primes: the round constants and the initial hash value, as FIPS 180-4
    defines them. *)
Definition root_bits (k p : N) : N := N.land (largest (λ r, r ^ k <=? p * 2 ^ (32 * k)) 40 0) MASK32.
Definition K256 : list N := Eval vm_compute in root_bits 3 <$> primes_below 312.
Definition H256 : list N := Eval vm_compute in root_bits 2 <$> primes_below 20.

(** [n] as [k] bytes, most significant first. *)
Fixpoint big_endian (k : nat) (n : N) : list N :=
  match k with
  | O => []
  | S k => big_endian k (N.shiftr n 8) ++ [N.land n 255]
  end.

(** A one bit, zeros, and the length in bits: a multiple of 64 bytes. *)
Definition pad (m : list N) : list N :=
  let len := N.of_nat (length m) in
  m ++ 128 :: repeat 0 (N.to_nat ((119 - len mod 64) mod 64)) ++ big_endian 8 (8 * len).

(** Groups of four bytes as words. *)
Fixpoint be_words (m : list N) : list N :=
  match m with
  | a :: b :: c :: d :: m => (N.shiftl a 24 + N.shiftl b 16 + N.shiftl c 8 + d) :: be_words m
  | _ => []
  end.

Definition small0 (x : N) : N := N.lxor (N.lxor (rotr 7 x) (rotr 18 x)) (N.shiftr x 3).
Definition small1 (x : N) : N := N.lxor (N.lxor (rotr 17 x) (rotr 19 x)) (N.shiftr x 10).
Definition big0 (x : N) : N := N.lxor (N.lxor (rotr 2 x) (rotr 13 x)) (rotr 22 x).
Definition big1 (x : N) : N := N.lxor (N.lxor (rotr 6 x) (rotr 11 x)) (rotr 25 x).
Definition ch (x y z : N) : N := N.lxor (N.land x y) (N.land (not32 x) z).
Definition maj (x y z : N) : N := N.lxor (N.lxor (N.land x y) (N.land x z)) (N.land y z).

(** The message schedule, newest word first. *)
Fixpoint schedule (n : nat) (w : list N) : list N :=
  match n with
  | O => w
  | S n =>
      let at_ i := nth (i - 1) w 0 in
      schedule n (add32 (add32 (small1 (at_ 2%nat)) (at_ 7%nat)) (add32 (small0 (at_ 15%nat)) (at_ 16%nat)) :: w)
  end.

(** One round on the eight working words. *)
Definition round (st : list N) (kw : N * N) : list N :=
  match st with
  | [a; b; c; d; e; f; g; h] =>
      let t1 := add32 (add32 (add32 h (big1 e)) (add32 (ch e f g) kw.1)) kw.2 in
      let t2 := add32 (big0 a) (maj a b c) in
      [add32 t1 t2; a; b; c; add32 d t1; e; f; g]
  | _ => st
  end.

Definition compress (h : list N) (block : list N) : list N :=
  let w := rev (schedule 48 (rev (be_words block))) in
  zip_with add32 h (fold_left round (zip K256 w) h).

Fixpoint compress_all (fuel : nat) (h : list N) (m : list N) : list N :=
  match fuel, m with
  | S fuel, _ :: _ => compress_all fuel (compress h (take 64 m)) (drop 64 m)
  | _, _ => h
  end.

Definition sha256 (m : list N) : list N :=
  let m := pad m in concat (big_endian 4 <$> compress_all (length m) H256 m).

(** [hexdigest()]. *)
Definition hex_bytes (b : list N) : ustr := concat ((λ x, [hexdigit (x / 16); hexdigit (x mod 16)]) <$> b).
Definition sha256_hex (m : list N) : ustr := hex_bytes (sha256 m).

(** * The published test vectors *)

Example sha256_empty :
  sha256_hex [] = u "e3b0c44298fc1c149afbf4c8996fb92427ae41e4649b934ca495991b7852b855".
Proof. vm_compute. reflexivity. Qed.

Example sha256_abc :
  sha256_hex (u "abc") = u "ba7816bf8f01cfea414140de5dae2223b00361a396177a9cb410ff61f20015ad".
Proof. vm_compute. reflexivity. Qed.

Example sha256_two_blocks :
  sha256_hex (u "abcdbcdecdefdefgefghfghighijhijkijkljklmklmnlmnomnopnopq")
    = u "248d6a61d20638b8e5c026930c3e6039a33ce45964ff2167f6ecedd419db06c1".
Proof. vm_compute. reflexivity. Qed.
