(* ===== verification/Cache.v ===== *)
(** Per-site package-manager caches (src/src/build_engine/executor/cache.py):
    preparing, resetting and pruning the cache directories below the state
    directory.  One call is one computation here; [CacheLocks] has the locks that
    make the calls of several threads come one after the other. *)

From S2P Require Import Prelude PyStr Dict Json Clock Db Fs PackageJson Sha256.

Local Open Scope Z_scope.

Definition cache_error (msg : ustr) : exn := PyExn CacheError msg.

Inductive CacheEvent := HIT | MISS | WIPED.
Definition cache_event_text (e : CacheEvent) : ustr :=
  match e with HIT => u "HIT" | MISS => u "MISS" | WIPED => u "WIPED" end.

Definition METADATA_FILENAME : ustr := u ".build-engine-cache.json".
Definition DISABLED_MARKER_FILENAME : ustr := u ".build-engine-cache-disabled".

Record LockfileSnapshot := MkLockfileSnapshot { ls_name : ustr; ls_sha256 : ustr }.
#[export] Instance lockfile_snapshot_eq_dec : EqDecision LockfileSnapshot.
Proof. solve_decision. Defined.

(** [CacheMount] of docker_runner.py. *)
Record CacheMount := MkCacheMount { cm_host_path : path; cm_container_path : ustr }.

Record SiteCache := MkSiteCache { sc_root : path; sc_package_manager : PackageManager }.
Definition metadata_path (c : SiteCache) : path := sc_root c ++ [METADATA_FILENAME].
Definition disabled_marker_path (c : SiteCache) : path := sc_root c ++ [DISABLED_MARKER_FILENAME].

Record CachePrepareResult := MkCachePrepareResult {
  cpr_mounts : list CacheMount;
  cpr_event : option CacheEvent;
  cpr_lockfile : option LockfileSnapshot;
}.

(** * Site identifiers: [[A-Za-z0-9_-]{1,128}] *)

Definition site_char (c : N) : bool :=
  ((65 <=? c) && (c <=? 90) || (97 <=? c) && (c <=? 122) || (48 <=? c) && (c <=? 57) || (c =? 95) || (c =? 45))%N.
Definition safe_site_id (s : ustr) : bool :=
  (1 <=? length s)%nat && (length s <=? 128)%nat && forallb site_char s.

Definition validate_site_id (site_id : ustr) : result () :=
  fail_if (negb (safe_site_id site_id)) (cache_error (u "site_id must be a safe path component")).

Definition cache_root (state_dir : path) : path := state_dir ++ [u "cache"].
Definition site_root (state_dir : path) (site_id : ustr) : path := cache_root state_dir ++ [site_id].

Definition site_cache (state_dir : path) (site_id : ustr) (pm : PackageManager) : result SiteCache :=
  validate_site_id site_id;; Ok (MkSiteCache (site_root state_dir site_id) pm).

(** * Reset *)

Definition reset_cache_unlocked (now : instant) (state_dir : path) (site_id : option ustr) : M fs () :=
  let target := match site_id with Some s => site_root state_dir s | None => cache_root state_dir end in
  there ← gets (λ f, exists_ f target);
  if (there : bool) then
    dir ← gets (λ f, is_dir f target);
    raise_if (negb (dir : bool)) (cache_error (u "Cache path is not a directory: " ++ path_str target));;
    rmtree now target
  else mret ().

Definition reset_cache (now : instant) (state_dir : path) (site_id : option ustr) : M fs () :=
  match site_id with Some s => lift (validate_site_id s) | None => mret () end;;
  reset_cache_unlocked now state_dir site_id.

(** * Metadata *)

Definition decode_metadata (p : path) (text : ustr) : result jdict :=
  match loads text with
  | Ok (JObj d) => Ok d
  | Ok _ => Err (cache_error (u "Cache metadata is invalid: " ++ path_str p))
  | Err e => if isinstance e JSONDecodeError then Err (cache_error (u "Cache metadata is invalid: " ++ path_str p))
             else Err e
  end.

Definition read_metadata (p : path) : M fs (option jdict) :=
  there ← gets (λ f, exists_ f p);
  if (there : bool) then
    text ← try_except (read_text p) (λ e,
             if isinstance e OSError then raise (cache_error (u "Cache metadata is invalid: " ++ path_str p)) else raise e);
    d ← lift (decode_metadata p text);
    mret (Some d)
  else mret None.

Definition lockfile_json (l : option LockfileSnapshot) : json :=
  match l with
  | Some l => JObj [(u "name", JStr (ls_name l)); (u "sha256", JStr (ls_sha256 l))]
  | None => JNull
  end.

Definition metadata_payload (now : instant) (c : SiteCache) (l : option LockfileSnapshot) : jdict :=
  [(u "package_manager", JStr (manager_text (sc_package_manager c)));
   (u "lockfile", lockfile_json l);
   (u "updated_at", JStr (format_datetime now))].

Definition write_metadata (now : instant) (c : SiteCache) (l : option LockfileSnapshot) : M fs () :=
  mkdir_parents now (sc_root c);;
  write_text now (metadata_path c) (dumps (spaced true) (JObj (metadata_payload now c l))).

Definition metadata_lockfile (metadata : jdict) : result (option LockfileSnapshot) :=
  let invalid := Err (cache_error (u "Cache metadata lockfile field is invalid")) in
  match dget (u "lockfile") metadata with
  | None | Some JNull => Ok None
  | Some (JObj l) =>
      match dget (u "name") l, dget (u "sha256") l with
      | Some (JStr n), Some (JStr s) => Ok (Some (MkLockfileSnapshot n s))
      | _, _ => invalid
      end
  | Some _ => invalid
  end.

Definition lockfile_snapshot (project_root : path) (pm : PackageManager) : M fs (option LockfileSnapshot) := λ f,
  match List.find (λ fm : ustr * PackageManager, bool_decide (fm.2 = pm) && is_file f (project_root ++ [fm.1])) LOCKFILE_PRIORITY with
  | None => (Ok None, f)
  | Some (filename, _) =>
      match read_bytes (project_root ++ [filename]) f with
      | (Ok b, f) => (Ok (Some (MkLockfileSnapshot filename (sha256_hex b))), f)
      | (Err e, f) => (Err e, f)
      end
  end.

Definition touch_site_cache (now : instant) (root : path) : M fs () :=
  mkdir_parents now root;;
  touch now root;;
  there ← gets (λ f, exists_ f (root ++ [METADATA_FILENAME]));
  if (there : bool) then touch now (root ++ [METADATA_FILENAME]) else mret ().

Definition mounts (now : instant) (c : SiteCache) : M fs (list CacheMount) :=
  mkdir_parents now (sc_root c);;
  mkdir_parents now (sc_root c);;
  let base := MkCacheMount (sc_root c) (u "/cache") in
  if bool_decide (sc_package_manager c ∈ [Npm; Pnpm]) then
    mkdir_parents now (sc_root c ++ [u "node-home"]);;
    mret [base; MkCacheMount (sc_root c ++ [u "node-home"]) (u "/home/node")]
  else mret [base].

(** * Walking a tree

    [path.rglob("*")] lists every entry below a directory, in an order the
    operating system chooses: a parameter. *)

Class DirScan := rglob : fs → path → list path.

(** What a scan lists: the entries below the directory [p] leads to, each once. *)
Definition scans (f : fs) (p : path) (l : list path) : Prop :=
  NoDup l ∧ ∀ x, x ∈ l ↔ ∃ q rest, locate f p = Some q ∧ rest ≠ [] ∧ x = p ++ rest ∧ f !! (q ++ rest) ≠ None.

Section scan.
Context `{DirScan}.

Definition file_size (f : fs) (p : path) : Z :=
  match stat f p with Some (EFile c _ _) => Z.of_nat (length c) | _ => 0 end.

Definition directory_size_bytes (f : fs) (root : path) : Z :=
  if negb (exists_ f root) then 0
  else if is_file f root then file_size f root
  else foldr Z.add 0 ((λ p, if is_file f p then file_size f p else 0) <$> rglob f root).

Definition cache_size_bytes (f : fs) (state_dir : path) : Z := directory_size_bytes f (cache_root state_dir).

Definition own_file (p : path) : bool := mem_str (name p) [METADATA_FILENAME; DISABLED_MARKER_FILENAME].

Definition has_cache_contents (f : fs) (root : path) : bool :=
  if negb (exists_ f root) then false
  else existsb (λ p, is_file f p && negb (own_file p)) (rglob f root).

(** * Preparing a site's cache *)

Definition prepare_site_cache (now : instant) (state_dir : path) (site_id : ustr) (pm : PackageManager)
    (project_root : path) (enabled : bool) : M fs CachePrepareResult :=
  cache ← lift (site_cache state_dir site_id pm);
  if negb enabled then
    mkdir_parents now (sc_root cache);;
    write_text now (disabled_marker_path cache) (format_datetime now);;
    mret (MkCachePrepareResult [] None None)
  else
    lockfile ← lockfile_snapshot project_root pm;
    marked ← gets (λ f, exists_ f (disabled_marker_path cache));
    (if (marked : bool) then reset_cache_unlocked now state_dir (Some site_id) else mret ());;
    previous ← read_metadata (metadata_path cache);
    changed ← match previous with
              | None => mret false
              | Some d => l ← lift (metadata_lockfile d); mret (negb (bool_decide (l = lockfile)))
              end;
    (if (changed : bool) then reset_cache_unlocked now state_dir (Some site_id) else mret ());;
    had_contents ← gets (λ f, has_cache_contents f (sc_root cache));
    ms ← mounts now cache;
    write_metadata now cache lockfile;;
    touch_site_cache now (sc_root cache);;
    if marked || changed then mret (MkCachePrepareResult ms (Some WIPED) lockfile)
    else
      let hit := match previous with Some _ => had_contents : bool | None => false end in
      mret (MkCachePrepareResult ms (Some (if hit then HIT else MISS)) lockfile).

(** * Pruning *)

(** [sorted(path for path in cache_root.iterdir() if path.is_dir())]. *)
Definition site_roots (f : fs) (root : path) : list path :=
  sort_by (λ a b, ustr_leb (name a) (name b))
    (List.filter (λ p, bool_decide (length p = S (length root)) && is_dir f p) (rglob f root)).

Definition entry_mtime (e : entry) : instant := match e with EFile _ m _ | EDir m => m | ELink _ _ => 0 end.

Definition last_access (f : fs) (root : path) : instant :=
  let p := root ++ [METADATA_FILENAME] in
  match stat f (if exists_ f p then p else root) with Some e => entry_mtime e | None => 0 end.

Definition file_atime (f : fs) (p : path) : instant :=
  match stat f p with Some (EFile _ _ a) => a | Some e => entry_mtime e | None => 0 end.

Definition remove_site_root (now : instant) (root : path) : M fs () :=
  dir ← gets (λ f, is_dir f root);
  raise_if (negb (dir : bool)) (cache_error (u "Cache path is not a directory: " ++ path_str root));;
  rmtree now root.

(** [path_leb] orders paths by their components. *)
Fixpoint path_leb (a b : path) : bool :=
  match a, b with
  | [], _ => true
  | _, [] => false
  | x :: a, y :: b => match ustr_compare x y with Lt => true | Eq => path_leb a b | Gt => false end
  end.

Definition remove_empty_dirs (now : instant) (root : path) : M fs () :=
  dirs ← gets (λ f, reverse (sort_by path_leb (List.filter (is_dir f) (rglob f root))));
  for_each (λ p, suppress OSError (rmdir now p)) dirs.

(** The loop over the candidates; [true] when it returned early. *)
Fixpoint prune_loop (now : instant) (root : path) (max_bytes : Z) (candidates : list path) : M fs bool :=
  match candidates with
  | [] => mret false
  | p :: candidates =>
      fits ← gets (λ f, directory_size_bytes f root <=? max_bytes);
      if (fits : bool) then mret true
      else unlink now true p;; prune_loop now root max_bytes candidates
  end.

Definition prune_children_lru (now : instant) (root : path) (max_bytes : Z) : M fs () :=
  candidates ← gets (λ f, sort_by (λ a b, file_atime f a <=? file_atime f b)
                            (List.filter (λ p, is_file f p && negb (own_file p)) (rglob f root)));
  early ← prune_loop now root max_bytes candidates;
  if (early : bool) then mret () else remove_empty_dirs now root.

Fixpoint prune_expired (now expires_before : instant) (excluded : list ustr) (roots : list path) : M fs (list path) :=
  match roots with
  | [] => mret []
  | r :: roots =>
      old ← gets (λ f, negb (mem_str (name r) excluded) && (last_access f r <? expires_before));
      if (old : bool) then
        remove_site_root now r;; rest ← prune_expired now expires_before excluded roots; mret (r :: rest)
      else prune_expired now expires_before excluded roots
  end.

Fixpoint prune_large (now : instant) (max_bytes : Z) (excluded : list ustr) (roots : list path) : M fs (list path) :=
  match roots with
  | [] => mret []
  | r :: roots =>
      small ← gets (λ f, mem_str (name r) excluded || (directory_size_bytes f r <=? max_bytes));
      if (small : bool) then prune_large now max_bytes excluded roots
      else
        prune_children_lru now r max_bytes;;
        large ← gets (λ f, max_bytes <? directory_size_bytes f r);
        if (large : bool) then
          remove_site_root now r;; rest ← prune_large now max_bytes excluded roots; mret (r :: rest)
        else prune_large now max_bytes excluded roots
  end.

Definition prune_cache (now : instant) (state_dir : path) (site_max_bytes ttl_days : Z) (excluded : list ustr)
    : M fs (list path) :=
  let root := cache_root state_dir in
  there ← gets (λ f, exists_ f root);
  if negb there then mret []
  else
    expires_before ← lift (add_time now (- days ttl_days));
    roots ← gets (λ f, site_roots f root);
    gone ← prune_expired now expires_before excluded roots;
    roots ← gets (λ f, site_roots f root);
    more ← prune_large now site_max_bytes excluded roots;
    mret (gone ++ more).

End scan.
