(* ===== verification/Url.v ===== *)
(** URL splitting and joining ([urllib.parse.urlparse], [urlunparse]) as far
    as the engine uses them.  Checks on host names with brackets or beyond
    ASCII need the IP-address and Unicode tables of the standard library; they
    are one parameter, consulted only for such names. *)

From S2P Require Import Prelude PyStr.

Local Open Scope N_scope.

(** [str.lower()] on ASCII letters. *)
Definition lower_char (c : N) : N := if (65 <=? c) && (c <=? 90) then c + 32 else c.
Definition lower (s : ustr) : ustr := lower_char <$> s.

Definition is_alpha (c : N) : bool := (65 <=? c) && (c <=? 90) || (97 <=? c) && (c <=? 122).
Definition scheme_char (c : N) : bool := is_alpha c || is_digit c || (c =? 43) || (c =? 45) || (c =? 46).

Record url_parts := UrlParts {
  u_scheme : ustr; u_netloc : ustr; u_path : ustr; u_params : ustr; u_query : ustr; u_fragment : ustr;
}.

(** The text before the first character of [stops], and the rest. *)
Fixpoint break_at (stops : list N) (s : ustr) : ustr * ustr :=
  match s with
  | [] => ([], [])
  | c :: t => if bool_decide (c ∈ stops) then ([], s) else let '(h, r) := break_at stops t in (c :: h, r)
  end.

(** [url.split(sep, 1)] when [sep] occurs. *)
Definition split_first (sep : N) (s : ustr) : ustr * ustr :=
  let '(h, _, t) := partition_on sep s in (h, t).

Definition split_scheme (url : ustr) : ustr * ustr :=
  match break_at [58] url with
  | (h, 58 :: t) =>
      match h with
      | c :: _ => if is_alpha c && forallb scheme_char h then (lower h, t) else ([], url)
      | [] => ([], url)
      end
  | _ => ([], url)
  end.

(** Text of the url before parameters: the first [;] after the last [/]. *)
Definition split_params (s : ustr) : ustr * ustr :=
  let segments := split_on 47 s in
  let '(h, found, t) := partition_on 59 (default [] (last segments)) in
  if found : bool then (join (u "/") (removelast segments ++ [h]), t) else (s, []).

Definition uses_params : list ustr :=
  [[]; u "ftp"; u "hdl"; u "prospero"; u "http"; u "https"; u "shttp"; u "rtsp"; u "rtsps"; u "rtspu";
   u "sip"; u "sips"; u "mms"; u "sftp"; u "tel"].
Definition uses_netloc : list ustr :=
  [[]; u "ftp"; u "http"; u "gopher"; u "nntp"; u "telnet"; u "imap"; u "wais"; u "file"; u "mms"; u "https";
   u "shttp"; u "snews"; u "prospero"; u "rtsp"; u "rtsps"; u "rtspu"; u "rsync"; u "svn"; u "svn+ssh"; u "sftp";
   u "nfs"; u "git"; u "git+ssh"; u "ws"; u "wss"; u "itms-services"].

(** Host names that need no further check. *)
Definition plain_netloc (s : ustr) : bool := forallb (λ c, (c <? 128) && negb (c =? 91) && negb (c =? 93)) s.

Section url.
Context (netloc_check : ustr → result ()).

Definition check_netloc (netloc : ustr) : result () :=
  if plain_netloc netloc then Ok () else netloc_check netloc.

Definition urlparse (url : ustr) : result url_parts :=
  let url := lstrip (λ c, c <=? 32) url in
  let url := List.filter (λ c, negb ((c =? 9) || (c =? 13) || (c =? 10))) url in
  let '(scheme, url) := split_scheme url in
  let '(netloc, url) := match url with
                        | 47 :: 47 :: rest => break_at [47; 63; 35] rest
                        | _ => ([], url)
                        end in
  check_netloc netloc;;
  let '(url, fragment) := split_first 35 url in
  let '(url, query) := split_first 63 url in
  let '(path, params) := if mem_str scheme uses_params then split_params url else (url, []) in
  Ok (UrlParts scheme netloc path params query fragment).

End url.

(** [urlunparse((scheme, netloc, path, "", "", ""))]. *)
Definition urlunparse (scheme netloc path : ustr) : ustr :=
  let slash := match path with c :: _ => c =? 47 | [] => false end in
  let url :=
    match netloc with
    | _ :: _ => u "//" ++ netloc ++ match path with [] => [] | _ => if slash then path else 47 :: path end
    | [] => if startswith path (u "//") then u "//" ++ path
            else if negb (bool_decide (scheme = [])) && mem_str scheme uses_netloc
                    && (bool_decide (path = []) || slash)
            then u "//" ++ path else path
    end in
  match scheme with [] => url | _ => scheme ++ 58 :: url end.

(** * Lemmas *)

Lemma break_at_spec stops s h r :
  break_at stops s = (h, r) →
  s = h ++ r ∧ Forall (λ c, c ∉ stops) h ∧ match r with c :: _ => c ∈ stops | [] => True end.
Proof.
  revert h r. induction s as [|c s IH]; cbn [break_at]; intros h r; [by intros [= <- <-]|].
  case_bool_decide as E; [by intros [= <- <-]|].
  destruct (break_at stops s) as [h' r'] eqn:Eb. intros [= <- <-].
  destruct (IH h' r' eq_refl) as (-> & Hh & Hr). split_and!; [done|by constructor|done].
Qed.

Lemma break_at_app stops h r :
  Forall (λ c, c ∉ stops) h → match r with c :: _ => c ∈ stops | [] => True end → break_at stops (h ++ r) = (h, r).
Proof.
  intros Hh Hr. induction Hh as [|c h Hc _ IH]; cbn [break_at app].
  - destruct r as [|c r]; [done|]. cbn. by rewrite bool_decide_true.
  - rewrite bool_decide_false by done. by rewrite IH.
Qed.
