(* ===== verification/Args.v ===== *)
(** Command lines as [argparse] of the standard library reads them: what the
    program's parser (src/src/build_engine/cli/commands.py) uses of it, which is
    long options with one value or none, [-h], and subcommands. *)

From S2P Require Import Prelude PyStr Dict Url.

Local Open Scope Z_scope.

(** * Namespaces *)

(** Attribute values; a function of the program is its name. *)
Inductive arg_value :=
| VNone
| VStr (s : ustr)
| VInt (z : Z)
| VBool (b : bool)
| VList (l : list ustr)
| VFun (f : ustr).

#[export] Instance arg_value_eq_dec : EqDecision arg_value.
Proof. solve_decision. Defined.

Abbreviation namespace := (list (ustr * arg_value)).

(** * Parsers *)

Inductive action :=
| Store (choices : option (list ustr))
| StoreInt
| Append
| StoreTrue
| HelpAction
| VersionAction.

Record opt_spec := MkOpt {
  o_names : list ustr;
  o_dest : ustr;
  o_action : action;
  o_default : arg_value;
  o_required : bool;
}.

(** Options, [set_defaults], and the subcommands under their [dest]. *)
Inductive parser := Parser (options : list opt_spec) (defaults : namespace) (subparsers : option (ustr * list (ustr * parser))).

(** [add_argument(flag, ...)]: the attribute is named after the flag. *)
Definition dest_of (flag : ustr) : ustr := replace (lstrip (is_char 45) flag) (u "-") (u "_").
Definition argument (flag : ustr) (a : action) (dflt : arg_value) (required : bool) : opt_spec :=
  MkOpt [flag] (dest_of flag) a dflt required.
Definition help_option : opt_spec := MkOpt [u "-h"; u "--help"] (u "help") HelpAction VNone false.

(** How parsing ends without a namespace. *)
Inductive usage_error :=
| Ambiguous (text : ustr)
| ExpectedArgument (flag : ustr)
| IgnoredArgument (flag explicit : ustr)
| InvalidInt (flag text : ustr)
| InvalidChoice (text : ustr)
| Required (flags : list ustr)
| Unrecognized (texts : list ustr).
Inductive parse_stop := HelpPrinted | VersionPrinted | UsageError (e : usage_error).

(** [SystemExit.code]. *)
Definition exit_code (e : parse_stop) : Z := match e with HelpPrinted | VersionPrinted => 0 | UsageError _ => 2 end.

Inductive parsed (A : Type) := Parsed (a : A) | Stopped (e : parse_stop).
Arguments Parsed {A}. Arguments Stopped {A}.

#[export] Instance parsed_ret : MRet parsed := @Parsed.
#[export] Instance parsed_bind : MBind parsed := λ A B f m, match m with Parsed a => f a | Stopped e => Stopped e end.

Definition usage {A} (e : usage_error) : parsed A := Stopped (UsageError e).

(** * Options among the arguments *)

Definition takes_value (a : action) : bool := match a with Store _ | StoreInt | Append => true | _ => false end.
(** Defaults of [SUPPRESS]: no attribute. *)
Definition suppressed (a : action) : bool := match a with HelpAction | VersionAction => true | _ => false end.

(** One reading of an argument as an option; [ca_sep] says whether the
    separator found is a nonempty string. *)
Record candidate := MkCand { ca_action : option opt_spec; ca_string : ustr; ca_sep : bool; ca_explicit : option ustr }.

Inductive token := TArg | TDash | TOpt (cs : list candidate).

Section options.
(** Texts taken for negative numbers; which ones differs between releases. *)
Context (negative : ustr → bool) (opts : list opt_spec).

(** [_option_string_actions]. *)
Definition option_strings : list (ustr * opt_spec) := concat ((λ o, (λ n, (n, o)) <$> o_names o) <$> opts).
Definition find_option (s : ustr) : option opt_spec := dget s option_strings.

(** [arg_string.partition("=")]. *)
Definition split_equals (s : ustr) : ustr * bool * ustr := partition_on 61 s.

(** [_get_option_tuples]: abbreviations of long options, and values joined to
    a short one. *)
Definition long_candidates (s : ustr) : list candidate :=
  let '(prefix, found, explicit) := split_equals s in
  (λ no : ustr * opt_spec, MkCand (Some no.2) no.1 found (if found : bool then Some explicit else None))
    <$> List.filter (λ no, startswith no.1 prefix) option_strings.

Definition short_candidates (c : N) (explicit s : ustr) : list candidate :=
  concat ((λ no : ustr * opt_spec,
    if ustr_eqb no.1 [45%N; c] then [MkCand (Some no.2) no.1 false (Some explicit)]
    else if startswith no.1 s then [MkCand (Some no.2) no.1 false None] else []) <$> option_strings).

Definition option_tuples (s : ustr) : list candidate :=
  match s with
  | 45%N :: 45%N :: _ => long_candidates s
  | 45%N :: c :: explicit => short_candidates c explicit s
  | _ => []
  end.

(** [_parse_optional]; [None] is a positional argument. *)
Definition parse_optional (s : ustr) : option (list candidate) :=
  match s with
  | [] => None
  | c :: rest =>
      if negb (c =? 45)%N then None
      else match find_option s with
      | Some o => Some [MkCand (Some o) s false None]
      | None =>
          if bool_decide (rest = []) then None
          else
            let '(name, found, explicit) := split_equals s in
            match (if found : bool then find_option name else None) with
            | Some o => Some [MkCand (Some o) name true (Some explicit)]
            | None =>
                match option_tuples s with
                | (_ :: _) as cs => Some cs
                | [] =>
                    if negative s then None
                    else if bool_decide (32%N ∈ s) then None
                    else Some [MkCand None s false None]
                end
            end
      end
  end.

(** The arguments with their classes; after [--] there are no options. *)
Fixpoint classify (args : list ustr) : list (ustr * token) :=
  match args with
  | [] => []
  | s :: args =>
      if ustr_eqb s (u "--") then (s, TDash) :: ((λ a, (a, TArg)) <$> args)
      else (s, match parse_optional s with None => TArg | Some cs => TOpt cs end) :: classify args
  end.

(** * Actions *)

Record progress := MkProgress {
  pg_namespace : namespace;
  pg_seen : list ustr;
  pg_extras : list ustr;
  pg_pending : bool;       (* the subcommand has not been read *)
}.

Definition set_attr (o : opt_spec) (v : arg_value) (g : progress) : progress :=
  MkProgress (dset (o_dest o) v (pg_namespace g)) (o_dest o :: pg_seen g) (pg_extras g) (pg_pending g).
Definition add_extra (l : list ustr) (g : progress) : progress :=
  MkProgress (pg_namespace g) (pg_seen g) (pg_extras g ++ l) (pg_pending g).

Definition flag_of (o : opt_spec) : ustr := default [] (head (o_names o)).

(** [take_action]: the values are converted and checked, then stored. *)
Definition take_action (o : opt_spec) (args : list ustr) (g : progress) : parsed progress :=
  match o_action o, args with
  | Store choices, [v] =>
      if match choices with Some l => negb (mem_str v l) | None => false end then usage (InvalidChoice v)
      else Parsed (set_attr o (VStr v) g)
  | StoreInt, [v] => match py_int (strip is_space) v with
                     | Some z => Parsed (set_attr o (VInt z) g)
                     | None => usage (InvalidInt (flag_of o) v)
                     end
  | Append, [v] =>
      let items := match dget (o_dest o) (pg_namespace g) with Some (VList l) => l | _ => [] end in
      Parsed (set_attr o (VList (items ++ [v])) g)
  | StoreTrue, [] => Parsed (set_attr o (VBool true) g)
  | HelpAction, _ => Stopped HelpPrinted
  | VersionAction, _ => Stopped VersionPrinted
  | _, _ => usage (ExpectedArgument (flag_of o))
  end.

Fixpoint take_actions (acts : list (opt_spec * list ustr)) (g : progress) : parsed progress :=
  match acts with
  | [] => Parsed g
  | (o, args) :: acts => g ← take_action o args g; take_actions acts g
  end.

(** An option with a value joined to it: the actions it stands for and what is
    left over, or the last option of a cluster, whose value is yet to come. *)
Inductive joined :=
| JDone (acts : list (opt_spec * list ustr)) (extras : list ustr)
| JNext (acts : list (opt_spec * list ustr)) (o : opt_spec) (string : ustr).

Definition short_string (s : ustr) : bool := match s with _ :: c :: _ => negb (c =? 45)%N | _ => false end.

Fixpoint consume_explicit (o : opt_spec) (string : ustr) (sep : bool) (explicit : ustr)
    (acts : list (opt_spec * list ustr)) {struct explicit} : parsed joined :=
  match explicit with
  | c :: rest =>
      if negb (takes_value (o_action o)) && short_string string then
        if sep || (c =? 45)%N then usage (IgnoredArgument string explicit)
        else
          let acts := acts ++ [(o, [])] in
          match find_option [45%N; c] with
          | None => Parsed (JDone acts [45%N :: explicit])
          | Some o' =>
              match rest with
              | [] => Parsed (JNext acts o' [45%N; c])
              | d :: rest' => if (d =? 61)%N then consume_explicit o' [45%N; c] true rest' acts
                              else consume_explicit o' [45%N; c] false rest acts
              end
          end
      else if takes_value (o_action o) then Parsed (JDone (acts ++ [(o, [explicit])]) [])
      else usage (IgnoredArgument string explicit)
  | [] => if takes_value (o_action o) then Parsed (JDone (acts ++ [(o, [[]])]) []) else usage (IgnoredArgument string [])
  end.

(** * The parsing loop *)

Section loop.
(** The subcommands: where their name is stored, and what reads the rest. *)
Context (sub : option (ustr * (ustr → option (list ustr → parsed (namespace * list ustr))))).

(** [_SubParsersAction]: the first word chooses, all others are passed on. *)
Definition run_sub (words : list ustr) (g : progress) : parsed progress :=
  match sub, words with
  | Some (dest, find), name :: rest =>
      match find name with
      | None => usage (InvalidChoice name)
      | Some parse =>
          '(ns, extras) ← parse rest;
          Parsed (MkProgress (dmerge (dset dest (VStr name) (pg_namespace g)) ns) (pg_seen g) (pg_extras g ++ extras) false)
      end
  | _, _ => Parsed g
  end.

Definition pending (g : progress) : bool := match sub with Some _ => pg_pending g | None => false end.

(** The arguments from left to right. A subcommand takes everything that follows it. *)
Fixpoint consume (todo : list (ustr * token)) (g : progress) : parsed progress :=
  match todo with
  | [] => Parsed g
  | (s, TArg) :: rest =>
      if pending g then run_sub (s :: (fst <$> rest)) g else consume rest (add_extra [s] g)
  | (s, TDash) :: rest =>
      if pending g && negb (bool_decide (rest = [])) then run_sub (fst <$> rest) g else consume rest (add_extra [s] g)
  | (s, TOpt [MkCand None _ _ _]) :: rest => consume rest (add_extra [s] g)
  | (s, TOpt [MkCand (Some o) string sep explicit]) :: rest =>
      step ← match explicit with
             | None => Parsed (JNext [] o string)
             | Some e => consume_explicit o string sep e []
             end;
      match step with
      | JDone acts extras => g ← take_actions acts g; consume rest (add_extra extras g)
      | JNext acts o string =>
          if takes_value (o_action o) then
            match rest with
            | (v, TArg) :: rest => g ← take_actions (acts ++ [(o, [v])]) g; consume rest g
            | _ => usage (ExpectedArgument string)
            end
          else g ← take_actions (acts ++ [(o, [])]) g; consume rest g
      end
  | (s, TOpt _) :: rest => usage (Ambiguous s)
  end.

(** The attributes before the first argument is read. *)
Definition initial (dflts : namespace) : namespace :=
  let options := (λ o, (o_dest o, o_default o)) <$> List.filter (λ o, negb (suppressed (o_action o))) opts in
  let ns := dict_of_pairs (options ++ match sub with Some (dest, _) => [(dest, VNone)] | None => [] end) in
  fold_left (λ ns kv, dsetdefault kv.1 kv.2 ns) dflts ns.

(** [parse_known_args]: the namespace, and what was not understood. *)
Definition parse_with (dflts : namespace) (args : list ustr) : parsed (namespace * list ustr) :=
  g ← consume (classify args) (MkProgress (initial dflts) [] [] true);
  match flag_of <$> List.filter (λ o, o_required o && negb (mem_str (o_dest o) (pg_seen g))) opts with
  | [] => Parsed (pg_namespace g, pg_extras g)
  | missing => usage (Required missing)
  end.

End loop.
End options.

Fixpoint parse_known_args (negative : ustr → bool) (p : parser) (args : list ustr) {struct p} : parsed (namespace * list ustr) :=
  match p with
  | Parser opts dflts subs =>
      let find := fix find (l : list (ustr * parser)) (name : ustr) : option (list ustr → parsed (namespace * list ustr)) :=
        match l with
        | [] => None
        | (n, q) :: l => if ustr_eqb n name then Some (parse_known_args negative q) else find l name
        end in
      parse_with negative opts match subs with Some (dest, l) => Some (dest, find l) | None => None end dflts args
  end.

(** The same with the choice of the subcommand as a function of its own. *)
Section find_parser.
Context (negative : ustr → bool).
Fixpoint find_parser (l : list (ustr * parser)) (name : ustr) : option (list ustr → parsed (namespace * list ustr)) :=
  match l with
  | [] => None
  | (n, q) :: l => if ustr_eqb n name then Some (parse_known_args negative q) else find_parser l name
  end.
End find_parser.

Lemma parse_known_args_eq negative opts dflts subs args :
  parse_known_args negative (Parser opts dflts subs) args =
    parse_with negative opts match subs with Some (dest, l) => Some (dest, find_parser negative l) | None => None end dflts args.
Proof. by destruct subs as [[dest l]|]. Qed.

(** [parser.parse_args(argv)]. *)
Definition parse_args (negative : ustr → bool) (p : parser) (args : list ustr) : parsed namespace :=
  '(ns, extras) ← parse_known_args negative p args;
  match extras with [] => Parsed ns | _ => usage (Unrecognized extras) end.
