(* ===== verification/ArgsProofs.v ===== *)
(** How the parser reads options with a joined value, and which attributes a
    namespace has. *)

From S2P Require Import Prelude PyStr Dict Json Clock Uuid Url Args.

Local Open Scope Z_scope.

(** * Integers as text *)

Lemma digit_not_space c : is_digit c = true → is_space c = false.
Proof. unfold is_digit, is_space. intros Hc. rewrite bool_decide_false by (rewrite !elem_of_cons, elem_of_nil; lia). lia. Qed.

Lemma int_digits_value ds acc : Forall (λ c, is_digit c = true) ds →
  int_digits acc true ds = Some (fold_left (λ acc c, 10 * acc + (c - 48))%N ds acc).
Proof.
  intros Hd. revert acc. induction Hd as [|c ds Hc _ IH]; intros acc; [done|]. cbn [int_digits fold_left]. by rewrite Hc.
Qed.

Lemma int_digits_str n : int_digits 0 false (str_of_N n) = Some n.
Proof.
  pose proof (str_of_N_digits n) as Hd. pose proof (N_of_str_of_N n) as Hn. unfold N_of_digits in Hn.
  assert (str_of_N n ≠ []) as Hne by (destruct (str_of_N_head n) as [[_ ->]|(? & ? & -> & _)]; done).
  destruct Hd as [|c ds Hc Hd]; [done|]. cbn [int_digits]. rewrite Hc. rewrite int_digits_value by done. by f_equal.
Qed.

Lemma filter_digits s : Forall (λ c, is_digit c = true) s → List.filter is_digit s = s.
Proof. induction 1 as [|c s Hc _ IH]; [done|]. cbn. by rewrite Hc, IH. Qed.

Lemma py_int_unsigned f c r : f (c :: r) = c :: r → is_digit c = true →
  py_int f (c :: r) = if (4300 <? N.of_nat (length (List.filter is_digit (c :: r))))%N then None
                      else Z.of_N <$> int_digits 0 false (c :: r).
Proof.
  intros Hf Hc. unfold py_int. rewrite Hf.
  assert (c ∈ [48; 49; 50; 51; 52; 53; 54; 55; 56; 57]%N) as Hin by (unfold is_digit in Hc; rewrite !elem_of_cons; lia).
  rewrite !elem_of_cons, elem_of_nil in Hin. by repeat destruct Hin as [->|Hin].
Qed.

(** [int(str(z))], within the limit of digits. *)
Lemma py_int_str z : int_ok z = true → py_int (strip is_space) (str_of_Z z) = Some z.
Proof.
  intros Hz. unfold int_ok, MAX_STR_DIGITS in Hz. apply Nat.leb_le in Hz.
  pose proof (str_of_N_digits (Z.abs_N z)) as Hd.
  assert (Forall (λ c, is_space c = false) (str_of_N (Z.abs_N z))) as Hs.
  { eapply Forall_impl; [exact Hd|]. apply digit_not_space. }
  assert ((4300 <? N.of_nat (length (List.filter is_digit (str_of_N (Z.abs_N z)))))%N = false) as Hlen
    by (rewrite filter_digits by done; lia).
  pose proof (int_digits_str (Z.abs_N z)) as Hi. rewrite str_of_Z_cases. destruct (z <? 0) eqn:Ez.
  - unfold py_int. rewrite strip_id by by constructor. rewrite Hlen, Hi. cbn. f_equal. lia.
  - destruct (str_of_N (Z.abs_N z)) as [|c r]; [done|]. rewrite py_int_unsigned; [|by apply strip_id|by inversion Hd].
    rewrite Hlen, Hi. cbn. f_equal. lia.
Qed.

(** * Options with a joined value *)

Section values.
Context (negative : ustr → bool) (opts : list opt_spec) (sub : option (ustr * (ustr → option (list ustr → parsed (namespace * list ustr))))).

(** No option contains the sign that separates values. *)
Context (Hopts : Forall (λ no, (61%N : N) ∉ no.1) (option_strings opts)).

(** A long option of the parser. *)
Definition long_option (flag : ustr) (o : opt_spec) : Prop :=
  find_option opts flag = Some o ∧ ∃ c rest, flag = 45%N :: 45%N :: c :: rest.

Lemma flag_no_sep flag o : find_option opts flag = Some o → Forall (λ d, d ≠ 61%N) flag.
Proof using Hopts.
  intros Ho%dget_Some_elem. rewrite Forall_forall in Hopts. specialize (Hopts _ Ho). apply Forall_forall.
  intros d Hd ->. by apply Hopts.
Qed.

Lemma find_joined flag v : find_option opts (flag ++ 61%N :: v) = None.
Proof using Hopts.
  destruct (find_option opts _) as [o|] eqn:E; [|done]. apply dget_Some_elem in E. rewrite Forall_forall in Hopts.
  destruct (Hopts _ E). cbn. apply elem_of_app. right. by left.
Qed.

Lemma parse_optional_value flag o v : long_option flag o →
  parse_optional negative opts (flag ++ 61%N :: v) = Some [MkCand (Some o) flag true (Some v)].
Proof using Hopts.
  intros [Ho (c & rest & Hf)]. pose proof (find_joined flag v) as Hj. pose proof (flag_no_sep flag o Ho) as Hs.
  unfold parse_optional, split_equals. rewrite Hj, (partition_on_found _ _ _ Hs), Ho. by subst flag.
Qed.

Lemma classify_value flag o v args : long_option flag o →
  classify negative opts ((flag ++ 61%N :: v) :: args) =
    (flag ++ 61%N :: v, TOpt [MkCand (Some o) flag true (Some v)]) :: classify negative opts args.
Proof using Hopts.
  intros Hl. cbn [classify]. rewrite (parse_optional_value flag o) by done. unfold ustr_eqb. rewrite bool_decide_false; [done|].
  destruct Hl as [_ (c & rest & ->)]. done.
Qed.

Lemma add_extra_nil g : add_extra [] g = g.
Proof. destruct g. unfold add_extra. cbn. by rewrite app_nil_r. Qed.

(** The value is taken as it is, whatever it contains. *)
Lemma consume_value flag o v args g : long_option flag o → takes_value (o_action o) = true →
  consume opts sub (classify negative opts ((flag ++ 61%N :: v) :: args)) g =
    (g ← take_action o [v] g; consume opts sub (classify negative opts args) g).
Proof using Hopts.
  intros Hl Ht. rewrite (classify_value flag o) by done. cbn [consume].
  assert (consume_explicit opts o flag true v [] = Parsed (JDone [(o, [v])] [])) as ->.
  { destruct v; cbn; by rewrite Ht. }
  cbn. destruct (take_action o [v] g) as [g'|]; cbn; [by rewrite add_extra_nil|done].
Qed.

(** Several of them in a row. *)
Definition joined_words (pairs : list (ustr * ustr)) : list ustr := (λ fv : ustr * ustr, fv.1 ++ 61%N :: fv.2) <$> pairs.

Fixpoint take_pairs (pairs : list (ustr * ustr)) (g : progress) : parsed progress :=
  match pairs with
  | [] => Parsed g
  | (flag, v) :: pairs =>
      match find_option opts flag with Some o => g ← take_action o [v] g; take_pairs pairs g | None => take_pairs pairs g end
  end.

Lemma take_pairs_app l1 l2 g g' : take_pairs l1 g = Parsed g' → take_pairs (l1 ++ l2) g = take_pairs l2 g'.
Proof.
  revert g. induction l1 as [|[flag v] l1 IH]; intros g; cbn [app take_pairs]; [by intros [= ->]|].
  destruct (find_option opts flag) as [o|] eqn:Eo.
  - destruct (take_action o [v] g) as [g1|e]; [apply IH|done].
  - apply IH.
Qed.

Definition value_flag (flag : ustr) : Prop := ∃ o, long_option flag o ∧ takes_value (o_action o) = true.

Lemma consume_pairs pairs args g : Forall (λ fv, value_flag fv.1) pairs →
  consume opts sub (classify negative opts (joined_words pairs ++ args)) g =
    (g ← take_pairs pairs g; consume opts sub (classify negative opts args) g).
Proof using Hopts.
  intros Hp. revert g. induction Hp as [|[flag v] pairs (o & Hl & Ht) _ IH]; intros g; [done|].
  change (joined_words ((flag, v) :: pairs) ++ args) with ((flag ++ 61%N :: v) :: (joined_words pairs ++ args)).
  rewrite (consume_value flag o) by done. cbn [take_pairs]. destruct Hl as [Hl _]. cbn [fst] in Hl. rewrite Hl.
  destruct (take_action o [v] g) as [g'|e]; [apply IH|done].
Qed.

(** A flag without a value. *)
Lemma consume_flag flag o args g : long_option flag o → takes_value (o_action o) = false →
  consume opts sub (classify negative opts (flag :: args)) g =
    (g ← take_action o [] g; consume opts sub (classify negative opts args) g).
Proof.
  intros [Ho (c & rest & Hf)] Ht. cbn [classify]. unfold parse_optional. rewrite Ho. subst flag. cbn [N.eqb Pos.eqb negb consume].
  unfold ustr_eqb. rewrite bool_decide_false by done. cbn [consume]. unfold mbind at 1, parsed_bind at 1. rewrite Ht. cbn.
  by destruct (take_action o [] g).
Qed.

(** A word that is no option. *)
Lemma classify_word w args : head w ≠ Some 45%N → classify negative opts (w :: args) = (w, TArg) :: classify negative opts args.
Proof.
  intros Hw. cbn [classify]. unfold ustr_eqb. rewrite bool_decide_false by (by intros ->).
  destruct w as [|c w]; [done|]. unfold parse_optional. destruct (N.eqb_spec c 45) as [->|]; done.
Qed.

Lemma classify_fst args : fst <$> classify negative opts args = args.
Proof.
  induction args as [|s args IH]; [done|]. cbn [classify]. destruct (ustr_eqb s (u "--")); cbn; [|by rewrite IH].
  f_equal. clear IH. induction args as [|a args IH]; [done|]. cbn. by rewrite IH.
Qed.
End values.

(** * The attributes of a namespace *)

Section attributes.
Context (negative : ustr → bool) (opts : list opt_spec).
Context (Hdest : ∀ o o', o ∈ opts → o' ∈ opts → o_dest o = o_dest o' → o = o').

(** A value that was given. *)
Definition given_value (o : opt_spec) (v : arg_value) : Prop :=
  match o_action o with
  | Store None => ∃ s, v = VStr s
  | Store (Some l) => ∃ s, v = VStr s ∧ s ∈ l
  | StoreInt => ∃ z, v = VInt z
  | Append => ∃ l, v = VList l ∧ l ≠ []
  | StoreTrue => v = VBool true
  | _ => False
  end.

(** Every option has its attribute: the default, or a value that was given; no
    other attribute has changed. *)
Record attrs_ok (ns0 : namespace) (g : progress) : Prop := AttrsOk {
  ao_option : ∀ o, o ∈ opts → suppressed (o_action o) = false → ∃ v, dget (o_dest o) (pg_namespace g) = Some v ∧
    (given_value o v ∨ v = o_default o ∧ o_dest o ∉ pg_seen g);
  ao_other : ∀ k, k ∉ o_dest <$> opts → dget k (pg_namespace g) = dget k ns0;
  ao_keys : NoDup (dkeys (pg_namespace g));
}.

Lemma attrs_extra ns0 l g : attrs_ok ns0 g → attrs_ok ns0 (add_extra l g).
Proof. by intros [H1 H2 H3]; split. Qed.

Lemma attrs_set ns0 o v g : o ∈ opts → given_value o v → attrs_ok ns0 g → attrs_ok ns0 (set_attr o v g).
Proof using Hdest negative.
  intros Ho Hv [H1 H2 H3]. split.
  - intros o' Ho' Hs. cbn. destruct (decide (o_dest o = o_dest o')) as [E|E].
    + exists v. rewrite E, dget_dset_eq. split; [done|left]. by rewrite <- (Hdest o o').
    + destruct (H1 o' Ho' Hs) as (w & Hw & Hg). exists w. rewrite dget_dset_ne by done. split; [done|].
      destruct Hg as [Hg|[-> Hns]]; [by left|right]. split; [done|]. intros [Hd|Hd]%elem_of_cons; [by apply E|done].
  - intros k Hk. cbn. rewrite dget_dset_ne; [by apply H2|]. intros <-. apply Hk, list_elem_of_fmap. by exists o.
  - by apply dset_NoDup.
Qed.

Lemma attrs_action ns0 o args g g' : o ∈ opts → attrs_ok ns0 g → take_action o args g = Parsed g' → attrs_ok ns0 g'.
Proof using Hdest negative.
  intros Ho Hg. unfold take_action.
  destruct (o_action o) as [choices| | | | |] eqn:Ea, args as [|v [|? ?]]; try done.
  - destruct (match choices with Some l => _ | None => false end) eqn:Ec; [done|]. intros [= <-]. apply attrs_set; [done| |done].
    unfold given_value. rewrite Ea. destruct choices as [l|]; [|eauto]. exists v. split; [done|].
    apply negb_false_iff, bool_decide_eq_true in Ec. done.
  - destruct (py_int _ v) as [z|]; [|done]. intros [= <-]. apply attrs_set; [done| |done]. unfold given_value. rewrite Ea. eauto.
  - intros [= <-]. apply attrs_set; [done| |done]. unfold given_value. rewrite Ea. eexists. split; [done|]. by intros [_ ?]%app_eq_nil.
  - intros [= <-]. apply attrs_set; [done| |done]. unfold given_value. by rewrite Ea.
Qed.

Lemma attrs_actions ns0 acts g g' : Forall (λ a, a.1 ∈ opts) acts → attrs_ok ns0 g →
  take_actions acts g = Parsed g' → attrs_ok ns0 g'.
Proof using Hdest negative.
  intros Ha. revert g. induction Ha as [|[o args] acts Ho _ IH]; intros g Hg; [by intros [= <-]|]. cbn [take_actions].
  destruct (take_action o args g) as [g1|] eqn:E; [|done]. apply IH. by eapply attrs_action.
Qed.

Lemma option_strings_in n o : (n, o) ∈ option_strings opts → o ∈ opts.
Proof.
  unfold option_strings. intros (l & Hl & Hin)%list_elem_of_In%List.in_concat.
  apply list_elem_of_In, list_elem_of_fmap in Hl as (o' & -> & Ho').
  by apply list_elem_of_In, list_elem_of_fmap in Hin as (n' & [= -> ->] & _).
Qed.

Lemma find_option_in s o : find_option opts s = Some o → o ∈ opts.
Proof. intros Ho%dget_Some_elem. by eapply option_strings_in. Qed.

Definition candidate_in (c : candidate) : Prop := ∀ o, ca_action c = Some o → o ∈ opts.

Lemma long_candidates_in s : Forall candidate_in (long_candidates opts s).
Proof.
  unfold long_candidates. destruct (split_equals s) as [[prefix found] explicit]. apply Forall_fmap, Forall_forall.
  intros [n o'] Hc o [= <-]. apply list_elem_of_In, List.filter_In in Hc as [Hc _]. by eapply option_strings_in, list_elem_of_In.
Qed.

Lemma short_candidates_in c explicit s : Forall candidate_in (short_candidates opts c explicit s).
Proof.
  unfold short_candidates. apply Forall_concat, Forall_fmap, Forall_forall. intros [n o'] Hc%option_strings_in. cbn.
  destruct (ustr_eqb n _); [|destruct (startswith n s)]; repeat constructor; by intros o [= <-].
Qed.

Lemma option_tuples_in s : Forall candidate_in (option_tuples opts s).
Proof.
  unfold option_tuples. repeat (case_match; try constructor); apply long_candidates_in || apply short_candidates_in.
Qed.

Lemma parse_optional_in s cs : parse_optional negative opts s = Some cs → Forall candidate_in cs.
Proof.
  unfold parse_optional. destruct s as [|c rest]; [done|]. destruct (negb _); [done|].
  destruct (find_option opts (c :: rest)) as [o|] eqn:Eo.
  { intros [= <-]. repeat constructor. intros o' [= <-]. by eapply find_option_in. }
  destruct (bool_decide _); [done|]. destruct (split_equals (c :: rest)) as [[name found] explicit].
  destruct (if found then find_option opts name else None) as [o|] eqn:En.
  { intros [= <-]. repeat constructor. intros o' [= <-]. destruct found; [|done]. by eapply find_option_in. }
  pose proof (option_tuples_in (c :: rest)) as Ht. destruct (option_tuples opts (c :: rest)) as [|x l]; [|by intros [= <-]].
  destruct (negative _); [done|]. destruct (bool_decide _); [done|]. intros [= <-]. constructor; [by intros ?|constructor].
Qed.

Definition token_in (t : token) : Prop := match t with TOpt cs => Forall candidate_in cs | _ => True end.

Lemma classify_in args : Forall (λ t, token_in t.2) (classify negative opts args).
Proof.
  induction args as [|s args IH]; [constructor|]. cbn [classify]. destruct (ustr_eqb s (u "--")).
  - constructor; [done|]. apply Forall_fmap, Forall_forall. done.
  - constructor; [|done]. cbn. destruct (parse_optional negative opts s) as [cs|] eqn:E; [|done]. by eapply parse_optional_in.
Qed.

Definition joined_in (j : joined) : Prop :=
  match j with
  | JDone acts _ => Forall (λ a, a.1 ∈ opts) acts
  | JNext acts o _ => Forall (λ a, a.1 ∈ opts) acts ∧ o ∈ opts
  end.

Lemma consume_explicit_in n : ∀ o string sep explicit acts j, (length explicit <= n)%nat → o ∈ opts → Forall (λ a, a.1 ∈ opts) acts →
  consume_explicit opts o string sep explicit acts = Parsed j → joined_in j.
Proof.
  induction n as [|n IH]; intros o string sep [|c rest] acts j Hn Ho Ha; cbn [consume_explicit length] in *; try lia.
  1,2: destruct (takes_value _); [|done]; intros [= <-]; apply Forall_app; by repeat constructor.
  destruct (negb _ && _).
  - destruct (sep || _); [done|]. assert (Forall (λ a, a.1 ∈ opts) (acts ++ [(o, [])])) as Ha' by (apply Forall_app; by repeat constructor).
    destruct (find_option opts _) as [o'|] eqn:Eo; [|by intros [= <-]]. apply find_option_in in Eo.
    destruct rest as [|d rest]; [by intros [= <-]|]. cbn [length] in Hn.
    destruct (d =? 61)%N; intros E; eapply IH in E; try done; cbn [length]; lia.
  - destruct (takes_value _); [|done]. intros [= <-]. apply Forall_app; by repeat constructor.
Qed.

(** At the end of the arguments, or where a subcommand takes over. *)
Lemma attrs_consume sub ns0 n : ∀ todo g g', (length todo <= n)%nat → Forall (λ t, token_in t.2) todo → attrs_ok ns0 g →
  consume opts sub todo g = Parsed g' → attrs_ok ns0 g' ∨ ∃ ws gm, attrs_ok ns0 gm ∧ pending sub gm = true ∧ run_sub sub ws gm = Parsed g'.
Proof using Hdest negative.
  induction n as [|n IH]; intros [|[s t] rest] g g' Hn Ht Hg E; cbn [length] in Hn; try lia; try (injection E as <-; by left).
  apply Forall_cons in Ht as [Ht Hrest]. cbn [snd] in Ht. assert (length rest <= n)%nat as Hr by lia.
  destruct t as [| |cs]; cbn [consume] in E.
  - destruct (pending sub g) eqn:Ep; [right; by eexists _, _|]. eapply IH in E; [done..|by apply attrs_extra].
  - destruct (pending sub g) eqn:Ep; cbn [andb] in E; [destruct (negb _); [right; by eexists _, _|]|];
      (eapply IH in E; [done..|by apply attrs_extra]).
  - destruct cs as [|[oo string sep explicit] [|? ?]]; try done; [|by destruct oo].
    destruct oo as [o|]; [|eapply IH in E; [done..|by apply attrs_extra]].
    apply Forall_cons in Ht as [Ho _]. specialize (Ho o eq_refl). unfold mbind at 1, parsed_bind at 1 in E.
    destruct (match explicit with Some e => _ | None => _ end) as [j|] eqn:Ej; [|done].
    assert (joined_in j) as Hj.
    { destruct explicit as [e|]; [by eapply consume_explicit_in in Ej|]. injection Ej as <-. by split. }
    destruct j as [acts extras|acts o' string']; cbn in Hj.
    + unfold mbind, parsed_bind in E. destruct (take_actions acts g) as [g1|] eqn:E1; [|done].
      eapply IH in E; [done..|]. by eapply attrs_extra, attrs_actions.
    + destruct Hj as [Ha Ho']. destruct (takes_value (o_action o')).
      * destruct rest as [|[v [| |]] rest]; try done. unfold mbind, parsed_bind in E.
        destruct (take_actions _ g) as [g1|] eqn:E1; [|done]. apply Forall_cons in Hrest as [_ Hrest]. cbn [length] in Hr.
        eapply IH in E; [done|lia|done|]. eapply attrs_actions; [|done|exact E1]. apply Forall_app. by repeat constructor.
      * unfold mbind, parsed_bind in E. destruct (take_actions _ g) as [g1|] eqn:E1; [|done].
        eapply IH in E; [done..|]. eapply attrs_actions; [|done|exact E1]. apply Forall_app. by repeat constructor.
Qed.

(** A parser without subcommands. *)
Lemma leaf_attrs dflts args ns extras : attrs_ok (initial opts None dflts) (MkProgress (initial opts None dflts) [] [] true) →
  parse_known_args negative (Parser opts dflts None) args = Parsed (ns, extras) →
  ∃ g, ns = pg_namespace g ∧ attrs_ok (initial opts None dflts) g ∧ ∀ o, o ∈ opts → o_required o = true → o_dest o ∈ pg_seen g.
Proof using Hdest.
  intros H0. rewrite parse_known_args_eq. unfold parse_with. unfold mbind, parsed_bind. destruct (consume _ _ _ _) as [g|] eqn:E; [|done].
  destruct (flag_of <$> _) eqn:Er; [|done]. intros [= <- <-]. exists g. split; [done|].
  destruct (attrs_consume _ _ _ _ _ _ (Nat.le_refl _) (classify_in args) H0 E) as [Hg|(ws & gm & Hg & Hp & _)]; [|done]. split; [done|].
  intros o Ho Hr. apply fmap_nil_inv in Er. destruct (mem_str (o_dest o) (pg_seen g)) eqn:Em; [by apply bool_decide_eq_true in Em|].
  assert (o ∈ List.filter (λ o, o_required o && negb (mem_str (o_dest o) (pg_seen g))) opts) as Hin.
  { apply list_elem_of_In, List.filter_In. split; [by apply list_elem_of_In|]. by rewrite Hr, Em. }
  rewrite Er in Hin. by apply elem_of_nil in Hin.
Qed.

(** A parser with subcommands: its own attributes, or also the subcommand's. *)
Lemma group_attrs dflts dest l args ns extras :
  let ns0 := initial opts (Some (dest, find_parser negative l)) dflts in
  attrs_ok ns0 (MkProgress ns0 [] [] true) →
  parse_known_args negative (Parser opts dflts (Some (dest, l))) args = Parsed (ns, extras) →
  ∃ g, attrs_ok ns0 g ∧ (ns = pg_namespace g ∨ ∃ name rest f ns1 extras1, find_parser negative l name = Some f ∧
    f rest = Parsed (ns1, extras1) ∧ ns = dmerge (dset dest (VStr name) (pg_namespace g)) ns1).
Proof using Hdest.
  intros ns0 H0. rewrite parse_known_args_eq. unfold parse_with. unfold mbind, parsed_bind. fold ns0.
  destruct (consume _ _ _ _) as [g|] eqn:E; [|done].
  destruct (flag_of <$> _) eqn:Er; [|done]. intros [= <- <-].
  destruct (attrs_consume _ _ _ _ _ _ (Nat.le_refl _) (classify_in args) H0 E) as [Hg|(ws & gm & Hg & _ & Hrun)].
  { exists g. split; [done|by left]. }
  exists gm. split; [done|]. unfold run_sub in Hrun. destruct ws as [|name rest]; [injection Hrun as <-; by left|].
  destruct (find_parser negative l name) as [f|] eqn:Ef; [|done]. right. unfold mbind, parsed_bind in Hrun.
  destruct (f rest) as [[ns1 extras1]|] eqn:Efr; [|done]. injection Hrun as <-. by exists name, rest, f, ns1, extras1.
Qed.

End attributes.
