(* ===== verification/Config.v ===== *)
(** Engine settings and credentials (src/src/build_engine/config.py): the
    validated configuration and the capabilities it advertises. *)

From Corelib Require Import SpecFloat.
From S2P Require Import Prelude PyStr PyFloat Dict Json Protocol Fs PackageJson Framework Url.

Local Open Scope Z_scope.

Definition DEFAULT_IMAGE_MANIFEST_VERSION : ustr := u "1.0.0".
Definition DEFAULT_IMAGES : list ustr := [u "node:22"; u "hugo:latest"].

Record EngineConfig := MkEngineConfig {
  cf_backend_url : option ustr;
  cf_name : option ustr;
  cf_max_concurrency : Z;
  cf_heartbeat_interval_seconds : Z;
  cf_build_timeout_seconds : Z;
  cf_sigterm_grace_seconds : Z;
  cf_container_memory : ustr;
  cf_container_cpus : pyfloat;
  cf_artifact_max_bytes : Z;
  cf_cache_site_max_bytes : Z;
  cf_cache_ttl_days : Z;
  cf_credentials_path : path;
  cf_state_dir : path;
  cf_image_manifest_version : ustr;
  cf_images : list ustr;
  cf_storage_origins : list ustr;
  cf_lease_seconds : Z;
  cf_outbox_max_bytes : Z;
  cf_state_retention_days : Z;
  cf_allow_local_source_urls : bool;
  cf_os : ustr;
  cf_arch : ustr;
}.

(** [EngineConfig()] on a machine of this system and architecture. *)
Definition default_config (os arch : ustr) : EngineConfig :=
  MkEngineConfig None None 2 15 600 10 (u "2g") (S754_finite false 4503599627370496 (-52)) 524288000 5368709120 30
    [u "etc"; u "mincemeat"; u "build-engine"; u "credentials.toml"] [u "var"; u "lib"; u "build-engine"]
    DEFAULT_IMAGE_MANIFEST_VERSION DEFAULT_IMAGES [] 120 268435456 7 false os arch.

Definition value_error (msg : ustr) : exn := PyExn ValueError msg.

(** The settings that must be positive, by name, in the order they are checked. *)
Definition positive_fields (c : EngineConfig) : list (ustr * Z) :=
  [(u "heartbeat_interval_seconds", cf_heartbeat_interval_seconds c);
   (u "build_timeout_seconds", cf_build_timeout_seconds c);
   (u "sigterm_grace_seconds", cf_sigterm_grace_seconds c);
   (u "artifact_max_bytes", cf_artifact_max_bytes c);
   (u "cache_site_max_bytes", cf_cache_site_max_bytes c);
   (u "cache_ttl_days", cf_cache_ttl_days c);
   (u "lease_seconds", cf_lease_seconds c);
   (u "outbox_max_bytes", cf_outbox_max_bytes c);
   (u "state_retention_days", cf_state_retention_days c)].

Fixpoint check_positive (l : list (ustr * Z)) : result () :=
  match l with
  | [] => Ok ()
  | (name, v) :: l => fail_if (v <=? 0) (value_error (name ++ u " must be positive"));; check_positive l
  end.

Section config.
Context (netloc_check : ustr → result ()).

Definition is_secure_origin (value : ustr) : result bool :=
  parsed ← urlparse netloc_check value;
  Ok (ustr_eqb (u_scheme parsed) (u "https") && negb (bool_decide (u_netloc parsed = []))).

(** [any(not _is_secure_origin(origin) for origin in origins)]. *)
Fixpoint any_insecure (origins : list ustr) : result bool :=
  match origins with
  | [] => Ok false
  | o :: origins => ok ← is_secure_origin o; if ok : bool then any_insecure origins else Ok true
  end.

(** [__post_init__]. *)
Definition post_init (c : EngineConfig) : result EngineConfig :=
  fail_if (negb ((1 <=? cf_max_concurrency c) && (cf_max_concurrency c <=? 16)))
    (value_error (u "max_concurrency must be between 1 and 16"));;
  check_positive (positive_fields c);;
  fail_if (float_leb (cf_container_cpus c) (S754_zero false)) (value_error (u "container_cpus must be positive"));;
  fail_if (bool_decide (cf_image_manifest_version c = [])) (value_error (u "image_manifest_version must not be empty"));;
  fail_if (bool_decide (cf_images c = [])) (value_error (u "at least one builder image must be configured"));;
  fail_if (mem_str [] (cf_storage_origins c)) (value_error (u "storage_origins must contain non-empty origins"));;
  match cf_backend_url c with
  | Some url => ok ← is_secure_origin url; fail_if (negb ok) (value_error (u "backend_url must use HTTPS"))
  | None => Ok ()
  end;;
  insecure ← any_insecure (cf_storage_origins c);
  fail_if insecure (value_error (u "storage_origins must use HTTPS"));;
  Ok c.

End config.

Record EngineCredentials := MkEngineCredentials {
  cr_engine_id : ustr;
  cr_engine_secret : ustr;
  cr_session_jwt : ustr;
  cr_session_jwt_expires_at : ustr;
  cr_backend_url : option ustr;
  cr_name : option ustr;
}.

Definition config_capabilities (c : EngineConfig) : jdict :=
  [(u "os", JStr (cf_os c)); (u "arch", JStr (cf_arch c)); (u "max_concurrency", JInt (cf_max_concurrency c));
   (u "images", JList (JStr <$> cf_images c)); (u "proto_version", JInt PROTOCOL_VERSION);
   (u "image_manifest_version", JStr (cf_image_manifest_version c));
   (u "frameworks", JList (JStr <$> sort_by ustr_leb SUPPORTED_FRAMEWORK_IDS));
   (u "package_managers", JList [JStr (u "npm"); JStr (u "pnpm")]);
   (u "network", JStr (u "unrestricted"))].

(** [_split_csv], [_bool_value] and [_normalize_arch]. *)
Definition split_csv (value : ustr) : list ustr :=
  List.filter (λ p, negb (bool_decide (p = []))) (strip is_space <$> split_on 44 value).

Definition bool_value (value : ustr) : result bool :=
  let normalized := lower (strip is_space value) in
  if mem_str normalized [u "1"; u "true"; u "yes"; u "on"] then Ok true
  else if mem_str normalized [u "0"; u "false"; u "no"; u "off"] then Ok false
  else Err (value_error (u "Invalid boolean value: " ++ value)).

Definition normalize_arch (machine : ustr) : ustr :=
  let normalized := lower machine in
  if mem_str normalized [u "x86_64"; u "amd64"] then u "amd64"
  else if mem_str normalized [u "aarch64"; u "arm64"] then u "arm64"
  else normalized.
