(* ===== verification/Handlers.v ===== *)
(** Lease, dead-letter and command-handler helpers over the queue
    (src/src/build_engine/queue/leases.py, dlq.py and handlers.py). *)

From S2P Require Import Prelude PyStr Dict Json Clock Uuid Protocol Db Store Fs Cache.

Local Open Scope Z_scope.

(** * Leases and dead letters *)

Record QueueLease := MkQueueLease {
  ql_owner : ustr;
  ql_job : JobRecord;
  ql_visibility_timeout_seconds : Z;
  ql_token : ustr;
}.

Definition refresh (now : instant) (l : QueueLease) : M store JobRecord :=
  refresh_lease now (jr_attempt_id (ql_job l)) (ql_owner l) (ql_visibility_timeout_seconds l) (Some (ql_token l)).

Definition acquire_queue_lease (now : instant) (fresh_token owner : ustr) (visibility_timeout_seconds : Z)
    : M store (option QueueLease) :=
  job ← acquire_lease now fresh_token owner visibility_timeout_seconds;
  match job with
  | None => mret None
  | Some job => mret (Some (MkQueueLease owner job visibility_timeout_seconds (default [] (jr_lease_token job))))
  end.

Definition dlq_record_executor_crash (now : instant) (attempt_id error : ustr) : M store bool :=
  job ← record_executor_crash now attempt_id error None None;
  mret (bool_decide (jr_state job = FAILED)).

Definition list_dead_letters : M store (list DeadLetterRecord) := dlq_entries.

(** * Command results *)

Record CommandResult := MkCommandResult {
  cmd_accepted : bool;
  cmd_state : option ustr;
  cmd_detail : option ustr;
  cmd_affected : list ustr;
}.

(** What the uplink asks of a command handler; [resume] is optional. *)
Class CommandHandlers (S : Type) := {
  handle_assign : instant → jdict → M S CommandResult;
  handle_cancel : instant → jdict → M S CommandResult;
  handle_drain : instant → jdict → M S CommandResult;
  handle_resume : option (instant → jdict → M S CommandResult);
  handle_cache_reset : instant → jdict → M S CommandResult;
}.

(** * The engine's own handlers *)

(** The queue, the files of the state directory, and the fields of the object. *)
Record agent := Agent {
  ag_store : store;
  ag_fs : fs;
  ag_draining : bool;
  ag_cache_reset_scopes : option (list (option ustr));
}.

Definition on_store {A} : M store A → M agent A :=
  zoom ag_store (λ s a, Agent s (ag_fs a) (ag_draining a) (ag_cache_reset_scopes a)).
Definition on_fs {A} : M fs A → M agent A :=
  zoom ag_fs (λ f a, Agent (ag_store a) f (ag_draining a) (ag_cache_reset_scopes a)).
Definition set_draining (b : bool) : M agent () :=
  modify (λ a, Agent (ag_store a) (ag_fs a) b (ag_cache_reset_scopes a)).

Definition DRAIN_MARKER_FILENAME : ustr := u "drain.json".

(** [t.isoformat(timespec="seconds")] of a UTC datetime. *)
Definition isoformat_seconds (t : instant) : ustr :=
  let '(y, m, d) := ord2ymd (t / DAY) in
  let us := t mod DAY in
  iso_date y m d ++ [84%N] ++ pad_dec 2 (us / (3600 * US)) ++ [58%N] ++ pad_dec 2 (us / (60 * US) mod 60)
    ++ [58%N] ++ pad_dec 2 (us / US mod 60) ++ u "+00:00".

Section handlers.
(** The directory of the queue's database file. *)
Context (state_dir : path).

Definition drain_marker_path : path := state_dir ++ [DRAIN_MARKER_FILENAME].

(** [__post_init__]. *)
Definition new_handlers (s : store) (f : fs) (draining : bool) : agent :=
  Agent s f (draining || exists_ f drain_marker_path) None.

Definition write_drain_marker (now : instant) (p : path) : M fs () :=
  mkdir_parents now (parent p);;
  let payload := [(u "draining", JBool true);
                  (u "updated_at", JStr (replace (isoformat_seconds now) (u "+00:00") (u "Z")))] in
  let temporary := parent p ++ [name p ++ u ".tmp"] in
  write_text now temporary (dumps (spaced true) (JObj payload));;
  replace_file now temporary p.

Definition assign (now : instant) (payload : jdict) : M agent CommandResult :=
  marked ← gets (λ a, exists_ (ag_fs a) drain_marker_path);
  set_draining marked;;
  if (marked : bool) then
    mret (MkCommandResult false (Some (u "FAILED")) (Some (u "Engine is draining")) [])
  else
    result ← on_store (enqueue now payload);
    mret (MkCommandResult true (Some (state_text (jr_state (er_job result)))) None []).

Definition handler_required_str (payload : jdict) (key : ustr) : result ustr :=
  match dget key payload with
  | Some (JStr (c :: s)) => Ok (c :: s)
  | _ => Err (protocol_error (u "payload " ++ key ++ u " is required"))
  end.

Definition cancel (now : instant) (payload : jdict) : M agent CommandResult :=
  build_job_id ← lift (handler_required_str payload (u "build_job_id"));
  attempt_id ← match dget (u "attempt_id") payload with
               | None | Some JNull => mret None
               | Some (JStr s) => mret (Some s)
               | Some _ => raise (protocol_error (u "cancel attempt_id must be a string"))
               end;
  affected ← on_store (request_cancel now build_job_id attempt_id);
  mret (MkCommandResult true (Some (u "CANCELLING")) None affected).

Definition drain (now : instant) (payload : jdict) : M agent CommandResult :=
  set_draining true;;
  on_fs (write_drain_marker now drain_marker_path);;
  mret (MkCommandResult true (Some (u "DRAINING")) None []).

Definition resume (now : instant) (payload : jdict) : M agent CommandResult :=
  set_draining false;;
  on_fs (unlink now true drain_marker_path);;
  mret (MkCommandResult true (Some (u "READY")) None []).

Definition cache_reset (now : instant) (payload : jdict) : M agent CommandResult :=
  site_id ← match dget (u "site_id") payload with
            | None | Some JNull => mret None
            | Some (JStr s) => mret (Some s)
            | Some _ => raise (protocol_error (u "cache.reset site_id must be a string or null"))
            end;
  on_fs (reset_cache now state_dir site_id);;
  modify (λ a, Agent (ag_store a) (ag_fs a) (ag_draining a)
                 (Some (default [] (ag_cache_reset_scopes a) ++ [site_id])));;
  mret (MkCommandResult true (Some (u "WIPED")) None []).

#[export] Instance sqlite_command_handlers : CommandHandlers agent := {
  handle_assign := assign;
  handle_cancel := cancel;
  handle_drain := drain;
  handle_resume := Some resume;
  handle_cache_reset := cache_reset;
}.

End handlers.
