(* ===== verification/Resolve.v ===== *)
(** [Path.resolve()] ([os.path.realpath], not strict): symbolic links are
    followed component by component, missing components are kept. *)

From S2P Require Import Prelude PyStr Clock Fs.

Local Open Scope nat_scope.

(** * The algorithm *)

(** The stack of [realpath]: parts still to walk, and marks that the target of
    a link has been walked completely. *)
Inductive stack_item := Part (name : ustr) | Resolved (link : path).

(** [seen] maps a link to its resolved target, [None] while it is being
    resolved: meeting it then is a loop, and the link itself is kept. *)
Fixpoint realpath_go (fuel : nat) (f : fs) (seen : gmap path (option path)) (cur : path)
    (rest : list stack_item) : option path :=
  match fuel with
  | O => None
  | S fuel =>
      match rest with
      | [] => Some cur
      | Resolved l :: rest => realpath_go fuel f (<[l := Some cur]> seen) cur rest
      | Part c :: rest =>
          if bool_decide (c = []) || ustr_eqb c (u ".") then realpath_go fuel f seen cur rest
          else if ustr_eqb c (u "..") then realpath_go fuel f seen (parent cur) rest
          else
            let p := cur ++ [c] in
            match f !! p with
            | Some (ELink absolute target) =>
                match seen !! p with
                | Some (Some q) => realpath_go fuel f seen q rest
                | Some None => realpath_go fuel f seen p rest
                | None => realpath_go fuel f (<[p := None]> seen) (if absolute then [] else cur)
                            (map Part target ++ Resolved p :: rest)
                end
            | _ => realpath_go fuel f seen p rest
            end
      end
  end.

(** A bound on the steps: every link is expanded at most once. *)
Definition links (f : fs) : list (path * nat) :=
  omap (λ pe : path * entry, match pe.2 with ELink _ t => Some (pe.1, 2 + length t) | _ => None end) (map_to_list f).
Definition unseen (seen : gmap path (option path)) (l : list (path * nat)) : nat :=
  list_sum (snd <$> List.filter (λ pn : path * nat, bool_decide (seen !! pn.1 = None)) l).
Definition realpath_fuel (f : fs) (rest : list stack_item) : nat := S (length rest + unseen ∅ (links f)).

Definition resolve (f : fs) (p : path) : path :=
  default p (realpath_go (realpath_fuel f (map Part p)) f ∅ [] (map Part p)).

(** * The fuel suffices *)

Lemma unseen_le seen p v l : unseen (<[p := v]> seen) l <= unseen seen l.
Proof.
  unfold unseen. induction l as [|[q n] l IH]; [done|]. cbn [List.filter fst].
  destruct (decide (p = q)) as [->|Hne].
  - rewrite lookup_insert_eq. rewrite bool_decide_false by done.
    case_bool_decide; cbn; [|exact IH]. unfold list_sum in *. cbn in *. lia.
  - rewrite lookup_insert_ne by done. case_bool_decide; unfold list_sum in *; cbn in *; lia.
Qed.

Lemma unseen_lt seen p v n l : (p, n) ∈ l → seen !! p = None → unseen (<[p := v]> seen) l + n <= unseen seen l.
Proof.
  unfold unseen. intros Hp Hs. induction l as [|[q m] l IH]; [by apply elem_of_nil in Hp|].
  cbn [List.filter fst]. apply elem_of_cons in Hp as [[= <- <-]|Hp].
  - rewrite lookup_insert_eq, Hs. rewrite bool_decide_false, bool_decide_true by done.
    pose proof (unseen_le seen p v l) as H. unfold unseen, list_sum in *. cbn in *. lia.
  - specialize (IH Hp). destruct (decide (p = q)) as [->|Hne].
    + rewrite lookup_insert_eq, Hs. rewrite bool_decide_false, bool_decide_true by done. unfold list_sum in *. cbn in *. lia.
    + rewrite lookup_insert_ne by done. case_bool_decide; unfold list_sum in *; cbn in *; lia.
Qed.

Lemma elem_of_links f p a t : f !! p = Some (ELink a t) → (p, 2 + length t) ∈ links f.
Proof.
  intros H. unfold links. apply list_elem_of_omap. exists (p, ELink a t). split; [|done].
  by apply elem_of_map_to_list.
Qed.

Lemma realpath_go_total fuel f seen cur rest :
  length rest + unseen seen (links f) < fuel → ∃ q, realpath_go fuel f seen cur rest = Some q.
Proof.
  revert seen cur rest. induction fuel as [|fuel IH]; intros seen cur rest Hl; [lia|]. cbn [realpath_go].
  destruct rest as [|[c|l] rest]; [eauto| |].
  - cbn [length] in Hl. destruct (_ || _); [apply IH; lia|]. destruct (ustr_eqb c (u "..")); [apply IH; lia|]. cbv zeta.
    destruct (f !! (cur ++ [c])) as [[| |a t]|] eqn:E; try (apply IH; lia).
    destruct (seen !! (cur ++ [c])) as [[q|]|] eqn:Es; try (apply IH; lia).
    apply IH. rewrite length_app, length_map. cbn [length].
    pose proof (unseen_lt seen (cur ++ [c]) None _ _ (elem_of_links f _ a t E) Es). lia.
  - cbn [length] in Hl. apply IH. pose proof (unseen_le seen l (Some cur) (links f)). lia.
Qed.

(** Resolution always ends within the bound: the default is never taken. *)
Lemma resolve_total f p : realpath_go (realpath_fuel f (map Part p)) f ∅ [] (map Part p) = Some (resolve f p).
Proof.
  unfold resolve. destruct (realpath_go_total (realpath_fuel f (map Part p)) f ∅ [] (map Part p)) as [q ->]; [|done].
  unfold realpath_fuel. lia.
Qed.

(** More fuel changes nothing. *)
Lemma realpath_go_mono fuel f seen cur rest q :
  realpath_go fuel f seen cur rest = Some q → ∀ fuel', fuel <= fuel' → realpath_go fuel' f seen cur rest = Some q.
Proof.
  revert seen cur rest. induction fuel as [|fuel IH]; intros seen cur rest H fuel' Hl; [done|].
  destruct fuel' as [|fuel']; [lia|]. cbn [realpath_go] in *. cbv zeta in *. repeat case_match; try done; apply IH; (done || lia).
Qed.

(** * Plain paths *)

(** Walking parts that are no links is concatenation. *)
Lemma realpath_plain fuel f seen cur p rest :
  Forall (λ c, c ≠ [] ∧ plain_name c) p →
  (∀ a b, p = a ++ b → a ≠ [] → no_link f (cur ++ a)) →
  realpath_go (length p + fuel) f seen cur (map Part p ++ rest) = realpath_go fuel f seen (cur ++ p) rest.
Proof.
  revert cur. induction p as [|c p IH]; intros cur Hp Hl; [by rewrite app_nil_r|].
  inversion Hp as [|? ? [H0 [H1 H2]] Hp']; subst. cbn [length plus map app realpath_go]. unfold ustr_eqb.
  rewrite !bool_decide_false by done. cbn [orb]. cbv zeta.
  assert (realpath_go (length p + fuel) f seen (cur ++ [c]) (map Part p ++ rest) =
          realpath_go fuel f seen (cur ++ c :: p) rest) as E.
  { rewrite IH; [by rewrite <- app_assoc|done|]. intros a b -> Ha. rewrite <- app_assoc. by apply (Hl (c :: a) b). }
  destruct (f !! (cur ++ [c])) as [[| |a t]|] eqn:Ef; try exact E.
  by destruct (Hl [c] p eq_refl ltac:(done) a t).
Qed.

(** [resolve] of a path without links and dots is that path. *)
Lemma resolve_plain f p :
  Forall (λ c, c ≠ [] ∧ plain_name c) p → (∀ a b, p = a ++ b → a ≠ [] → no_link f a) → resolve f p = p.
Proof.
  intros Hp Hl. pose proof (resolve_total f p) as H.
  apply realpath_go_mono with (fuel' := length p + realpath_fuel f (map Part p)) in H; [|lia].
  rewrite <- (app_nil_r (map Part p)) in H at 2. rewrite realpath_plain in H by done.
  unfold realpath_fuel in H. cbn [realpath_go app] in H. congruence.
Qed.
