(* ===== verification/Workspace.v ===== *)
(** Workspaces, source download and extraction
    (src/src/build_engine/executor/workspace.py). *)

From S2P Require Import Prelude PyStr Json Clock Uuid Fs Resolve Sha256 Cache Url.

Local Open Scope Z_scope.

Definition workspace_error (msg : ustr) : exn := PyExn WorkspaceError msg.

Record WorkspacePaths := MkWorkspacePaths {
  wp_attempt_dir : path;
  wp_source_archive : path;
  wp_source_root : path;
  wp_artifact_dir : path;
  wp_output_root : path;
  wp_cache_root : path;
  wp_tmp_root : path;
}.

(** * Paths given as text *)

(** [Path(text).is_absolute()] and [Path(text).parts] of a relative path. *)
Definition is_absolute (text : ustr) : bool := startswith text (u "/").
Definition path_parts (text : ustr) : list ustr :=
  List.filter (λ c, negb (bool_decide (c = []) || ustr_eqb c (u "."))) (split_on 47 text).

(** [path.relative_to(parent)] succeeds. *)
Definition is_relative_to (p root : path) : bool := under root p.

Definition validate_path_component (value name : ustr) : result () :=
  match uuid_parse value with
  | Some v => fail_if (negb (ustr_eqb (uuid_str v) value)) (workspace_error (name ++ u " must be a canonical UUID"))
  | None => Err (workspace_error (name ++ u " must be a canonical UUID"))
  end.

(** * Creating a workspace *)

Definition workspace_paths (state_dir : path) (attempt_id : ustr) : WorkspacePaths :=
  let root := state_dir ++ [u "workspaces"; attempt_id] in
  MkWorkspacePaths root (root ++ [u "tmp"; u "source.tar.gz"]) (root ++ [u "src"]) (root ++ [u "tmp"])
    (root ++ [u "out"]) (root ++ [u "cache"]) (root ++ [u "tmp"]).

Definition create_workspace (now : instant) (state_dir : path) (attempt_id : ustr) : M fs WorkspacePaths :=
  lift (validate_path_component attempt_id (u "attempt_id"));;
  let w := workspace_paths state_dir attempt_id in
  there ← gets (λ f, exists_ f (wp_attempt_dir w));
  (if (there : bool) then rmtree now (wp_attempt_dir w) else mret ());;
  for_each (mkdir_parents now) [wp_source_root w; wp_output_root w; wp_cache_root w; wp_tmp_root w];;
  mret w.

(** * Sources *)

(** What an opened source gives: its Content-Length header, and the results of
    reading it piece by piece until an empty one. *)
Record SourceResponse := MkSourceResponse {
  sr_content_length : option ustr;
  sr_chunks : list (result (list N));
}.

(** [urllib] and [urljoin]: the file behind a file URL, the response to a
    request whose redirects a policy filters, the resolution of a redirect. *)
Class Urllib := {
  url2pathname : ustr → path;
  urlopen : ustr → (ustr → ustr → result ustr) → result SourceResponse;
  urljoin : ustr → ustr → ustr;
}.

Section sources.
Context `{Urllib} (netloc_check : ustr → result ()).

Definition origin (value : ustr) : result ustr :=
  parsed ← urlparse netloc_check value;
  Ok (lower (u_scheme parsed) ++ u "://" ++ lower (u_netloc parsed)).

Fixpoint origins (values : list ustr) : result (list ustr) :=
  match values with
  | [] => Ok []
  | v :: values => o ← origin v; rest ← origins values; Ok (o :: rest)
  end.

(** [_SafeRedirectHandler]: the policy for a source URL; the result is the URL followed. *)
Definition redirect_request (source_origin : ustr) (allowed : list ustr) (full_url newurl : ustr) : result ustr :=
  let target := urljoin full_url newurl in
  parsed ← urlparse netloc_check target;
  fail_if (negb (ustr_eqb (u_scheme parsed) (u "https")) || bool_decide (u_netloc parsed = []))
    (workspace_error (u "Source redirect must use HTTPS"));;
  target_origin ← origin target;
  let permitted := match allowed with [] => [source_origin] | _ => allowed end in
  fail_if (negb (mem_str target_origin permitted))
    (workspace_error (u "Source redirect leaves the approved storage origin"));;
  Ok target.

(** The non-empty hosts of the allowed origins. *)
Fixpoint netlocs (values : list ustr) : result (list ustr) :=
  match values with
  | [] => Ok []
  | v :: values =>
      p ← urlparse netloc_check v; rest ← netlocs values;
      Ok (if bool_decide (u_netloc p = []) then rest else u_netloc p :: rest)
  end.

Definition open_source (source_url : ustr) (allowed_origins : list ustr) (allow_file : bool) : M fs SourceResponse :=
  parsed ← lift (urlparse netloc_check source_url);
  if ustr_eqb (u_scheme parsed) (u "file") then
    raise_if (negb allow_file) (workspace_error (u "source_download_url must use HTTPS"));;
    content ← read_bytes (url2pathname (u_path parsed));
    mret (MkSourceResponse None [Ok content; Ok []])
  else
    raise_if (negb (ustr_eqb (u_scheme parsed) (u "https"))) (workspace_error (u "source_download_url must use HTTPS"));;
    raise_if (bool_decide (u_netloc parsed = [])) (workspace_error (u "source_download_url must include a host"));;
    hosts ← lift (netlocs allowed_origins);
    raise_if (negb (bool_decide (allowed_origins = [])) && negb (mem_str (u_netloc parsed) hosts))
      (workspace_error (u "source_download_url host is not an allowed storage origin"));;
    source_origin ← lift (origin source_url);
    allowed ← lift (origins allowed_origins);
    lift (urlopen source_url (redirect_request source_origin allowed)).

Definition content_length (r : SourceResponse) : result (option Z) :=
  match sr_content_length r with
  | None => Ok None
  | Some raw =>
      match py_int (strip is_space) raw with
      | Some n => if n <? 0 then Err (workspace_error (u "Source response has an invalid Content-Length")) else Ok (Some n)
      | None => Err (workspace_error (u "Source response has an invalid Content-Length"))
      end
  end.

(** The reading loop; [got] is what has been read and written so far. *)
Fixpoint read_source (now : instant) (temp : path) (max_bytes : option Z) (got : list N) (chunks : list (result (list N)))
    : M fs (list N) :=
  match chunks with
  | [] | Ok [] :: _ => mret got
  | Err e :: _ => raise e
  | Ok chunk :: chunks =>
      let got := got ++ chunk in
      raise_if (match max_bytes with Some m => m <? Z.of_nat (length got) | None => false end)
        (workspace_error (u "Source archive exceeds configured maximum size"));;
      write_bytes now temp got;;
      read_source now temp max_bytes got chunks
  end.

Definition hex_char (c : N) : bool :=
  is_digit c || ((97 <=? c) && (c <=? 102) || (65 <=? c) && (c <=? 70))%N.

Definition exceeds (max_bytes expected_size : option Z) : bool :=
  match max_bytes, expected_size with Some m, Some n => m <? n | _, _ => false end.

(** [raise ... from exc] of the transfer's errors. *)
Definition download_failed (e : exn) : exn :=
  match e with
  | PyExn _ msg => if isinstance e OSError then workspace_error (u "Source download failed: " ++ msg) else e
  | _ => e
  end.

Definition download_source (now : instant) (source_url : ustr) (destination : path) (expected_sha256 : ustr)
    (expected_size max_bytes : option Z) (allowed_origins : list ustr) (allow_file : bool) : M fs path :=
  raise_if (negb (Nat.eqb (length expected_sha256) 64 && forallb hex_char expected_sha256))
    (workspace_error (u "expected_sha256 must be a 64-character hexadecimal digest"));;
  raise_if (match expected_size with Some n => n <? 0 | None => false end)
    (workspace_error (u "expected_size must not be negative"));;
  mkdir_parents now (parent destination);;
  let temp := parent destination ++ [name destination ++ u ".tmp"] in
  got ← try_except
    (response ← open_source source_url allowed_origins allow_file;
     write_bytes now temp [];;
     length ← lift (content_length response);
     raise_if (match expected_size, length with Some n, Some m => negb (m =? n) | _, _ => false end)
       (workspace_error (u "Source archive size does not match the assignment"));;
     raise_if (exceeds max_bytes expected_size)
       (workspace_error (u "Source archive exceeds configured maximum size"));;
     read_source now temp max_bytes [] (sr_chunks response))
    (λ e, raise (download_failed e));
  if negb (ustr_eqb (lower (sha256_hex got)) (lower expected_sha256)) then
    unlink now true temp;;
    raise (workspace_error (u "Source SHA256 verification failed"))
  else replace_file now temp destination;; mret destination.

End sources.

(** * Extraction *)

Inductive member_kind := TReg | TDir | TSym | TLink | TChar | TBlock | TFifo | TOther.

Record TarMember := MkTarMember { tm_name : ustr; tm_kind : member_kind; tm_linkname : ustr }.

(** [isdev] (which includes pipes), [isfifo], [issym] and [islnk]. *)
Definition is_device (k : member_kind) : bool := match k with TChar | TBlock | TFifo => true | _ => false end.
Definition is_link (k : member_kind) : bool := match k with TSym | TLink => true | _ => false end.

(** [tarfile]: reading the members, and extracting them under the data filter. *)
Class TarFile := {
  tar_members : list N → result (list TarMember);
  tar_extract : list N → list TarMember → path → M fs ();
}.

Definition validate_member (f : fs) (destination : path) (m : TarMember) : result () :=
  let parts := path_parts (tm_name m) in
  fail_if (is_absolute (tm_name m) || mem_str (u "..") parts) (workspace_error (u "Source archive contains an unsafe path"));;
  let resolved_target := resolve f (destination ++ parts) in
  let root := resolve f destination in
  fail_if (negb (is_relative_to resolved_target root)) (workspace_error (u "Source archive member escapes destination"));;
  fail_if (is_device (tm_kind m)) (workspace_error (u "Source archive contains unsupported device entries"));;
  if is_link (tm_kind m) then
    fail_if (is_absolute (tm_linkname m)) (workspace_error (u "Source archive contains an absolute link target"));;
    let resolved_link := resolve f (parent resolved_target ++ path_parts (tm_linkname m)) in
    fail_if (negb (is_relative_to resolved_link root)) (workspace_error (u "Source archive link target escapes destination"))
  else Ok ().

Fixpoint validate_members (f : fs) (destination : path) (members : list TarMember) : result () :=
  match members with
  | [] => Ok ()
  | m :: members => validate_member f destination m;; validate_members f destination members
  end.

Definition extract_failed (e : exn) : exn :=
  match e with
  | PyExn _ msg =>
      if isinstance e TarError then workspace_error (u "Source archive is not a valid tar file: " ++ msg)
      else if isinstance e OSError then workspace_error (u "Source extraction failed: " ++ msg)
      else e
  | _ => e
  end.

Definition extract_source `{TarFile} (now : instant) (archive destination : path) : M fs () :=
  mkdir_parents now destination;;
  try_except
    (content ← read_bytes archive;
     members ← lift (tar_members content);
     f ← gets id;
     lift (validate_members f destination members);;
     tar_extract content members destination)
    (λ e, raise (extract_failed e)).

(** * The project root *)

Definition resolve_project_root (f : fs) (source_root : path) (root_directory : option ustr) : result path :=
  let source_root := resolve f source_root in
  let requested := match root_directory with Some (c :: s) => c :: s | _ => u "." end in
  fail_if (is_absolute requested) (workspace_error (u "root_directory must be relative"));;
  fail_if (mem_str (u "..") (path_parts requested))
    (workspace_error (u "root_directory must not contain traversal components"));;
  let project_root := resolve f (source_root ++ path_parts requested) in
  fail_if (negb (is_relative_to project_root source_root)) (workspace_error (u "root_directory escapes the extracted source"));;
  fail_if (negb (is_dir f project_root)) (workspace_error (u "root_directory does not exist in source archive"));;
  Ok project_root.

(** * Cleaning up *)

Definition rmtree_ignore_errors (now : instant) (p : path) : M fs () := try_except (rmtree now p) (λ _, mret ()).

Section cleanup.
Context `{DirScan}.

Definition iterdir (p : path) : M fs (list path) := λ f,
  if is_dir f p then (Ok (List.filter (λ q, bool_decide (length q = S (length p))) (rglob f p)), f)
  else (Err no_such_file, f).

(** Newest first, ties by name, last name first. *)
Definition newer_failed (f : fs) (a b : path) : bool :=
  let time p := match stat f (p ++ [u "FAILED"]) with Some e => entry_mtime e | None => 0 end in
  (time b <? time a) || ((time a =? time b) && ustr_leb (name b) (name a)).

(** [failed[keep:]]. *)
Definition slice_from {A} (keep : Z) (l : list A) : list A :=
  if 0 <=? keep then drop (Z.to_nat keep) l else drop (length l - Z.to_nat (- keep)) l.

Definition prune_failed_workspaces (now : instant) (jobs_dir : path) (keep : Z) : M fs () :=
  children ← iterdir jobs_dir;
  f ← gets id;
  let failed := sort_by (newer_failed f) (List.filter (λ p, exists_ f (p ++ [u "FAILED"])) children) in
  for_each (rmtree_ignore_errors now) (slice_from keep failed).

Definition cleanup_workspace (now : instant) (w : WorkspacePaths) (retain_failed : bool) (failed_keep : Z) : M fs () :=
  if retain_failed then
    touch now (wp_attempt_dir w ++ [u "FAILED"]);;
    prune_failed_workspaces now (parent (wp_attempt_dir w)) failed_keep
  else rmtree_ignore_errors now (wp_attempt_dir w).

End cleanup.
