(* ===== verification/WorkspaceProofs.v ===== *)
(** Sources: what a download leaves behind, and which archives are extracted. *)

From S2P Require Import Prelude PyStr Json Clock Uuid Fs Resolve Sha256 Cache Url Workspace.

Local Open Scope Z_scope.

(** * Downloads *)

Section download.
Context `{Urllib} (netloc_check : ustr → result ()).
Context (d : path) (n : ustr).

Abbreviation destination := (d ++ [n]).
Abbreviation temporary := (d ++ [n ++ u ".tmp"]).

Lemma open_source_same url allowed allow_file f : (open_source netloc_check url allowed allow_file f).2 = f.
Proof.
  unfold open_source, read_bytes. munfold. repeat (case_match; munfold; simplify_eq/=; try done).
Qed.

Lemma temporary_neq : temporary ≠ destination.
Proof.
  intros E%app_inv_head. injection E as E%(f_equal length). rewrite length_app in E.
  change (length (u ".tmp")) with 4%nat in E. lia.
Qed.

Lemma temporary_plain : plain_name (n ++ u ".tmp").
Proof.
  split; intros E%(f_equal length); rewrite length_app in E; change (length (u ".tmp")) with 4%nat in E;
    [change (length (u ".")) with 1%nat in E|change (length (u "..")) with 2%nat in E]; lia.
Qed.

(** Only the temporary file has changed. *)
Record only_temporary (f f' : fs) : Prop := OnlyTemporary {
  ot_dir : real_dir f' d;
  ot_temporary : file_or_free f' temporary;
  ot_rest : ∀ x, x ≠ temporary → same_entry (f !! x) (f' !! x);
}.

Lemma only_temporary_refl f : real_dir f d → file_or_free f temporary → only_temporary f f.
Proof. intros Hd Ht. split; [done|done|]. intros x _. by left. Qed.

Lemma only_temporary_trans f f' f'' : only_temporary f f' → only_temporary f' f'' → only_temporary f f''.
Proof. intros H1 H2. split; [apply H2|apply H2|]. intros x Hx. eapply same_entry_trans; [by apply H1|by apply H2]. Qed.

Lemma write_temporary now content f : real_dir f d → file_or_free f temporary →
  ∃ m a f', write_bytes now temporary content f = (Ok (), f') ∧ f' !! temporary = Some (EFile content m a) ∧ only_temporary f f'.
Proof.
  intros Hd Ht. destruct (write_bytes_child now d (n ++ u ".tmp") content f Hd temporary_plain Ht) as (m & a & f' & E & Ef & Hd' & Hs).
  exists m, a, f'. split; [done|]. split; [done|]. split; [done|right; by eexists _, _, _|done].
Qed.

(** What the reads of a response deliver up to the empty one; [None] when one of them fails. *)
Fixpoint received (chunks : list (result (list N))) : option (list N) :=
  match chunks with
  | [] | Ok [] :: _ => Some []
  | Ok chunk :: chunks => rest ← received chunks; Some (chunk ++ rest)
  | Err _ :: _ => None
  end.

Lemma read_source_run now max_bytes chunks : ∀ got f r f' m a, real_dir f d → f !! temporary = Some (EFile got m a) →
  (∀ b, max_bytes = Some b → 0 ≤ b → Z.of_nat (length got) ≤ b) →
  read_source now temporary max_bytes got chunks f = (r, f') →
  only_temporary f f' ∧ ∀ got', r = Ok got' →
    (∃ m a, f' !! temporary = Some (EFile got' m a)) ∧ (∃ rest, received chunks = Some rest ∧ got' = got ++ rest) ∧
    ∀ b, max_bytes = Some b → 0 ≤ b → Z.of_nat (length got') ≤ b.
Proof.
  induction chunks as [|c chunks IH]; intros got f r f' m a Hd Ht Hb;
    assert (only_temporary f f) as Hrefl by (apply only_temporary_refl; [done|right; eauto]).
  { intros [= <- <-]. split; [done|]. intros got' [= <-]. split_and!; [eauto|exists []; by rewrite app_nil_r|done]. }
  cbn [read_source]. destruct c as [[|x chunk]|e].
  - intros [= <- <-]. split; [done|]. intros got' [= <-]. split_and!; [eauto|exists []; by rewrite app_nil_r|done].
  - cbv zeta. destruct (match max_bytes with Some m => _ | None => _ end) eqn:Em; [by intros [= <- <-]|].
    erewrite bind_ok by reflexivity.
    destruct (write_temporary now (got ++ x :: chunk) f) as (m1 & a1 & f1 & E1 & Ht1 & H1); [done|right; eauto|].
    erewrite bind_ok by exact E1. intros E. eapply IH in E as [H2 H3]; [..|exact Ht1|]; [|apply H1|].
    + split; [by eapply only_temporary_trans|]. intros got' (Hf & (rest & Hr & ->) & Hl)%H3. split_and!; [done| |done].
      exists ((x :: chunk) ++ rest). split; [cbn [received]; by rewrite Hr|by rewrite app_assoc].
    + intros b -> _. by apply Z.ltb_ge in Em.
  - by intros [= <- <-].
Qed.

(** The transfer, up to the comparison of digests. *)
Lemma transfer_run now url expected_size max_bytes allowed allow_file f r f' :
  real_dir f d → file_or_free f temporary →
  (response ← open_source netloc_check url allowed allow_file;
   write_bytes now temporary [];;
   length ← lift (content_length response);
   raise_if (match expected_size, length with Some n, Some m => negb (m =? n) | _, _ => false end)
     (workspace_error (u "Source archive size does not match the assignment"));;
   raise_if (exceeds max_bytes expected_size)
     (workspace_error (u "Source archive exceeds configured maximum size"));;
   read_source now temporary max_bytes [] (sr_chunks response)) f = (r, f') →
  only_temporary f f' ∧ ∀ got, r = Ok got →
    (∃ m a, f' !! temporary = Some (EFile got m a)) ∧
    (∃ response, open_source netloc_check url allowed allow_file f = (Ok response, f) ∧ received (sr_chunks response) = Some got) ∧
    ∀ b, max_bytes = Some b → 0 ≤ b → Z.of_nat (length got) ≤ b.
Proof.
  intros Hd Ht. pose proof (only_temporary_refl f Hd Ht) as Hrefl. pose proof (open_source_same url allowed allow_file f) as Ho.
  destruct (open_source netloc_check url allowed allow_file f) as [[response|e] f0] eqn:Eo; cbn in Ho; subst f0;
    [|erewrite bind_err by exact Eo; by intros [= <- <-]].
  erewrite bind_ok by exact Eo. destruct (write_temporary now [] f Hd Ht) as (m & a & f1 & E1 & Ht1 & H1).
  erewrite bind_ok by exact E1. destruct (content_length response) as [length|e];
    [erewrite bind_ok by reflexivity|erewrite bind_err by reflexivity; by intros [= <- <-]].
  destruct (match expected_size, length with Some n, Some m => negb (m =? n) | _, _ => false end);
    [erewrite bind_err by reflexivity; by intros [= <- <-]|erewrite bind_ok by reflexivity].
  destruct (exceeds max_bytes expected_size);
    [erewrite bind_err by reflexivity; by intros [= <- <-]|erewrite bind_ok by reflexivity].
  intros E. eapply read_source_run in E as [H2 H3]; [|apply H1|exact Ht1|cbn; lia].
  split; [by eapply only_temporary_trans|]. intros got (Hf & (rest & Hr & ->) & Hl)%H3. split_and!; [done|by exists response|done].
Qed.

(** C21: a download into a real directory, where neither the destination nor the
    temporary name is taken by a directory or a link, is all or nothing. Whatever
    the server sends, and wherever the transfer stops, afterwards the destination either is as it was, and
    [download_source] has raised, or the source was opened and read to its end,
    the destination holds exactly the concatenation of what the reads delivered,
    its SHA-256 is the digest of the assignment and it is within the size limit.
    No other file has changed, except the temporary one. *)
Theorem download_verified now url digest expected_size max_bytes allowed allow_file f r f' :
  real_dir f d → plain_name n → file_or_free f destination → file_or_free f temporary →
  download_source netloc_check now url destination digest expected_size max_bytes allowed allow_file f = (r, f') →
  ((∃ e, r = Err e) ∧ same_entry (f !! destination) (f' !! destination) ∨
   r = Ok destination ∧ ∃ response content m a,
     open_source netloc_check url allowed allow_file f = (Ok response, f) ∧ received (sr_chunks response) = Some content ∧
     f' !! destination = Some (EFile content m a) ∧ lower (sha256_hex content) = lower digest ∧
     (∀ b, max_bytes = Some b → 0 ≤ b → Z.of_nat (length content) ≤ b)) ∧
  ∀ x, x ≠ destination → x ≠ temporary → same_entry (f !! x) (f' !! x).
Proof.
  intros Hd Hn Hdest Htemp. unfold download_source. rewrite parent_child, name_child.
  assert (∀ r' f1, only_temporary f f1 → (∃ e, r' = Err e) → (r', f1) = (r, f') →
    ((∃ e, r = Err e) ∧ same_entry (f !! destination) (f' !! destination) ∨
     r = Ok destination ∧ ∃ response content m a,
       open_source netloc_check url allowed allow_file f = (Ok response, f) ∧ received (sr_chunks response) = Some content ∧
       f' !! destination = Some (EFile content m a) ∧ lower (sha256_hex content) = lower digest ∧
       (∀ b, max_bytes = Some b → 0 ≤ b → Z.of_nat (length content) ≤ b)) ∧
    ∀ x, x ≠ destination → x ≠ temporary → same_entry (f !! x) (f' !! x)) as Hfail.
  { intros r' f1 H1 He [= <- <-]. split; [left; split; [done|]|intros x _ Hx]; apply H1; [|done]. apply not_eq_sym, temporary_neq. }
  pose proof (only_temporary_refl f Hd Htemp) as Hrefl.
  destruct (negb _); [erewrite bind_err by reflexivity; by apply Hfail; [|eauto]|erewrite bind_ok by reflexivity].
  destruct (match expected_size with Some _ => _ | None => _ end);
    [erewrite bind_err by reflexivity; by apply Hfail; [|eauto]|erewrite bind_ok by reflexivity].
  erewrite bind_ok by (by apply mkdir_parents_real). cbv zeta.
  match goal with |- context [try_except ?m ?h] => set (transfer := m); set (handler := h) end.
  destruct (transfer f) as [[got|e] f1] eqn:E; pose proof E as [H1 H2]%transfer_run; try done.
  2:{ erewrite bind_err by (unfold try_except; rewrite E; reflexivity). by apply Hfail; [|eauto]. }
  erewrite bind_ok by (unfold try_except; rewrite E; reflexivity). destruct (H2 got eq_refl) as ((m & a & Ef) & (response & Hopen & Hgot) & Hb).
  destruct (ustr_eqb (lower (sha256_hex got)) (lower digest)) eqn:Es; cbn [negb].
  - apply bool_decide_eq_true in Es. assert (n ++ u ".tmp" ≠ n) as Hne by (intros He; apply temporary_neq; by rewrite He).
    destruct (replace_child now d _ n got m a f1 (ot_dir _ _ H1) Hne Ef) as (f2 & E2 & Hf2 & _ & _ & Hs2).
    { eapply file_or_free_same; [apply H1, not_eq_sym, temporary_neq|done]. }
    erewrite bind_ok by exact E2. intros [= <- <-]. split.
    + right. split; [done|]. by exists response, got, m, a.
    + intros x Hx1 Hx2. eapply same_entry_trans; [by apply H1|by apply Hs2].
  - destruct (unlink_child now d (n ++ u ".tmp") f1 (ot_dir _ _ H1) (ot_temporary _ _ H1)) as (f2 & E2 & Hf2 & Hd2 & Hs2).
    erewrite bind_ok by exact E2. apply Hfail; [|eauto]. eapply only_temporary_trans; [exact H1|].
    split; [done|by left|done].
Qed.

End download.

(** * Extraction *)

(** A destination without links on its way and with nothing in it. *)
Record fresh_place (f : fs) (dest : path) : Prop := FreshPlace {
  fp_dir : real_dir f dest;
  fp_names : Forall (λ c, c ≠ []) dest;
  fp_empty : ∀ rest, rest ≠ [] → f !! (dest ++ rest) = None;
}.

(** What may be extracted there: a relative name without parent references, no
    device, and of links only those that lead to a place below. *)
Definition safe_member (f : fs) (dest : path) (m : TarMember) : Prop :=
  is_absolute (tm_name m) = false ∧ u ".." ∉ path_parts (tm_name m) ∧ is_device (tm_kind m) = false ∧
  (is_link (tm_kind m) = true → is_absolute (tm_linkname m) = false ∧
     ∃ rest, resolve f (parent (dest ++ path_parts (tm_name m)) ++ path_parts (tm_linkname m)) = dest ++ rest).

Lemma path_parts_plain text : u ".." ∉ path_parts text → Forall (λ c, c ≠ [] ∧ plain_name c) (path_parts text).
Proof.
  intros Hd. apply Forall_forall. intros c Hc. assert (c ≠ u "..") as Hne by (by intros ->).
  unfold path_parts in Hc. apply list_elem_of_In, List.filter_In in Hc as [_ Hc].
  apply negb_true_iff, orb_false_iff in Hc as [H1%bool_decide_eq_false H2%bool_decide_eq_false]. done.
Qed.

Lemma fresh_no_link f dest parts a b : fresh_place f dest → dest ++ parts = a ++ b → a ≠ [] → no_link f a.
Proof.
  intros [[Hp Hd] _ He] E Ha x t Hx.
  destruct (decide (length a <= length dest)%nat) as [Hl|Hl].
  - assert (∃ c, dest = a ++ c) as [c ->].
    { exists (drop (length a) dest). apply (f_equal (take (length a))) in E.
      rewrite take_app_length, take_app_le in E by done. rewrite <- E at 1. by rewrite take_drop. }
    destruct (Hd a c eq_refl Ha) as [t' Ht]. congruence.
  - assert (∃ c, a = dest ++ c ∧ c ≠ []) as (c & -> & Hc).
    { exists (drop (length dest) a). assert (take (length dest) a = dest) as Et.
      { apply (f_equal (take (length dest))) in E. rewrite take_app_length, take_app_le in E by lia. done. }
      split; [by rewrite <- Et at 1; rewrite take_drop|]. intros Hn%(f_equal length). rewrite length_drop in Hn. cbn in Hn. lia. }
    rewrite (He c Hc) in Hx. done.
Qed.

(** Names are resolved to where they say, below the destination. *)
Lemma fresh_resolve f dest parts : fresh_place f dest → Forall (λ c, c ≠ [] ∧ plain_name c) parts →
  resolve f (dest ++ parts) = dest ++ parts.
Proof.
  intros Hf Hp. apply resolve_plain.
  - apply Forall_app. split; [|done]. destruct Hf as [[Hn _] He _]. apply Forall_and. by split.
  - intros a b E Ha. by eapply fresh_no_link.
Qed.

Lemma under_spec q p : under q p = true ↔ ∃ rest, p = q ++ rest.
Proof.
  unfold under. rewrite bool_decide_eq_true. split.
  - intros Ht. exists (drop (length q) p). by rewrite <- Ht at 1; rewrite take_drop.
  - intros [rest ->]. by rewrite take_app_length.
Qed.

(** In a fresh place the checks of a member decide exactly its safety. *)
Lemma validate_member_spec f dest m : fresh_place f dest → validate_member f dest m = Ok () ↔ safe_member f dest m.
Proof.
  intros Hf. unfold validate_member, safe_member, is_relative_to, mem_str.
  destruct (is_absolute (tm_name m)); cbn [orb]; [by split; [|intros []]|].
  case_bool_decide as Hd; [split; [done|by intros (_ & ? & _)]|]. munfold.
  assert (resolve f dest = dest) as Er.
  { rewrite <- (app_nil_r dest) at 1. rewrite fresh_resolve by (done || constructor). by rewrite app_nil_r. }
  rewrite (fresh_resolve f dest _ Hf (path_parts_plain _ Hd)), Er, (proj2 (under_spec _ _)) by eauto. cbn [negb].
  destruct (is_device (tm_kind m)); [by split; [|intros (_ & _ & ? & _)]|].
  destruct (is_link (tm_kind m)); [|by split].
  destruct (is_absolute (tm_linkname m)); [split; [done|by intros (_ & _ & _ & Hl); destruct (Hl eq_refl)]|].
  destruct (under dest _) eqn:Eu; cbn [negb].
  - split; [intros _|done]. split_and!; try done. intros _. split; [done|]. by apply under_spec.
  - split; [done|]. intros (_ & _ & _ & Hl). destruct (Hl eq_refl) as [_ Hr%under_spec]. congruence.
Qed.

Lemma validate_members_spec f dest ms : fresh_place f dest →
  validate_members f dest ms = Ok () ↔ Forall (safe_member f dest) ms.
Proof.
  intros Hf. induction ms as [|m ms IH]; [by split; [constructor|]|]. cbn [validate_members]. rewrite Forall_cons, <- IH, <- validate_member_spec by done.
  munfold. destruct (validate_member f dest m) as [[]|e]; [by split; [|intros []]|]. by split; [|intros []].
Qed.

(** C22: only safe archives are extracted. Into a fresh place, [extract_source]
    calls the extraction exactly when the archive can be read and every member
    is safe: relative names that resolve below the place, no devices, links only
    to places below. Otherwise it raises and the file system is as it was: no
    member is extracted, also none before the unsafe one. *)
Theorem extraction_gate `{TarFile} now archive dest f r f' : fresh_place f dest →
  extract_source now archive dest f = (r, f') →
  (∃ content ms, read_bytes archive f = (Ok content, f) ∧ tar_members content = Ok ms ∧ Forall (safe_member f dest) ms ∧
     f' = (tar_extract content ms dest f).2 ∧ (r = Ok () ↔ (tar_extract content ms dest f).1 = Ok ())) ∨
  (f' = f ∧ (∃ e, r = Err e) ∧
     ∀ content ms, read_bytes archive f = (Ok content, f) → tar_members content = Ok ms → ¬ Forall (safe_member f dest) ms).
Proof.
  intros Hf. unfold extract_source. erewrite bind_ok by (apply mkdir_parents_real, Hf).
  assert (∃ rb, read_bytes archive f = (rb, f)) as [rb Eb].
  { unfold read_bytes. repeat case_match; eauto. }
  unfold try_except. destruct rb as [content|e]; [|erewrite bind_err by exact Eb; intros [= <- <-]; right; split_and!; [done|eauto|congruence]].
  erewrite bind_ok by exact Eb. destruct (tar_members content) as [ms|e] eqn:Em;
    [erewrite bind_ok by reflexivity|erewrite bind_err by reflexivity; intros [= <- <-]; right; split_and!; [done|eauto|congruence]].
  erewrite bind_ok by reflexivity. pose proof (validate_members_spec f dest ms Hf) as Hv. unfold id.
  destruct (validate_members f dest ms) as [[]|e] eqn:Ev.
  - erewrite bind_ok by reflexivity. destruct (tar_extract content ms dest f) as [[[]|e] f1] eqn:Ex;
      intros [= <- <-]; left; exists content, ms; rewrite Ex; split_and!; try done; by apply Hv.
  - erewrite bind_err by reflexivity. intros [= <- <-]. right. split_and!; [done|eauto|].
    intros content' ms' Eb' Em'. rewrite Eb in Eb'. injection Eb' as <-. rewrite Em in Em'. injection Em' as <-. by intros Hs%Hv.
Qed.
