(* ===== verification/CacheProofs.v ===== *)
(** Site caches: what a build finds in its cache, and what it records there. *)

From S2P Require Import Prelude PyStr Dict Json Clock Uuid Fs PackageJson Sha256 Cache.

Local Open Scope Z_scope.

(** * The text of the metadata *)

(** Visible ASCII: the text survives the encoding and the reading of lines. *)
Definition visible (s : ustr) : Prop := Forall (λ c, 32 <= c < 127)%N s.

Lemma visible_ascii s : visible s → ascii_str s.
Proof. intros Hs. eapply Forall_impl; [exact Hs|]. intros c Hc. cbn in *. lia. Qed.

Lemma visible_newlines s : visible s → universal_newlines s = s.
Proof.
  induction 1 as [|c s Hc _ IH]; [done|]. cbn beta in Hc. destruct (decide (c = 13%N)) as [->|Hn]; [lia|].
  transitivity (c :: universal_newlines s); [|by rewrite IH]. cbn [universal_newlines]. repeat (case_match; try done).
Qed.

Lemma visible_join sep l : visible sep → Forall visible l → visible (join sep l).
Proof.
  intros Hs. induction 1 as [|x l Hx _ IH]; [constructor|]. destruct l as [|y l]; [done|]. cbn [join].
  apply Forall_app. split; [done|]. by apply Forall_app.
Qed.

Lemma hexdigit_visible d : (d < 16)%N → (32 <= hexdigit d < 127)%N.
Proof. unfold hexdigit. intros. case_match; lia. Qed.

Lemma escape_char_visible c : valid_cp c = true → visible (escape_char c).
Proof.
  unfold valid_cp. intros Hc. unfold escape_char, hex4, visible.
  repeat case_match; cbn [app]; repeat (constructor; try (apply hexdigit_visible); try lia).
Qed.

Lemma quote_visible s : str_ok s = true → visible (quote s).
Proof.
  intros Hs%str_ok_valid. unfold quote. constructor; [lia|]. apply Forall_app. split; [|repeat constructor; lia].
  induction Hs as [|c s Hc _ IH]; [constructor|]. rewrite escape_cons. apply Forall_app. split; [by apply escape_char_visible|done].
Qed.

Lemma object_visible o : Forall (λ kv, visible (quote kv.1) ∧ visible (dumps (spaced true) kv.2)) o →
  visible (dumps (spaced true) (JObj o)).
Proof.
  intros Ho. rewrite dumps_obj. constructor; [lia|]. apply Forall_app. split; [|repeat constructor; lia].
  apply visible_join; [repeat constructor; lia|]. apply Forall_fmap. rewrite printed_perm.
  eapply Forall_impl; [exact Ho|]. intros [k v] [Hk Hv]. unfold compose, member_text. cbn [fst snd] in *.
  apply Forall_app. split; [done|]. apply Forall_app. split; [repeat constructor; lia|done].
Qed.

Lemma big_endian_bytes k n : Forall (λ b, (b < 256)%N) (big_endian k n).
Proof.
  revert n. induction k as [|k IH]; intros n; [constructor|]. cbn [big_endian]. apply Forall_app. split; [apply IH|].
  constructor; [|constructor]. change 255%N with (N.ones 8). rewrite N.land_ones. by apply N.mod_lt.
Qed.

Lemma sha256_hex_visible b : visible (sha256_hex b).
Proof.
  unfold sha256_hex, hex_bytes, sha256. apply Forall_concat, Forall_fmap. cbv zeta.
  assert (∀ l, Forall (λ b, (b < 256)%N) l → Forall (visible ∘ (λ x, [hexdigit (x / 16); hexdigit (x mod 16)])) l) as Hl.
  { intros l Hl. eapply Forall_impl; [exact Hl|]. intros x Hx. cbn in *. repeat constructor; apply hexdigit_visible.
    1,2: by apply N.Div0.div_lt_upper_bound. all: by apply N.mod_lt. }
  apply Hl, Forall_concat, Forall_fmap, Forall_forall. intros n _. apply big_endian_bytes.
Qed.

(** A snapshot as [lockfile_snapshot] takes it. *)
Definition snapshot_ok (l : option LockfileSnapshot) : Prop :=
  ∀ s, l = Some s → str_ok (ls_name s) = true ∧ str_ok (ls_sha256 s) = true.

Lemma lockfile_snapshot_run root pm f : ∃ r, lockfile_snapshot root pm f = (r, f) ∧ ∀ l, r = Ok l → snapshot_ok l.
Proof.
  unfold lockfile_snapshot. destruct (List.find _ _) as [[filename m]|] eqn:E; [|exists (Ok None); split; [done|]; by intros l [= <-]].
  assert (∃ r, read_bytes (root ++ [filename]) f = (r, f)) as [r Er] by (unfold read_bytes; case_match; [case_match|]; eauto).
  rewrite Er. destruct r as [b|e]; eexists; (split; [done|]); [|done]. intros l [= <-] s [= <-]. cbn. split.
  - apply List.find_some in E as [E _]. repeat (destruct E as [[= <- _]|E]; [done|]). destruct E.
  - apply ascii_str_ok, visible_ascii, sha256_hex_visible.
Qed.

Section metadata.
Context (now : instant) (c : SiteCache) (l : option LockfileSnapshot).
Context (Hnow : in_range now) (Hl : snapshot_ok l).

Abbreviation text := (dumps (spaced true) (JObj (metadata_payload now c l))).

Lemma manager_text_ok : str_ok (manager_text (sc_package_manager c)) = true.
Proof. by destruct (sc_package_manager c). Qed.

Lemma now_ok : str_ok (format_datetime now) = true.
Proof. by apply ascii_str_ok, format_datetime_ascii. Qed.

Lemma metadata_visible : visible text.
Proof using Hl Hnow.
  apply object_visible. unfold metadata_payload. rewrite !Forall_cons, Forall_nil. cbn [fst snd].
  split_and!; try (by apply quote_visible); cbn [dumps].
  - apply quote_visible, manager_text_ok.
  - destruct l as [s|]; [|unfold visible; vm_compute; repeat constructor; discriminate]. destruct (Hl s eq_refl). apply object_visible.
    rewrite !Forall_cons, Forall_nil. by split_and!; try apply quote_visible.
  - apply quote_visible, now_ok.
  - done.
Qed.

(** What is recorded is read back. *)
Lemma metadata_reads : ∃ d, decode_metadata (metadata_path c) text = Ok d ∧ metadata_lockfile d = Ok l.
Proof using Hl Hnow.
  unfold decode_metadata. rewrite loads_dumps_style; [| apply spaced_ok|].
  - destruct l as [[nm sha]|]; eexists; by split.
  - pose proof manager_text_ok as H1. pose proof now_ok as H2. cbn [json_ok].
    apply andb_true_iff. split; [done|]. cbn [metadata_payload forallb fst snd json_ok]. rewrite H1, H2.
    destruct l as [s|]; [|done]. destruct (Hl s eq_refl) as [H3 H4]. cbn [lockfile_json json_ok forallb fst snd]. by rewrite H3, H4.
Qed.

End metadata.

(** * Directories *)

Lemma real_dir_snoc f d c t : real_dir f d → plain_name c → f !! (d ++ [c]) = Some (EDir t) → real_dir f (d ++ [c]).
Proof.
  intros [Hp Hd] Hc Ht. split; [by apply Forall_app; split; [|constructor]|]. intros a b E Ha.
  destruct b as [|x b _] using rev_ind; [rewrite app_nil_r in E; subst; by exists t|].
  rewrite app_assoc in E. apply app_inj_tail in E as [E _]. by eapply Hd.
Qed.

Lemma mkdir_from_app now done_ a b f f' : mkdir_from now done_ a f = (Ok (), f') →
  mkdir_from now done_ (a ++ b) f = mkdir_from now (done_ ++ a) b f'.
Proof.
  revert done_ f. induction a as [|c a IH]; intros done_ f E.
  { injection E as ->. by rewrite app_nil_r. }
  cbn [app mkdir_from] in *. munfold. destruct (is_dir f (done_ ++ [c])); [apply IH in E; by rewrite E, <- app_assoc|].
  destruct (exists_ f (done_ ++ [c])); [by destruct a|]. cbn [raise_if] in *. munfold.
  destruct (mkdir1 now (done_ ++ [c]) f) as [[[]|e] f2]; [|done]. apply IH in E. by rewrite E, <- app_assoc.
Qed.

(** A directory in a real directory: kept, or made. *)
Lemma mkdir_child now d c f : real_dir f d → plain_name c → f !! (d ++ [c]) = None ∨ (∃ t, f !! (d ++ [c]) = Some (EDir t)) →
  ∃ f', mkdir_parents now (d ++ [c]) f = (Ok (), f') ∧ real_dir f' (d ++ [c]) ∧
    ∀ x, x ≠ d ++ [c] → same_entry (f !! x) (f' !! x).
Proof.
  intros Hd Hc [Hn|[t Ht]].
  2:{ exists f. pose proof (real_dir_snoc f d c t Hd Hc Ht) as Hr. split; [by apply mkdir_parents_real|]. split; [done|]. by left. }
  exists (put now (d ++ [c]) (EDir now) f). split_and!.
  - unfold mkdir_parents. erewrite mkdir_from_app by (by apply mkdir_parents_real). cbn [app mkdir_from].
    assert (stat f (d ++ [c]) = None) as Hs by (rewrite stat_child; [done..|intros ? ?; by rewrite Hn]).
    erewrite bind_ok by reflexivity. unfold is_dir. rewrite Hs. erewrite bind_ok; [reflexivity|].
    erewrite bind_ok by reflexivity. unfold exists_. rewrite Hs. erewrite bind_ok by reflexivity.
    unfold mkdir1. by rewrite llocate_child, lookup_child, Hn by done.
  - eapply real_dir_snoc; [by apply put_real_dir|done|apply put_lookup_eq].
  - intros x Hx. by apply put_lookup_ne.
Qed.

(** * The place of a site's cache *)

Section place.
Context (state : path) (site : ustr) (Hsite : safe_site_id site = true).

Abbreviation root := (site_root state site).
Abbreviation home := (root ++ [u "node-home"]).

(** Names of the engine's own files in a cache. *)
Definition own_name (n : ustr) : Prop := n = METADATA_FILENAME ∨ n = DISABLED_MARKER_FILENAME.

(** The directory of the caches is there, the site's own is there or not, and
    where the engine writes in it there are no links and no entries of another kind. *)
Record cache_place (f : fs) : Prop := CachePlace {
  cp_parent : real_dir f (cache_root state);
  cp_root : (∀ rest, f !! (root ++ rest) = None) ∨ ∃ t, f !! root = Some (EDir t);
  cp_own : ∀ n, own_name n → file_or_free f (root ++ [n]);
  cp_home : f !! home = None ∨ ∃ t, f !! home = Some (EDir t);
}.

(** Nothing but the site's cache has changed. *)
Definition outside (f f' : fs) : Prop := ∀ x, under root x = false → same_entry (f !! x) (f' !! x).

Lemma outside_trans f f' f'' : outside f f' → outside f' f'' → outside f f''.
Proof. intros H1 H2 x Hx. eapply same_entry_trans; [by apply H1|by apply H2]. Qed.

Lemma site_plain : plain_name site.
Proof using Hsite.
  split; intros ->; by vm_compute in Hsite.
Qed.

Lemma own_plain n : own_name n → plain_name n.
Proof. intros [->| ->]; split; by intros E%(f_equal length). Qed.

Lemma under_root rest : under root (root ++ rest) = true.
Proof. unfold under. by rewrite bool_decide_true by apply take_app_length. Qed.

Lemma under_inv x : under root x = true → ∃ rest, x = root ++ rest.
Proof. unfold under. intros Ht%bool_decide_eq_true. exists (drop (length root) x). by rewrite <- Ht at 1; rewrite take_drop. Qed.

Lemma parent_outside f f' : outside f f' → real_dir f (cache_root state) → real_dir f' (cache_root state).
Proof.
  intros Ho. apply real_dir_same. intros a b E _. apply Ho. unfold under. apply bool_decide_eq_false. intros Ht.
  apply (f_equal length) in Ht, E. rewrite length_app in E. unfold site_root in Ht. rewrite length_take, length_app in Ht. cbn in Ht. lia.
Qed.

Lemma root_real f : cache_place f → (∀ rest, f !! (root ++ rest) = None) ∨ real_dir f root.
Proof using Hsite.
  intros [Hp [Hr|[t Ht]] _ _]; [by left|right]. by eapply real_dir_snoc; [|apply site_plain|].
Qed.

(** What the engine asks about its files in the cache. *)
Lemma own_stat f n : cache_place f → own_name n → stat f (root ++ [n]) = f !! (root ++ [n]).
Proof using Hsite.
  intros Hf Hn. destruct (root_real f Hf) as [Hr|Hr].
  - rewrite (Hr [n]). unfold stat, site_root. rewrite <- app_assoc, locate_real by apply Hf. unfold MAX_LINKS.
    destruct site_plain as [H1 H2]. cbn [app walk]. unfold ustr_eqb. rewrite !bool_decide_false by done.
    pose proof (Hr []) as E. rewrite app_nil_r in E. unfold site_root in E. by rewrite E.
  - apply stat_child; [done|by apply own_plain|]. by apply file_or_free_no_link, Hf.
Qed.

Lemma own_exists f n : cache_place f → own_name n → exists_ f (root ++ [n]) = bool_decide (f !! (root ++ [n]) ≠ None).
Proof using Hsite. intros Hf Hn. unfold exists_. rewrite own_stat by done. by destruct (f !! (root ++ [n])). Qed.

(** ** Reset *)

Lemma reset_run now f : cache_place f → ∃ f', reset_cache_unlocked now state (Some site) f = (Ok (), f') ∧
  cache_place f' ∧ outside f f' ∧ ∀ rest, f' !! (root ++ rest) = None.
Proof using Hsite.
  intros Hf. pose proof (cp_parent _ Hf) as Hp.
  assert (∀ f', outside f f' → (∀ rest, f' !! (root ++ rest) = None) → cache_place f') as Hnew.
  { intros f' Ho Hr. split; [by eapply parent_outside|by left|by left|by left]. }
  assert (no_link f root) as Hnl.
  { intros a t E. destruct (cp_root _ Hf) as [Hr|[t' Ht]]; [specialize (Hr []); rewrite app_nil_r in Hr|]; congruence. }
  assert (stat f root = f !! root) as Hs by (by apply stat_child; [|apply site_plain|]).
  unfold reset_cache_unlocked. erewrite bind_ok by reflexivity. unfold exists_. rewrite Hs.
  destruct (cp_root _ Hf) as [Hr|[t Ht]].
  { pose proof (Hr []) as E. rewrite app_nil_r in E. rewrite E. exists f. split_and!; [done..|by left|done]. }
  rewrite Ht. erewrite bind_ok by reflexivity. unfold is_dir. rewrite Hs, Ht. erewrite bind_ok by reflexivity.
  unfold rmtree, site_root. rewrite lstat_child, llocate_child by done. unfold site_root in Ht. rewrite Ht.
  eexists. split; [done|]. unfold remove_tree.
  match goal with |- context [touch_dir now ?p ?g] => set (tree := touch_dir now p g) end.
  assert (outside f tree) as Ho.
  { intros x Hx. eapply same_entry_trans; [|apply touch_dir_same]. left.
    destruct (f !! x) as [e|] eqn:E; symmetry; [by apply map_lookup_filter_Some|apply map_lookup_filter_None; by left]. }
  assert (∀ rest, tree !! (root ++ rest) = None) as Hr.
  { intros rest. eapply same_entry_none; [apply touch_dir_same|]. apply map_lookup_filter_None. right. intros e _.
    change (under root (root ++ rest) ≠ false). by rewrite under_root. }
  split; [by apply Hnew|done].
Qed.

(** ** Metadata *)

Lemma read_metadata_run f : cache_place f → ∃ r, read_metadata (root ++ [METADATA_FILENAME]) f = (r, f) ∧
  ∀ o, r = Ok o → (o = None ↔ f !! (root ++ [METADATA_FILENAME]) = None).
Proof using Hsite.
  intros Hf. assert (own_name METADATA_FILENAME) as Hn by (by left). unfold read_metadata. erewrite bind_ok by reflexivity.
  rewrite own_exists by done. case_bool_decide as Hd.
  2:{ exists (Ok None). split; [done|]. intros o [= <-]. split; [intros _|done]. destruct (f !! _); [by destruct Hd|done]. }
  unfold read_text, read_bytes, try_except. munfold. rewrite own_stat by done.
  destruct (cp_own _ Hf _ Hn) as [E|(c & m & a & E)]; [by destruct Hd|]. rewrite E.
  destruct (utf8_decode c) as [s|e].
  - destruct (decode_metadata _ _) as [d|e]; eexists; (split; [done|]); [|done]. by intros o [= <-].
  - destruct (isinstance e OSError); eexists; (split; [done|]); done.
Qed.

(** A file in a real cache directory that another write leaves alone. *)
Lemma write_metadata_run now pm l f r f' : real_dir f root → file_or_free f (root ++ [METADATA_FILENAME]) →
  in_range now → snapshot_ok l →
  write_metadata now (MkSiteCache root pm) l f = (r, f') →
  ∃ m a, r = Ok () ∧ f' !! (root ++ [METADATA_FILENAME]) =
      Some (EFile (dumps (spaced true) (JObj (metadata_payload now (MkSiteCache root pm) l))) m a) ∧
    real_dir f' root ∧ ∀ x, x ≠ root ++ [METADATA_FILENAME] → same_entry (f !! x) (f' !! x).
Proof.
  intros Hr Hm Hnow Hl. unfold write_metadata. cbn [sc_root]. erewrite bind_ok by (by apply mkdir_parents_real).
  unfold write_text. rewrite utf8_encode_ascii by (by apply visible_ascii, metadata_visible). erewrite bind_ok by reflexivity.
  unfold metadata_path. cbn [sc_root]. destruct (write_bytes_child now root METADATA_FILENAME
    (dumps (spaced true) (JObj (metadata_payload now (MkSiteCache root pm) l))) f) as (m & a & f1 & E & Ef & Hd & Hs);
    [done|by apply own_plain; left|done|].
  rewrite E. intros [= <- <-]. by exists m, a.
Qed.

(** Marking the cache as used changes times only. *)
Lemma touch_run now f r f' content m a : real_dir f root → f !! (root ++ [METADATA_FILENAME]) = Some (EFile content m a) →
  touch_site_cache now root f = (r, f') →
  r = Ok () ∧ f' !! (root ++ [METADATA_FILENAME]) = Some (EFile content now now) ∧
  real_dir f' root ∧ ∀ x, x ≠ root ++ [METADATA_FILENAME] → same_entry (f !! x) (f' !! x).
Proof.
  intros Hr Hm. unfold touch_site_cache. erewrite bind_ok by (by apply mkdir_parents_real).
  destruct (proj2 Hr root []) as [t Ht]; [by rewrite app_nil_r|by unfold site_root; destruct (cache_root state)|].
  set (f1 := <[root := EDir now]> f : fs).
  assert (touch now root f = (Ok (), f1)) as E1.
  { unfold touch. rewrite locate_real_dir by done. unfold lookup_entry, site_root in *. destruct (cache_root state ++ [site]) eqn:E; [by destruct (cache_root state)|].
    by rewrite Ht. }
  erewrite bind_ok by exact E1.
  assert (∀ x, same_entry (f !! x) (f1 !! x)) as H1.
  { intros x. unfold f1. destruct (decide (root = x)) as [<-|Hx]; [right; exists t, now; by rewrite lookup_insert_eq|left; by rewrite lookup_insert_ne]. }
  assert (real_dir f1 root) as Hr1 by (by eapply real_dir_same; [intros; apply H1|]).
  pose proof (same_entry_file _ _ _ _ _ (H1 _) Hm) as Hm1.
  assert (no_link f1 (root ++ [METADATA_FILENAME])) as Hnl by (intros ? ?; by rewrite Hm1).
  erewrite bind_ok by reflexivity. unfold exists_. rewrite stat_child, Hm1 by (done || by apply own_plain; left).
  unfold touch. rewrite locate_child, lookup_child, Hm1 by (done || by apply own_plain; left).
  intros [= <- <-]. split_and!; [done|by rewrite lookup_insert_eq| |].
  - eapply real_dir_same; [|exact Hr1]. intros a' b E _. left. rewrite lookup_insert_ne; [done|]. by eapply child_not_prefix.
  - intros x Hx. eapply same_entry_trans; [apply H1|]. left. by rewrite lookup_insert_ne.
Qed.

(** ** Preparing *)

Lemma home_neq : home ≠ root ++ [METADATA_FILENAME].
Proof. intros [= E]%app_inv_head; by apply (f_equal length) in E. Qed.

Lemma mounts_run now pm f : cache_place f → ∃ ms f', mounts now (MkSiteCache root pm) f = (Ok ms, f') ∧ real_dir f' root ∧
  (f' !! home = None ∨ ∃ t, f' !! home = Some (EDir t)) ∧ ∀ x, x ≠ root → x ≠ home → same_entry (f !! x) (f' !! x).
Proof using Hsite.
  intros Hf. destruct (mkdir_child now (cache_root state) site f) as (f1 & E1 & Hr1 & H1); [apply Hf|apply site_plain|..].
  { destruct (cp_root _ Hf) as [Hr|Hr]; [left|by right]. specialize (Hr []). by rewrite app_nil_r in Hr. }
  assert (home ≠ root) as Hne by (intros E%(f_equal length); rewrite length_app in E; cbn in E; lia).
  assert (f1 !! home = None ∨ ∃ t, f1 !! home = Some (EDir t)) as Hh1.
  { destruct (cp_home _ Hf) as [E|[t E]]; [left; by eapply same_entry_none; [apply H1|]|right; by eapply same_entry_dir; [apply H1|]]. }
  unfold mounts. cbn [sc_root]. erewrite bind_ok by exact E1. erewrite bind_ok by (by apply mkdir_parents_real). cbv zeta.
  destruct (bool_decide _); [|by exists [MkCacheMount root (u "/cache")], f1; split_and!; [..|intros x Hx _; apply H1]].
  destruct (mkdir_child now root (u "node-home") f1) as (f2 & E2 & Hr2 & H2); [done|by split; intros E%(f_equal length)|done|].
  erewrite bind_ok by exact E2. eexists _, f2. split; [done|]. split_and!.
  - eapply real_dir_same; [|exact Hr1]. intros a b E _. apply H2. apply not_eq_sym. by eapply child_not_prefix.
  - right. destruct (proj2 Hr2 home []) as [t Ht]; [by rewrite app_nil_r|by unfold site_root; destruct (cache_root state)|by exists t].
  - intros x Hx Hx'. eapply same_entry_trans; [by apply H1|by apply H2].
Qed.

(** From the mounts to the end: what is there afterwards. *)
Record prepared (now : instant) (pm : PackageManager) (l : option LockfileSnapshot) (f f' : fs) : Prop := Prepared {
  pr_root : real_dir f' root;
  pr_metadata : f' !! (root ++ [METADATA_FILENAME]) =
    Some (EFile (dumps (spaced true) (JObj (metadata_payload now (MkSiteCache root pm) l))) now now);
  pr_home : f' !! home = None ∨ ∃ t, f' !! home = Some (EDir t);
  pr_rest : ∀ x, x ≠ root → x ≠ home → x ≠ root ++ [METADATA_FILENAME] → same_entry (f !! x) (f' !! x);
}.

Lemma finish_run {A : Type} (now : instant) (pm : PackageManager) (l : option LockfileSnapshot) (f : fs)
    (k : list CacheMount → M fs A) (r : result A) (f' : fs) : cache_place f → in_range now → snapshot_ok l →
  (ms ← mounts now (MkSiteCache root pm); write_metadata now (MkSiteCache root pm) l;; touch_site_cache now root;; k ms) f = (r, f') →
  ∃ ms f1, prepared now pm l f f1 ∧ k ms f1 = (r, f').
Proof using Hsite.
  intros Hf Hnow Hl. destruct (mounts_run now pm f Hf) as (ms & f1 & E1 & Hr1 & Hh1 & H1). erewrite bind_ok by exact E1.
  assert (root ++ [METADATA_FILENAME] ≠ root) as Hne by (intros E%(f_equal length); rewrite length_app in E; cbn in E; lia).
  destruct (write_metadata now (MkSiteCache root pm) l f1) as [r2 f2] eqn:E2. pose proof E2 as E2'.
  eapply write_metadata_run in E2 as (m & a & -> & Em2 & Hr2 & H2); [|done| |done..].
  2:{ eapply file_or_free_same; [apply H1; [done|apply not_eq_sym, home_neq]|]. apply Hf. by left. }
  erewrite bind_ok by exact E2'. destruct (touch_site_cache now root f2) as [r3 f3] eqn:E3. pose proof E3 as E3'.
  eapply touch_run in E3 as (-> & Em3 & Hr3 & H3); [|done|exact Em2]. erewrite bind_ok by exact E3'.
  exists ms, f3. split; [|done]. split; [done|done| |].
  - pose proof (same_entry_trans _ _ _ (H2 _ home_neq) (H3 _ home_neq)) as Hs.
    destruct Hh1 as [E|[t E]]; [left; by eapply same_entry_none|right; by eapply same_entry_dir].
  - intros x Hx Hx' Hx''. eapply same_entry_trans; [by apply H1|]. eapply same_entry_trans; [by apply H2|by apply H3].
Qed.

Lemma prepared_place now pm l f f' : cache_place f → prepared now pm l f f' → cache_place f' ∧ outside f f'.
Proof using Hsite.
  intros Hf [Hr Hm Hh Hs]. assert (outside f f') as Ho.
  { intros x Hx. apply Hs; intros ->; [pose proof (under_root []) as Hu; rewrite app_nil_r in Hu; congruence|by rewrite under_root in Hx..]. }
  split; [|done]. split; [by eapply parent_outside; [|apply Hf]| |intros n Hn|done].
  - right. destruct (proj2 Hr root []) as [t Ht]; [by rewrite app_nil_r|by unfold site_root; destruct (cache_root state)|by exists t].
  - destruct (decide (n = METADATA_FILENAME)) as [->|Hne]; [right; rewrite Hm; eauto|].
    destruct Hn as [->| ->]; [done|]. eapply file_or_free_same; [apply Hs|apply Hf; by right].
    + intros E%(f_equal length). rewrite length_app in E. cbn in E. lia.
    + intros [= E]%app_inv_head; by apply (f_equal length) in E.
    + intros [= E]%app_inv_head; by apply (f_equal length) in E.
Qed.

Lemma prepared_reads now pm l f f' : in_range now → snapshot_ok l → cache_place f' → prepared now pm l f f' →
  ∃ d, read_metadata (root ++ [METADATA_FILENAME]) f' = (Ok (Some d), f') ∧ metadata_lockfile d = Ok l.
Proof using Hsite.
  intros Hnow Hl Hf Hp. destruct (metadata_reads now (MkSiteCache root pm) l Hnow Hl) as (d & Ed & El). exists d. split; [|done].
  pose proof (metadata_visible now (MkSiteCache root pm) l Hnow Hl) as Hv. assert (own_name METADATA_FILENAME) as Hn by (by left).
  unfold read_metadata. erewrite bind_ok by reflexivity. rewrite own_exists, (pr_metadata _ _ _ _ _ Hp) by done.
  rewrite bool_decide_true by done. erewrite bind_ok; [erewrite bind_ok; [reflexivity|by rewrite <- Ed]|].
  unfold try_except, read_text, read_bytes. munfold. rewrite own_stat, (pr_metadata _ _ _ _ _ Hp) by done.
  rewrite (utf8_decode_encode _ _ (utf8_encode_ascii _ (visible_ascii _ Hv))). by rewrite visible_newlines.
Qed.

(** The cache in [f] is stale for a build with this lockfile: it was disabled in
    between, or it was filled under another lockfile. *)
Definition stale (f : fs) (lockfile : option LockfileSnapshot) : Prop :=
  f !! (root ++ [DISABLED_MARKER_FILENAME]) ≠ None ∨
  ∃ d l, read_metadata (root ++ [METADATA_FILENAME]) f = (Ok (Some d), f) ∧ metadata_lockfile d = Ok l ∧ l ≠ lockfile.

(** The two tests of staleness, and what they remove. *)
Lemma resets_run {A : Type} (now : instant) (lockfile : option LockfileSnapshot) (f f' : fs) (a : A)
    (k : bool → option jdict → bool → M fs A) : cache_place f →
  (marked ← gets (λ f, exists_ f (root ++ [DISABLED_MARKER_FILENAME]));
   (if (marked : bool) then reset_cache_unlocked now state (Some site) else mret ());;
   previous ← read_metadata (root ++ [METADATA_FILENAME]);
   changed ← match previous with
             | None => mret false
             | Some d => l ← lift (metadata_lockfile d); mret (negb (bool_decide (l = lockfile)))
             end;
   (if (changed : bool) then reset_cache_unlocked now state (Some site) else mret ());;
   k marked previous changed) f = (Ok a, f') →
  ∃ marked previous changed f2, k marked previous changed f2 = (Ok a, f') ∧ cache_place f2 ∧ outside f f2 ∧
    (marked || changed = true ↔ stale f lockfile) ∧
    (marked || changed = true → ∀ rest, f2 !! (root ++ rest) = None) ∧
    (marked || changed = false → f2 = f ∧ (previous = None ↔ f !! (root ++ [METADATA_FILENAME]) = None)).
Proof using Hsite.
  intros Hf. erewrite bind_ok by reflexivity. rewrite own_exists by (done || by right). case_bool_decide as Hm.
  - destruct (reset_run now f Hf) as (f1 & E1 & Hf1 & Ho1 & Hn1). erewrite bind_ok by exact E1.
    destruct (read_metadata_run f1 Hf1) as ([previous|e] & E & Hp); [|by erewrite bind_err by exact E].
    erewrite bind_ok by exact E. rewrite (proj2 (Hp _ eq_refl) (Hn1 _)). erewrite bind_ok by reflexivity.
    erewrite bind_ok by reflexivity. intros Ek. exists true, None, false, f1. split_and!; try done. split; [by left|done].
  - erewrite bind_ok by reflexivity.
    destruct (read_metadata_run f Hf) as ([previous|e] & E & Hp); [|by erewrite bind_err by exact E].
    erewrite bind_ok by exact E. specialize (Hp _ eq_refl). destruct previous as [d|].
    2:{ erewrite bind_ok by reflexivity. erewrite bind_ok by reflexivity. intros Ek.
        exists false, None, false, f. split_and!; try done; [by left|]. split; [done|]. intros [?|(d & l & E' & _)]; [done|congruence]. }
    destruct (metadata_lockfile d) as [l|e] eqn:El; [|by erewrite bind_err by reflexivity].
    erewrite bind_ok by reflexivity. case_bool_decide as Hl; cbn [negb].
    + erewrite bind_ok by reflexivity. intros Ek. exists false, (Some d), false, f. split_and!; try done; [by left|].
      split; [done|]. intros [?|(d' & l' & E' & El' & Hl')]; [done|congruence].
    + destruct (reset_run now f Hf) as (f1 & E1 & Hf1 & Ho1 & Hn1). erewrite bind_ok by exact E1. intros Ek.
      exists false, (Some d), true, f1. split_and!; try done. split; [|done]. intros _. right. by exists d, l.
Qed.

(** C23: a build never sees a cache of another lockfile. Let the places of the
    site's cache be as the engine leaves them: the directory above is a real
    one, the site's directory, its metadata and marker files and its home are absent or of
    their own kind (no planted links: through one, the engine would write
    elsewhere). When [prepare_site_cache] returns for an enabled cache, it has
    emptied the cache exactly if the cache was stale, and says so; nothing of
    the earlier contents is left then, only the new metadata and an empty home.
    Otherwise it has kept every entry and reports a hit exactly if there was
    metadata and some content. In both cases the lockfile of this build is
    recorded so that the next one reads it back, and nothing outside the site's
    own directory has changed. *)
Theorem cache_prepared `{DirScan} now pm project f r f' : in_range now → cache_place f →
  prepare_site_cache now state site pm project true f = (Ok r, f') →
  (cpr_event r = Some WIPED ↔ stale f (cpr_lockfile r)) ∧
  (cpr_event r = Some WIPED →
     ∀ rest, rest ≠ [] → f' !! (root ++ rest) ≠ None → rest = [METADATA_FILENAME] ∨ rest = [u "node-home"]) ∧
  (cpr_event r ≠ Some WIPED →
     (∀ x, x ≠ root → x ≠ home → x ≠ root ++ [METADATA_FILENAME] → same_entry (f !! x) (f' !! x)) ∧
     cpr_event r = Some (if bool_decide (f !! (root ++ [METADATA_FILENAME]) ≠ None) && has_cache_contents f root then HIT else MISS)) ∧
  (∃ d, read_metadata (root ++ [METADATA_FILENAME]) f' = (Ok (Some d), f') ∧ metadata_lockfile d = Ok (cpr_lockfile r)) ∧
  lockfile_snapshot project pm f = (Ok (cpr_lockfile r), f) ∧ cache_place f' ∧ outside f f'.
Proof using Hsite.
  intros Hnow Hf. unfold prepare_site_cache, site_cache, validate_site_id. rewrite Hsite. cbn [negb].
  erewrite bind_ok by reflexivity. cbn [negb sc_root].
  destruct (lockfile_snapshot_run project pm f) as (rl & El & Hl). destruct rl as [lockfile|e];
    [|by erewrite bind_err by exact El]. erewrite bind_ok by exact El. specialize (Hl _ eq_refl).
  unfold disabled_marker_path, metadata_path. cbn [sc_root].
  intros (marked & previous & changed & f2 & Ek & Hf2 & Ho2 & Hstale & Hw & Hk)%resets_run; [|done]. revert Ek.
  erewrite bind_ok by reflexivity. intros (ms & f3 & Hp & Ek)%finish_run; [|done..].
  destruct (prepared_place now pm lockfile f2 f3 Hf2 Hp) as [Hf3 Ho3].
  assert (f' = f3 ∧ cpr_lockfile r = lockfile ∧ cpr_event r = Some (if marked || changed then WIPED else
    if match previous with Some _ => has_cache_contents f2 root | None => false end then HIT else MISS)) as (-> & -> & ->).
  { destruct (marked || changed); injection Ek as <- <-; done. }
  assert (outside f f3) as Ho by (by eapply outside_trans).
  split_and!; [| | | |done..].
  - rewrite <- Hstale. destruct (marked || changed); [done|]. by split; [destruct previous; [destruct (has_cache_contents _ _)|]|].
  - intros Hwiped rest Hrest Hx. assert (marked || changed = true) as Hm.
    { destruct (marked || changed); [done|]. destruct previous; [destruct (has_cache_contents _ _)|]; done. }
    destruct (decide (rest = [METADATA_FILENAME])) as [?|H1]; [by left|].
    destruct (decide (rest = [u "node-home"])) as [?|H2]; [by right|]. destruct Hx.
    eapply same_entry_none; [apply (pr_rest _ _ _ _ _ Hp)|by apply Hw]; [|by intros ?%app_inv_head..].
    intros E%(f_equal length). rewrite length_app in E. destruct rest; cbn in E; [done|lia].
  - destruct (marked || changed) eqn:Hm; [done|]. destruct (Hk eq_refl) as [-> Hnone]. intros _. split; [apply Hp|].
    destruct previous as [d|]; [|by rewrite bool_decide_false by tauto]. rewrite bool_decide_true; [done|]. intros E. by apply Hnone in E.
  - by eapply prepared_reads.
Qed.

End place.
