(* ===== verification/CacheLocks.v ===== *)
(** The locks of the site caches (src/src/build_engine/executor/cache.py): calls of
    several threads as interleaved steps. [prepare_site_cache] and [reset_cache]
    run one after another whatever the order of their steps is, so [Cache] may
    treat each call as one computation. *)

From S2P Require Import Prelude PyStr Clock Fs PackageJson Cache.

(** * Locks and threads *)

(** [_CACHE_ALL_LOCK], [_CACHE_LOCKS_GUARD] and the entries of [_CACHE_LOCKS]. *)
Inductive lock := LAll | LGuard | LSite (site : ustr).

#[export] Instance lock_eq_dec : EqDecision lock.
Proof. solve_decision. Defined.
#[export] Instance lock_countable : Countable lock.
Proof.
  refine (inj_countable' (λ l, match l with LAll => inl (inl ()) | LGuard => inl (inr ()) | LSite s => inr s end)
    (λ x, match x with inl (inl _) => LAll | inl (inr _) => LGuard | inr s => LSite s end) _). by intros [].
Defined.

(** The guard is a plain [Lock], the others are [RLock]s. *)
Definition reentrant (l : lock) : bool := match l with LGuard => false | _ => true end.

Section locks.
(** What a call keeps in its variables. *)
Context {L : Type} (l0 : L).

(** Steps on the files and on the call's own variables. *)
Abbreviation effect := (fs * L → fs * L).

Inductive instr :=
| IAcquire (l : lock)
| IRelease (l : lock)
| ISetDefault (site : ustr)
| IStep (e : effect).

(** A call: the site it locks, or all of them, and the steps of its body. *)
Record call := MkCall { ca_site : option ustr; ca_body : list effect }.

(** [with _site_cache_lock(site_id): body]. *)
Definition site_section (site : ustr) (body : list instr) : list instr :=
  [IAcquire LAll; IAcquire LGuard; ISetDefault site; IRelease LGuard; IAcquire (LSite site)]
    ++ body ++ [IRelease (LSite site); IRelease LAll].

(** [with _CACHE_ALL_LOCK: body]. *)
Definition all_section (body : list instr) : list instr := [IAcquire LAll] ++ body ++ [IRelease LAll].

Definition code (c : call) : list instr :=
  match ca_site c with Some s => site_section s (IStep <$> ca_body c) | None => all_section (IStep <$> ca_body c) end.

(** The files, the owner and the depth of every lock that is held, the sites
    that have a lock, and each thread's variables and remaining code. *)
Record machine := Machine {
  mc_fs : fs;
  mc_locks : gmap lock (nat * nat);
  mc_table : list ustr;
  mc_threads : list (L * list instr);
}.

Definition acquire (i : nat) (l : lock) (locks : gmap lock (nat * nat)) : option (gmap lock (nat * nat)) :=
  match locks !! l with
  | None => Some (<[l := (i, 1)]> locks)
  | Some (j, n) => if bool_decide (i = j) && reentrant l then Some (<[l := (i, S n)]> locks) else None
  end.

Definition release (i : nat) (l : lock) (locks : gmap lock (nat * nat)) : option (gmap lock (nat * nat)) :=
  match locks !! l with
  | Some (j, S n) => if bool_decide (i = j) then Some (match n with O => delete l locks | S _ => <[l := (i, n)]> locks end) else None
  | _ => None
  end.

(** Thread [i] takes its next step; [None] if it is blocked or has finished. *)
Definition step_thread (i : nat) (m : machine) : option machine :=
  match mc_threads m !! i with
  | Some (v, ins :: rest) =>
      let continue v locks table f := Machine f locks table (<[i := (v, rest)]> (mc_threads m)) in
      match ins with
      | IAcquire l => locks ← acquire i l (mc_locks m); Some (continue v locks (mc_table m) (mc_fs m))
      | IRelease l => locks ← release i l (mc_locks m); Some (continue v locks (mc_table m) (mc_fs m))
      | ISetDefault s => Some (continue v (mc_locks m) (if mem_str s (mc_table m) then mc_table m else mc_table m ++ [s]) (mc_fs m))
      | IStep e => let '(f, v) := e (mc_fs m, v) in Some (continue v (mc_locks m) (mc_table m) f)
      end
  | _ => None
  end.

Definition step (m m' : machine) : Prop := ∃ i, step_thread i m = Some m'.

Definition initial (calls : list call) (table : list ustr) (f : fs) : machine :=
  Machine f ∅ table ((λ c, (l0, code c)) <$> calls).
Definition finished (m : machine) : Prop := Forall (λ t, t.2 = []) (mc_threads m).

(** * One call after another *)

Definition run_body (es : list effect) (fv : fs * L) : fs * L := fold_left (λ fv e, e fv) es fv.
Definition run_call (c : call) (f : fs) : fs := (run_body (ca_body c) (f, l0)).1.

Section serial.
Context (calls : list call) (f0 : fs).

Definition run_calls (order : list nat) (f : fs) : fs :=
  fold_left (λ f i, match calls !! i with Some c => run_call c f | None => f end) order f.

Lemma run_calls_snoc order i c f : calls !! i = Some c → run_calls (order ++ [i]) f = run_call c (run_calls order f).
Proof. intros Hi. unfold run_calls. rewrite fold_left_app. cbn. by rewrite Hi. Qed.

(** Where the thread is that holds the lock of all caches: its remaining code,
    the locks held, and how many steps of its body it has made. *)
Inductive at_point (i : nat) (c : call) : list instr → gmap lock (nat * nat) → nat → Prop :=
| at_entered s : ca_site c = Some s →
    at_point i c ([IAcquire LGuard; ISetDefault s; IRelease LGuard; IAcquire (LSite s)] ++ (IStep <$> ca_body c) ++ [IRelease (LSite s); IRelease LAll])
      {[LAll := (i, 1)]} 0
| at_guarded s : ca_site c = Some s →
    at_point i c ([ISetDefault s; IRelease LGuard; IAcquire (LSite s)] ++ (IStep <$> ca_body c) ++ [IRelease (LSite s); IRelease LAll])
      (<[LGuard := (i, 1)]> {[LAll := (i, 1)]}) 0
| at_entry s : ca_site c = Some s →
    at_point i c ([IRelease LGuard; IAcquire (LSite s)] ++ (IStep <$> ca_body c) ++ [IRelease (LSite s); IRelease LAll])
      (<[LGuard := (i, 1)]> {[LAll := (i, 1)]}) 0
| at_unguarded s : ca_site c = Some s →
    at_point i c ([IAcquire (LSite s)] ++ (IStep <$> ca_body c) ++ [IRelease (LSite s); IRelease LAll]) {[LAll := (i, 1)]} 0
| at_site s n : ca_site c = Some s → n <= length (ca_body c) →
    at_point i c ((IStep <$> drop n (ca_body c)) ++ [IRelease (LSite s); IRelease LAll]) (<[LSite s := (i, 1)]> {[LAll := (i, 1)]}) n
| at_left s : ca_site c = Some s → at_point i c [IRelease LAll] {[LAll := (i, 1)]} (length (ca_body c))
| at_all n : ca_site c = None → n <= length (ca_body c) →
    at_point i c ((IStep <$> drop n (ca_body c)) ++ [IRelease LAll]) {[LAll := (i, 1)]} n.

(** The thread of a call that is not in its section. *)
Definition outside (order : list nat) (j : nat) (c : call) (t : option (L * list instr)) : Prop :=
  if bool_decide (j ∈ order) then ∃ v, t = Some (v, []) else t = Some (l0, code c).

(** The calls in [order] are done; at most one other is under way. *)
Inductive serial_state (m : machine) (order : list nat) : Prop :=
| all_outside : mc_locks m = ∅ → mc_fs m = run_calls order f0 →
    (∀ j c, calls !! j = Some c → outside order j c (mc_threads m !! j)) → serial_state m order
| one_inside i c v rest n : calls !! i = Some c → i ∉ order → mc_threads m !! i = Some (v, rest) →
    at_point i c rest (mc_locks m) n → (mc_fs m, v) = run_body (take n (ca_body c)) (run_calls order f0, l0) →
    (∀ j c, j ≠ i → calls !! j = Some c → outside order j c (mc_threads m !! j)) → serial_state m order.

Record inv (m : machine) (order : list nat) : Prop := Inv {
  inv_order : NoDup order ∧ ∀ j, j ∈ order → j < length calls;
  inv_threads : length (mc_threads m) = length calls;
  inv_state : serial_state m order;
}.

Lemma code_head c : ∃ rest, code c = IAcquire LAll :: rest.
Proof. unfold code. destruct (ca_site c); by eexists. Qed.

Lemma inv_initial table : inv (initial calls table f0) [].
Proof.
  split; [by split; [constructor|intros j ?%elem_of_nil]|by cbn; rewrite length_fmap|]. apply all_outside; [done|done|].
  intros j c Hj. unfold outside. cbn. by rewrite list_lookup_fmap, Hj.
Qed.

Lemma drop_cons {A} (l : list A) n x k : drop n l = x :: k → l !! n = Some x ∧ k = drop (S n) l.
Proof.
  intros E. assert (l !! n = Some x) as Hx by (by rewrite <- (Nat.add_0_r n), <- lookup_drop, E). split; [done|].
  rewrite (drop_S _ _ _ Hx) in E. by injection E as <-.
Qed.

Lemma drop_cons_le {A} (l : list A) n x k : drop n l = x :: k → S n <= length l.
Proof. intros E%(f_equal length). rewrite length_drop in E. cbn in E. lia. Qed.

Lemma body_step i f v rest locks table threads m' c n e es x :
  drop n (ca_body c) = e :: es → (f, v) = run_body (take n (ca_body c)) x →
  (let '(f, v) := e (f, v) in Some (Machine f locks table (<[i := (v, rest)]> threads))) = Some m' →
  ∃ v', mc_threads m' = <[i := (v', rest)]> threads ∧ mc_locks m' = locks ∧ (mc_fs m', v') = run_body (take (S n) (ca_body c)) x.
Proof.
  intros [He _]%drop_cons Hf. destruct (e (f, v)) as [f' v'] eqn:Ee. intros [= <-]. exists v'. split_and!; [done..|].
  rewrite (take_S_r _ _ e He). unfold run_body in *. rewrite fold_left_app. cbn. by rewrite <- Hf.
Qed.

(** The steps a thread in its section can make. *)
Lemma inside_step i c v rest n m order m' :
  calls !! i = Some c → mc_threads m !! i = Some (v, rest) → at_point i c rest (mc_locks m) n →
  (mc_fs m, v) = run_body (take n (ca_body c)) (run_calls order f0, l0) → step_thread i m = Some m' →
  ∃ v' rest', mc_threads m' = <[i := (v', rest')]> (mc_threads m) ∧
    ((∃ n', at_point i c rest' (mc_locks m') n' ∧ (mc_fs m', v') = run_body (take n' (ca_body c)) (run_calls order f0, l0)) ∨
     (rest' = [] ∧ mc_locks m' = ∅ ∧ mc_fs m' = run_call c (run_calls order f0))).
Proof.
  intros Hc Ht Hp Hf Hs. unfold step_thread in Hs. rewrite Ht in Hs. unfold acquire, release in Hs.
  inversion Hp as [s Hsite E El|s Hsite E El|s Hsite E El|s Hsite E El|s n' Hsite Hn E El|s Hsite E El|n' Hsite Hn E El]; subst rest n;
    rewrite <- El in Hs.
  - cbn in Hs. rewrite lookup_singleton_ne in Hs by done. injection Hs as <-. eexists _, _. split; [done|]. left. exists 0.
    split; [by eapply at_guarded|done].
  - cbn in Hs. injection Hs as <-. eexists _, _. split; [done|]. left. exists 0. split; [|done]. by eapply at_entry.
  - cbn in Hs. rewrite lookup_insert_eq, bool_decide_true in Hs by done. injection Hs as <-. eexists _, _. split; [done|]. left. exists 0.
    split; [|done]. cbn. rewrite delete_insert_id by (by rewrite lookup_singleton_ne). by eapply at_unguarded.
  - cbn in Hs. rewrite lookup_singleton_ne in Hs by done. injection Hs as <-. eexists _, _. split; [done|]. left. exists 0.
    split; [|done]. cbn. rewrite <- (drop_0 (ca_body c)) at 1. by apply at_site; [|lia].
  - destruct (drop n' (ca_body c)) as [|e es] eqn:Ed.
    + cbn in Hs. rewrite lookup_insert_eq, bool_decide_true in Hs by done. injection Hs as <-. eexists _, _. split; [done|]. left.
      exists (length (ca_body c)). split; [cbn; rewrite delete_insert_id by (by rewrite lookup_singleton_ne); by eapply at_left|].
      cbn. rewrite Hf. apply (f_equal length) in Ed. rewrite length_drop in Ed. cbn in Ed. by rewrite !take_ge by lia.
    + eapply body_step in Hs as (v' & Hm & Hk & Hf'); [|exact Ed|exact Hf]. eexists _, _. split; [exact Hm|]. left. exists (S n').
      rewrite Hk. split; [|done]. rewrite (proj2 (drop_cons _ _ _ _ Ed)). apply at_site; [done|]. by eapply drop_cons_le.
  - cbn in Hs. rewrite lookup_singleton_eq, bool_decide_true in Hs by done. injection Hs as <-. eexists _, _. split; [done|]. right.
    split; [done|]. split; [cbn; by rewrite delete_singleton_eq|]. cbn. unfold run_call. rewrite firstn_all in Hf. by rewrite <- Hf.
  - destruct (drop n' (ca_body c)) as [|e es] eqn:Ed.
    + cbn in Hs. rewrite lookup_singleton_eq, bool_decide_true in Hs by done. injection Hs as <-. eexists _, _. split; [done|]. right.
      split; [done|]. split; [cbn; by rewrite delete_singleton_eq|]. apply (f_equal length) in Ed. rewrite length_drop in Ed. cbn in Ed.
      cbn. unfold run_call. rewrite take_ge in Hf by lia. by rewrite <- Hf.
    + eapply body_step in Hs as (v' & Hm & Hk & Hf'); [|exact Ed|exact Hf]. eexists _, _. split; [exact Hm|]. left. exists (S n').
      rewrite Hk. split; [|done]. rewrite (proj2 (drop_cons _ _ _ _ Ed)). apply at_all; [done|]. by eapply drop_cons_le.
Qed.

Lemma step_thread_length i m m' : step_thread i m = Some m' → length (mc_threads m') = length (mc_threads m).
Proof.
  unfold step_thread. intros Hs. repeat (case_match; try done); munfold; repeat (case_match; try done); simplify_eq; cbn; by rewrite length_insert.
Qed.

(** A thread outside its section has finished or asks for the lock of all caches. *)
Lemma outside_step order j c m m' : calls !! j = Some c → outside order j c (mc_threads m !! j) → step_thread j m = Some m' →
  j ∉ order ∧ ∃ locks rest, code c = IAcquire LAll :: rest ∧ acquire j LAll (mc_locks m) = Some locks ∧
    m' = Machine (mc_fs m) locks (mc_table m) (<[j := (l0, rest)]> (mc_threads m)).
Proof.
  unfold outside, step_thread. intros Hc. case_bool_decide as Ho; [by intros [v ->]|]. intros ->.
  destruct (code_head c) as [rest ->]. munfold. destruct (acquire j LAll (mc_locks m)) as [locks|]; [|done].
  intros [= <-]. split; [done|]. by exists locks, rest.
Qed.

Lemma at_entry_point i c rest : code c = IAcquire LAll :: rest → at_point i c rest {[LAll := (i, 1)]} 0.
Proof.
  unfold code. destruct (ca_site c) as [s|] eqn:Es; intros [= <-]; [by eapply at_entered|].
  rewrite <- (drop_0 (ca_body c)) at 1. apply at_all; [done|lia].
Qed.

Lemma at_point_all i c rest locks n : at_point i c rest locks n → locks !! LAll = Some (i, 1) ∧ rest ≠ [].
Proof.
  intros Hp. inversion Hp; subst; (split; [rewrite ?lookup_insert_ne by done; apply lookup_singleton_eq|]); try done;
    by intros [_ ?]%app_eq_nil.
Qed.

Lemma inv_step m order i m' : inv m order → step_thread i m = Some m' → ∃ order', inv m' order'.
Proof.
  intros [[Hn Hlt] Hlen Hst] Hs. pose proof (step_thread_length _ _ _ Hs) as Hlen'.
  assert (∃ c, calls !! i = Some c) as [c Hc].
  { apply lookup_lt_is_Some. rewrite <- Hlen. apply lookup_lt_is_Some. unfold step_thread in Hs. by destruct (mc_threads m !! i). }
  destruct Hst as [Hl Hf Hout|k c' v rest n Hc' Hk Ht Hp Hf Hout].
  - destruct (outside_step _ _ _ _ _ Hc (Hout i c Hc) Hs) as (Hi & locks & rest & Hcode & Hacq & ->). exists order.
    split; [done|congruence|]. unfold acquire in Hacq. rewrite Hl, lookup_empty in Hacq. injection Hacq as <-.
    eapply one_inside with (n := 0); [done|done|cbn; by rewrite list_lookup_insert_eq by (rewrite Hlen; by eapply lookup_lt_Some)|
      by apply at_entry_point|cbn; by rewrite Hf|].
    intros j c' Hj Hc'. cbn. rewrite list_lookup_insert_ne by done. by apply Hout.
  - destruct (decide (i = k)) as [->|Hne].
    + destruct (inside_step _ _ _ _ _ _ _ _ Hc' Ht Hp Hf Hs) as (v' & rest' & Hm & Hcase).
      assert (mc_threads m' !! k = Some (v', rest')) as Ht'.
      { rewrite Hm, list_lookup_insert_eq; [done|]. rewrite Hlen. by eapply lookup_lt_Some. }
      assert (∀ j c, j ≠ k → calls !! j = Some c → outside order j c (mc_threads m' !! j)) as Hout'.
      { intros j c'' Hj Hc''. rewrite Hm, list_lookup_insert_ne by done. by apply Hout. }
      destruct Hcase as [(n' & Hp' & Hf')|(-> & Hl' & Hf')].
      * exists order. split; [done|congruence|]. by apply (one_inside _ _ k c' v' rest' n').
      * exists (order ++ [k]). split; [|congruence|].
        { split; [apply NoDup_app; split_and!; [done| |apply NoDup_singleton]; by intros x Hx ->%list_elem_of_singleton|].
          intros j [Hj| ->%list_elem_of_singleton]%elem_of_app; [by apply Hlt|by eapply lookup_lt_Some]. }
        apply all_outside; [done|by rewrite (run_calls_snoc _ _ _ _ Hc')|]. intros j c'' Hc''. unfold outside.
        destruct (decide (j = k)) as [->|Hj]; [rewrite bool_decide_true by set_solver; by exists v'|].
        specialize (Hout' j c'' Hj Hc''). unfold outside in Hout'.
        by rewrite (bool_decide_ext (j ∈ order ++ [k]) (j ∈ order)) by set_solver.
    + destruct (outside_step _ _ _ _ _ Hc (Hout i c Hne Hc) Hs) as (_ & locks & _ & _ & Hacq & _).
      unfold acquire in Hacq. destruct (at_point_all _ _ _ _ _ Hp) as [Hall _]. rewrite Hall, bool_decide_false in Hacq by done. done.
Qed.

(** The holder of the lock of all caches is never blocked. *)
Lemma inside_progress i c v rest n m : mc_threads m !! i = Some (v, rest) → at_point i c rest (mc_locks m) n → is_Some (step_thread i m).
Proof.
  intros Ht Hp. unfold step_thread. rewrite Ht. unfold acquire, release.
  inversion Hp as [s Hsite E El|s Hsite E El|s Hsite E El|s Hsite E El|s n' Hsite Hn E El|s Hsite E El|n' Hsite Hn E El]; subst rest n;
    try destruct (drop n' (ca_body c)) as [|e es]; cbn;
    repeat first [rewrite lookup_singleton_eq|rewrite lookup_insert_eq|rewrite lookup_singleton_ne by done|rewrite bool_decide_true by done];
    try (destruct (e _) as [f' v']); by eexists.
Qed.

Lemma progress m order : inv m order → finished m ∨ ∃ m', step m m'.
Proof.
  intros [_ Hlen Hst]. destruct Hst as [Hl Hf Hout|k c v rest n Hc Hk Ht Hp Hf Hout].
  - destruct (decide (Forall (λ j, j ∈ order) (seq 0 (length calls)))) as [Hall|Hnot].
    + left. apply Forall_lookup. intros j [v r] Hj. assert (∃ c, calls !! j = Some c) as [c Hc].
      { apply lookup_lt_is_Some. rewrite <- Hlen. by eapply lookup_lt_Some. }
      specialize (Hout j c Hc). unfold outside in Hout. rewrite Forall_forall in Hall. rewrite bool_decide_true in Hout.
      * destruct Hout as [v' Hout]. rewrite Hj in Hout. by injection Hout as <- <-.
      * apply Hall, elem_of_seq. apply lookup_lt_Some in Hc. lia.
    + right. apply not_Forall_Exists in Hnot; [|apply _]. apply Exists_exists in Hnot as (j & Hj & Hnot). apply elem_of_seq in Hj.
      destruct (lookup_lt_is_Some_2 calls j) as [c Hc]; [lia|]. specialize (Hout j c Hc). unfold outside in Hout.
      rewrite bool_decide_false in Hout by done. destruct (code_head c) as [rest Hcode].
      eexists. exists j. unfold step_thread. rewrite Hout, Hcode. unfold acquire. rewrite Hl, lookup_empty. reflexivity.
  - right. destruct (inside_progress _ _ _ _ _ _ Ht Hp) as [m' Hm]. by exists m', k.
Qed.

(** ** Runs *)

Lemma inv_run table n m : nsteps step n (initial calls table f0) m → ∃ order, inv m order.
Proof.
  assert (∀ n m0 m order, nsteps step n m0 m → inv m0 order → ∃ order', inv m order') as Hrun.
  { clear. intros n m0 m order Hn. revert order. induction Hn as [m|n m0 m1 m [i Hs] _ IH]; intros order Hi; [by exists order|].
    destruct (inv_step _ _ _ _ Hi Hs) as [order' Hi']. by eapply IH. }
  intros Hn. eapply Hrun; [exact Hn|apply inv_initial].
Qed.

(** What is left to do. *)
Definition remaining (m : machine) : nat := list_sum ((λ t, length t.2) <$> mc_threads m).

Lemma remaining_insert i v v' ins rest (ts : list (L * list instr)) : ts !! i = Some (v, ins :: rest) →
  S (list_sum ((λ t, length t.2) <$> <[i := (v', rest)]> ts)) = list_sum ((λ t, length t.2) <$> ts).
Proof.
  revert i. induction ts as [|t ts IH]; [done|]. intros [|i]; [by intros [= ->]|]. intros Hi.
  change (S (length t.2 + list_sum ((λ t, length t.2) <$> <[i:=(v', rest)]> ts)) = length t.2 + list_sum ((λ t, length t.2) <$> ts)).
  rewrite <- (IH i Hi). lia.
Qed.

Lemma step_remaining i m m' : step_thread i m = Some m' → S (remaining m') = remaining m.
Proof.
  unfold step_thread, remaining. destruct (mc_threads m !! i) as [[v [|ins rest]]|] eqn:Ht; try done.
  destruct ins as [l|l|s|e]; munfold.
  - destruct (acquire i l _); [|done]. intros [= <-]. by eapply remaining_insert.
  - destruct (release i l _); [|done]. intros [= <-]. by eapply remaining_insert.
  - intros [= <-]. by eapply remaining_insert.
  - destruct (e _) as [f v']. intros [= <-]. by eapply remaining_insert.
Qed.

Lemma run_remaining n m m' : nsteps step n m m' → n + remaining m' = remaining m.
Proof. induction 1 as [m|n m0 m1 m [i Hs] _ IH]; [done|]. apply step_remaining in Hs. lia. Qed.

(** The thread is between its first and its last lock operation. *)
Definition in_section (m : machine) (i : nat) : Prop :=
  ∃ c v rest, calls !! i = Some c ∧ mc_threads m !! i = Some (v, rest) ∧ rest ≠ [] ∧ rest ≠ code c.

Lemma outside_not_in order i m : (∀ c, calls !! i = Some c → outside order i c (mc_threads m !! i)) → ¬ in_section m i.
Proof.
  intros Ho (c & v & rest & Hc & Ht & Hne & Hcode). specialize (Ho c Hc). unfold outside in Ho. rewrite Ht in Ho.
  case_bool_decide; [destruct Ho as [v' [= _ ->]]; done|]. by injection Ho as _ ->.
Qed.

Lemma one_in_section m order i j : inv m order → in_section m i → in_section m j → i = j.
Proof.
  intros [_ _ Hst] Hi Hj. destruct Hst as [_ _ Hout|k c v rest n _ _ _ _ _ Hout].
  - by destruct (outside_not_in order i m (Hout i) Hi).
  - destruct (decide (i = k)) as [->|Hik]; [|by destruct (outside_not_in order i m (λ c, Hout i c Hik) Hi)].
    destruct (decide (j = k)) as [->|Hjk]; [done|]. by destruct (outside_not_in order j m (λ c, Hout j c Hjk) Hj).
Qed.

Lemma finished_serial m order : inv m order → finished m → order ≡ₚ seq 0 (length calls) ∧ mc_fs m = run_calls order f0.
Proof.
  intros [[Hn Hlt] Hlen Hst] Hfin. unfold finished in Hfin. rewrite Forall_lookup in Hfin.
  destruct Hst as [_ Hf Hout|k c v rest n _ _ Ht Hp _ _].
  - split; [|done]. apply NoDup_Permutation; [done|apply NoDup_seq|]. intros j. rewrite elem_of_seq. split; [intros Hj; specialize (Hlt j Hj); lia|].
    intros Hj. destruct (lookup_lt_is_Some_2 calls j) as [c Hc]; [lia|]. specialize (Hout j c Hc). unfold outside in Hout.
    case_bool_decide as Ho; [done|]. apply Hfin in Hout. destruct (code_head c) as [rest Hcode]. cbn in Hout. congruence.
  - apply Hfin in Ht. cbn in Ht. by destruct (at_point_all _ _ _ _ _ Hp).
Qed.

(** C32: calls on the caches do not interfere. However the steps of any number of
    calls of [prepare_site_cache] and [reset_cache] are interleaved, at most one
    call is in its section; no run is stuck before all calls have returned, and
    every run ends within the number of their steps; and then the files are as
    if the calls had been made one after another, in some order, each of them
    whole. *)
Theorem cache_calls_serial table n m : nsteps step n (initial calls table f0) m →
  (∀ i j, in_section m i → in_section m j → i = j) ∧
  (finished m ∨ ∃ m', step m m') ∧ n <= list_sum ((λ c, length (code c)) <$> calls) ∧
  (finished m → ∃ order, order ≡ₚ seq 0 (length calls) ∧ mc_fs m = run_calls order f0).
Proof.
  intros Hn. destruct (inv_run table n m Hn) as [order Hi]. split_and!.
  - intros i j. by eapply one_in_section.
  - by eapply progress.
  - apply run_remaining in Hn. assert (remaining (initial calls table f0) = list_sum ((λ c, length (code c)) <$> calls)) as E; [|lia].
    unfold remaining, initial. cbn. by rewrite <- list_fmap_compose.
  - intros Hfin. exists order. by apply finished_serial.
Qed.

End serial.
(** A schedule: which thread makes each step. *)
Fixpoint run_schedule (schedule : list nat) (m : machine) : option machine :=
  match schedule with
  | [] => Some m
  | i :: schedule => m ← step_thread i m; run_schedule schedule m
  end.

Lemma run_schedule_steps schedule m m' : run_schedule schedule m = Some m' → nsteps step (length schedule) m m'.
Proof.
  revert m. induction schedule as [|i schedule IH]; intros m; cbn; [intros [= ->]; constructor|].
  intros E. munfold. destruct (step_thread i m) as [m1|] eqn:Es; [|done]. econstructor; [by exists i|by apply IH].
Qed.

End locks.

(** * The calls of the module *)

(** A computation on the files as one step; its outcome is the call's variable. *)
Definition file_step {A} (m : M fs A) : fs * option (result A) → fs * option (result A) :=
  λ fv, let '(r, f) := m fv.1 in (f, Some r).

Definition prepare_call `{DirScan} (now : instant) (state_dir : path) (site_id : ustr) (pm : PackageManager)
    (project_root : path) (enabled : bool) : call :=
  MkCall (Some site_id) [file_step (prepare_site_cache now state_dir site_id pm project_root enabled)].

Definition reset_call (now : instant) (state_dir : path) (site_id : option ustr) : call :=
  MkCall site_id [file_step (reset_cache now state_dir site_id)].
