(* ===== verification/PruneProofs.v ===== *)
(** Pruning the caches: what remains, and what is never touched. *)

From S2P Require Import Prelude PyStr Clock Uuid Db Fs Cache.

Local Open Scope Z_scope.

(** * Trees that lose entries *)

(** Entries are missing or as they were, up to the times of directories. *)
Definition shrinks (f f' : fs) : Prop := ∀ x, f' !! x = None ∨ same_entry (f !! x) (f' !! x).

#[export] Instance shrinks_preorder : PreOrder shrinks.
Proof.
  split; [intros f x; by right; left|]. intros f1 f2 f3 H1 H2 x. destruct (H2 x) as [E|E2]; [by left|].
  destruct (H1 x) as [E|E1]; [left; by eapply same_entry_none|right; by eapply same_entry_trans].
Qed.

Lemma shrinks_same f f' : (∀ x, same_entry (f !! x) (f' !! x)) → shrinks f f'.
Proof. intros H x. by right. Qed.

Lemma shrinks_touch now p f : shrinks f (touch_dir now p f).
Proof. apply shrinks_same. intros x. apply touch_dir_same. Qed.

Lemma shrinks_delete p f : shrinks f (delete p f).
Proof. intros x. destruct (decide (p = x)) as [<-|Hx]; [left; apply lookup_delete_eq|right; left; by rewrite lookup_delete_ne]. Qed.

Lemma shrinks_remove now q f : shrinks f (remove_tree now q f).
Proof.
  unfold remove_tree. etrans; [|apply shrinks_touch]. intros x.
  match goal with |- ?g !! _ = None ∨ _ => destruct (g !! x) as [e|] eqn:E; [|by left] end.
  right. left. by apply map_lookup_filter_Some in E as [-> _].
Qed.

Lemma shrinks_entry f f' x e : shrinks f f' → f' !! x = Some e → ∃ e', f !! x = Some e' ∧ same_entry (Some e') (Some e).
Proof.
  intros Hs E. destruct (Hs x) as [E'|H]; [congruence|]. rewrite E in H.
  destruct (f !! x) as [e'|]; [by exists e'|]. by destruct H as [?|(? & ? & ? & ?)].
Qed.

Lemma shrinks_dir f f' x t : shrinks f f' → f' !! x = Some (EDir t) → ∃ t', f !! x = Some (EDir t').
Proof. intros Hs E. destruct (shrinks_entry _ _ _ _ Hs E) as (e & He & [[= ->]|(? & ? & [= ->] & _)]); eauto. Qed.

Lemma shrinks_file f f' x c m a : shrinks f f' → f' !! x = Some (EFile c m a) → f !! x = Some (EFile c m a).
Proof. intros Hs E. destruct (shrinks_entry _ _ _ _ Hs E) as (e & He & [[= ->]|(? & ? & _ & ?)]); done. Qed.

Lemma shrinks_link f f' x b t : shrinks f f' → f' !! x = Some (ELink b t) → f !! x = Some (ELink b t).
Proof. intros Hs E. destruct (shrinks_entry _ _ _ _ Hs E) as (e & He & [[= ->]|(? & ? & _ & ?)]); done. Qed.

(** A path that leads somewhere still led to the same place before. *)
Lemma walk_shrinks f f' q : shrinks f f' → lookup_entry f' q ≠ None → ∀ links cur todo,
  walk links f' cur todo = Some q → walk links f cur todo = Some q.
Proof.
  intros Hs Hq links. induction links as [|links IHl]; [done|]. intros cur todo. revert cur.
  induction todo as [|c todo IH]; intros cur; [done|]. cbn [walk].
  destruct (ustr_eqb c (u ".")); [apply IH|]. destruct (ustr_eqb c (u "..")); [apply IH|].
  destruct (f' !! (cur ++ [c])) as [[content m a|t|b t]|] eqn:E.
  - rewrite (shrinks_file _ _ _ _ _ _ Hs E). done.
  - destruct (shrinks_dir _ _ _ _ Hs E) as [t' ->]. apply IH.
  - rewrite (shrinks_link _ _ _ _ _ Hs E). apply IHl.
  - destruct todo; [|done]. intros [= <-]. destruct Hq. by rewrite lookup_child.
Qed.

Lemma stat_shrinks f f' p e : shrinks f f' → stat f' p = Some e → ∃ e', stat f p = Some e' ∧ same_entry (Some e') (Some e).
Proof.
  intros Hs. unfold stat. munfold. destruct (locate f' p) as [q|] eqn:Eq; [|done]. intros E.
  assert (locate f p = Some q) as ->.
  { eapply walk_shrinks; [exact Hs| |exact Eq]. by rewrite E. }
  destruct q as [|c q]; [exists (EDir 0); split; [done|by left]|]. cbn in *. by eapply shrinks_entry.
Qed.

Lemma exists_shrinks f f' p : shrinks f f' → exists_ f' p = true → exists_ f p = true.
Proof. unfold exists_. intros Hs. destruct (stat f' p) as [e|] eqn:E; [|done]. by destruct (stat_shrinks _ _ _ _ Hs E) as (e' & -> & _). Qed.

Lemma is_dir_shrinks f f' p : shrinks f f' → is_dir f' p = true → is_dir f p = true.
Proof.
  unfold is_dir. intros Hs. destruct (stat f' p) as [e|] eqn:E; [|done]. destruct (stat_shrinks _ _ _ _ Hs E) as (e' & -> & He).
  destruct He as [[= ->]|(? & ? & [= ->] & [= ->])]; done.
Qed.

Lemma is_file_shrinks f f' p : shrinks f f' → is_file f' p = true → is_file f p = true ∧ file_size f' p = file_size f p.
Proof.
  unfold is_file, file_size. intros Hs. destruct (stat f' p) as [e|] eqn:E; [|done]. destruct (stat_shrinks _ _ _ _ Hs E) as (e' & -> & He).
  destruct He as [[= ->]|(? & ? & [= ->] & [= ->])]; done.
Qed.

(** * Sizes *)

Section sizes.
Context `{DirScan} (Hscan : ∀ f p, scans f p (rglob f p)).

Definition counted (f : fs) (p : path) : Z := if is_file f p then file_size f p else 0.

Lemma counted_nonneg f p : 0 ≤ counted f p.
Proof. unfold counted, file_size. repeat case_match; lia. Qed.

Lemma counted_shrinks f f' p : shrinks f f' → counted f' p ≤ counted f p.
Proof.
  intros Hs. unfold counted at 1. destruct (is_file f' p) eqn:E; [|apply counted_nonneg].
  destruct (is_file_shrinks _ _ _ Hs E) as [E' ->]. unfold counted. by rewrite E'.
Qed.

Lemma sum_perm (l l' : list Z) : l ≡ₚ l' → foldr Z.add 0 l = foldr Z.add 0 l'.
Proof. induction 1; cbn; lia. Qed.

Lemma sum_app (l l' : list Z) : foldr Z.add 0 (l ++ l') = foldr Z.add 0 l + foldr Z.add 0 l'.
Proof. induction l as [|x l IH]; cbn; lia. Qed.

Lemma sum_le (g g' : path → Z) l l' : l' ⊆+ l → (∀ x, 0 ≤ g x) → (∀ x, g' x ≤ g x) →
  foldr Z.add 0 (g' <$> l') ≤ foldr Z.add 0 (g <$> l).
Proof.
  intros [k Hl]%submseteq_Permutation H0 Hg. rewrite (sum_perm _ _ (fmap_Permutation g _ _ Hl)), fmap_app, sum_app.
  rewrite <- (Z.add_0_r (foldr Z.add 0 (g' <$> l'))). apply Z.add_le_mono.
  - clear -Hg. induction l' as [|x l' IH]; [done|]. apply Z.add_le_mono; [apply Hg|exact IH].
  - clear -H0. induction k as [|x k IH]; [done|]. apply (Z.add_nonneg_nonneg (g x)); [apply H0|exact IH].
Qed.

Lemma scan_shrinks f f' p : shrinks f f' → exists_ f' p = true → rglob f' p ⊆+ rglob f p.
Proof using Hscan.
  intros Hs He. destruct (Hscan f p) as [_ Hin], (Hscan f' p) as [Hn' Hin'].
  apply NoDup_submseteq; [done|]. intros x (q & rest & Hq & Hr & -> & Hx)%Hin'. apply Hin. exists q, rest. split; [|split; [exact Hr|split; [reflexivity|]]].
  - eapply walk_shrinks; [exact Hs| |exact Hq]. unfold exists_, stat in He. munfold. rewrite Hq in He. intros E. by rewrite E in He.
  - destruct (f' !! (q ++ rest)) as [e|] eqn:E; [|done]. by destruct (shrinks_entry _ _ _ _ Hs E) as (e' & -> & _).
Qed.

Lemma directory_size_shrinks f f' p : shrinks f f' → directory_size_bytes f' p ≤ directory_size_bytes f p.
Proof using Hscan.
  intros Hs. unfold directory_size_bytes. destruct (exists_ f' p) eqn:E'; cbn [negb].
  - rewrite (exists_shrinks _ _ _ Hs E'). cbn [negb]. destruct (is_file f' p) eqn:Ef'.
    + destruct (is_file_shrinks _ _ _ Hs Ef') as [-> ->]. lia.
    + assert (is_file f p = false) as ->.
      { unfold is_file, exists_ in *. destruct (stat f' p) as [e|] eqn:E; [|done].
        destruct (stat_shrinks _ _ _ _ Hs E) as (e' & -> & [[= ->]|(? & ? & [= ->] & [= ->])]); done. }
      apply (sum_le (counted f) (counted f')); [by apply scan_shrinks|apply counted_nonneg|intros x; by apply counted_shrinks].
  - destruct (exists_ f p); cbn [negb]; [|lia]. destruct (is_file f p) eqn:Ef.
    + pose proof (counted_nonneg f p) as Hc. unfold counted in Hc. by rewrite Ef in Hc.
    + apply (sum_le (counted f) (counted f) _ []); [apply submseteq_nil_l|apply counted_nonneg|done].
Qed.

End sizes.

(** * Trees *)

(** Every entry has a plain name and lies in a directory. *)
Definition tree_ok (f : fs) : Prop :=
  ∀ x c, f !! (x ++ [c]) ≠ None → plain_name c ∧ (x = [] ∨ ∃ t, f !! x = Some (EDir t)).

Lemma tree_real_dir f x : tree_ok f → (∃ t, f !! x = Some (EDir t)) ∨ x = [] → real_dir f x.
Proof.
  intros Hf. induction x as [|c x IH] using rev_ind; [intros _; split; [done|]; by intros [|? ?] b E Ha|].
  intros [[t Ht]|E]; [|by destruct x]. destruct (Hf x c) as [Hc Hx]; [by rewrite Ht|].
  assert (real_dir f x) as [Hp Hd] by (apply IH; tauto). split; [by apply Forall_app; split; [|constructor]|].
  intros a b E Ha. destruct b as [|y b _] using rev_ind; [rewrite app_nil_r in E; subst; by exists t|].
  rewrite app_assoc in E. apply app_inj_tail in E as [-> ->]. by eapply Hd.
Qed.

(** An entry lies where its path says. *)
Lemma tree_parent f x c : tree_ok f → f !! (x ++ [c]) ≠ None → real_dir f x ∧ plain_name c.
Proof. intros Hf Hx. destruct (Hf x c Hx) as [Hc Hd]. split; [apply tree_real_dir; [done|tauto]|done]. Qed.

Lemma tree_same f f' : tree_ok f → (∀ x, same_entry (f !! x) (f' !! x)) → tree_ok f'.
Proof.
  intros Hf Hs x c Hx. destruct (Hf x c) as [Hc Hd].
  - intros E. destruct Hx. by eapply same_entry_none.
  - split; [done|]. destruct Hd as [->|[t Ht]]; [by left|right]. by eapply same_entry_dir.
Qed.

(** * Entries that operations reach at their own path *)

(** No link on the way. *)
Definition clear_path (f : fs) (p : path) : Prop := Forall plain_name p ∧ ∀ a b, p = a ++ b → a ≠ [] → no_link f a.

(** Where the directory is reached directly; the entry itself may be a link. *)
Definition reach (f : fs) (p : path) : Prop := ∃ x c, p = x ++ [c] ∧ plain_name c ∧ clear_path f x.

Lemma clear_shrinks f f' p : shrinks f f' → clear_path f p → clear_path f' p.
Proof. intros Hs [Hp Hl]. split; [done|]. intros a b E Ha ab t Ht. by destruct (Hl a b E Ha ab t (shrinks_link _ _ _ _ _ Hs Ht)). Qed.

Lemma reach_shrinks f f' p : shrinks f f' → reach f p → reach f' p.
Proof. intros Hs (x & c & -> & Hc & Hx). exists x, c. split_and!; [done|done|by eapply clear_shrinks]. Qed.

Lemma real_clear f p : real_dir f p → clear_path f p.
Proof.
  intros [Hp Hd]. split; [done|]. intros a b E Ha ab t Ht.
  destruct (Hd a b E Ha) as [t' Ht']. congruence.
Qed.

Lemma walk_clear links f : ∀ todo cur d, Forall plain_name todo → (∀ a b, todo = a ++ b → a ≠ [] → no_link f (cur ++ a)) →
  walk links f cur todo = Some d → d = cur ++ todo.
Proof.
  destruct links as [|links]; [done|]. intros todo. induction todo as [|c todo IH]; intros cur d; [intros _ _ [= <-]; by rewrite app_nil_r|].
  intros [[H1 H2] Hp]%Forall_cons Hl. cbn [walk]. unfold ustr_eqb. rewrite !bool_decide_false by done.
  assert (no_link f (cur ++ [c])) as Hc by (by apply (Hl [c] todo)).
  assert (walk (S links) f (cur ++ [c]) todo = Some d → d = cur ++ c :: todo) as Hrec.
  { intros E. rewrite (IH (cur ++ [c]) d Hp) by (done || intros a b -> Ha; rewrite <- app_assoc; by apply (Hl (c :: a) b)). by rewrite <- app_assoc. }
  destruct (f !! (cur ++ [c])) as [[| |ab t]|] eqn:E; [|exact Hrec|by destruct (Hc ab t)|]; (destruct todo; [by intros [= <-]|done]).
Qed.

Lemma locate_clear f p q : clear_path f p → locate f p = Some q → q = p.
Proof. intros [Hp Hl] E. by eapply walk_clear in E. Qed.

Lemma reach_lstat f p : tree_ok f → reach f p → lstat f p = f !! p ∧ (f !! p ≠ None → llocate f p = Some p).
Proof.
  intros Hf (x & c & -> & Hc & Hx). destruct (f !! (x ++ [c])) as [e|] eqn:E.
  - destruct (tree_parent f x c Hf) as [Hd _]; [by rewrite E|]. rewrite lstat_child, llocate_child, E by done. done.
  - split; [|done]. unfold lstat, llocate. rewrite parent_child, name_child. destruct (x ++ [c]) as [|y l] eqn:Exc; [by destruct x|]. munfold.
    destruct (locate f x) as [d|] eqn:Ed; [|done]. apply locate_clear in Ed as ->; [|done].
    destruct (lookup_entry f x) as [e|]; [|done]. destruct (dir_entry e); [|done]. by rewrite lookup_child, Exc.
Qed.

(** [q] and what is below it may have lost entries, nothing else has changed
    but the time of the directory above. *)
Record pruned (q : path) (f f' : fs) : Prop := Pruned {
  pn_shrinks : shrinks f f';
  pn_tree : tree_ok f';
  pn_outside : ∀ x, under q x = false → same_entry (f !! x) (f' !! x);
  pn_exact : ∀ x, under q x = false → x ≠ parent q → f' !! x = f !! x;
}.

Lemma pruned_refl q f : tree_ok f → pruned q f f.
Proof. intros Hf. split; [done|done|intros x _; by left|done]. Qed.

Lemma pruned_trans q f f' f'' : pruned q f f' → pruned q f' f'' → pruned q f f''.
Proof.
  intros [H1 _ H2 E2] [H3 H4 H5 E5]. split; [by etrans|done| |].
  - intros x Hx. eapply same_entry_trans; [by apply H2|by apply H5].
  - intros x Hx Hp. by rewrite E5, E2.
Qed.

Lemma touch_dir_ne now p f x : p ≠ x → touch_dir now p f !! x = f !! x.
Proof. intros Hx. unfold touch_dir. repeat case_match; try done. by rewrite lookup_insert_ne. Qed.

(** The directory of an entry under [q] is under [q], or it is the one above [q]. *)
Lemma parent_under q p x : under q p = true → under q x = false → x ≠ parent q → parent p ≠ x.
Proof.
  unfold under. intros Hp%bool_decide_eq_true Hx%bool_decide_eq_false Hq E. subst x.
  destruct (decide (length p ≤ length q)%nat) as [Hl|Hl].
  - rewrite firstn_all2 in Hp by done. by subst p.
  - apply Hx. destruct p as [|c p _] using rev_ind; [cbn in Hl; lia|]. rewrite parent_child in *.
    rewrite length_app in Hl. cbn in Hl. by rewrite take_app_le in Hp by lia.
Qed.

Lemma under_self q x : under q x = false → x ≠ q.
Proof. unfold under. intros Hx ->. by rewrite firstn_all, bool_decide_true in Hx. Qed.

(** Removing an entry without entries below it. *)
Lemma delete_pruned now q p f : tree_ok f → under q p = true → (∀ c, f !! (p ++ [c]) = None) →
  pruned q f (touch_dir now (parent p) (delete p f)).
Proof.
  intros Hf Hq Hempty. assert (tree_ok (delete p f)) as Ht.
  { intros x c Hx. destruct (decide (p = x ++ [c])) as [->|Hne]; [by rewrite lookup_delete_eq in Hx|].
    rewrite lookup_delete_ne in Hx by done. destruct (Hf x c Hx) as [Hc Hd]. split; [done|].
    destruct Hd as [->|[t Ht]]; [by left|right]. exists t. rewrite lookup_delete_ne; [done|]. intros ->. by rewrite Hempty in Hx. }
  split.
  - etrans; [apply shrinks_delete|apply shrinks_touch].
  - eapply tree_same; [exact Ht|]. intros x. apply touch_dir_same.
  - intros x Hx. eapply same_entry_trans; [|apply touch_dir_same]. left. rewrite lookup_delete_ne; [done|]. intros <-. congruence.
  - intros x Hx Hne. rewrite touch_dir_ne by (by eapply parent_under). rewrite lookup_delete_ne; [done|]. intros <-. congruence.
Qed.

Lemma not_dir_empty f p : tree_ok f → p ≠ [] → (∀ t, f !! p ≠ Some (EDir t)) → ∀ c, f !! (p ++ [c]) = None.
Proof.
  intros Hf Hp Hd c. destruct (f !! (p ++ [c])) as [e|] eqn:E; [|done]. exfalso.
  destruct (Hf p c) as [_ [?|[t Ht]]]; [by rewrite E|done|by destruct (Hd t)].
Qed.

Lemma remove_pruned now q f : tree_ok f → pruned q f (remove_tree now q f).
Proof.
  intros Hf. unfold remove_tree. match goal with |- pruned _ _ (touch_dir _ _ ?g) => set (f1 := g) end.
  assert (∀ x, under q x = false → f1 !! x = f !! x) as Hout.
  { intros x Hx. destruct (f !! x) as [e|] eqn:E; [by apply map_lookup_filter_Some|]. apply map_lookup_filter_None. by left. }
  assert (∀ x, under q x = true → f1 !! x = None) as Hin.
  { intros x Hx. apply map_lookup_filter_None. right. intros e _. cbn. by rewrite Hx. }
  split; [apply (shrinks_remove now q f)| | |intros x Hx Hne; rewrite touch_dir_ne by congruence; by apply Hout].
  - eapply tree_same; [|intros x; apply touch_dir_same]. intros x c Hx.
    destruct (under q (x ++ [c])) eqn:E; [by rewrite Hin in Hx|]. rewrite Hout in Hx by done.
    destruct (Hf x c Hx) as [Hc Hd]. split; [done|]. destruct Hd as [->|[t Ht]]; [by left|right]. exists t. rewrite Hout; [done|].
    unfold under in *. apply bool_decide_eq_false in E. apply bool_decide_eq_false. intros Et. apply E.
    rewrite take_app_le; [done|]. apply (f_equal length) in Et. rewrite length_take in Et. lia.
  - intros x Hx. eapply same_entry_trans; [|apply touch_dir_same]. left. by rewrite Hout.
Qed.


Lemma clear_reach f x c : clear_path f (x ++ [c]) → reach f (x ++ [c]).
Proof.
  intros [[Hp [Hc _]%Forall_cons]%Forall_app Hl]. exists x, c. split_and!; [done|done|]. split; [done|].
  intros a b -> Ha. apply (Hl a (b ++ [c])); [by rewrite app_assoc|done].
Qed.

(** An entry of a tree without links on the way to it is reached. *)
Lemma entry_reach f p : tree_ok f → p ≠ [] → f !! p ≠ None → reach f p.
Proof.
  intros Hf Hp He. destruct p as [|c p _] using rev_ind; [done|]. destruct (tree_parent f p c Hf He) as [Hd Hc].
  exists p, c. split_and!; [done|done|]. by apply real_clear.
Qed.

(** * What the removals leave *)

Lemma unlink_pruned now q p f : tree_ok f → reach f p → under q p = true → (∀ t, f !! p ≠ Some (EDir t)) →
  ∃ f', unlink now true p f = (Ok (), f') ∧ pruned q f f'.
Proof.
  intros Hf Hr Hq Hd. destruct (reach_lstat f p Hf Hr) as [El Eq]. unfold unlink. rewrite El.
  destruct (f !! p) as [e|] eqn:E; [|eexists; split; [done|by apply pruned_refl]]. rewrite Eq by done.
  assert (pruned q f (touch_dir now (parent p) (delete p f))) as Hp.
  { apply delete_pruned; [done|done|]. apply not_dir_empty; [done| |by rewrite E].
    destruct Hr as (x & c & -> & _). by destruct x. }
  destruct e as [| t |]; [by eexists|by destruct (Hd t)|by eexists].
Qed.

Lemma rmdir_pruned now q p f : tree_ok f → reach f p → under q p = true →
  ∃ f', suppress OSError (rmdir now p) f = (Ok (), f') ∧ pruned q f f'.
Proof.
  intros Hf Hr Hq. destruct (reach_lstat f p Hf Hr) as [El Eq]. unfold suppress, try_except, rmdir. rewrite El.
  assert (∃ f', (Ok (A := ()) tt, f) = (Ok (), f') ∧ pruned q f f') as Hsame by (eexists; split; [done|by apply pruned_refl]).
  destruct (f !! p) as [e|] eqn:E; [|exact Hsame]. rewrite Eq by done. destruct e as [| t |]; [exact Hsame| |exact Hsame].
  case_bool_decide as Hb; [|exact Hsame]. eexists. split; [done|]. apply delete_pruned; [done|done|].
  intros c. destruct (f !! (p ++ [c])) as [e|] eqn:Ec; [|done]. exfalso.
  apply (f_equal (λ m : fs, m !! (p ++ [c]))) in Hb. rewrite lookup_empty in Hb. apply map_lookup_filter_None in Hb as [?|Hb]; [congruence|].
  apply (Hb e Ec). unfold below, under. cbn [fst]. rewrite take_app_length, bool_decide_true, bool_decide_false; [done| |done].
  intros El'%(f_equal length). rewrite length_app in El'. cbn in El'. lia.
Qed.

Lemma rmtree_pruned now p f t : tree_ok f → reach f p → f !! p = Some (EDir t) →
  ∃ f', rmtree now p f = (Ok (), f') ∧ pruned p f f' ∧ f' !! p = None.
Proof.
  intros Hf Hr E. destruct (reach_lstat f p Hf Hr) as [El Eq]. unfold rmtree. rewrite El, E, Eq by congruence.
  eexists. split; [done|]. split; [by apply remove_pruned|].
  unfold remove_tree. eapply same_entry_none; [apply touch_dir_same|]. apply map_lookup_filter_None. right. intros e _. cbn.
  unfold under. by rewrite firstn_all, bool_decide_true.
Qed.

Lemma under_app q rest : under q (q ++ rest) = true.
Proof. unfold under. by rewrite bool_decide_true by apply take_app_length. Qed.

(** * Pruning one cache *)

Section prune.
Context `{DirScan} (Hscan : ∀ f p, scans f p (rglob f p)) (now : instant).

Lemma listed f r x : clear_path f r → x ∈ rglob f r → ∃ rest, rest ≠ [] ∧ x = r ++ rest ∧ f !! x ≠ None.
Proof using Hscan.
  intros Hr (q & rest & Hq & Hn & -> & Hx)%(proj2 (Hscan f r)). exists rest. apply locate_clear in Hq as ->; [by split_and!|done].
Qed.

Lemma listed_back f r rest : real_dir f r → rest ≠ [] → f !! (r ++ rest) ≠ None → r ++ rest ∈ rglob f r.
Proof using Hscan. intros Hr Hn Hx. apply Hscan. exists r, rest. split_and!; try done. by apply locate_real_dir. Qed.

Lemma listed_reach f r x : tree_ok f → clear_path f r → x ∈ rglob f r → reach f x ∧ under r x = true.
Proof using Hscan.
  intros Hf Hr (rest & Hn & -> & Hx)%listed; [|done]. split; [|apply under_app].
  apply entry_reach; [done| |done]. intros [_ ?]%app_eq_nil. done.
Qed.

Lemma file_not_dir f x : tree_ok f → is_file f x = true → ∀ t, f !! x ≠ Some (EDir t).
Proof.
  intros Hf Hx t E. unfold is_file, stat in Hx. rewrite locate_real_dir in Hx by (apply tree_real_dir; eauto). munfold.
  destruct x as [|c x]; [done|]. cbn [lookup_entry] in Hx. by rewrite E in Hx.
Qed.

Lemma prune_loop_run r max candidates f : tree_ok f →
  Forall (λ p, reach f p ∧ under r p = true ∧ ∀ t, f !! p ≠ Some (EDir t)) candidates →
  ∃ early f', prune_loop now r max candidates f = (Ok early, f') ∧ pruned r f f'.
Proof using Hscan.
  revert f. induction candidates as [|p l IH]; intros f Hf Hl; [exists false, f; split; [done|by apply pruned_refl]|].
  apply Forall_cons in Hl as [(Hr & Hu & Hd) Hl]. cbn [prune_loop]. erewrite bind_ok by reflexivity.
  destruct (directory_size_bytes f r <=? max); [exists true, f; split; [done|by apply pruned_refl]|].
  destruct (unlink_pruned now r p f Hf Hr Hu Hd) as (f1 & E1 & H1). erewrite bind_ok by exact E1.
  destruct (IH f1) as (early & f2 & E2 & H2); [apply H1| |exists early, f2; split; [done|by eapply pruned_trans]].
  eapply Forall_impl; [exact Hl|]. intros x (Hrx & Hux & Hdx). split_and!; [eapply reach_shrinks; [apply H1|done]|done|].
  intros t Et. destruct (shrinks_dir _ _ _ _ (pn_shrinks _ _ _ H1) Et) as [t' Et']. by destruct (Hdx t').
Qed.

Lemma remove_dirs_run r dirs f : tree_ok f → Forall (λ p, reach f p ∧ under r p = true) dirs →
  ∃ f', for_each (λ p, suppress OSError (rmdir now p)) dirs f = (Ok (), f') ∧ pruned r f f'.
Proof.
  revert f. induction dirs as [|p l IH]; intros f Hf Hl; [exists f; split; [done|by apply pruned_refl]|].
  apply Forall_cons in Hl as [[Hr Hu] Hl]. cbn [for_each].
  destruct (rmdir_pruned now r p f Hf Hr Hu) as (f1 & E1 & H1). erewrite bind_ok by exact E1.
  destruct (IH f1) as (f2 & E2 & H2); [apply H1| |exists f2; split; [done|by eapply pruned_trans]].
  eapply Forall_impl; [exact Hl|]. intros x [Hrx Hux]. split; [|done]. eapply reach_shrinks; [apply H1|done].
Qed.

Lemma prune_children_run r max f : tree_ok f → clear_path f r →
  ∃ f', prune_children_lru now r max f = (Ok (), f') ∧ pruned r f f'.
Proof using Hscan.
  intros Hf Hr. unfold prune_children_lru. erewrite bind_ok by reflexivity.
  match goal with |- context [prune_loop now r max ?l] => destruct (prune_loop_run r max l f Hf) as (early & f1 & E1 & H1) end.
  { apply Forall_forall. intros x [Hx [Hfile _]%andb_true_iff]%elem_of_sort_by%list_elem_of_In%filter_In.
    apply list_elem_of_In in Hx. destruct (listed_reach f r x Hf Hr Hx). split_and!; [done..|by apply file_not_dir]. }
  erewrite bind_ok by exact E1. destruct early; [by exists f1|]. unfold remove_empty_dirs. erewrite bind_ok by reflexivity.
  match goal with |- context [for_each _ ?l] => destruct (remove_dirs_run r l f1 (pn_tree _ _ _ H1)) as (f2 & E2 & H2) end.
  { apply Forall_forall. intros x [Hx _]%elem_of_reverse%elem_of_sort_by%list_elem_of_In%filter_In. apply list_elem_of_In in Hx.
    apply listed_reach; [apply H1| |done]. eapply clear_shrinks; [apply H1|done]. }
  exists f2. split; [done|by eapply pruned_trans].
Qed.

Lemma remove_site_root_run r f : tree_ok f → clear_path f r → r ≠ [] → (∃ t, f !! r = Some (EDir t)) →
  ∃ f', remove_site_root now r f = (Ok (), f') ∧ pruned r f f' ∧ f' !! r = None.
Proof.
  intros Hf Hr Hn [t E]. unfold remove_site_root. erewrite bind_ok by reflexivity.
  assert (is_dir f r = true) as ->.
  { unfold is_dir, stat. rewrite locate_real_dir by (apply tree_real_dir; eauto). munfold. destruct r as [|c r]; [done|]. cbn. by rewrite E. }
  erewrite bind_ok by reflexivity. destruct (rmtree_pruned now r f t) as (f' & E' & Hp & Hg); [done| |done|by exists f'].
  destruct r as [|c r _] using rev_ind; [done|]. by apply clear_reach.
Qed.

(** A directory takes no space once it is gone. *)
Lemma gone_size f r : clear_path f r → f !! r = None → r ≠ [] → directory_size_bytes f r = 0.
Proof.
  intros Hr E Hn. unfold directory_size_bytes. assert (exists_ f r = false) as ->; [|done].
  unfold exists_, stat. destruct (locate f r) as [q|] eqn:Eq; munfold; [|done]. apply locate_clear in Eq as ->; [|done].
  destruct r as [|c r]; [done|]. cbn. by rewrite E.
Qed.

(** * Pruning the caches of a state directory *)

Context (root : path) (excluded : list ustr).

(** The directory of the caches, without links in it. *)
Record caches (f : fs) : Prop := Caches {
  ca_tree : tree_ok f;
  ca_root : real_dir f root;
  ca_links : ∀ n, no_link f (root ++ [n]);
}.

(** Entries are missing only under the caches that may be pruned. *)
Record spared (f f' : fs) : Prop := Spared {
  sp_shrinks : shrinks f f';
  sp_caches : caches f';
  sp_outside : ∀ x, (∀ n, n ∉ excluded → under (root ++ [n]) x = false) → same_entry (f !! x) (f' !! x);
}.

Lemma spared_refl f : caches f → spared f f.
Proof. intros Hf. split; [done|done|]. intros x _. by left. Qed.

Lemma spared_trans f f' f'' : spared f f' → spared f' f'' → spared f f''.
Proof. intros [H1 _ H2] [H3 H4 H5]. split; [by etrans|done|]. intros x Hx. eapply same_entry_trans; [by apply H2|by apply H5]. Qed.

Lemma not_under_root n a b : root = a ++ b → under (root ++ [n]) a = false.
Proof.
  intros E. unfold under. apply bool_decide_eq_false. intros Ht. apply (f_equal length) in Ht, E.
  rewrite length_app in E. rewrite length_take, length_app in Ht. cbn in Ht. lia.
Qed.

Lemma pruned_spared n f f' : caches f → n ∉ excluded → pruned (root ++ [n]) f f' → spared f f'.
Proof.
  intros [Hf Hr Hl] Hn [H1 H2 H3 _]. split; [done| |intros x Hx; by apply H3, Hx]. split; [done| |].
  - eapply real_dir_same; [|exact Hr]. intros a b E _. apply H3. by eapply not_under_root.
  - intros m ab t E. eapply Hl. by apply (shrinks_link _ _ _ _ _ H1) in E.
Qed.

(** A site's cache. *)
Definition site_dir (f : fs) (r : path) : Prop := ∃ n, r = root ++ [n] ∧ ∃ t, f !! r = Some (EDir t).

Lemma under_sibling n n' rest : n ≠ n' → under (root ++ [n]) ((root ++ [n']) ++ rest) = false.
Proof.
  intros Hn. unfold under. apply bool_decide_eq_false. rewrite take_app_le by (rewrite !length_app; done).
  rewrite firstn_all2 by (rewrite !length_app; done). by intros [= ?]%app_inv_head.
Qed.

Lemma pruned_sibling n f f' r rest : pruned (root ++ [n]) f f' → site_dir f r → r ≠ root ++ [n] → same_entry (f !! (r ++ rest)) (f' !! (r ++ rest)).
Proof. intros Hp (m & -> & _) Hne. apply Hp. apply under_sibling. congruence. Qed.

Lemma pruned_sibling_exact n f f' r rest : pruned (root ++ [n]) f f' → site_dir f r → r ≠ root ++ [n] → f' !! (r ++ rest) = f !! (r ++ rest).
Proof.
  intros Hp (m & -> & _) Hne. apply (pn_exact _ _ _ Hp); [apply under_sibling; congruence|].
  rewrite parent_child. intros E%(f_equal length). rewrite !length_app in E. cbn in E. lia.
Qed.

Lemma pruned_sibling_dir n f f' r : pruned (root ++ [n]) f f' → site_dir f r → r ≠ root ++ [n] → site_dir f' r.
Proof.
  intros Hp Hr Hne. pose proof (pruned_sibling_exact n f f' r [] Hp Hr Hne) as Hs. rewrite app_nil_r in Hs.
  destruct Hr as (m & -> & t & Ht). exists m. split; [done|]. exists t. congruence.
Qed.

(** When a cache was last used: the time of its metadata or, without it, of its directory. *)
Definition accessed (f : fs) (r : path) (t : instant) : Prop :=
  (∃ c a, f !! (r ++ [METADATA_FILENAME]) = Some (EFile c t a)) ∨
  (f !! (r ++ [METADATA_FILENAME]) = None ∧ f !! r = Some (EDir t)).

Lemma accessed_sibling n f f' r t : pruned (root ++ [n]) f f' → site_dir f r → r ≠ root ++ [n] → accessed f r t → accessed f' r t.
Proof.
  intros Hp Hr Hne. pose proof (pruned_sibling_exact n f f' r [] Hp Hr Hne) as Hs. rewrite app_nil_r in Hs.
  unfold accessed. by rewrite (pruned_sibling_exact n f f' r _ Hp Hr Hne), Hs.
Qed.

Lemma pruned_siblings n f f' roots : pruned (root ++ [n]) f f' → root ++ [n] ∉ roots → Forall (site_dir f) roots → Forall (site_dir f') roots.
Proof.
  intros Hp Hn Hl. apply Forall_forall. intros r Hr. pose proof (proj1 (Forall_forall _ _) Hl r Hr) as Hd.
  pose proof (pruned_sibling n f f' r [] Hp Hd) as Hs. rewrite app_nil_r in Hs. destruct Hd as (m & -> & t & Ht).
  exists m. split; [done|]. eapply same_entry_dir; [apply Hs; congruence|done].
Qed.

Lemma site_clear f r : caches f → site_dir f r → clear_path f r.
Proof. intros Hf (n & -> & t & Ht). apply real_clear, tree_real_dir; [apply Hf|eauto]. Qed.

Lemma site_nonempty f r : site_dir f r → r ≠ [].
Proof. intros (n & -> & _). by destruct root. Qed.

Lemma accessed_last f r t : caches f → site_dir f r → accessed f r t → last_access f r = t.
Proof.
  intros Hf Hr. pose proof (ca_tree _ Hf) as Ht. assert (plain_name METADATA_FILENAME) as Hm by (split; by vm_compute).
  destruct Hr as (n & -> & t' & Hd). assert (real_dir f (root ++ [n])) as Hrd by (by apply tree_real_dir; eauto).
  assert (stat f (root ++ [n]) = f !! (root ++ [n])) as Es.
  { apply stat_child; [apply Hf| |intros ? ?; congruence]. apply (tree_parent f root n Ht). congruence. }
  assert (no_link f ((root ++ [n]) ++ [METADATA_FILENAME]) →
    stat f ((root ++ [n]) ++ [METADATA_FILENAME]) = f !! ((root ++ [n]) ++ [METADATA_FILENAME])) as Em by (by apply stat_child).
  unfold last_access, exists_. intros [(c & a & E)|[E Ed]]; rewrite E in Em.
  - assert (stat f ((root ++ [n]) ++ [METADATA_FILENAME]) = Some (EFile c t a)) as Em' by (apply Em; intros ? ?; congruence).
    by rewrite Em', Em'.
  - rewrite Em by (intros ? ?; congruence). by rewrite Es, Ed.
Qed.

(** The listing of the site caches. *)
Lemma site_roots_in f r : caches f → r ∈ site_roots f root ↔ site_dir f r.
Proof using Hscan.
  intros Hf. unfold site_roots. rewrite elem_of_sort_by, list_elem_of_In, filter_In, <- list_elem_of_In, andb_true_iff, bool_decide_eq_true.
  assert (∀ n, f !! (root ++ [n]) ≠ None → stat f (root ++ [n]) = f !! (root ++ [n])) as Hs.
  { intros n Hn. apply stat_child; [apply Hf| |apply Hf]. by apply (tree_parent f root n (ca_tree _ Hf)). }
  split.
  - intros (Hin & Hlen & Hd). destruct (listed f root r) as (rest & Hn & -> & Hx); [by apply real_clear, Hf|done|].
    destruct rest as [|n [|? ?]]; [done| |rewrite length_app in Hlen; cbn in Hlen; lia].
    exists n. split; [done|]. unfold is_dir in Hd. rewrite Hs in Hd by done. destruct (f !! (root ++ [n])) as [[]|]; try done. eauto.
  - intros (n & -> & t & Ht). split_and!.
    + apply listed_back; [apply Hf|done|congruence].
    + rewrite length_app. cbn. lia.
    + unfold is_dir. rewrite Hs by congruence. by rewrite Ht.
Qed.

Lemma site_roots_NoDup f : NoDup (site_roots f root).
Proof using Hscan. unfold site_roots. apply NoDup_sort_by, NoDup_ListNoDup, List.NoDup_filter, NoDup_ListNoDup, Hscan. Qed.

(** What a loop over site caches has removed. *)
Definition removed (roots : list path) (f' : fs) (gone : list path) : Prop :=
  Forall (λ r, r ∈ roots ∧ name r ∉ excluded ∧ f' !! r = None) gone.

Lemma removed_later r roots f f' gone : shrinks f f' → removed roots f gone → removed (r :: roots) f' gone.
Proof.
  intros Hs Hg. eapply Forall_impl; [exact Hg|]. intros x (Hx & Hn & E). split_and!; [by right|done|].
  destruct (Hs x) as [?|Hs']; [done|by eapply same_entry_none].
Qed.

Lemma mem_str_false x l : mem_str x l = false → x ∉ l.
Proof. unfold mem_str. apply bool_decide_eq_false. Qed.

Lemma prune_expired_run before roots f : caches f → NoDup roots → Forall (site_dir f) roots →
  ∃ gone f', prune_expired now before excluded roots f = (Ok gone, f') ∧ spared f f' ∧ removed roots f' gone ∧
    (∀ r t, r ∈ roots → name r ∉ excluded → accessed f r t → t < before → f' !! r = None) ∧
    (∀ r, site_dir f r → (r ∈ roots → name r ∈ excluded ∨ ∃ t, accessed f r t ∧ before ≤ t) →
       ∀ rest, f' !! (r ++ rest) = f !! (r ++ rest)).
Proof using Hscan.
  revert f. induction roots as [|r roots IH]; intros f Hf Hn Hl.
  { exists [], f. split_and!; [done|by apply spared_refl|constructor| |done]. by intros r t ?%not_elem_of_nil. }
  apply NoDup_cons in Hn as [Hnr Hn]. apply Forall_cons in Hl as [Hr Hl]. cbn [prune_expired]. erewrite bind_ok by reflexivity.
  destruct (negb (mem_str (name r) excluded) && (last_access f r <? before)) eqn:Hold.
  - apply andb_true_iff in Hold as [Hx%negb_true_iff%mem_str_false Hlast%Z.ltb_lt].
    destruct (remove_site_root_run r f (ca_tree _ Hf)) as (f1 & E1 & H1 & Hg1); [by apply site_clear|by eapply site_nonempty| |].
    { by destruct Hr as (n & -> & Ht). }
    erewrite bind_ok by exact E1. pose proof Hr as (n & En & _). subst r. rewrite name_child in Hx.
    pose proof (pruned_spared n f f1 Hf Hx H1) as Hs1.
    destruct (IH f1 (sp_caches _ _ Hs1) Hn (pruned_siblings n f f1 roots H1 Hnr Hl)) as (gone & f2 & E2 & Hs2 & Hg2 & Ht2 & Hk2).
    erewrite bind_ok by exact E2. exists ((root ++ [n]) :: gone), f2.
    assert (f2 !! (root ++ [n]) = None) as Hgn.
    { destruct (sp_shrinks _ _ Hs2 (root ++ [n])) as [?|Hs]; [done|by eapply same_entry_none]. }
    split_and!; [done|by eapply spared_trans| | |].
    + constructor; [split_and!; [by left|by rewrite name_child|done]|]. by eapply removed_later; [apply shrinks_preorder|].
    + intros r t [->|Hin]%elem_of_cons; [done|]. intros Hxr Em Hm. eapply Ht2; [done..| |exact Hm].
      eapply accessed_sibling; [exact H1| |by intros ->|exact Em]. by eapply Forall_forall.
    + intros r Hd Hkeep rest. assert (r ≠ root ++ [n]) as Hne.
      { intros ->. destruct Hkeep as [Hk|(t & Ha & Hle)]; [by left|by rewrite name_child in Hk|].
        rewrite (accessed_last _ _ _ Hf Hd Ha) in Hlast. lia. }
      rewrite <- (pruned_sibling_exact n f f1 r rest H1 Hd Hne). apply Hk2; [by eapply pruned_sibling_dir|].
      intros Hin. destruct Hkeep as [Hk|(t & Ha & Hle)]; [by right|by left|right]. exists t. split; [by eapply accessed_sibling|done].
  - destruct (IH f Hf Hn Hl) as (gone & f2 & E2 & Hs2 & Hg2 & Ht2 & Hk2). exists gone, f2.
    split_and!; [done|done|by eapply removed_later; [apply shrinks_preorder|]| |].
    + intros r' t [->|Hin]%elem_of_cons; [|by eapply Ht2]. intros Hxr Em Hm. exfalso.
      rewrite (accessed_last _ _ _ Hf Hr Em), (proj2 (Z.ltb_lt _ _) Hm), andb_true_r in Hold.
      apply negb_false_iff in Hold. unfold mem_str in Hold. by apply bool_decide_eq_true in Hold.
    + intros r' Hd Hkeep. apply Hk2; [done|]. intros Hin. apply Hkeep. by right.
Qed.

(** Within the limit, or not to be pruned. *)
Definition bounded (max : Z) (f : fs) (r : path) : Prop := name r ∈ excluded ∨ directory_size_bytes f r ≤ max.

Lemma bounded_later max f f' r : shrinks f f' → bounded max f r → bounded max f' r.
Proof using Hscan. intros Hs [?|Hb]; [by left|right]. etrans; [by apply directory_size_shrinks|done]. Qed.

(** One cache over the limit: after its turn it is within it, or gone. *)
Lemma prune_one max n f : caches f → 0 ≤ max → n ∉ excluded → site_dir f (root ++ [n]) →
  ∃ (large : bool) f1 f2, prune_children_lru now (root ++ [n]) max f = (Ok (), f1) ∧
    (max <? directory_size_bytes f1 (root ++ [n])) = large ∧
    (if large then remove_site_root now (root ++ [n]) else mret ()) f1 = (Ok (), f2) ∧
    pruned (root ++ [n]) f f2 ∧ bounded max f2 (root ++ [n]) ∧ (large = true → f2 !! (root ++ [n]) = None).
Proof using Hscan.
  intros Hf Hmax Hx Hr. destruct (prune_children_run (root ++ [n]) max f (ca_tree _ Hf)) as (f1 & E1 & H1); [by apply site_clear|].
  destruct (max <? directory_size_bytes f1 (root ++ [n])) eqn:Hb; [apply Z.ltb_lt in Hb|apply Z.ltb_ge in Hb].
  2:{ exists false, f1, f1. split_and!; try done; [by apply Z.ltb_ge|by right]. }
  assert (∃ t, f1 !! (root ++ [n]) = Some (EDir t)) as Ht.
  { destruct Hr as (n' & En & t & Ht). destruct (pn_shrinks _ _ _ H1 (root ++ [n])) as [Hg|Hs]; [|by eapply same_entry_dir].
    rewrite gone_size in Hb; [lia| |done|by destruct root]. eapply clear_shrinks; [apply H1|]. by apply site_clear; [|exists n; eauto]. }
  pose proof (pruned_spared n f f1 Hf Hx H1) as Hs1.
  assert (site_dir f1 (root ++ [n])) as Hr1 by (by exists n).
  destruct (remove_site_root_run (root ++ [n]) f1 (pn_tree _ _ _ H1)) as (f2 & E2 & H2 & Hg); [by apply (site_clear f1), Hr1; apply Hs1|by destruct root|done|].
  exists true, f1, f2. split_and!; try done; [by apply Z.ltb_lt|by eapply pruned_trans|].
  right. rewrite gone_size; [done| |done|by destruct root]. eapply clear_shrinks; [apply H2|]. by apply site_clear; [apply Hs1|].
Qed.

Lemma prune_large_run max roots f : caches f → 0 ≤ max → NoDup roots → Forall (site_dir f) roots →
  ∃ gone f', prune_large now max excluded roots f = (Ok gone, f') ∧ spared f f' ∧ removed roots f' gone ∧ Forall (bounded max f') roots ∧
    (∀ r, site_dir f r → (r ∈ roots → bounded max f r) → ∀ rest, f' !! (r ++ rest) = f !! (r ++ rest)).
Proof using Hscan.
  intros Hf Hmax. revert f Hf. induction roots as [|r roots IH]; intros f Hf Hn Hl.
  { exists [], f. split_and!; [done|by apply spared_refl|constructor|constructor|done]. }
  apply NoDup_cons in Hn as [Hnr Hn]. apply Forall_cons in Hl as [Hr Hl]. cbn [prune_large]. erewrite bind_ok by reflexivity.
  destruct (mem_str (name r) excluded || (directory_size_bytes f r <=? max)) eqn:Hsmall.
  - destruct (IH f Hf Hn Hl) as (gone & f2 & E2 & Hs2 & Hg2 & Hb2 & Hk2). exists gone, f2.
    split_and!; [done|done|by eapply removed_later; [apply shrinks_preorder|]| |].
    2:{ intros r' Hd Hkeep. apply Hk2; [done|]. intros Hin. apply Hkeep. by right. }
    constructor; [|done].
    eapply bounded_later; [apply Hs2|]. apply orb_true_iff in Hsmall as [Hm|Hle]; [left|right; by apply Z.leb_le].
    unfold mem_str in Hm. by apply bool_decide_eq_true in Hm.
  - apply orb_false_iff in Hsmall as [Hx%mem_str_false Hbig%Z.leb_gt]. pose proof Hr as (n & En & _). subst r. rewrite name_child in Hx.
    destruct (prune_one max n f Hf Hmax Hx Hr) as (large & f1 & f2 & E1 & El & E2 & H2 & Hb2 & Hg2).
    erewrite bind_ok by exact E1. erewrite bind_ok by (unfold gets; by rewrite El).
    pose proof (pruned_spared n f f2 Hf Hx H2) as Hs2.
    destruct (IH f2 (sp_caches _ _ Hs2) Hn (pruned_siblings n f f2 roots H2 Hnr Hl)) as (gone & f3 & E3 & Hs3 & Hg3 & Hb3 & Hk3).
    assert (∀ r, site_dir f r → (r ∈ (root ++ [n]) :: roots → bounded max f r) → ∀ rest, f3 !! (r ++ rest) = f !! (r ++ rest)) as Hk.
    { intros r Hd Hkeep rest. assert (r ≠ root ++ [n]) as Hne.
      { intros ->. destruct Hkeep as [Hk|Hle]; [by left|by rewrite name_child in Hk|lia]. }
      rewrite <- (pruned_sibling_exact n f f2 r rest H2 Hd Hne). apply Hk3; [by eapply pruned_sibling_dir|].
      intros Hin. eapply bounded_later; [apply H2|]. apply Hkeep. by right. }
    assert (bounded max f3 (root ++ [n])) as Hb by (by eapply bounded_later; [apply Hs3|]).
    destruct large.
    + erewrite bind_ok by exact E2. erewrite bind_ok by exact E3. exists ((root ++ [n]) :: gone), f3.
      split_and!; [done|by eapply spared_trans| |by constructor|done]. constructor; [|by eapply removed_later; [apply shrinks_preorder|]].
      split_and!; [by left|by rewrite name_child|]. destruct (sp_shrinks _ _ Hs3 (root ++ [n])) as [?|Hs]; [done|].
      eapply same_entry_none; [exact Hs|by apply Hg2].
    + injection E2 as <-. exists gone, f3. split_and!; [done|by eapply spared_trans|by eapply removed_later; [apply shrinks_preorder|]|by constructor|done].
Qed.

Lemma site_dirs_listed f : caches f → Forall (site_dir f) (site_roots f root).
Proof using Hscan. intros Hf. apply Forall_forall. intros r. by apply site_roots_in. Qed.

End prune.

(** The record [caches] of a state directory. *)
Abbreviation state_caches state_dir := (caches (cache_root state_dir)).

(** C31: pruning keeps the caches within their limits, and removes nothing that
    is within them. With the directory of the caches in place and no links
    directly in it, [prune_cache] returns when the operating system permits the
    removals (here they all succeed). Afterwards every site's cache that was not
    excluded takes at most [site_max_bytes], and every one whose last use (the
    time of its metadata or, without it, of its directory) lies before the time
    to live is gone. A cache that is excluded, or was used within the time to
    live and takes at most [site_max_bytes], is exactly as it was, so the
    reported caches, which are gone and were not excluded, had expired or were
    over the limit. It only removes: what remains is as it was (up to the times
    of directories), and nothing outside the caches it may prune is missing. *)
Theorem prune_cache_bounds `{DirScan} now state_dir site_max_bytes ttl_days excluded before f :
  (∀ g p, scans g p (rglob g p)) → state_caches state_dir f → 0 ≤ site_max_bytes →
  add_time now (- days ttl_days) = Ok before →
  ∃ gone f', prune_cache now state_dir site_max_bytes ttl_days excluded f = (Ok gone, f') ∧
    (∀ r, r ∈ site_roots f' (cache_root state_dir) → name r ∈ excluded ∨ directory_size_bytes f' r ≤ site_max_bytes) ∧
    (∀ n t, site_dir (cache_root state_dir) f (site_root state_dir n) → n ∉ excluded →
       accessed f (site_root state_dir n) t → t < before → f' !! site_root state_dir n = None) ∧
    (∀ n, site_dir (cache_root state_dir) f (site_root state_dir n) →
       n ∈ excluded ∨ (∃ t, accessed f (site_root state_dir n) t ∧ before ≤ t) ∧
                      directory_size_bytes f (site_root state_dir n) ≤ site_max_bytes →
       ∀ rest, f' !! (site_root state_dir n ++ rest) = f !! (site_root state_dir n ++ rest)) ∧
    (∀ r, r ∈ gone → site_dir (cache_root state_dir) f r ∧ name r ∉ excluded ∧ f' !! r = None) ∧
    shrinks f f' ∧
    (∀ x, (∀ n, n ∉ excluded → under (site_root state_dir n) x = false) → same_entry (f !! x) (f' !! x)).
Proof.
  intros Hscan Hf Hmax Hb. set (root := cache_root state_dir) in *. unfold prune_cache. fold root. erewrite bind_ok by reflexivity.
  assert (exists_ f root = true) as ->.
  { unfold exists_, stat. rewrite locate_real_dir by apply Hf. munfold. by destruct (real_dir_entry f root (ca_root _ _ Hf)) as [t ->]. }
  cbn [negb]. rewrite Hb. erewrite bind_ok by reflexivity. erewrite bind_ok by reflexivity.
  destruct (prune_expired_run Hscan now root excluded before (site_roots f root) f Hf) as (gone & f1 & E1 & Hs1 & Hg1 & Ht1 & Hk1);
    [by apply site_roots_NoDup|by apply site_dirs_listed|]. erewrite bind_ok by exact E1. erewrite bind_ok by reflexivity.
  pose proof (sp_caches _ _ _ _ Hs1) as Hf1.
  destruct (prune_large_run Hscan now root excluded site_max_bytes (site_roots f1 root) f1 Hf1 Hmax) as (more & f2 & E2 & Hs2 & Hg2 & Hb2 & Hk2);
    [by apply site_roots_NoDup|by apply site_dirs_listed|]. erewrite bind_ok by exact E2. exists (gone ++ more), f2.
  pose proof (sp_caches _ _ _ _ Hs2) as Hf2. pose proof (sp_shrinks _ _ _ _ Hs2) as Hsh2.
  assert (∀ r, site_dir root f1 r → site_dir root f r) as Hback.
  { intros r (n & -> & t & Ht). exists n. split; [done|]. eapply shrinks_dir; [apply Hs1|done]. }
  assert (∀ r, f1 !! r = None → f2 !! r = None) as Hgone.
  { intros r Hr. destruct (Hsh2 r) as [?|Hs]; [done|by eapply same_entry_none]. }
  split_and!; [done| | | | | |].
  - intros r Hr%(site_roots_in Hscan); [|done]. apply (proj1 (Forall_forall _ _) Hb2). apply site_roots_in; [done..|].
    destruct Hr as (n & -> & t & Ht). exists n. split; [done|]. by eapply shrinks_dir.
  - intros n t Hn Hx Ha Hm. apply Hgone. eapply Ht1; [|by unfold site_root; rewrite name_child|exact Ha|exact Hm].
    by apply site_roots_in.
  - intros n Hn Hkeep rest. assert (∀ rest, f1 !! (site_root state_dir n ++ rest) = f !! (site_root state_dir n ++ rest)) as Hk.
    { apply Hk1; [done|]. intros _. unfold site_root. rewrite name_child. destruct Hkeep as [?|[Ht _]]; [by left|by right]. }
    rewrite <- Hk. apply Hk2.
    + destruct Hn as (m & Em & t & Ht). exists m. split; [done|]. exists t. specialize (Hk []). rewrite app_nil_r in Hk. congruence.
    + intros _. unfold bounded, site_root. rewrite name_child. destruct Hkeep as [?|[_ Hle]]; [by left|right].
      etrans; [apply directory_size_shrinks; [done|apply Hs1]|exact Hle].
  - intros r [Hr|Hr]%elem_of_app.
    + destruct (proj1 (Forall_forall _ _) Hg1 r Hr) as (Hin & Hx & E). split_and!; [by apply site_roots_in in Hin|done|by apply Hgone].
    + destruct (proj1 (Forall_forall _ _) Hg2 r Hr) as (Hin & Hx & E). split_and!; [by apply Hback; apply site_roots_in in Hin|done|done].
  - etrans; [apply Hs1|exact Hsh2].
  - intros x Hx. eapply same_entry_trans; [by apply Hs1|by apply Hs2].
Qed.
