(* ===== verification/WorkspaceExamples.v ===== *)
(** Downloads, archives and caches at concrete places, and what a link planted
    in a cache leads to. *)

From S2P Require Import Prelude PyStr Dict Json Clock Uuid Fs Resolve PackageJson Sha256 Cache Url Config Handlers Workspace.
From S2P Require Import WorkspaceProofs CacheProofs CacheLocks.

Local Open Scope Z_scope.

Definition wx_now : instant := instant_of 2026 7 13 9 30 0 0.
Definition wx_state : path := [u "state"].
Definition wx_empty : fs := {[ wx_state := EDir 0 ]}.

Lemma wx_state_real f : f !! wx_state = Some (EDir 0) → real_dir f wx_state.
Proof.
  intros Hs. split; [by repeat constructor; vm_compute|]. intros [|c [|? ?]] b E Ha; try done. injection E as <- _. by exists 0.
Qed.

(** * A download in two pieces *)

#[local] Instance two_pieces : Urllib := {|
  url2pathname := λ s, drop 1 (split_on 47 s);
  urlopen := λ _ _, Ok (MkSourceResponse (Some (u "3")) [Ok (u "ab"); Ok (u "c"); Ok []]);
  urljoin := λ _ x, x;
|}.

Definition wx_netloc (_ : ustr) : result () := Ok ().
Definition wx_name : ustr := u "source.tar.gz".
Definition wx_download : result path * fs :=
  download_source wx_netloc wx_now (u "https://store.example/src") (wx_state ++ [wx_name])
    (u "ba7816bf8f01cfea414140de5dae2223b00361a396177a9cb410ff61f20015ad") (Some 3) (Some 10)
    [u "https://store.example"] false wx_empty.

Lemma wx_name_plain : plain_name wx_name.
Proof. by split; vm_compute. Qed.

Lemma wx_download_ok : wx_download.1 = Ok (wx_state ++ [wx_name]).
Proof. vm_compute. reflexivity. Qed.

Lemma download_verified_witness : ∃ content m a, wx_download.2 !! (wx_state ++ [wx_name]) = Some (EFile content m a) ∧
  Z.of_nat (length content) ≤ 10.
Proof.
  destruct (download_verified wx_netloc wx_state wx_name wx_now (u "https://store.example/src")
    (u "ba7816bf8f01cfea414140de5dae2223b00361a396177a9cb410ff61f20015ad") (Some 3) (Some 10)
    [u "https://store.example"] false wx_empty wx_download.1 wx_download.2) as [[[[e He] _]|(_ & response & c & m & a & _ & _ & E & _ & Hb)] _].
  - by apply wx_state_real.
  - apply wx_name_plain.
  - left. by vm_compute.
  - left. by vm_compute.
  - apply surjective_pairing.
  - rewrite wx_download_ok in He. done.
  - exists c, m, a. split; [exact E|]. apply (Hb 10); [done|lia].
Defined.

(** * An archive with a link out of its place *)

#[local] Instance escaping_tar : TarFile := {|
  tar_members := λ _, Ok [MkTarMember (u "index.html") TReg []; MkTarMember (u "sub/up") TSym (u "../../queue.db")];
  tar_extract := λ content _ destination, write_bytes wx_now (destination ++ [u "index.html"]) content;
|}.

Definition wx_archive : path := wx_state ++ [u "a.tar"].
Definition wx_src : path := wx_state ++ [u "src"].
Definition wx_files : fs := <[wx_src := EDir 0]> (<[wx_archive := EFile (u "tar") 0 0]> wx_empty).

Lemma wx_fresh : fresh_place wx_files wx_src.
Proof.
  split.
  - eapply real_dir_snoc; [by apply wx_state_real|by split; vm_compute|by vm_compute].
  - by repeat constructor.
  - intros rest Hr. unfold wx_files, wx_src, wx_archive, wx_empty, wx_state. destruct rest as [|c rest]; [done|].
    rewrite !lookup_insert_ne by (cbn; congruence). by apply lookup_singleton_ne.
Qed.

Lemma extraction_gate_witness : ∃ e, extract_source wx_now wx_archive wx_src wx_files = (Err e, wx_files).
Proof.
  destruct (extract_source wx_now wx_archive wx_src wx_files) as [r f'] eqn:E.
  destruct (extraction_gate wx_now wx_archive wx_src wx_files r f' wx_fresh E) as [(content & ms & _ & Hms & Hs & _)|(-> & [e ->] & _)].
  - injection Hms as <-. exfalso. apply Forall_cons in Hs as [_ [(_ & _ & _ & Hl) _]%Forall_cons].
    destruct (Hl eq_refl) as [_ [rest Hrest]]. vm_compute in Hrest. done.
  - exists e. reflexivity.
Defined.

(** * A cache of another lockfile *)

#[local] Instance wx_scan : DirScan := λ f p, (List.filter (below p) (fst <$> map_to_list f)).

Definition wx_site : ustr := u "site-1".
Definition wx_root : path := site_root wx_state wx_site.
Definition wx_project : path := [u "project"].
Definition wx_caches : fs :=
  <[wx_project ++ [u "package-lock.json"] := EFile (u "{}") 0 0]> (<[wx_project := EDir 0]>
  (<[wx_root := EDir 0]> (<[cache_root wx_state := EDir 0]> wx_empty))).
Definition wx_metadata : list N :=
  dumps (spaced true) (JObj (metadata_payload wx_now (MkSiteCache wx_root Npm) (Some (MkLockfileSnapshot (u "package-lock.json") (u "old"))))).
Definition wx_filled : fs :=
  <[wx_root ++ [METADATA_FILENAME] := EFile wx_metadata 0 0]> (<[wx_root ++ [u "package.tgz"] := EFile (u "old") 0 0]> wx_caches).

Lemma wx_place : cache_place wx_state wx_site wx_filled.
Proof.
  split.
  - eapply real_dir_snoc; [by apply wx_state_real|by split; vm_compute|by vm_compute].
  - right. exists 0. by vm_compute.
  - intros n [->| ->]; [right; exists wx_metadata, 0, 0|left]; by vm_compute.
  - left. by vm_compute.
Qed.

Definition wx_prepared : result CachePrepareResult * fs :=
  prepare_site_cache wx_now wx_state wx_site Npm wx_project true wx_filled.

Definition prepared_event (r : result CachePrepareResult) : option CacheEvent :=
  match r with Ok r => cpr_event r | Err _ => None end.

Lemma wx_prepared_event : prepared_event wx_prepared.1 = Some WIPED.
Proof. vm_compute. reflexivity. Qed.

Lemma wx_now_in_range : in_range wx_now.
Proof. by vm_compute. Qed.

Lemma cache_prepared_witness : wx_prepared.2 !! (wx_root ++ [u "package.tgz"]) = None.
Proof.
  pose proof wx_prepared_event as He. destruct wx_prepared.1 as [r|e] eqn:Er; [|discriminate He].
  destruct (cache_prepared wx_state wx_site eq_refl wx_now Npm wx_project wx_filled r wx_prepared.2) as (_ & Hw & _).
  - apply wx_now_in_range.
  - apply wx_place.
  - exact (eq_trans (surjective_pairing wx_prepared) (f_equal2 pair Er eq_refl)).
  - destruct (wx_prepared.2 !! (wx_root ++ [u "package.tgz"])) eqn:Ef; [|reflexivity]. exfalso.
    destruct (Hw He [u "package.tgz"]) as [Hd|Hd]; [intros Hd; discriminate Hd| |vm_compute in Hd; discriminate Hd..].
    fold wx_root. rewrite Ef. intros Hd. discriminate Hd.
Defined.

(** * Two calls at once

    A reset of the same cache is asked for while it is prepared: the second call
    waits for the lock, and the files are as after one call and then the other. *)

Definition wx_calls : list (call (L := option (result ()))) :=
  [MkCall (Some wx_site) [file_step (mkdir_parents wx_now wx_root); file_step (write_text wx_now (wx_root ++ [u "a"]) (u "x"))];
   reset_call wx_now wx_state (Some wx_site)].
Definition wx_schedule : list nat := [0; 0; 0; 0; 0; 0; 0; 0; 0; 1; 1; 1; 1; 1; 1; 1; 1]%nat.
Definition wx_initial : CacheLocks.machine := initial None wx_calls [] wx_caches.
Definition wx_final : CacheLocks.machine := default wx_initial (run_schedule wx_schedule wx_initial).

(** The reset cannot start while the other call is in its section. *)
Example reset_waits : run_schedule [0; 0; 1]%nat wx_initial = None.
Proof. vm_compute. reflexivity. Qed.

Lemma cache_calls_serial_witness :
  ∃ order, order ≡ₚ [0; 1]%nat ∧ mc_fs wx_final = run_calls None wx_calls order wx_caches.
Proof.
  assert (run_schedule wx_schedule wx_initial = Some wx_final) as E.
  { unfold wx_final. destruct (run_schedule wx_schedule wx_initial) eqn:E; [reflexivity|vm_compute in E; discriminate E]. }
  destruct (cache_calls_serial None wx_calls wx_caches [] _ wx_final (run_schedule_steps wx_schedule wx_initial wx_final E))
    as (_ & _ & _ & Hfin). apply Hfin.
  assert (forallb (λ t : option (result ()) * list instr, bool_decide (length t.2 = 0%nat)) (mc_threads wx_final) = true) as Hb by (vm_compute; reflexivity).
  apply Forall_forall. intros t Ht. rewrite List.forallb_forall in Hb. specialize (Hb t (proj1 (list_elem_of_In _ _) Ht)).
  apply bool_decide_eq_true in Hb. by apply length_zero_iff_nil in Hb.
Defined.

(** * A planted link

    A build's container can write its cache. If it leaves a link in place of the
    metadata, the next preparation of that cache writes through it: here into
    the drain marker, and the engine accepts no assignments any more. *)

Definition wx_planted : fs :=
  <[wx_root ++ [METADATA_FILENAME] := ELink false [u ".."; u ".."; DRAIN_MARKER_FILENAME]]> wx_caches.

Definition wx_after : result CachePrepareResult * fs :=
  prepare_site_cache wx_now wx_state wx_site Npm wx_project true wx_planted.

Lemma planted_link : is_ok wx_after.1 = true ∧
  exists_ wx_planted (drain_marker_path wx_state) = false ∧ exists_ wx_after.2 (drain_marker_path wx_state) = true.
Proof. split_and!; vm_compute; reflexivity. Qed.
