(* ===== verification/Artifact.v ===== *)
(** Output validation, packaging and upload
    (src/src/build_engine/executor/validate.py and artifact.py). *)

From S2P Require Import Prelude PyStr Dict Json Clock Uuid Fs Resolve Sha256 Cache Url Workspace.

Local Open Scope Z_scope.

(** * Output validation *)

Definition validation_error (msg : ustr) : exn := PyExn OutputValidationError msg.

Record OutputSnapshot := MkOutputSnapshot { os_path : path; os_file_count : Z; os_total_bytes : Z }.

Section output.
Context `{DirScan}.

(** The loop over the entries of the output. *)
Fixpoint scan_output (f : fs) (output_path : path) (max_bytes : Z) (file_count total_bytes : Z) (l : list path)
    : result (Z * Z) :=
  match l with
  | [] => Ok (file_count, total_bytes)
  | p :: l =>
      if is_symlink f p then
        fail_if (negb (is_relative_to (resolve f p) output_path))
          (validation_error (u "Build output contains a symlink escaping output_dir"));;
        scan_output f output_path max_bytes file_count total_bytes l
      else if negb (is_file f p) then scan_output f output_path max_bytes file_count total_bytes l
      else
        let total_bytes := total_bytes + file_size f p in
        fail_if (max_bytes <? total_bytes) (validation_error (u "Build output exceeds artifact size limit"));;
        scan_output f output_path max_bytes (file_count + 1) total_bytes l
  end.

Definition validate_output_dir (f : fs) (project_root : path) (output_dir : option ustr) (max_bytes : Z)
    : result OutputSnapshot :=
  match output_dir with
  | None | Some [] => Err (validation_error (u "No output_dir was resolved for this build"))
  | Some dir =>
      fail_if (is_absolute dir) (validation_error (u "output_dir must be relative"));;
      let project_root := resolve f project_root in
      let output_path := resolve f (project_root ++ path_parts dir) in
      fail_if (negb (is_relative_to output_path project_root))
        (validation_error (u "output_dir escapes the project root"));;
      fail_if (negb (is_dir f output_path)) (validation_error (u "Build output directory does not exist"));;
      '(file_count, total_bytes) ← scan_output f output_path max_bytes 0 0 (rglob f output_path);
      fail_if (file_count =? 0) (validation_error (u "Build output directory is empty"));;
      Ok (MkOutputSnapshot output_path file_count total_bytes)
  end.

(** * Packaging *)

Definition artifact_error (msg : ustr) : exn := PyExn ArtifactError msg.
Definition upload_error (msg : ustr) : exn := PyExn ArtifactUploadError msg.

Record ArtifactPackage := MkArtifactPackage { ap_path : path; ap_sha256 : ustr; ap_size_bytes : Z }.

(** A member of the archive; times, owners and groups are all zero or empty. *)
Inductive member_data :=
| MFile (content : list N)
| MDirectory
| MLink (absolute : bool) (target : list ustr)
(** A further link of a file archived before, under that member's name, without data. *)
| MHardLink (name : ustr).
Record ArtifactMember := MkArtifactMember { am_name : ustr; am_mode : Z; am_data : member_data }.

(** Of the operating system, the permission bits of an entry and the device and
    inode of a regular file with several links ([None] for the only link of a
    file); of the language's library, the gzip-compressed tar file of a list of
    members. *)
Class Archiver := {
  mode_of : fs → path → Z;
  inode_of : fs → path → option Z;
  tar_gz : list ArtifactMember → list N;
}.
Context `{Archiver}.

(** [path.relative_to(root).as_posix()]. *)
Definition rel_posix (root p : path) : ustr := join (u "/") (drop (length root) p).

Definition artifact_members (f : fs) (root : path) : list path :=
  sort_by (λ a b, ustr_leb (rel_posix root a) (rel_posix root b))
    (List.filter (λ p, is_file f p || is_dir f p || is_symlink f p) (rglob f root)).

(** Two paths of one file. *)
Definition linked (f : fs) (p q : path) : bool :=
  match inode_of f p, inode_of f q with Some i, Some j => i =? j | _, _ => false end.

Definition is_regular (f : fs) (p : path) : bool := match lstat f p with Some (EFile _ _ _) => true | _ => false end.

(** [tar.gettarinfo] with the fields reset, and the data that follows; [earlier]
    are the regular files archived so far ([tar.inodes]). *)
Definition archive_member (f : fs) (root : path) (earlier : list path) (p : path) : ArtifactMember :=
  MkArtifactMember (rel_posix root p) (mode_of f p)
    match lstat f p with
    | Some (EFile c _ _) =>
        match List.find (linked f p) earlier with
        | Some q => MHardLink (rel_posix root q)
        | None => MFile c
        end
    | Some (ELink a t) => MLink a t
    | _ => MDirectory
    end.

Fixpoint archive_all (f : fs) (root : path) (earlier paths : list path) : list ArtifactMember :=
  match paths with
  | [] => []
  | p :: paths =>
      archive_member f root earlier p :: archive_all f root (earlier ++ if is_regular f p then [p] else []) paths
  end.

Definition package_output (now : instant) (project_root : path) (output_dir : option ustr) (destination : path)
    (max_bytes : Z) : M fs ArtifactPackage :=
  f ← gets id;
  snapshot ← match validate_output_dir f project_root output_dir max_bytes with
             | Ok s => mret s
             | Err (PyExn c msg as e) => raise (if isinstance e OutputValidationError then artifact_error msg else e)
             | Err e => raise e
             end;
  mkdir_parents now (parent destination);;
  write_bytes now destination [];;
  f ← gets id;
  let members := archive_all f (os_path snapshot) [] (artifact_members f (os_path snapshot)) in
  write_bytes now destination (tar_gz members);;
  content ← read_bytes destination;
  let size_bytes := Z.of_nat (length content) in
  if max_bytes <? size_bytes then
    unlink now true destination;;
    raise (artifact_error (u "Packaged artifact exceeds configured maximum size"))
  else mret (MkArtifactPackage destination (sha256_hex content) size_bytes).

End output.

(** * Upload *)

Record UploadTicket := MkUploadTicket { ut_upload_url : ustr; ut_expires_at : ustr; ut_storage_key : ustr }.

(** One HTTP exchange of [urllib]: a success, an error status with its body, or
    an exception. *)
Inductive http_outcome :=
| HttpOk (body : list N)
| HttpStatus (code : Z) (body : list N)
| HttpFailed (e : exn).

(** A request; [hr_on_redirect] is what its redirect handler raises, if it has one. *)
Record http_request := MkHttpRequest {
  hr_method : ustr;
  hr_url : ustr;
  hr_headers : list (ustr * ustr);
  hr_body : list N;
  hr_on_redirect : option exn;
}.

Class Http (S : Type) := http_send : http_request → M S http_outcome.

(** [urllib.parse.quote]: letters, digits and [_.-~/] stay. *)
Definition unreserved (c : N) : bool :=
  is_alpha c || is_digit c || bool_decide (c ∈ [95; 46; 45; 126; 47])%N.
Definition upper_hex (d : N) : N := if (d <? 10)%N then (48 + d)%N else (55 + d)%N.
Definition quote_byte (b : N) : ustr :=
  if unreserved b then [b] else [37%N; upper_hex (b / 16); upper_hex (b mod 16)].
Definition url_quote (s : ustr) : result ustr := b ← utf8_encode s; Ok (concat (quote_byte <$> b)).

Definition require_uuid_text (value name : ustr) : result () :=
  match uuid_parse value with
  | Some v => fail_if (negb (ustr_eqb (uuid_str v) value)) (upload_error (name ++ u " must be a canonical UUID"))
  | None => Err (upload_error (name ++ u " must be a canonical UUID"))
  end.

Definition ticket_field (payload : jdict) (key : ustr) : result ustr :=
  match dget key payload with
  | Some (JStr (c :: s)) => Ok (c :: s)
  | _ => Err (artifact_error (u "Artifact upload URL response missing " ++ key))
  end.

Definition upload_ticket_from_payload (payload : jdict) : result UploadTicket :=
  upload_url ← ticket_field payload (u "upload_url");
  expires_at ← ticket_field payload (u "expires_at");
  storage_key ← ticket_field payload (u "storage_key");
  Ok (MkUploadTicket upload_url expires_at storage_key).

(** [parsed.hostname]: without user, port and brackets, in lower case. *)
Definition hostname (netloc : ustr) : option ustr :=
  let hostinfo := default netloc (last (split_on 64 netloc)) in
  let host := match partition_on 91 hostinfo with
              | (_, true, bracketed) => (partition_on 93 bracketed).1.1
              | _ => (partition_on 58 hostinfo).1.1
              end in
  match host with
  | [] => None
  | _ => let '(h, percent, zone) := partition_on 37 host in Some (lower h ++ if percent then 37%N :: zone else [])
  end.

Section upload.
Context {S : Type} `{Http S} (netloc_check : ustr → result ()).

Definition validate_upload_url (value : ustr) (allow_insecure_localhost : bool) : result () :=
  parsed ← urlparse netloc_check value;
  fail_if (bool_decide (u_netloc parsed = [])) (upload_error (u "Artifact upload URL must include a host"));;
  if ustr_eqb (u_scheme parsed) (u "https") then Ok ()
  else if allow_insecure_localhost && ustr_eqb (u_scheme parsed) (u "http") &&
          match hostname (u_netloc parsed) with
          | Some h => mem_str h [u "127.0.0.1"; u "localhost"; u "::1"]
          | None => false
          end
  then Ok ()
  else Err (upload_error (u "Artifact upload URL must be an HTTPS URL")).

(** The text of an HTTP failure: status and decoded body. *)
Definition http_detail (what : ustr) (code : Z) (body : list N) : exn :=
  upload_error (what ++ u ": HTTP " ++ str_of_Z code ++ u " " ++ utf8_decode_replace body).

(** An [OSError] is an upload failure, anything else goes through. *)
Definition transport_failed (what : ustr) (e : exn) : exn :=
  match e with
  | PyExn _ msg => if isinstance e OSError then upload_error (what ++ u ": " ++ msg) else e
  | _ => e
  end.

Definition request_upload_url (backend_url session_jwt : ustr) (allow_insecure_localhost : bool)
    (build_job_id attempt_id : ustr) (artifact : ArtifactPackage) : M S UploadTicket :=
  let what := u "Artifact upload URL request failed" in
  lift (require_uuid_text build_job_id (u "build_job_id"));;
  lift (require_uuid_text attempt_id (u "attempt_id"));;
  b ← lift (url_quote build_job_id);
  a ← lift (url_quote attempt_id);
  let p := u "/api/v2/build-engines/agent/jobs/" ++ b ++ u "/attempts/" ++ a ++ u "/artifact-upload-url" in
  body ← lift (utf8_encode (dumps (compact false)
           (JObj [(u "sha256", JStr (ap_sha256 artifact)); (u "size_bytes", JInt (ap_size_bytes artifact))])));
  outcome ← http_send (MkHttpRequest (u "POST") (rstrip (is_char 47) backend_url ++ p)
              [(u "Accept", u "application/json"); (u "Authorization", u "Bearer " ++ session_jwt);
               (u "Content-Type", u "application/json")] body None);
  decoded ← match outcome with
            | HttpOk data =>
                text ← lift (utf8_decode data);
                match loads text with
                | Ok j => mret j
                | Err (PyExn _ msg as e) =>
                    raise (if isinstance e JSONDecodeError then upload_error (what ++ u ": " ++ msg) else e)
                | Err e => raise e
                end
            | HttpStatus code data => raise (http_detail what code data)
            | HttpFailed e => raise (transport_failed what e)
            end;
  match decoded with
  | JObj payload =>
      ticket ← lift (upload_ticket_from_payload payload);
      lift (validate_upload_url (ut_upload_url ticket) allow_insecure_localhost);;
      mret ticket
  | _ => raise (artifact_error (u "Artifact upload URL response was not a JSON object"))
  end.

(** [upload] of the artifact's bytes; a redirect is refused. *)
Definition upload (ticket : UploadTicket) (artifact : ArtifactPackage) (content : list N) : M S () :=
  let what := u "Artifact upload failed" in
  outcome ← http_send (MkHttpRequest (u "PUT") (ut_upload_url ticket)
              [(u "Content-Length", str_of_Z (ap_size_bytes artifact)); (u "Content-Type", u "application/gzip")] content
              (Some (upload_error (u "Artifact upload URL returned an unexpected redirect"))));
  match outcome with
  | HttpOk _ => mret ()
  | HttpStatus code data => raise (http_detail what code data)
  | HttpFailed e => raise (transport_failed what e)
  end.

End upload.
