(* ===== verification/ArtifactProofs.v ===== *)
(** Packaging: the archive is the output, and only the output decides it. *)

From Stdlib Require Import Permutation Sorted.
From stdpp Require Import sorting.
From S2P Require Import Prelude PyStr Dict Clock Uuid Db Fs Resolve Sha256 Cache PruneProofs Workspace Artifact.

Local Open Scope Z_scope.

(** * Trees that differ in times

    [alike] is an equivalence coarser than equality: the operations of packaging
    do not see the difference. *)

Definition timeless (e : entry) : entry :=
  match e with EFile c _ _ => EFile c 0 0 | EDir _ => EDir 0 | ELink a t => ELink a t end.

Record alike (f g : fs) : Prop := Alike { alike_at : ∀ x, timeless <$> f !! x = timeless <$> g !! x }.

#[export] Instance alike_equivalence : Equivalence alike.
Proof. split; [by intros f; split|intros f g [H]; by split|]. intros f g h [H1] [H2]. split. intros x. by rewrite H1. Qed.

Lemma alike_entry f g x : alike f g → timeless <$> lookup_entry f x = timeless <$> lookup_entry g x.
Proof. intros [H]. destruct x; [done|apply H]. Qed.

Lemma alike_none f g x : alike f g → f !! x = None → g !! x = None.
Proof. intros [H] E. specialize (H x). rewrite E in H. by destruct (g !! x). Qed.

Lemma alike_some f g x : alike f g → f !! x ≠ None → g !! x ≠ None.
Proof. intros H E E'. destruct E. symmetry in H. by eapply alike_none. Qed.

Lemma alike_dir f g x t : alike f g → f !! x = Some (EDir t) → ∃ t', g !! x = Some (EDir t').
Proof. intros [H] E. specialize (H x). rewrite E in H. destruct (g !! x) as [[]|]; try done. eauto. Qed.

Lemma alike_file f g x c m a : alike f g → f !! x = Some (EFile c m a) → ∃ m' a', g !! x = Some (EFile c m' a').
Proof. intros [H] E. specialize (H x). rewrite E in H. destruct (g !! x) as [[]|]; try done. injection H as <-. eauto. Qed.

Lemma alike_link f g x b t : alike f g → f !! x = Some (ELink b t) ↔ g !! x = Some (ELink b t).
Proof.
  intros [H]. specialize (H x). destruct (f !! x) as [[]|], (g !! x) as [[]|]; try done; naive_solver.
Qed.

#[export] Instance walk_alike : Proper ((=) ==> alike ==> (=) ==> (=) ==> (=)) walk.
Proof.
  intros links ? <- f g Hfg cur ? <- todo ? <-. revert cur todo. induction links as [|links IHl]; [done|].
  intros cur todo. revert cur. induction todo as [|c todo IH]; intros cur; [done|]. cbn [walk].
  rewrite !IH. pose proof (alike_at _ _ Hfg (cur ++ [c])) as He.
  destruct (f !! (cur ++ [c])) as [[]|], (g !! (cur ++ [c])) as [[]|]; try done. injection He as <- <-. by rewrite IHl.
Qed.

#[export] Instance locate_alike : Proper (alike ==> (=) ==> (=)) locate.
Proof. intros f g Hfg p ? <-. unfold locate. by rewrite Hfg. Qed.

#[export] Instance llocate_alike : Proper (alike ==> (=) ==> (=)) llocate.
Proof.
  intros f g Hfg p ? <-. unfold llocate. destruct p as [|c p]; [done|]. rewrite Hfg. munfold.
  destruct (locate g (parent (c :: p))) as [d|]; [|done]. pose proof (alike_entry f g d Hfg) as He.
  destruct (lookup_entry f d) as [[]|], (lookup_entry g d) as [[]|]; done.
Qed.

Lemma stat_alike f g p : alike f g → timeless <$> stat f p = timeless <$> stat g p.
Proof. intros Hfg. unfold stat. rewrite Hfg. munfold. destruct (locate g p); [by apply alike_entry|done]. Qed.

Lemma lstat_alike f g p : alike f g → timeless <$> lstat f p = timeless <$> lstat g p.
Proof. intros Hfg. unfold lstat. rewrite Hfg. munfold. destruct (llocate g p); [by apply alike_entry|done]. Qed.

(** Cases on the two entries of trees that are alike. *)
Ltac by_entry H := let E := fresh in pose proof H as E; repeat case_match; simplify_eq/=; done.

#[export] Instance exists_alike : Proper (alike ==> (=) ==> (=)) exists_.
Proof. intros f g Hfg p ? <-. unfold exists_. by_entry (stat_alike f g p Hfg). Qed.

#[export] Instance is_dir_alike : Proper (alike ==> (=) ==> (=)) is_dir.
Proof. intros f g Hfg p ? <-. unfold is_dir, dir_entry. by_entry (stat_alike f g p Hfg). Qed.

#[export] Instance is_file_alike : Proper (alike ==> (=) ==> (=)) is_file.
Proof. intros f g Hfg p ? <-. unfold is_file, file_entry. by_entry (stat_alike f g p Hfg). Qed.

#[export] Instance is_symlink_alike : Proper (alike ==> (=) ==> (=)) is_symlink.
Proof. intros f g Hfg p ? <-. unfold is_symlink. by_entry (lstat_alike f g p Hfg). Qed.

#[export] Instance file_size_alike : Proper (alike ==> (=) ==> (=)) file_size.
Proof. intros f g Hfg p ? <-. unfold file_size. by_entry (stat_alike f g p Hfg). Qed.

Lemma realpath_alike f g fuel : alike f g → ∀ seen cur rest, realpath_go fuel f seen cur rest = realpath_go fuel g seen cur rest.
Proof.
  intros Hfg. induction fuel as [|fuel IH]; [done|]. intros seen cur [|[c|l] rest]; [done| |apply IH]. cbn [realpath_go].
  cbv zeta. rewrite !IH. pose proof (λ b t, alike_link f g (cur ++ [c]) b t Hfg) as He.
  destruct (g !! (cur ++ [c])) as [[| |b t]|] eqn:Eg; [| |rewrite (proj2 (He b t) eq_refl); destruct (seen !! (cur ++ [c])) as [[q|]|]; by rewrite ?IH|];
    (destruct (f !! (cur ++ [c])) as [[| |b t]|]; [done|done|by specialize (proj1 (He b t) eq_refl)|done]).
Qed.

#[export] Instance resolve_alike : Proper (alike ==> (=) ==> (=)) resolve.
Proof.
  intros f g Hfg p ? <-. pose proof (resolve_total f p) as Hf. pose proof (resolve_total g p) as Hg.
  set (n := (realpath_fuel f (map Part p) + realpath_fuel g (map Part p))%nat).
  apply realpath_go_mono with (fuel' := n) in Hf; [|lia]. apply realpath_go_mono with (fuel' := n) in Hg; [|lia].
  rewrite (realpath_alike f g n Hfg) in Hf. congruence.
Qed.

(** * Scans of trees that are alike *)

Lemma scans_perm f g p l l' : alike f g → scans f p l → scans g p l' → l ≡ₚ l'.
Proof.
  intros Hfg [Hn Hl] [Hn' Hl']. apply NoDup_Permutation; [done|done|]. intros x. rewrite Hl, Hl'.
  split; intros (q & rest & Hq & Hr & E & Hx); exists q, rest.
  - split; [by rewrite <- Hfg|]. split_and!; try done. by apply (alike_some f).
  - split; [by rewrite Hfg|]. split_and!; try done. symmetry in Hfg. by apply (alike_some g).
Qed.

Lemma scan_output_alike f g root max n t l : alike f g → scan_output f root max n t l = scan_output g root max n t l.
Proof. intros Hfg. revert n t. induction l as [|p l IH]; intros n t; [done|]. cbn [scan_output].
  rewrite (is_symlink_alike _ _ Hfg p _ eq_refl), (resolve_alike _ _ Hfg p _ eq_refl), (is_file_alike _ _ Hfg p _ eq_refl), (file_size_alike _ _ Hfg p _ eq_refl).
  destruct (is_symlink g p); [destruct (negb _); [done|apply IH]|]. destruct (negb _); [apply IH|]. destruct (_ <? _); [done|apply IH].
Qed.

Lemma file_size_nonneg f p : 0 ≤ file_size f p.
Proof. unfold file_size. repeat case_match; lia. Qed.

(** The order of the entries does not decide whether an output is accepted. *)
Lemma scan_output_perm f root max l l' r : l ≡ₚ l' → ∀ n t, scan_output f root max n t l = Ok r → scan_output f root max n t l' = Ok r.
Proof.
  induction 1 as [|x l l' _ IH|x y l|l l' l'' _ IH1 _ IH2]; intros n t; [done| | |by intros; apply IH2, IH1].
  - cbn [scan_output]. destruct (is_symlink f x); [destruct (negb _)|destruct (negb _); [|destruct (_ <? _)]]; try done; apply IH.
  - cbn [scan_output]. pose proof (file_size_nonneg f x). pose proof (file_size_nonneg f y). unfold fail_if.
    repeat match goal with |- context [if ?b then _ else _] => lazymatch b with context [Z.ltb] => fail | _ => destruct b end end; try done;
      cbn; repeat match goal with |- context [Z.ltb ?a ?b] => destruct (Z.ltb_spec a b) end; cbn; try done; try lia.
    intros E. etrans; [|exact E]. f_equal; lia.
Qed.

Lemma bind_mono {A B} (r r' : result A) (k k' : A → result B) s : (∀ x, r = Ok x → r' = Ok x) → (∀ x, k x = Ok s → k' x = Ok s) →
  r ≫= k = Ok s → r' ≫= k' = Ok s.
Proof. intros Hr Hk. destruct r as [x|e]; [|done]. intros E. rewrite (Hr x eq_refl). by apply Hk. Qed.

Lemma validate_alike (scan scan' : DirScan) f g project out max s :
  (∀ f p, scans f p (scan f p)) → (∀ f p, scans f p (scan' f p)) → alike f g →
  validate_output_dir (H := scan) f project out max = Ok s → validate_output_dir (H := scan') g project out max = Ok s.
Proof.
  intros Hs Hs' Hfg. unfold validate_output_dir. destruct out as [[|c dir]|]; [done| |done]. cbv zeta.
  assert (∀ p, resolve f p = resolve g p) as Er by (intros p; by apply resolve_alike). rewrite !Er, (is_dir_alike f g Hfg _ _ eq_refl).
  do 3 (apply bind_mono; [exact (λ _ E, E)|intros []]). rewrite (scan_output_alike f g) by done. unfold rglob.
  apply bind_mono; [|exact (λ _ E, E)]. intros r. apply scan_output_perm. eapply scans_perm; [exact Hfg|apply Hs|apply Hs'].
Qed.

(** ** The members of the archive *)

Definition slash_free (p : path) : Prop := Forall (Forall (λ c, (c =? 47)%N = false)) p.
Definition named (f : fs) : Prop := ∀ x, f !! x ≠ None → slash_free x.

Lemma named_alike f g : alike f g → named f → named g.
Proof. intros Hfg Hf x Hx. symmetry in Hfg. apply Hf. by eapply alike_some. Qed.

Lemma split_join p : p ≠ [] → slash_free p → split_on 47 (join (u "/") p) = p.
Proof.
  intros Hn Hp. induction Hp as [|c p Hc Hp IH]; [done|]. destruct p as [|d p]; [by apply split_on_none|].
  rewrite join_app_cons by done. etrans; [exact (split_on_cons 47 c (join (u "/") (d :: p)) Hc)|]. by rewrite IH.
Qed.

Lemma slash_free_app a b : slash_free (a ++ b) → slash_free b.
Proof. by intros [_ H]%Forall_app. Qed.

(** Two listed entries of one name are one entry. *)
Lemma rel_posix_inj f root q a b : named f → a ≠ [] → b ≠ [] → f !! (q ++ a) ≠ None → f !! (q ++ b) ≠ None →
  rel_posix root (root ++ a) = rel_posix root (root ++ b) → a = b.
Proof.
  intros Hf Ha Hb Fa%Hf%slash_free_app Fb%Hf%slash_free_app. unfold rel_posix. rewrite !drop_app_length.
  intros E. rewrite <- (split_join a), <- (split_join b) by done. by rewrite E.
Qed.

Lemma filter_perm {A} (P : A → bool) l l' : l ≡ₚ l' → List.filter P l ≡ₚ List.filter P l'.
Proof.
  induction 1 as [|x l l' _ IH|x y l|l l' l'' _ IH1 _ IH2]; [done| | |by etrans]; cbn.
  - destruct (P x); [by constructor|done].
  - destruct (P x), (P y); try done. apply Permutation_swap.
Qed.

Lemma listed_inj f root x y : named f → (∃ q rest, locate f root = Some q ∧ rest ≠ [] ∧ x = root ++ rest ∧ f !! (q ++ rest) ≠ None) →
  (∃ q rest, locate f root = Some q ∧ rest ≠ [] ∧ y = root ++ rest ∧ f !! (q ++ rest) ≠ None) →
  rel_posix root x = rel_posix root y → x = y.
Proof.
  intros Hf (q & a & Hq & Ha & -> & Fa) (q' & b & Hq' & Hb & -> & Fb) E. assert (q' = q) as -> by congruence.
  f_equal. by eapply rel_posix_inj.
Qed.

Lemma members_alike (scan scan' : DirScan) f g root :
  (∀ f p, scans f p (scan f p)) → (∀ f p, scans f p (scan' f p)) → alike f g → named f →
  artifact_members (H := scan) f root = artifact_members (H := scan') g root.
Proof.
  intros Hs Hs' Hfg Hf. unfold artifact_members, rglob.
  rewrite (filter_ext (λ p, is_file f p || is_dir f p || is_symlink f p) (λ p, is_file g p || is_dir g p || is_symlink g p))
    by (intros p; by rewrite Hfg).
  set (P := λ p, is_file g p || is_dir g p || is_symlink g p).
  assert (List.filter P (scan f root) ≡ₚ List.filter P (scan' g root)) as Hp
    by (apply filter_perm; eapply scans_perm; [exact Hfg|apply Hs|apply Hs']).
  set (leb := λ a b, ustr_leb (rel_posix root a) (rel_posix root b)).
  assert (∀ l, StronglySorted (λ a b, leb a b = true) (sort_by leb l)) as Hsort.
  { intros l. apply sort_by_sorted; unfold leb; [intros; apply ustr_leb_total|intros x y z; apply ustr_leb_trans]. }
  eapply StronglySorted_unique_strong; [|apply Hsort|apply Hsort|by rewrite !sort_by_perm].
  assert (∀ x, x ∈ sort_by leb (List.filter P (scan f root)) → x ∈ scan f root) as Hin.
  { intros x. rewrite elem_of_sort_by, list_elem_of_In, filter_In, <- list_elem_of_In. tauto. }
  intros x y Hx%Hin%Hs Hy. rewrite !sort_by_perm, <- Hp, <- (sort_by_perm leb) in Hy. apply Hin, Hs in Hy.
  intros H1 H2. eapply listed_inj; [exact Hf|done|done|]. by apply ustr_leb_antisym.
Qed.

(** * The run of [package_output] *)

Lemma same_timeless a b : same_entry a b → timeless <$> a = timeless <$> b.
Proof. by intros [->|(t & t' & -> & ->)]. Qed.

Lemma real_dir_alike f g p : alike f g → real_dir f p → real_dir g p.
Proof. intros Hfg [Hp Hd]. split; [done|]. intros a b E Ha. destruct (Hd a b E Ha) as [t Ht]. by eapply alike_dir. Qed.

Lemma file_or_free_alike f g p : alike f g → file_or_free f p → file_or_free g p.
Proof.
  intros Hfg [Hn|(c & m & a & E)]; [left; by eapply alike_none|right]. destruct (alike_file f g p c m a Hfg E) as (m' & a' & E').
  by exists c, m', a'.
Qed.

(** A tree after a write of the file [p]. *)
Definition written (p : path) (content : list N) (f f' : fs) : Prop :=
  (∃ m a, f' !! p = Some (EFile content m a)) ∧ ∀ x, x ≠ p → same_entry (f !! x) (f' !! x).

Lemma written_alike p content f f' g g' : alike f g → written p content f f' → written p content g g' → alike f' g'.
Proof.
  intros [Hfg] [(m & a & E) Hs] [(m' & a' & E') Hs']. split. intros x. destruct (decide (x = p)) as [->|Hx]; [by rewrite E, E'|].
  by rewrite <- (same_timeless _ _ (Hs x Hx)), <- (same_timeless _ _ (Hs' x Hx)).
Qed.

Lemma written_real p content f f' q : written p content f f' → file_or_free f p → real_dir f q → real_dir f' q.
Proof.
  intros [_ Hs] Hp Hq. eapply real_dir_same; [|exact Hq]. intros a b E Ha. apply Hs. intros ->.
  destruct Hq as [_ Hd]. destruct (Hd p b E Ha) as [t Ht]. destruct Hp as [E'|(? & ? & ? & E')]; congruence.
Qed.

Lemma written_named p content f f' : written p content f f' → slash_free p → named f → named f'.
Proof.
  intros [_ Hs] Hp Hf x Hx. destruct (decide (x = p)) as [->|Hn]; [done|]. apply Hf. intros E. destruct Hx.
  eapply same_entry_none; [by apply Hs|done].
Qed.

(** Where an artifact can be written: a directory, and in it a file or nothing. *)
Record place (f : fs) (dir : path) (c : ustr) : Prop := Place {
  pl_dir : real_dir f dir;
  pl_plain : plain_name c;
  pl_slash : slash_free [c];
  pl_free : file_or_free f (dir ++ [c]);
}.

Lemma place_slash_free f dir c : named f → place f dir c → slash_free (dir ++ [c]).
Proof.
  intros Hn [Hd _ Hc _]. apply Forall_app. split; [|exact Hc]. destruct (decide (dir = [])) as [->|Hne]; [constructor|]. apply Hn.
  destruct (proj2 Hd dir []) as [t Ht]; [by rewrite app_nil_r|done|congruence].
Qed.

Lemma place_alike f g dir c : alike f g → place f dir c → place g dir c.
Proof. intros Hfg [Hd Hc Hs Hf]. split; [by eapply real_dir_alike|done|done|by eapply file_or_free_alike]. Qed.

Section package.
Context `{Archiver}.

Abbreviation archive scan f root := (tar_gz (archive_all f root [] (artifact_members (H := scan) f root))).

(** After the validation: the file is emptied, the archive of what is there then
    is written to it and judged by its size. *)
Lemma package_run (scan : DirScan) now project out dir c max f s : validate_output_dir f project out max = Ok s →
  place f dir c →
  ∃ f1 f2, let bytes := archive scan f1 (os_path s) in written (dir ++ [c]) [] f f1 ∧ written (dir ++ [c]) bytes f f2 ∧
    package_output now project out (dir ++ [c]) max f =
      (if max <? Z.of_nat (length bytes)
       then unlink now true (dir ++ [c]);; raise (artifact_error (u "Packaged artifact exceeds configured maximum size"))
       else mret (MkArtifactPackage (dir ++ [c]) (sha256_hex bytes) (Z.of_nat (length bytes)))) f2.
Proof.
  intros Hv [Hd Hc _ Hf]. destruct (write_bytes_child now dir c [] f Hd Hc Hf) as (m1 & a1 & f1 & E1 & Ef1 & Hd1 & Hs1).
  set (bytes := archive scan f1 (os_path s)).
  destruct (write_bytes_child now dir c bytes f1 Hd1 Hc) as (m2 & a2 & f2 & E2 & Ef2 & Hd2 & Hs2); [right; eauto|].
  exists f1, f2. cbv zeta. fold bytes. split_and!; [split; eauto|split; [eauto|]|].
  { intros x Hx. eapply same_entry_trans; [by apply Hs1|by apply Hs2]. }
  unfold package_output. erewrite bind_ok by reflexivity. cbn [id]. rewrite Hv. erewrite bind_ok by reflexivity.
  rewrite parent_child. erewrite bind_ok by (by apply mkdir_parents_real). erewrite bind_ok by exact E1.
  erewrite bind_ok by reflexivity. cbn [id]. fold bytes. erewrite bind_ok by exact E2.
  erewrite bind_ok; [reflexivity|]. unfold read_bytes. rewrite stat_child, Ef2; [done..|]. intros b t. by rewrite Ef2.
Qed.

Lemma package_validated (scan : DirScan) now project out destination max f pkg f' :
  package_output now project out destination max f = (Ok pkg, f') → ∃ s, validate_output_dir f project out max = Ok s.
Proof.
  unfold package_output. erewrite bind_ok by reflexivity. cbn [id]. destruct (validate_output_dir f project out max) as [s|[ec msg|]]; [by exists s| |];
    erewrite bind_err by reflexivity; intros E; discriminate E.
Qed.

(** Trees that are alike have the same permission bits and the same hard links. *)
Record same_inodes : Prop := SameInodes {
  si_mode : ∀ f g p, alike f g → mode_of f p = mode_of g p;
  si_linked : ∀ f g p q, alike f g → linked f p q = linked g p q;
}.

Lemma is_regular_alike f g p : alike f g → is_regular f p = is_regular g p.
Proof. intros Hfg. unfold is_regular. by_entry (lstat_alike f g p Hfg). Qed.

Lemma find_same {A} (P Q : A → bool) l : (∀ x, P x = Q x) → List.find P l = List.find Q l.
Proof. intros E. induction l as [|x l IH]; [done|]. cbn. by rewrite E, IH. Qed.

Lemma archive_all_alike f g root l : same_inodes → alike f g →
  ∀ earlier, archive_all f root earlier l = archive_all g root earlier l.
Proof.
  intros Hsi Hfg. induction l as [|p l IH]; intros earlier; [done|]. cbn [archive_all].
  rewrite (is_regular_alike f g p Hfg), IH. f_equal. unfold archive_member.
  rewrite (si_mode Hsi f g) by done. f_equal.
  rewrite (find_same (linked f p) (linked g p)) by (intros q; by apply (si_linked Hsi)).
  pose proof (lstat_alike f g p Hfg) as E. destruct (lstat f p) as [[]|], (lstat g p) as [[]|]; by simplify_eq/=.
Qed.

(** C30: the artifact is reproducible. When an output has been packaged, packaging
    any tree with the same directories, links and file contents succeeds too and
    gives the same artifact, byte for byte and with the same digest (the trees
    also agree on permission bits and on which files are hard links of each
    other): neither the times of the files, nor the time of the packaging, nor the order in which the
    operating system lists directories has an influence. *)
Theorem package_reproducible (scan scan' : DirScan) now now' project out dir c max f g pkg f' :
  (∀ f p, scans f p (scan f p)) → (∀ f p, scans f p (scan' f p)) → same_inodes →
  alike f g → named f → place f dir c →
  package_output (H := scan) now project out (dir ++ [c]) max f = (Ok pkg, f') →
  ∃ g', package_output (H := scan') now' project out (dir ++ [c]) max g = (Ok pkg, g') ∧ alike f' g' ∧
    ∃ bytes m a m' a', f' !! (dir ++ [c]) = Some (EFile bytes m a) ∧ g' !! (dir ++ [c]) = Some (EFile bytes m' a').
Proof.
  intros Hs Hs' Hmode Hfg Hn Hplace Ep. destruct (package_validated scan _ _ _ _ _ _ _ _ Ep) as [s Hv].
  pose proof (validate_alike scan scan' f g project out max s Hs Hs' Hfg Hv) as Hv'.
  destruct (package_run scan now project out dir c max f s Hv Hplace) as (f1 & f2 & Hw1 & Hw2 & Er).
  destruct (package_run scan' now' project out dir c max g s Hv' (place_alike _ _ _ _ Hfg Hplace))
    as (g1 & g2 & Hw1' & Hw2' & Er').
  pose proof (place_slash_free f dir c Hn Hplace) as Hsl. destruct Hplace as [Hd Hc _ Hfree].
  pose proof (written_alike _ _ _ _ _ _ Hfg Hw1 Hw1') as H1.
  assert (archive scan' g1 (os_path s) = archive scan f1 (os_path s)) as Eb.
  { rewrite <- (members_alike scan scan' f1 g1) by (done || by eapply written_named). f_equal. symmetry.
    by apply archive_all_alike. }
  rewrite Eb in Hw2', Er'. rewrite Er in Ep. rewrite Er'. destruct (max <? _).
  { exfalso. munfold. by destruct (unlink now true (dir ++ [c]) f2) as [[]]. }
  injection Ep as <- <-. exists g2. split_and!; [done|exact (written_alike _ _ _ _ _ _ Hfg Hw2 Hw2')|].
  destruct Hw2 as [(m & a & E) _], Hw2' as [(m' & a' & E') _]. by exists (archive scan f1 (os_path s)), m, a, m', a'.
Qed.

(** ** What the archive holds *)

(** The data of an entry in the archive. *)
Definition data_of (e : entry) : member_data :=
  match e with EFile c _ _ => MFile c | EDir _ => MDirectory | ELink a t => MLink a t end.

Lemma data_of_same e e' : same_entry (Some e) (Some e') → data_of e = data_of e'.
Proof. by intros [[= ->]|(? & ? & [= ->] & [= ->])]. Qed.

Lemma scan_output_links f root max l : ∀ n t r, scan_output f root max n t l = Ok r →
  ∀ p, p ∈ l → is_symlink f p = true → under root (resolve f p) = true.
Proof.
  induction l as [|x l IH]; intros n t r E p Hp Hl; [by apply not_elem_of_nil in Hp|]. cbn [scan_output] in E.
  apply elem_of_cons in Hp as [->|Hp].
  - rewrite Hl in E. unfold is_relative_to in E. by destruct (under root (resolve f x)).
  - destruct (is_symlink f x); [destruct (negb _); [discriminate E|exact (IH _ _ _ E p Hp Hl)]|].
    destruct (negb _); [exact (IH _ _ _ E p Hp Hl)|]. destruct (_ <? _); [discriminate E|exact (IH _ _ _ E p Hp Hl)].
Qed.

Lemma validated (scan : DirScan) f project out max s : validate_output_dir f project (Some out) max = Ok s →
  os_path s = resolve f (resolve f project ++ path_parts out) ∧ under (resolve f project) (os_path s) = true ∧
  is_dir f (os_path s) = true ∧ ∃ r, scan_output f (os_path s) max 0 0 (scan f (os_path s)) = Ok r.
Proof.
  unfold validate_output_dir. destruct out as [|x out]; [done|]. set (dir := x :: out). cbv zeta.
  destruct (is_absolute dir); [done|]. set (root := resolve f (resolve f project ++ path_parts dir)).
  unfold is_relative_to. destruct (under (resolve f project) root) eqn:Hu; [|done].
  destruct (is_dir f root) eqn:Hd; [|done]. unfold rglob. destruct (scan_output f root max 0 0 (scan f root)) as [[n t]|e] eqn:E; [|done].
  cbn. destruct (n =? 0); [done|]. intros [= <-]. cbn [os_path]. split_and!; [done..|by exists (n, t)].
Qed.

(** An archive unpacked in its order: a hard link gets what was unpacked under its name. *)
Fixpoint unpack (done : list (ustr * member_data)) (members : list ArtifactMember) : option (list (ustr * member_data)) :=
  match members with
  | [] => Some done
  | m :: members =>
      x ← match am_data m with MHardLink n => dget n done | d => Some d end;
      unpack (done ++ [(am_name m, x)]) members
  end.

(** A member with its own data. *)
Definition plain_data (f : fs) (p : path) : member_data :=
  match lstat f p with Some e => data_of e | None => MDirectory end.
Definition plain_member (f : fs) (root p : path) : ustr * member_data := (rel_posix root p, plain_data f p).

(** Links of one file have the same content. *)
Definition one_content : Prop := ∀ f p q c m a,
  linked f p q = true → lstat f p = Some (EFile c m a) → ∃ m' a', lstat f q = Some (EFile c m' a').

Lemma archive_all_names f root l : ∀ earlier, am_name <$> archive_all f root earlier l = rel_posix root <$> l.
Proof. induction l as [|p l IH]; intros earlier; [done|]. cbn. by rewrite IH. Qed.

Lemma unpack_archive f root l : one_content → ∀ before, NoDup (rel_posix root <$> (before ++ l)) →
  unpack (plain_member f root <$> before) (archive_all f root (List.filter (is_regular f) before) l) =
  Some (plain_member f root <$> (before ++ l)).
Proof.
  intros Hone. induction l as [|p l IH]; intros before Hn; [by rewrite app_nil_r|]. cbn [archive_all unpack].
  assert (match am_data (archive_member f root (List.filter (is_regular f) before) p) with
          | MHardLink n => dget n (plain_member f root <$> before) | d => Some d end = Some (plain_data f p)) as Hd.
  { unfold archive_member, plain_data. cbn [am_data]. destruct (lstat f p) as [[c m a|t|b t]|] eqn:E; try done.
    destruct (List.find (linked f p) _) as [q|] eqn:Ef; [|done].
    apply List.find_some in Ef as [[Hq%list_elem_of_In _]%filter_In Hl]. destruct (Hone _ _ _ _ _ _ Hl E) as (m' & a' & E').
    apply elem_dget.
    - unfold dkeys. rewrite <- list_fmap_compose. rewrite fmap_app in Hn. by apply NoDup_app in Hn as [Hn _].
    - apply list_elem_of_fmap. exists q. split; [|done]. unfold plain_member, plain_data. by rewrite E'. }
  rewrite Hd. cbn [mbind option_bind].
  specialize (IH (before ++ [p])). rewrite List.filter_app, <- app_assoc, (fmap_app (plain_member f root) before) in IH. by apply IH.
Qed.

Section members.
Context (scan : DirScan) (Hscan : ∀ f p, scans f p (scan f p)) (p : path) (f f1 : fs) (root : path).
Context (Htree : tree_ok f) (Hfree : file_or_free f p) (Hw : written p [] f f1).
Context (Hroot : real_dir f root) (Hout : under root p = false).

Lemma outside_file rest : root ++ rest ≠ p.
Proof using Hout. intros E. rewrite <- E, under_app in Hout. discriminate Hout. Qed.

Lemma member_same rest : same_entry (f !! (root ++ rest)) (f1 !! (root ++ rest)).
Proof using Hout Hw. apply Hw, outside_file. Qed.

(** An entry below the output, seen from either tree. *)
Lemma member_lstat rest e : rest ≠ [] → f !! (root ++ rest) = Some e →
  ∃ e', f1 !! (root ++ rest) = Some e' ∧ data_of e' = data_of e ∧ lstat f (root ++ rest) = Some e ∧ lstat f1 (root ++ rest) = Some e' ∧
    (is_file f1 (root ++ rest) || is_dir f1 (root ++ rest) || is_symlink f1 (root ++ rest)) = true.
Proof using Hout Hw Htree Hfree.
  intros Hr E. destruct (f1 !! (root ++ rest)) as [e'|] eqn:E1.
  2:{ destruct (member_same rest) as [Hs|(? & ? & _ & Hs)]; congruence. }
  exists e'. pose proof (member_same rest) as Hs. rewrite E, E1 in Hs. split_and!; [done|by symmetry; apply data_of_same| | |].
  all: destruct rest as [|n rest _] using rev_ind; [done|]; rewrite app_assoc in *;
    destruct (tree_parent f (root ++ rest) n Htree) as [Hd Hn]; [congruence|].
  1: by rewrite lstat_child. all: assert (real_dir f1 (root ++ rest)) as Hd1 by (by eapply written_real).
  1: by rewrite lstat_child. destruct e' as [| |b t].
  3: unfold is_symlink; by rewrite lstat_child, E1, orb_true_r.
  all: unfold is_file, is_dir; rewrite stat_child, E1; [done|done|done|intros ? ?; by rewrite E1].
Qed.

Lemma members_listed x : x ∈ artifact_members f1 root ↔ ∃ rest, rest ≠ [] ∧ x = root ++ rest ∧ f !! (root ++ rest) ≠ None.
Proof using Hscan Hout Hw Htree Hfree Hroot.
  assert (real_dir f1 root) as Hr1 by (by eapply written_real).
  unfold artifact_members. rewrite elem_of_sort_by, list_elem_of_In, filter_In, <- list_elem_of_In. unfold rglob. split.
  - intros [(q & rest & Hq & Hr & -> & Hx)%Hscan _]. rewrite locate_real_dir in Hq by done. injection Hq as <-.
    exists rest. split_and!; [done..|]. intros E. destruct Hx. eapply same_entry_none; [apply member_same|done].
  - intros (rest & Hr & -> & Hx). destruct (f !! (root ++ rest)) as [e|] eqn:E; [|done].
    destruct (member_lstat rest e Hr E) as (e' & E1 & _ & _ & _ & Hk). split; [|done]. apply Hscan. exists root, rest.
    split_and!; [by apply locate_real_dir|done|done|congruence].
Qed.

Lemma members_names : named f1 → NoDup (rel_posix root <$> artifact_members f1 root).
Proof using Hscan.
  intros Hn. apply NoDup_fmap_2_strong.
  - intros x y Hx Hy. eapply (listed_inj f1); [done| |]; apply (Hscan f1 root);
      [clear Hy; rename Hx into Hin|clear Hx; rename Hy into Hin]; revert Hin;
      unfold artifact_members, rglob; rewrite elem_of_sort_by, list_elem_of_In, filter_In, <- list_elem_of_In; by intros [? _].
  - unfold artifact_members, rglob. apply NoDup_sort_by, NoDup_ListNoDup, List.NoDup_filter, NoDup_ListNoDup, Hscan.
Qed.

End members.

(** C29: the artifact is the output and nothing else, when the output is a real
    directory and the artifact is written outside of it, by its real path.
    Unpacking a packaged artifact in its order yields exactly one file, directory or link for each
    entry below the output directory, under its relative name and with its data,
    whatever the container left there; a member without data of its own is a
    hard link to an earlier member with the same content. No symbolic link of
    the output resolves, on the engine's host, to a place outside of it (an
    absolute target is archived as its text, [absolute_link_packaged]), the
    output lies in the project, and the artifact's size is within the limit.
    What is reported of it, and later sent with the upload, is the length and
    the digest of the bytes in the file; no other file of the engine has
    changed. *)
Theorem package_exact (scan : DirScan) now project out dir c max f pkg f' :
  let root := resolve f (resolve f project ++ path_parts out) in
  (∀ f p, scans f p (scan f p)) → one_content → tree_ok f → named f → place f dir c →
  real_dir f root → under root (dir ++ [c]) = false →
  package_output now project (Some out) (dir ++ [c]) max f = (Ok pkg, f') →
  ∃ members files m a, f' !! (dir ++ [c]) = Some (EFile (tar_gz members) m a) ∧
    pkg = MkArtifactPackage (dir ++ [c]) (sha256_hex (tar_gz members)) (Z.of_nat (length (tar_gz members))) ∧
    Z.of_nat (length (tar_gz members)) ≤ max ∧
    unpack [] members = Some files ∧ NoDup (files.*1) ∧ am_name <$> members = files.*1 ∧
    (∀ n d, (n, d) ∈ files ↔
       ∃ rest e, rest ≠ [] ∧ f !! (root ++ rest) = Some e ∧ n = join (u "/") rest ∧ d = data_of e) ∧
    (∀ rest b t, rest ≠ [] → f !! (root ++ rest) = Some (ELink b t) → under root (resolve f (root ++ rest)) = true) ∧
    under (resolve f project) root = true ∧
    ∀ x, x ≠ dir ++ [c] → same_entry (f !! x) (f' !! x).
Proof.
  intros root Hscan Hone Htree Hn Hplace Hroot Hout Ep. destruct (package_validated scan _ _ _ _ _ _ _ _ Ep) as [s Hv].
  destruct (validated scan _ _ _ _ _ Hv) as (Hp & Hu & Hdir & r & Hr). fold root in Hp. rewrite Hp in Hu, Hdir, Hr.
  destruct (package_run scan now project (Some out) dir c max f s Hv Hplace) as (f1 & f2 & Hw1 & Hw2 & Er).
  rewrite Hp in Hw2, Er. rewrite Er in Ep. set (l := artifact_members f1 root) in *.
  exists (archive_all f1 root [] l), (plain_member f1 root <$> l).
  pose proof (place_slash_free f dir c Hn Hplace) as Hsl. destruct Hplace as [Hd Hc _ Hfree].
  destruct (Z.ltb_spec max (Z.of_nat (length (tar_gz (archive_all f1 root [] l))))) as [_|Hle].
  { exfalso. munfold. by destruct (unlink now true (dir ++ [c]) f2) as [[]]. }
  assert (NoDup (rel_posix root <$> l)) as Hnames by (eapply members_names; [done|]; by eapply written_named).
  assert ((plain_member f1 root <$> l).*1 = rel_posix root <$> l) as Hfst by (by rewrite <- list_fmap_compose).
  injection Ep as <- <-. destruct Hw2 as [(m & a & E) Hs2]. exists m, a.
  split_and!; [done..| |by rewrite Hfst|by rewrite archive_all_names, Hfst| | |done|done].
  - by apply (unpack_archive f1 root l Hone []).
  - intros n d. split.
    + intros (x & Em & Hx)%list_elem_of_fmap. eapply members_listed in Hx as (rest & Hr' & -> & Hx); try done.
      destruct (f !! (root ++ rest)) as [e|] eqn:Ee; [|done]. exists rest, e.
      destruct (member_lstat (dir ++ [c]) f f1 root Htree Hfree Hw1 Hout rest e Hr' Ee) as (e' & _ & Ed & _ & El & _).
      unfold plain_member, plain_data in Em. injection Em as -> ->. rewrite El. split_and!; [done..| |by rewrite <- Ed].
      unfold rel_posix. by rewrite drop_app_length.
    + intros (rest & e & Hr' & Ee & -> & ->). apply list_elem_of_fmap. exists (root ++ rest).
      destruct (member_lstat (dir ++ [c]) f f1 root Htree Hfree Hw1 Hout rest e Hr' Ee) as (e' & _ & Ed & _ & El & _).
      split; [|eapply members_listed; try done; exists rest; split_and!; [done..|congruence]].
      unfold plain_member, plain_data, rel_posix. by rewrite drop_app_length, El, Ed.
  - intros rest b t Hr' Ee. eapply scan_output_links; [exact Hr| |].
    + apply Hscan. exists root, rest. split_and!; [by apply locate_real_dir|done|done|congruence].
    + destruct (member_lstat (dir ++ [c]) f f1 root Htree Hfree Hw1 Hout rest _ Hr' Ee) as (e' & _ & _ & El & _).
      unfold is_symlink. by rewrite El.
Qed.

End package.
