(* ===== verification/TreeExamples.v ===== *)
(** Examples on small trees. Pruning: a listing with the law of a scan, and a
    state directory with an expired cache, a large one and one that is in use.
    Packaging: one output at two times, listed in two orders, and a link with an
    absolute target. *)

From S2P Require Import Prelude PyStr Clock Uuid Db Fs Resolve Sha256 Cache PruneProofs Workspace Artifact ArtifactProofs.

Local Open Scope Z_scope.

(** A scan in the order of the map. *)
#[local] Instance px_scan : DirScan := λ f p,
  match locate f p with
  | None => []
  | Some q => (λ x, p ++ drop (length q) x) <$> List.filter (below q) (fst <$> map_to_list f)
  end.

Lemma below_inv q x : below q x = true ↔ ∃ rest, rest ≠ [] ∧ x = q ++ rest.
Proof.
  unfold below. rewrite andb_true_iff, negb_true_iff, bool_decide_eq_false. split.
  - intros [Hu Hn]. unfold under in Hu. apply bool_decide_eq_true in Hu. exists (drop (length q) x).
    assert (x = q ++ drop (length q) x) as E by (rewrite <- Hu at 1; by rewrite take_drop). split; [|exact E].
    intros Ed. rewrite Ed, app_nil_r in E. done.
  - intros (rest & Hr & ->). split; [apply under_app|]. intros E%(f_equal length). rewrite length_app in E.
    destruct rest; [done|]. cbn in E. lia.
Qed.

Lemma px_scans f p : scans f p (px_scan f p).
Proof.
  unfold px_scan. destruct (locate f p) as [q|] eqn:Eq.
  2:{ split; [constructor|]. intros x. split; [by intros ?%not_elem_of_nil|]. intros (q & rest & Hq & _). congruence. }
  assert (∀ x, x ∈ List.filter (below q) (fst <$> map_to_list f) ↔ ∃ rest, rest ≠ [] ∧ x = q ++ rest ∧ f !! x ≠ None) as Hin.
  { intros x. rewrite list_elem_of_In, filter_In, <- list_elem_of_In, below_inv, list_elem_of_fmap. split.
    - intros [([y e] & -> & He%elem_of_map_to_list) (rest & Hr & Ex)]. exists rest. split_and!; [done..|]. cbn. congruence.
    - intros (rest & Hr & -> & Hx). split; [|by exists rest]. destruct (f !! (q ++ rest)) as [e|] eqn:E; [|done].
      exists (q ++ rest, e). split; [done|by apply elem_of_map_to_list]. }
  split.
  - apply NoDup_fmap_2_strong; [|by apply NoDup_ListNoDup, List.NoDup_filter, NoDup_ListNoDup, NoDup_fst_map_to_list].
    intros x y (r & _ & -> & _)%Hin (r' & _ & -> & _)%Hin E%app_inv_head. by rewrite !drop_app_length in E; subst.
  - intros x. rewrite list_elem_of_fmap. split.
    + intros (y & -> & (rest & Hr & -> & Hx)%Hin). exists q, rest. by rewrite drop_app_length.
    + intros (q' & rest & Hq & Hr & -> & Hx). rewrite Eq in Hq. injection Hq as <-. exists (q ++ rest). rewrite drop_app_length.
      split; [done|]. apply Hin. by exists rest.
Qed.

(** [tree_ok] as a test. *)
Definition entry_okb (f : fs) (x : path) : bool :=
  match last x with
  | None => true
  | Some c => negb (bool_decide (c = u ".")) && negb (bool_decide (c = u "..")) &&
      (bool_decide (parent x = []) || match f !! parent x with Some (EDir _) => true | _ => false end)
  end.

Lemma tree_okb f : forallb (entry_okb f) (fst <$> map_to_list f) = true → tree_ok f.
Proof.
  intros Hf x c Hx. rewrite List.forallb_forall in Hf. destruct (f !! (x ++ [c])) as [e|] eqn:E; [|done].
  specialize (Hf (x ++ [c])). unfold entry_okb in Hf. rewrite last_snoc, parent_child in Hf.
  rewrite !andb_true_iff, !negb_true_iff, !bool_decide_eq_false, orb_true_iff, bool_decide_eq_true in Hf.
  destruct Hf as [[H1 H2] H3].
  { apply list_elem_of_In, list_elem_of_fmap. exists (x ++ [c], e). split; [done|by apply elem_of_map_to_list]. }
  split; [done|]. destruct H3 as [?|H3]; [by left|right]. destruct (f !! x) as [[]|]; try done. eauto.
Qed.

Definition px_now : instant := instant_of 2026 7 13 9 30 0 0.
Definition px_state : path := [u "state"].
Definition px_old : path := site_root px_state (u "old").
Definition px_large : path := site_root px_state (u "large").
Definition px_used : path := site_root px_state (u "used").
Definition px_fresh : path := site_root px_state (u "fresh").

(** [old] has expired; [large] has 6 bytes too many, in two files;
    [used] is excluded; [fresh] is within every limit. *)
Definition px_files : fs := list_to_map [
  (px_state, EDir 0); (cache_root px_state, EDir 0);
  (px_old, EDir 0); (px_old ++ [METADATA_FILENAME], EFile (u "{}") 0 0);
  (px_large, EDir 0); (px_large ++ [METADATA_FILENAME], EFile (u "{}") px_now px_now);
  (px_large ++ [u "a"], EDir 0); (px_large ++ [u "a"; u "first"], EFile (u "123456") 0 1);
  (px_large ++ [u "second"], EFile (u "12345") 0 2);
  (px_used, EDir 0); (px_used ++ [u "big"], EFile (u "0123456789abcdef") 0 0);
  (px_fresh, EDir (px_now - days 29)); (px_fresh ++ [u "kept"], EFile (u "0123456789") 0 0)].

Definition px_pruned : result (list path) * fs := prune_cache px_now px_state 10 30 [u "used"] px_files.

(** The file that was read longest ago went first, and that was enough. *)
Example px_result : px_pruned.1 = Ok [px_old] ∧
  px_pruned.2 !! (px_large ++ [u "a"; u "first"]) = None ∧
  exists_ px_pruned.2 (px_large ++ [u "second"]) = true ∧ exists_ px_pruned.2 (px_used ++ [u "big"]) = true.
Proof. split_and!; vm_compute; reflexivity. Qed.

Lemma px_caches : state_caches px_state px_files.
Proof.
  assert (tree_ok px_files) as Ht by (apply tree_okb; vm_compute; reflexivity).
  split; [exact Ht| |].
  - apply tree_real_dir; [exact Ht|left]. exists 0. vm_compute. reflexivity.
  - intros n a t E. assert (forallb (λ pe : path * entry, match pe.2 with ELink _ _ => false | _ => true end) (map_to_list px_files) = true) as Hb
      by (vm_compute; reflexivity).
    rewrite List.forallb_forall in Hb. apply elem_of_map_to_list, list_elem_of_In, Hb in E. discriminate E.
Qed.

Lemma prune_cache_bounds_witness : directory_size_bytes px_pruned.2 px_large ≤ 10 ∧ px_pruned.2 !! px_old = None ∧
  px_pruned.2 !! (px_fresh ++ [u "kept"]) = px_files !! (px_fresh ++ [u "kept"]).
Proof.
  destruct (prune_cache_bounds px_now px_state 10 30 [u "used"] (px_now - days 30) px_files px_scans px_caches)
    as (gone & f' & E & Hb & Ht & Hk & _).
  - lia.
  - vm_compute. reflexivity.
  - assert (px_pruned = (Ok gone, f')) as Ep by (unfold px_pruned; exact E).
    assert (f' = px_pruned.2) as Ef by (rewrite Ep; reflexivity). subst f'. split; [|split].
    + destruct (Hb px_large) as [Hx|Hx]; [|apply list_elem_of_singleton in Hx; vm_compute in Hx; discriminate Hx|exact Hx].
      apply list_elem_of_In. vm_compute. auto.
    + apply (Ht (u "old") 0).
      * exists (u "old"). split; [reflexivity|]. exists 0. vm_compute. reflexivity.
      * intros Hx. apply list_elem_of_singleton in Hx. vm_compute in Hx. discriminate Hx.
      * left. exists (u "{}"), 0. vm_compute. reflexivity.
      * vm_compute. reflexivity.
    + apply (Hk (u "fresh")).
      * exists (u "fresh"). split; [reflexivity|]. exists (px_now - days 29). vm_compute. reflexivity.
      * right. split; [exists (px_now - days 29)|apply Z.leb_le; vm_compute; reflexivity]. split.
        -- right. split; vm_compute; reflexivity.
        -- apply Z.leb_le. vm_compute. reflexivity.
Defined.

(** * Packaging *)

(** A toy archive: names and data in order. *)
Definition member_bytes (m : ArtifactMember) : list N :=
  am_name m ++ match am_data m with
               | MFile c => 58%N :: c
               | MDirectory => [47%N]
               | MLink absolute t => 62%N :: join (u "/") ((if absolute then [[]] else []) ++ t)
               | MHardLink n => 61%N :: n
               end ++ [10%N].
(** The files with the content [twin] are links of one file. *)
#[local] Instance ax_archiver : Archiver := {|
  mode_of := λ _ _, 420;
  inode_of := λ f p, match lstat f p with Some (EFile c _ _) => if ustr_eqb c (u "twin") then Some 7 else None | _ => None end;
  tar_gz := λ ms, concat (member_bytes <$> ms);
|}.

(** The listing above forwards and backwards. *)
Definition ax_scan : DirScan := px_scan.
Definition ax_scan' : DirScan := λ f p, reverse (px_scan f p).

Lemma ax_scans' f p : scans f p (ax_scan' f p).
Proof.
  destruct (px_scans f p) as [Hn Hin]. unfold ax_scan'. split; [by rewrite reverse_Permutation|]. intros x. by rewrite elem_of_reverse.
Qed.

Definition ax_project : path := [u "job"].
Definition ax_tmp : path := [u "job"; u "tmp"].
Definition ax_out : path := [u "job"; u "out"].
(** An output with a page, a directory, two links of one file and a symbolic
    link, as of the instant [t]. *)
Definition ax_files (t : instant) : fs := list_to_map [
  (ax_project, EDir t); (ax_tmp, EDir t); (ax_out, EDir t);
  (ax_out ++ [u "index.html"], EFile (u "<p>") t t); (ax_out ++ [u "assets"], EDir t);
  (ax_out ++ [u "assets"; u "a.css"], EFile (u "p{}") t t); (ax_out ++ [u "home"], ELink false [u "index.html"]);
  (ax_out ++ [u "b.txt"], EFile (u "twin") t t); (ax_out ++ [u "copy.txt"], EFile (u "twin") t t)].

Definition ax_package (scan : DirScan) (now t : instant) : result ArtifactPackage * fs :=
  package_output (H := scan) now ax_project (Some (u "out")) (ax_tmp ++ [u "artifact.tar.gz"]) 1000 (ax_files t).

Definition ax_bytes : list N := u "assets/
assets/a.css:p{}
b.txt:twin
copy.txt=b.txt
home>index.html
index.html:<p>
".
Definition ax_pkg : ArtifactPackage :=
  MkArtifactPackage (ax_tmp ++ [u "artifact.tar.gz"]) (sha256_hex ax_bytes) (Z.of_nat (length ax_bytes)).

Lemma ax_packaged : (ax_package ax_scan 7 0).1 = Ok ax_pkg.
Proof. vm_compute. reflexivity. Qed.

(** [named] as a test. *)
Definition namedb (f : fs) : bool := forallb (λ x : path, forallb (forallb (λ c, negb (c =? 47)%N)) x) (fst <$> map_to_list f).

Lemma namedb_ok f : namedb f = true → named f.
Proof.
  unfold namedb. rewrite List.forallb_forall. intros Hf x Hx. destruct (f !! x) as [e|] eqn:E; [|done].
  assert (In x (fst <$> map_to_list f)) as Hin by (apply list_elem_of_In, list_elem_of_fmap; exists (x, e); split; [done|by apply elem_of_map_to_list]).
  apply Hf in Hin. rewrite List.forallb_forall in Hin. apply Forall_forall. intros c Hc%list_elem_of_In%Hin.
  rewrite List.forallb_forall in Hc. apply Forall_forall. intros n Hn%list_elem_of_In%Hc. by apply negb_true_iff.
Qed.

Lemma ax_named t : named (ax_files t).
Proof. apply namedb_ok. vm_compute. reflexivity. Qed.

Lemma ax_tree : tree_ok (ax_files 0).
Proof. apply tree_okb. vm_compute. reflexivity. Qed.

Lemma ax_place : place (ax_files 0) ax_tmp (u "artifact.tar.gz").
Proof.
  split.
  - apply tree_real_dir; [exact ax_tree|left]. exists 0. vm_compute. reflexivity.
  - split; intros E; vm_compute in E; discriminate E.
  - repeat constructor.
  - left. vm_compute. reflexivity.
Qed.

Lemma ax_alike : alike (ax_files 0) (ax_files 5).
Proof.
  split. intros x. unfold ax_files. cbn [list_to_map fold_right fst snd uncurry].
  repeat match goal with
  | |- context [<[?y := _]> _ !! x] =>
      destruct (decide (y = x)) as [<-|?]; [rewrite !lookup_insert_eq; reflexivity|rewrite !(lookup_insert_ne _ y x) by assumption]
  end. by rewrite !lookup_empty.
Qed.

Lemma ax_inode f p i : inode_of f p = Some i ↔ i = 7 ∧ ∃ m a, lstat f p = Some (EFile (u "twin") m a).
Proof.
  cbn [inode_of ax_archiver]. destruct (lstat f p) as [[c m a|t|b t]|]; try (split; [done|by intros (_ & ? & ? & ?)]).
  unfold ustr_eqb. case_bool_decide as Hc; split.
  - intros [= <-]. subst c. eauto.
  - by intros [-> _].
  - done.
  - intros (_ & m' & a' & [= -> _ _]). by destruct Hc.
Qed.

Lemma ax_inodes : same_inodes.
Proof.
  split; [done|]. assert (∀ f g p, alike f g → inode_of f p = inode_of g p) as Hi.
  { intros f g p Hfg. cbn [inode_of ax_archiver]. pose proof (lstat_alike f g p Hfg) as E.
    destruct (lstat f p) as [[]|], (lstat g p) as [[]|]; by simplify_eq/=. }
  intros f g p q Hfg. unfold linked. by rewrite !(Hi f g).
Qed.

Lemma ax_content : one_content.
Proof.
  intros f p q c m a Hl E. unfold linked in Hl. destruct (inode_of f p) as [i|] eqn:Ei; [|done].
  destruct (inode_of f q) as [j|] eqn:Ej; [|done]. apply ax_inode in Ei as (_ & m1 & a1 & Ei), Ej as (_ & m2 & a2 & Ej).
  rewrite E in Ei. injection Ei as -> _ _. by exists m2, a2.
Qed.

Lemma package_reproducible_witness : (ax_package ax_scan' 9 5).1 = Ok ax_pkg.
Proof.
  pose proof ax_packaged as E. destruct (ax_package ax_scan 7 0) as [r f'] eqn:Ep. cbn [fst] in E. subst r.
  destruct (package_reproducible ax_scan ax_scan' 7 9 ax_project (Some (u "out")) ax_tmp (u "artifact.tar.gz") 1000
    (ax_files 0) (ax_files 5) ax_pkg f' px_scans ax_scans' ax_inodes ax_alike (ax_named 0) ax_place Ep) as (g' & Eg & _).
  exact (f_equal fst Eg).
Defined.

Lemma package_exact_witness : ∃ members files, ax_pkg = MkArtifactPackage (ax_tmp ++ [u "artifact.tar.gz"])
    (sha256_hex (tar_gz members)) (Z.of_nat (length (tar_gz members))) ∧
  unpack [] members = Some files ∧
  (u "home", MLink false [u "index.html"]) ∈ files ∧ (u "copy.txt", MFile (u "twin")) ∈ files.
Proof.
  pose proof ax_packaged as E. destruct (ax_package ax_scan 7 0) as [r f'] eqn:Ep. cbn [fst] in E. subst r.
  assert (resolve (ax_files 0) (resolve (ax_files 0) ax_project ++ path_parts (u "out")) = ax_out) as Er by (vm_compute; reflexivity).
  pose proof (package_exact ax_scan 7 ax_project (u "out") ax_tmp (u "artifact.tar.gz") 1000 (ax_files 0) ax_pkg f' px_scans
    ax_content ax_tree (ax_named 0) ax_place) as Hx. rewrite Er in Hx.
  destruct Hx as (members & files & m & a & _ & Epkg & _ & Hun & _ & _ & Hm & _).
  - apply tree_real_dir; [exact ax_tree|left]. exists 0. vm_compute. reflexivity.
  - vm_compute. reflexivity.
  - exact Ep.
  - exists members, files. split; [exact Epkg|]. split; [exact Hun|]. split; apply Hm.
    + exists [u "home"], (ELink false [u "index.html"]). split_and!; [discriminate|vm_compute; reflexivity..].
    + exists [u "copy.txt"], (EFile (u "twin") 0 0). split_and!; [discriminate|vm_compute; reflexivity..].
Defined.

(** ** A link with an absolute target

    Inside the output as far as the checks go, but the archive keeps the
    target's text: a path on the engine's host, of no use where the artifact is
    served. *)

Definition ax_absolute : fs := <[ax_out ++ [u "home"] := ELink true (ax_out ++ [u "index.html"])]> (ax_files 0).

Example absolute_link_packaged : ∃ s, validate_output_dir (H := ax_scan) ax_absolute ax_project (Some (u "out")) 1000 = Ok s ∧
  am_data (archive_member ax_absolute ax_out [] (ax_out ++ [u "home"])) = MLink true [u "job"; u "out"; u "index.html"].
Proof. eexists. split; vm_compute; reflexivity. Qed.
