(* ===== verification/Auth.v ===== *)
(** Authentication against the backend (src/src/build_engine/agent/auth.py):
    registration, session renewal and the secrets of an attempt, over any HTTP
    transport; the checks of the persisted secret. *)

From S2P Require Import Prelude PyStr Dict Json Clock Uuid Protocol Fs Url Config Artifact.

Local Open Scope Z_scope.

Definition auth_error (msg : ustr) : exn := PyExn AuthError msg.

Definition SERVICE_USER : ustr := u "build-engine".
Definition SERVICE_GROUP : ustr := u "build-engine".
Definition MIN_ENGINE_SECRET_BYTES : nat := 32.

Record Session := MkSession {
  se_engine_id : ustr;
  se_token : ustr;
  se_expires_at : instant;
}.

(** * Timestamps of the backend *)

(** Aware in UTC; a naive timestamp is taken as UTC. *)
Definition parse_datetime (value : ustr) : result instant :=
  match fromisoformat (replace value (u "Z") (u "+00:00")) with
  | None => Err (PyExn ValueError (u "Invalid isoformat string: " ++ py_repr_str value))
  | Some p =>
      match pd_offset p with
      | None => Ok (pd_local p)
      | Some off =>
          let t := pd_local p - off in
          if (MIN_INSTANT <=? t) && (t <? MAX_INSTANT) then Ok t
          else Err (PyExn OverflowError (u "date value out of range"))
      end
  end.

(** [t.isoformat()] of a UTC datetime: microseconds only when there are any. *)
Definition isoformat (t : instant) : ustr :=
  let '(y, m, d) := ord2ymd (t / DAY) in
  let us := t mod DAY in
  iso_date y m d ++ [84%N] ++ pad_dec 2 (us / (3600 * US)) ++ [58%N] ++ pad_dec 2 (us / (60 * US) mod 60)
    ++ [58%N] ++ pad_dec 2 (us / US mod 60)
    ++ (if us mod US =? 0 then [] else [46%N] ++ pad_dec 6 (us mod US)) ++ u "+00:00".

(** * Values of a decoded response *)

Definition missing_keys (required : list ustr) (payload : jdict) : list ustr :=
  List.filter (λ k, match dget k payload with Some v => negb (truthy v) | None => true end) required.

(** [str(payload[key])] of a key that is there. *)
Definition text_at (payload : jdict) (key : ustr) : ustr :=
  match dget key payload with Some v => py_str v | None => [] end.

Definition session_from_payload (payload : jdict) : result Session :=
  match missing_keys [u "engine_id"; u "session_jwt"; u "session_jwt_expires_at"] payload with
  | [] =>
      t ← parse_datetime (text_at payload (u "session_jwt_expires_at"));
      Ok (MkSession (text_at payload (u "engine_id")) (text_at payload (u "session_jwt")) t)
  | missing => Err (auth_error (u "Session response missing required keys: " ++ join (u ", ") missing))
  end.

Definition credentials_from_registration_response (payload : jdict) (c : EngineConfig) : result EngineCredentials :=
  match missing_keys [u "engine_id"; u "engine_secret"; u "session_jwt"; u "session_jwt_expires_at"] payload with
  | [] => Ok (MkEngineCredentials (text_at payload (u "engine_id")) (text_at payload (u "engine_secret"))
                (text_at payload (u "session_jwt")) (text_at payload (u "session_jwt_expires_at"))
                (cf_backend_url c) (cf_name c))
  | missing => Err (auth_error (u "Registration response missing required keys: " ++ join (u ", ") missing))
  end.

(** * The client *)

Section client.
Context {S : Type} `{Http S}.
(** [__version__], from the package's metadata. *)
Context (version : ustr).
(** The client's [backend_url], stripped of trailing slashes by the constructor. *)
Context (backend_url : ustr).

Definition client_headers_for_credentials (c : EngineCredentials) : list (ustr * ustr) :=
  [(u "Authorization", u "Bearer " ++ cr_session_jwt c);
   (u "User-Agent", u "mincemeat-build-engine/" ++ version)].

Definition client_url : ustr := rstrip (is_char 47) backend_url.

Definition post_json (p : ustr) (payload : jdict) : M S jdict :=
  body ← lift (utf8_encode (dumps (spaced false) (JObj payload)));
  outcome ← http_send (MkHttpRequest (u "POST") (client_url ++ p)
              [(u "Content-Type", u "application/json"); (u "Accept", u "application/json")] body None);
  match outcome with
  | HttpStatus code _ => raise (auth_error (u "Backend auth request failed: HTTP " ++ str_of_Z code))
  | HttpFailed (PyExn _ msg as e) =>
      raise (if isinstance e URLError then auth_error (u "Backend auth request failed: " ++ msg) else e)
  | HttpFailed e => raise e
  | HttpOk data =>
      text ← lift (utf8_decode data);
      decoded ← lift (loads text);
      match decoded with
      | JObj d => mret d
      | _ => raise (auth_error (u "Backend auth response was not a JSON object"))
      end
  end.

Definition register (registration_token name : ustr) (capabilities : jdict) : M S jdict :=
  post_json (u "/api/v2/build-engines/agent/register")
    [(u "registration_token", JStr registration_token); (u "name", JStr name);
     (u "capabilities", JObj capabilities); (u "version", JStr version)].

Definition create_session (engine_id engine_secret : ustr) : M S Session :=
  payload ← post_json (u "/api/v2/build-engines/agent/sessions")
              [(u "engine_id", JStr engine_id); (u "engine_secret", JStr engine_secret)];
  lift (session_from_payload payload).

(** [refresh_window] defaults to five minutes. *)
Definition REFRESH_WINDOW : Z := 5 * 60 * US.

Definition refresh_session_if_needed (now : instant) (c : EngineCredentials) : M S EngineCredentials :=
  expires_at ← lift (parse_datetime (cr_session_jwt_expires_at c));
  if negb (bool_decide (cr_session_jwt c = [])) && (REFRESH_WINDOW <? expires_at - now) then mret c
  else
    session ← create_session (cr_engine_id c) (cr_engine_secret c);
    mret (MkEngineCredentials (cr_engine_id c) (cr_engine_secret c) (se_token session) (isoformat (se_expires_at session))
            (cr_backend_url c) (cr_name c)).

(** The loop over the entries of the environment. *)
Fixpoint secret_items (l : jdict) : result (list (ustr * ustr)) :=
  match l with
  | [] => Ok []
  | (c :: k, JStr (d :: v)) :: l => rest ← secret_items l; Ok ((c :: k, d :: v) :: rest)
  | _ => Err (auth_error (u "Secret fetch response contained an invalid environment value"))
  end.

Definition require_uuid_label (value label : ustr) : result () :=
  match uuid_parse value with Some _ => Ok () | None => Err (auth_error (label ++ u " must be a UUID")) end.

Definition secret_env_of (decoded : json) : result (list (ustr * ustr)) :=
  match decoded with
  | JObj d =>
      match default decoded (dget (u "env") d) with
      | JObj raw_env => secret_items raw_env
      | _ => Err (auth_error (u "Secret fetch response did not contain an env object"))
      end
  | _ => Err (auth_error (u "Secret fetch response was not a JSON object"))
  end.

Definition fetch_attempt_secrets (build_job_id attempt_id : ustr) (c : EngineCredentials) : M S (list (ustr * ustr)) :=
  lift (require_uuid_label build_job_id (u "build_job_id"));;
  lift (require_uuid_label attempt_id (u "attempt_id"));;
  let url := client_url ++ u "/api/v2/build-engines/agent/jobs/" ++ build_job_id ++ u "/attempts/" ++ attempt_id
             ++ u "/secrets" in
  let failed e := raise (if isinstance e URLError || isinstance e JSONDecodeError || isinstance e UnicodeDecodeError
                         then auth_error (u "Secret fetch failed") else e) in
  outcome ← http_send (MkHttpRequest (u "GET") url
              (client_headers_for_credentials c ++ [(u "Accept", u "application/json")]) [] None);
  decoded ← match outcome with
            | HttpStatus code _ => raise (auth_error (u "Secret fetch failed: HTTP " ++ str_of_Z code))
            | HttpFailed e => failed e
            | HttpOk data => try_except (text ← lift (utf8_decode data); lift (loads text)) failed
            end;
  lift (secret_env_of decoded).

End client.

(** * The persisted secret *)

Definition validate_engine_secret (value : ustr) : result () :=
  fail_if (negb (forallb (λ c, (c <? 128)%N) value))
    (auth_error (u "engine_secret must contain only ASCII characters"));;
  fail_if (Nat.ltb (length value) MIN_ENGINE_SECRET_BYTES) (auth_error (u "engine_secret must be at least 32 bytes")).
