(* ===== verification/Toml.v ===== *)
(** TOML settings: the values [tomllib] gives, its interface, and the plain
    documents ([key = "string"], integers, booleans, comments) on which its
    documented behaviour is spelled out. *)

From S2P Require Import Prelude PyStr Dict Json Protocol Fs.

Local Open Scope N_scope.

(** A value of a setting: what TOML and JSON share ([JNull] is [None]), the
    text of a TOML date or time, and the values the configuration code makes of
    them: a [Path], a tuple of strings. *)
Inductive setting :=
| SJson (j : json)
| SDate (text : ustr)
| SPath (p : path)
| STuple (l : list ustr).

Abbreviation settings := (list (ustr * setting)).

(** [bool(value)]. *)
Definition set_truthy (v : setting) : bool :=
  match v with
  | SJson j => truthy j
  | SDate _ | SPath _ => true
  | STuple l => negb (bool_decide (l = []))
  end.

Lemma set_truthy_text s : set_truthy (SJson (JStr s)) = negb (bool_decide (s = [])).
Proof. by destruct s. Qed.

(** [str(value)]. *)
Definition set_str (v : setting) : ustr :=
  match v with
  | SJson j => py_str j
  | SDate t => t
  | SPath p => path_str p
  | STuple [x] => u "(" ++ py_repr_str x ++ u ",)"
  | STuple l => u "(" ++ join (u ", ") (py_repr_str <$> l) ++ u ")"
  end.

(** [tomllib.loads]. *)
Class Tomllib := toml_loads : ustr → result settings.

Definition toml_error (msg : ustr) : exn := PyExn TOMLDecodeError msg.

(** * Plain documents

    [None] is a document this reader does not know, [Some (Err _)] one that
    TOML refuses: an escape that is not a Unicode scalar value. *)

Definition toml_ws (c : N) : bool := (c =? 32) || (c =? 9).
Definition toml_ctrl (c : N) : bool := ((c <? 32) && negb (c =? 9)) || (c =? 127).
Definition bare_key_char (c : N) : bool :=
  is_digit c || ((65 <=? c) && (c <=? 90)) || ((97 <=? c) && (c <=? 122)) || (c =? 45) || (c =? 95).

Definition toml_escape (e : N) : option N :=
  if e =? 34 then Some 34 else if e =? 92 then Some 92 else if e =? 98 then Some 8 else if e =? 102 then Some 12
  else if e =? 110 then Some 10 else if e =? 114 then Some 13 else if e =? 116 then Some 9 else None.

Definition bad_escape : exn := toml_error (u "Escaped character is not a Unicode scalar value").

(** One more code point in front of what was read. *)
Definition read_char (c : N) (o : option (result (ustr * ustr))) : option (result (ustr * ustr)) :=
  match o with Some (Ok (s, r)) => Some (Ok (c :: s, r)) | o => o end.

(** A basic string after its opening quote: its text and the rest. *)
Fixpoint basic_string (s : ustr) : option (result (ustr * ustr)) :=
  match s with
  | [] => None
  | c :: r =>
      if c =? 34 then Some (Ok ([], r))
      else if c =? 92 then
        match r with
        | e :: r =>
            if e =? 117 then
              match r with
              | h1 :: h2 :: h3 :: h4 :: r =>
                  match unhex4 h1 h2 h3 h4 with
                  | Some n => if is_surrogate n then Some (Err bad_escape) else read_char n (basic_string r)
                  | None => None
                  end
              | _ => None
              end
            else match toml_escape e with Some x => read_char x (basic_string r) | None => None end
        | [] => None
        end
      else if toml_ctrl c then None else read_char c (basic_string r)
  end.

(** The longest prefix of such code points, and the rest. *)
Fixpoint span (p : N → bool) (s : ustr) : ustr * ustr :=
  match s with
  | c :: r => if p c then let '(a, b) := span p r in (c :: a, b) else ([], s)
  | [] => ([], [])
  end.

(** Blank up to the end of the line, or a comment. *)
Definition line_end (s : ustr) : bool :=
  match lstrip toml_ws s with
  | [] => true
  | c :: r => (c =? 35) && forallb (λ c, negb (toml_ctrl c)) r
  end.

(** A value and the end of its line. *)
Definition plain_value (s : ustr) : option (result json) :=
  match s with
  | 34 :: r =>
      match basic_string r with
      | Some (Ok (t, r)) => if line_end r then Some (Ok (JStr t)) else None
      | Some (Err e) => Some (Err e)
      | None => None
      end
  | _ =>
      let '(w, r) := span bare_key_char s in
      if negb (line_end r) then None
      else if ustr_eqb w (u "true") then Some (Ok (JBool true))
      else if ustr_eqb w (u "false") then Some (Ok (JBool false))
      else if forallb is_digit w && negb (ustr_eqb w []) && ((length w =? 1)%nat || negb (startswith w (u "0")))
              && (length w <=? MAX_STR_DIGITS)%nat
      then Some (Ok (JInt (Z.of_N (N_of_digits w)))) else None
  end.

(** One line: blank, or a bare key and its value. *)
Definition plain_line (s : ustr) : option (result (option (ustr * setting))) :=
  if line_end s then Some (Ok None)
  else
    let '(key, r) := span bare_key_char (lstrip toml_ws s) in
    match key, lstrip toml_ws r with
    | _ :: _, 61 :: r =>
        match plain_value (lstrip toml_ws r) with
        | Some (Ok v) => Some (Ok (Some (key, SJson v)))
        | Some (Err e) => Some (Err e)
        | None => None
        end
    | _, _ => None
    end.

Fixpoint plain_lines (acc : settings) (lines : list ustr) : option (result settings) :=
  match lines with
  | [] => Some (Ok acc)
  | l :: lines =>
      match plain_line l with
      | None => None
      | Some (Err e) => Some (Err e)
      | Some (Ok None) => plain_lines acc lines
      | Some (Ok (Some (k, v))) => if dmem k acc then None else plain_lines (acc ++ [(k, v)]) lines
      end
  end.

Definition toml_plain (s : ustr) : option (result settings) := plain_lines [] (split_on 10 s).

(** What the code relies on: [tomllib] reads plain documents. *)
Class TomlLaws `{Tomllib} : Prop := {
  toml_reads s d : toml_plain s = Some (Ok d) → toml_loads s = Ok d;
  toml_refuses s e : toml_plain s = Some (Err e) → ∃ msg, toml_loads s = Err (toml_error msg);
}.

(** * Lemmas: strings printed by [json.dumps] *)

#[local] Ltac Zify.zify_post_hook ::= Z.to_euclidean_division_equations.

(** The code points [json.dumps] writes as one escape that TOML accepts. *)
Definition toml_safe (c : N) : bool := (c <? 65536) && negb (is_surrogate c).

Lemma toml_safe_scalar c : toml_safe c = true → scalar c.
Proof. unfold toml_safe, is_surrogate, scalar. lia. Qed.

Lemma basic_escape_char c t : valid_cp c = true →
  basic_string (escape_char c ++ t) = if toml_safe c then read_char c (basic_string t) else Some (Err bad_escape).
Proof.
  unfold valid_cp. intros Hc. unfold escape_char, hex4, toml_safe.
  repeat match goal with |- context [if ?b then _ else _] =>
    lazymatch b with context [c] => destruct b eqn:? end end;
    try (assert (c = 34) as -> by lia; done); try (assert (c = 92) as -> by lia; done);
    try (assert (c = 10) as -> by lia; done); try (assert (c = 13) as -> by lia; done);
    try (assert (c = 9) as -> by lia; done); try (assert (c = 12) as -> by lia; done);
    try (assert (c = 8) as -> by lia; done); try (unfold is_surrogate in *; lia);
    cbn [basic_string app N.eqb Pos.eqb]; rewrite ?unhex4_hex4 by lia.
  - rewrite (proj2 (N.eqb_neq c 34)), (proj2 (N.eqb_neq c 92)) by lia.
    assert (toml_ctrl c = false) as -> by (unfold toml_ctrl; lia). done.
  - destruct (is_surrogate c); [discriminate|done].
  - destruct (is_surrogate c); [done|discriminate].
  - assert (is_surrogate (55296 + (c - 65536) / 1024) = true) as -> by (unfold is_surrogate; lia). done.
Qed.

(** A text printed by [json.dumps] is read back as TOML, or refused for a code
    point outside the basic plane or a surrogate. *)
Lemma basic_escape s t : Forall (λ c, valid_cp c = true) s →
  basic_string (escape s ++ 34 :: t) = Some (if forallb toml_safe s then Ok (s, t) else Err bad_escape).
Proof.
  induction 1 as [|c s Hc _ IH]; [done|]. rewrite escape_cons, <- (assoc_L (++)), basic_escape_char by done.
  cbn [forallb]. destruct (toml_safe c); [|done]. rewrite IH. by destruct (forallb _ _).
Qed.

(** * Lemmas: documents of quoted strings *)

Lemma span_stop p k c r : forallb p k = true → p c = false → span p (k ++ c :: r) = (k, c :: r).
Proof.
  intros Hk Hc. induction k as [|d k IH]; cbn [app span]; [by rewrite Hc|].
  cbn [forallb] in Hk. apply andb_true_iff in Hk as [-> Hk]. by rewrite IH.
Qed.

(** [key = "text"], as [write_credentials] formats it. *)
Definition string_line (kv : ustr * ustr) : ustr := kv.1 ++ u " = " ++ quote kv.2.

Definition bare_key (k : ustr) : bool := negb (bool_decide (k = [])) && forallb bare_key_char k.

Lemma bare_key_char_plain c : bare_key_char c = true → toml_ws c = false ∧ c ≠ 35 ∧ (c =? 10) = false.
Proof. unfold bare_key_char, toml_ws, is_digit. lia. Qed.

Lemma plain_string_line k s : bare_key k = true → Forall (λ c, valid_cp c = true) s →
  plain_line (string_line (k, s)) =
    Some (if forallb toml_safe s then Ok (Some (k, SJson (JStr s))) else Err bad_escape).
Proof.
  unfold bare_key. intros [Hne Hk]%andb_true_iff Hs. destruct k as [|c k]; [done|].
  pose proof Hk as Hc. cbn [forallb] in Hc. apply andb_true_iff in Hc as [Hc _].
  apply bare_key_char_plain in Hc as (Hw & H35 & _). unfold string_line, plain_line, line_end. cbn [fst snd app lstrip].
  rewrite Hw. apply N.eqb_neq in H35. rewrite H35. cbn [andb].
  change (c :: k ++ u " = " ++ quote s) with ((c :: k) ++ 32 :: 61 :: 32 :: 34 :: escape s ++ [34]).
  rewrite span_stop by done. cbn [lstrip toml_ws N.eqb Pos.eqb orb]. cbv beta iota.
  change (lstrip toml_ws (32 :: 34 :: escape s ++ [34])) with (34 :: escape s ++ [34]). cbn [plain_value].
  rewrite basic_escape by done. by destruct (forallb _ s).
Qed.

Lemma hexdigit_no_newline d : (hexdigit d =? 10) = false.
Proof. unfold hexdigit. destruct (d <? 10); lia. Qed.

Lemma escape_no_newline s : Forall (λ c, valid_cp c = true) s → Forall (λ c, (c =? 10) = false) (escape s).
Proof.
  induction 1 as [|c s Hc _ IH]; [constructor|]. rewrite escape_cons. apply Forall_app. split; [|done].
  unfold escape_char, hex4.
  repeat match goal with |- context [if ?b then _ else _] => destruct b eqn:? end; cbn [app];
    repeat constructor; (apply hexdigit_no_newline || by apply N.eqb_neq; intros ->).
Qed.

Lemma string_line_no_newline k s : bare_key k = true → Forall (λ c, valid_cp c = true) s →
  Forall (λ c, (c =? 10) = false) (string_line (k, s)).
Proof.
  unfold bare_key, string_line, quote. intros [_ Hk]%andb_true_iff Hs. cbn [fst snd].
  apply Forall_app. split; [|repeat constructor; apply Forall_app; split; [by apply escape_no_newline|by repeat constructor]].
  apply Forall_forall. intros c Hc. rewrite forallb_forall in Hk.
  by destruct (bare_key_char_plain c (Hk c (proj1 (list_elem_of_In _ _) Hc))) as (_ & _ & ?).
Qed.

(** The first text TOML refuses decides; else every line is a setting. *)
Lemma plain_string_lines l acc : Forall (λ kv, bare_key kv.1 = true ∧ Forall (λ c, valid_cp c = true) kv.2) l →
  NoDup (dkeys acc ++ l.*1) →
  plain_lines acc ((string_line <$> l) ++ [[]]) =
    Some (if forallb (λ kv, forallb toml_safe kv.2) l then Ok (acc ++ ((λ kv, (kv.1, SJson (JStr kv.2))) <$> l))
          else Err bad_escape).
Proof.
  intros Hl. revert acc. induction Hl as [|[k s] l [Hk Hs] _ IH]; intros acc Hd.
  { cbn. by rewrite app_nil_r. }
  cbn [fmap list_fmap app plain_lines forallb fst snd] in *. rewrite plain_string_line by done.
  destruct (forallb toml_safe s); [|done]. cbn [andb].
  assert (dmem k acc = false) as ->.
  { unfold dmem. apply bool_decide_eq_false. apply NoDup_app in Hd as (_ & Hd & _). intros Hin.
    apply (Hd k Hin). apply elem_of_cons. by left. }
  rewrite IH. 1: by rewrite <- app_assoc.
  unfold dkeys in *. rewrite fmap_app. cbn [fmap list_fmap fst]. by rewrite <- app_assoc.
Qed.

Lemma toml_plain_strings l : l ≠ [] →
  Forall (λ kv, bare_key kv.1 = true ∧ Forall (λ c, valid_cp c = true) kv.2) l → NoDup (l.*1) →
  toml_plain (join [10] (string_line <$> l) ++ [10]) =
    Some (if forallb (λ kv, forallb toml_safe kv.2) l then Ok ((λ kv, (kv.1, SJson (JStr kv.2))) <$> l)
          else Err bad_escape).
Proof.
  intros Hne Hl Hd. unfold toml_plain. rewrite split_lines; [by rewrite plain_string_lines|by destruct l|].
  apply Forall_fmap. eapply List.Forall_impl; [|exact Hl]. intros [k s] [Hk Hs]. by apply string_line_no_newline.
Qed.
