(* ===== verification/Settings.v ===== *)
(** Loading the configuration (src/src/build_engine/config.py, [load_config]):
    defaults, the configuration file, the credentials file, the environment and
    the command line, in this order; then the checks on whatever types the
    layers brought in. *)

From Corelib Require Import SpecFloat.
From S2P Require Import Prelude PyStr PyFloat Dict Json Protocol Fs Url Config Toml.

Local Open Scope Z_scope.

Definition type_error (msg : ustr) : exn := PyExn TypeError msg.

(** The fields of [EngineConfig] as a dict. *)
Definition settings_of (c : EngineConfig) : settings :=
  let text (o : option ustr) := SJson (match o with Some s => JStr s | None => JNull end) in
  let int z := SJson (JInt z) in
  [(u "backend_url", text (cf_backend_url c)); (u "name", text (cf_name c));
   (u "max_concurrency", int (cf_max_concurrency c));
   (u "heartbeat_interval_seconds", int (cf_heartbeat_interval_seconds c));
   (u "build_timeout_seconds", int (cf_build_timeout_seconds c));
   (u "sigterm_grace_seconds", int (cf_sigterm_grace_seconds c));
   (u "container_memory", SJson (JStr (cf_container_memory c)));
   (u "container_cpus", SJson (JFloat (cf_container_cpus c)));
   (u "artifact_max_bytes", int (cf_artifact_max_bytes c)); (u "cache_site_max_bytes", int (cf_cache_site_max_bytes c));
   (u "cache_ttl_days", int (cf_cache_ttl_days c)); (u "credentials_path", SPath (cf_credentials_path c));
   (u "state_dir", SPath (cf_state_dir c)); (u "image_manifest_version", SJson (JStr (cf_image_manifest_version c)));
   (u "images", STuple (cf_images c)); (u "storage_origins", STuple (cf_storage_origins c));
   (u "lease_seconds", int (cf_lease_seconds c)); (u "outbox_max_bytes", int (cf_outbox_max_bytes c));
   (u "state_retention_days", int (cf_state_retention_days c));
   (u "allow_local_source_urls", SJson (JBool (cf_allow_local_source_urls c)));
   (u "os", SJson (JStr (cf_os c))); (u "arch", SJson (JStr (cf_arch c)))].

(** * Values from texts *)

(** [Path(text)] below the working directory [cwd]: empty parts and dots vanish. *)
Definition path_of (cwd : path) (text : ustr) : path :=
  let parts := List.filter (λ c, negb (bool_decide (c = []) || ustr_eqb c (u "."))) (split_on 47 text) in
  if startswith text (u "/") then parts else cwd ++ parts.

(** [float(text)]: underscores only between digits; [None] is [ValueError]. *)
Fixpoint underscores_ok (digit_before : bool) (s : ustr) : bool :=
  match s with
  | [] => true
  | c :: r =>
      if (c =? 95)%N then digit_before && (match r with d :: _ => is_digit d | [] => false end) && underscores_ok false r
      else underscores_ok (is_digit c) r
  end.

Definition decimal_value (neg : bool) (s : ustr) : option pyfloat :=
  let '(ip, r) := take_digits s in
  let '(fp, r) := match r with 46%N :: r => take_digits r | _ => ([], r) end in
  if bool_decide (ip = []) && bool_decide (fp = []) then None
  else
    let value e := Some (float_of_decimal neg (N_of_digits (ip ++ fp)) (e - Z.of_nat (length fp))) in
    match r with
    | [] => value 0
    | c :: r =>
        if negb ((c =? 101) || (c =? 69))%N then None
        else
          let '(eneg, r) := match r with 45%N :: r => (true, r) | 43%N :: r => (false, r) | _ => (false, r) end in
          match take_digits r with
          | (d :: ds, []) => let e := Z.of_N (N_of_digits (d :: ds)) in value (if eneg : bool then - e else e)
          | _ => None
          end
    end.

Definition py_float (text : ustr) : option pyfloat :=
  let s := strip is_space text in
  if negb (underscores_ok false s) then None
  else
    let s := List.filter (λ c, negb (c =? 95)%N) s in
    let '(neg, s) := match s with 45%N :: s => (true, s) | 43%N :: s => (false, s) | _ => (false, s) end in
    if mem_str (lower s) [u "inf"; u "infinity"] then Some (S754_infinity neg)
    else if ustr_eqb (lower s) (u "nan") then Some S754_nan
    else decimal_value neg s.

(** The keys [_coerce_env_value] reads as integers. *)
Definition INT_KEYS : list ustr :=
  [u "max_concurrency"; u "heartbeat_interval_seconds"; u "build_timeout_seconds"; u "sigterm_grace_seconds";
   u "artifact_max_bytes"; u "cache_site_max_bytes"; u "cache_ttl_days"; u "lease_seconds"; u "outbox_max_bytes";
   u "state_retention_days"].

Definition coerce_env_value (cwd : path) (key value : ustr) : result setting :=
  if mem_str key INT_KEYS then
    match py_int (strip is_space) value with
    | Some z => Ok (SJson (JInt z))
    | None => Err (value_error (u "invalid literal for int() with base 10: " ++ py_repr_str value))
    end
  else if ustr_eqb key (u "container_cpus") then
    match py_float value with
    | Some f => Ok (SJson (JFloat f))
    | None => Err (value_error (u "could not convert string to float: " ++ py_repr_str value))
    end
  else if ustr_eqb key (u "allow_local_source_urls") then b ← bool_value value; Ok (SJson (JBool b))
  else if mem_str key [u "images"; u "storage_origins"] then Ok (STuple (split_csv value))
  else if endswith key (u "_path") || endswith key (u "_dir") then Ok (SPath (path_of cwd value))
  else Ok (SJson (JStr value)).

(** [str.upper()] on ASCII letters. *)
Definition upper (s : ustr) : ustr := (λ c, if ((97 <=? c) && (c <=? 122))%N then (c - 32)%N else c) <$> s.

Definition path_value (cwd : path) (value : setting) : path :=
  match value with SPath p => p | v => path_of cwd (set_str v) end.

(** * Checks on dynamic values ([__post_init__] of whatever was passed) *)

Inductive number := NInt (z : Z) | NFloat (f : pyfloat).

(** What [<=] against an int accepts. *)
Definition set_number (v : setting) : result number :=
  match v with
  | SJson (JInt z) => Ok (NInt z)
  | SJson (JBool b) => Ok (NInt (if b then 1 else 0))
  | SJson (JFloat f) => Ok (NFloat f)
  | _ => Err (type_error (u "'<=' not supported between instances"))
  end.

Definition small_float (n : N) : pyfloat := float_of_decimal false n 0.
Definition number_leb (v : number) (n : N) : bool :=
  match v with NInt z => z <=? Z.of_N n | NFloat f => float_leb f (small_float n) end.
Definition leb_number (n : N) (v : number) : bool :=
  match v with NInt z => Z.of_N n <=? z | NFloat f => float_leb (small_float n) f end.

Definition POSITIVE_KEYS : list ustr :=
  [u "heartbeat_interval_seconds"; u "build_timeout_seconds"; u "sigterm_grace_seconds"; u "artifact_max_bytes";
   u "cache_site_max_bytes"; u "cache_ttl_days"; u "lease_seconds"; u "outbox_max_bytes"; u "state_retention_days"].

(** [self.key]. *)
Definition at_key (key : ustr) (d : settings) : setting := default (SJson JNull) (dget key d).

Fixpoint check_positive_values (keys : list ustr) (d : settings) : result () :=
  match keys with
  | [] => Ok ()
  | key :: keys =>
      v ← set_number (at_key key d);
      fail_if (number_leb v 0) (value_error (key ++ u " must be positive"));;
      check_positive_values keys d
  end.

(** Iterating over the value of [storage_origins]. *)
Definition set_items (v : setting) : result (list json) :=
  match v with
  | STuple l => Ok (JStr <$> l)
  | SJson (JList l) => Ok l
  | SJson (JObj o) => Ok (JStr <$> dkeys o)
  | SJson (JStr s) => Ok ((λ c, JStr [c]) <$> s)
  | _ => Err (type_error (u "object is not iterable"))
  end.

Definition nonempty_text (j : json) : bool := match j with JStr (_ :: _) => true | _ => false end.

Section settings.
Context `{Tomllib} (netloc_check : ustr → result ()).
(** The working directory, [platform.system()], [platform.machine()], [os.environ]. *)
Context (cwd : path) (system machine : ustr) (environ : list (ustr * ustr)).

(** [_is_secure_origin] of any value: [urlparse] decodes what is not a [str]. *)
Definition secure_value (v : setting) : result bool :=
  match v with
  | SJson (JStr s) => is_secure_origin netloc_check s
  | v => if set_truthy v then Err (PyExn AttributeErrorC (u "object has no attribute 'decode'")) else Ok false
  end.

Fixpoint any_insecure_value (items : list json) : result bool :=
  match items with
  | [] => Ok false
  | j :: items => ok ← secure_value (SJson j); if ok : bool then any_insecure_value items else Ok true
  end.

(** [EngineConfig( **values)]. *)
Definition check_settings (d : settings) : result settings :=
  n ← set_number (at_key (u "max_concurrency") d);
  fail_if (negb (leb_number 1 n && number_leb n 16)) (value_error (u "max_concurrency must be between 1 and 16"));;
  check_positive_values POSITIVE_KEYS d;;
  cpus ← set_number (at_key (u "container_cpus") d);
  fail_if (number_leb cpus 0) (value_error (u "container_cpus must be positive"));;
  fail_if (negb (set_truthy (at_key (u "image_manifest_version") d)))
    (value_error (u "image_manifest_version must not be empty"));;
  fail_if (negb (set_truthy (at_key (u "images") d))) (value_error (u "at least one builder image must be configured"));;
  origins ← set_items (at_key (u "storage_origins") d);
  fail_if (negb (forallb nonempty_text origins)) (value_error (u "storage_origins must contain non-empty origins"));;
  match at_key (u "backend_url") d with
  | SJson JNull => Ok ()
  | url => ok ← secure_value url; fail_if (negb ok) (value_error (u "backend_url must use HTTPS"))
  end;;
  insecure ← any_insecure_value origins;
  fail_if insecure (value_error (u "storage_origins must use HTTPS"));;
  Ok d.

(** * The layers *)

Definition config_defaults : settings := settings_of (default_config (lower system) (normalize_arch machine)).

Definition CONFIG_FIELDS : list ustr := dkeys config_defaults.

Definition load_toml (p : path) : M fs settings :=
  b ← read_bytes p;
  text ← lift (utf8_decode b);
  lift (dict_of_pairs <$> toml_loads text).

(** The variable of a setting. *)
Definition env_name (key : ustr) : ustr := u "BUILD_ENGINE_" ++ upper key.

Fixpoint env_layer (keys : list ustr) (env : list (ustr * ustr)) : result settings :=
  match keys with
  | [] => Ok []
  | key :: keys =>
      match dget (env_name key) env with
      | Some text => v ← coerce_env_value cwd key text; rest ← env_layer keys env; Ok ((key, v) :: rest)
      | None => env_layer keys env
      end
  end.

Definition env_overrides (env : list (ustr * ustr)) : result settings := env_layer CONFIG_FIELDS env.

(** A list or a comma separated text becomes a tuple of texts. *)
Definition coerce_texts (key : ustr) (d : settings) : settings :=
  match dget key d with
  | Some (SJson (JList l)) => dset key (STuple (py_str <$> l)) d
  | Some (SJson (JStr s)) => dset key (STuple (split_csv s)) d
  | _ => d
  end.

Definition coerce_config_values (d : settings) : result settings :=
  let d := dset (u "credentials_path") (SPath (path_value cwd (at_key (u "credentials_path") d))) d in
  let d := dset (u "state_dir") (SPath (path_value cwd (at_key (u "state_dir") d))) d in
  let d := coerce_texts (u "images") d in
  let d := coerce_texts (u "storage_origins") d in
  match dget (u "allow_local_source_urls") d with
  | Some (SJson (JStr s)) => b ← bool_value s; Ok (dset (u "allow_local_source_urls") (SJson (JBool b)) d)
  | _ => Ok d
  end.

(** The keys a credentials file contributes. *)
Definition credentials_layer (d : settings) : settings :=
  List.filter (λ kv, mem_str kv.1 [u "backend_url"; u "name"]) d.

(** A file's settings, none if it is missing. *)
Definition file_layer (p : path) : M fs settings :=
  there ← gets (λ f, exists_ f p);
  if (there : bool) then load_toml p else mret [].

(** The overrides that are not [None]. *)
Definition given (overrides : list (ustr * option setting)) : settings :=
  omap (λ kv, (λ v, (kv.1, v)) <$> kv.2) overrides.

(** [env or os.environ]. *)
Definition chosen_env (env : option (list (ustr * ustr))) : list (ustr * ustr) :=
  match env with Some (x :: e) => x :: e | _ => environ end.

Definition DEFAULT_CONFIG_PATH : path := [u "etc"; u "mincemeat"; u "build-engine"; u "config.toml"].

(** [values] before the checks; the environment is [os.environ] when none is given. *)
Definition merged (config_path credentials_path : option ustr) (env : option (list (ustr * ustr)))
    (overrides : list (ustr * option setting)) : M fs settings :=
  file ← file_layer (match config_path with Some t => path_of cwd t | None => DEFAULT_CONFIG_PATH end);
  let values := dmerge config_defaults file in
  let values := match credentials_path with
                | Some t => dset (u "credentials_path") (SPath (path_of cwd t)) values
                | None => values
                end in
  let active := path_value cwd (at_key (u "credentials_path") values) in
  let values := dset (u "credentials_path") (SPath active) values in
  credentials ← file_layer active;
  let values := dmerge values (credentials_layer credentials) in
  from_env ← lift (env_overrides (chosen_env env));
  mret (dmerge (dmerge values from_env) (given overrides)).

Definition load_config (config_path credentials_path : option ustr) (env : option (list (ustr * ustr)))
    (overrides : list (ustr * option setting)) : M fs settings :=
  values ← merged config_path credentials_path env overrides;
  match List.filter (λ k, negb (mem_str k CONFIG_FIELDS)) (dkeys values) with
  | [] =>
      values ← lift (coerce_config_values values);
      lift (check_settings values)
  | unknown => raise (value_error (u "Unknown configuration keys: " ++ join (u ", ") (sort_by ustr_leb unknown)))
  end.

End settings.

(** * Configurations of the declared types *)

Definition as_text (v : setting) : option ustr := match v with SJson (JStr s) => Some s | _ => None end.
Definition as_optional (v : setting) : option (option ustr) :=
  match v with SJson JNull => Some None | SJson (JStr s) => Some (Some s) | _ => None end.
Definition as_int (v : setting) : option Z := match v with SJson (JInt z) => Some z | _ => None end.
Definition as_float (v : setting) : option pyfloat := match v with SJson (JFloat f) => Some f | _ => None end.
Definition as_bool (v : setting) : option bool := match v with SJson (JBool b) => Some b | _ => None end.
Definition as_path (v : setting) : option path := match v with SPath p => Some p | _ => None end.
Definition as_texts (v : setting) : option (list ustr) := match v with STuple l => Some l | _ => None end.

(** The configuration of a dict whose values have the declared types. *)
Definition config_of (d : settings) : option EngineConfig :=
  let at_ k := at_key (u k) d in
  backend_url ← as_optional (at_ "backend_url"); name ← as_optional (at_ "name");
  max_concurrency ← as_int (at_ "max_concurrency"); heartbeat ← as_int (at_ "heartbeat_interval_seconds");
  build_timeout ← as_int (at_ "build_timeout_seconds"); grace ← as_int (at_ "sigterm_grace_seconds");
  memory ← as_text (at_ "container_memory"); cpus ← as_float (at_ "container_cpus");
  artifact ← as_int (at_ "artifact_max_bytes"); cache ← as_int (at_ "cache_site_max_bytes");
  ttl ← as_int (at_ "cache_ttl_days"); credentials ← as_path (at_ "credentials_path");
  state ← as_path (at_ "state_dir"); manifest ← as_text (at_ "image_manifest_version");
  images ← as_texts (at_ "images"); origins ← as_texts (at_ "storage_origins");
  lease ← as_int (at_ "lease_seconds"); outbox ← as_int (at_ "outbox_max_bytes");
  retention ← as_int (at_ "state_retention_days"); local ← as_bool (at_ "allow_local_source_urls");
  os ← as_text (at_ "os"); arch ← as_text (at_ "arch");
  Some (MkEngineConfig backend_url name max_concurrency heartbeat build_timeout grace memory cpus artifact cache ttl
          credentials state manifest images origins lease outbox retention local os arch).
