(* ===== verification/SettingsProofs.v ===== *)
(** Properties of the loaded configuration: the order of the layers, and that
    the checks on dynamic values are those of the typed configuration. *)

From Corelib Require Import SpecFloat.
From S2P Require Import Prelude PyStr PyFloat Dict Json Protocol Fs Url Config Toml Settings.

Local Open Scope Z_scope.

(** * Typed configurations *)

Lemma number_leb_Z z n : number_leb (NInt z) n = (z <=? Z.of_N n).
Proof. done. Qed.

Lemma nonempty_texts l : forallb nonempty_text (JStr <$> l) = negb (mem_str [] l).
Proof.
  unfold mem_str. induction l as [|[|c s] l IH]; [done|cbn; by rewrite bool_decide_true by left|].
  cbn [fmap list_fmap forallb nonempty_text]. cbn [andb]. rewrite IH. f_equal. apply bool_decide_ext.
  rewrite elem_of_cons. naive_solver.
Qed.

Section typed.
Context (netloc_check : ustr → result ()).

Lemma any_insecure_texts l : any_insecure_value netloc_check (JStr <$> l) = any_insecure netloc_check l.
Proof. induction l as [|s l IH]; [done|]. cbn. munfold. by destruct (is_secure_origin _ s) as [[]|]. Qed.

Lemma as_int_Some v z : as_int v = Some z → v = SJson (JInt z).
Proof. destruct v as [[]| | |]; cbn; congruence. Qed.
Lemma as_float_Some v z : as_float v = Some z → v = SJson (JFloat z).
Proof. destruct v as [[]| | |]; cbn; congruence. Qed.
Lemma as_text_Some v z : as_text v = Some z → v = SJson (JStr z).
Proof. destruct v as [[]| | |]; cbn; congruence. Qed.
Lemma as_texts_Some v l : as_texts v = Some l → v = STuple l.
Proof. destruct v as [[]| | |]; cbn; congruence. Qed.
Lemma as_optional_Some v o : as_optional v = Some o → v = SJson (match o with Some s => JStr s | None => JNull end).
Proof. destruct v as [[]| | |]; cbn; try congruence; by intros [= <-]. Qed.

(** On values of the declared types the dynamic checks are [post_init]. *)
Lemma check_settings_typed d c : config_of d = Some c →
  check_settings netloc_check d = (λ _, d) <$> post_init netloc_check c.
Proof.
  unfold config_of. cbv zeta. munfold. intros H. repeat (case_in H; [|done]). injection H as <-.
  repeat match goal with
  | E : as_int _ = Some _ |- _ => apply as_int_Some in E
  | E : as_float _ = Some _ |- _ => apply as_float_Some in E
  | E : as_text _ = Some _ |- _ => apply as_text_Some in E
  | E : as_texts _ = Some _ |- _ => apply as_texts_Some in E
  | E : as_optional _ = Some _ |- _ => apply as_optional_Some in E
  end.
  unfold check_settings, post_init, positive_fields, POSITIVE_KEYS. cbn [check_positive_values].
  repeat match goal with E : at_key _ d = _ |- _ => rewrite E; clear E end.
  cbn [set_number set_items leb_number number_leb check_positive cf_max_concurrency cf_heartbeat_interval_seconds
    cf_build_timeout_seconds cf_sigterm_grace_seconds cf_artifact_max_bytes cf_cache_site_max_bytes cf_cache_ttl_days
    cf_lease_seconds cf_outbox_max_bytes cf_state_retention_days cf_container_cpus cf_image_manifest_version cf_images
    cf_storage_origins cf_backend_url].
  change (Ok (JStr <$> ?l) ≫= ?f) with (f (JStr <$> l)). cbv beta.
  rewrite set_truthy_text, nonempty_texts, any_insecure_texts, !negb_involutive. cbn [set_truthy]. rewrite negb_involutive.
  cbv beta iota zeta delta [mbind result_bind fmap result_fmap fail_if].
  cbn [leb_number number_leb Z.of_N].
  change (small_float 0) with (S754_zero false).
  repeat (match goal with |- context [if ?b then _ else _] => destruct b end; [reflexivity|]).
  destruct o as [url|]; cbv beta iota.
  1: cbn [secure_value]; destruct (is_secure_origin netloc_check url) as [[]|]; try reflexivity; cbn [negb].
  all: by destruct (any_insecure netloc_check l4) as [[]|].
Qed.
End typed.

(** * The layers *)

Lemma dget_dset {V} (k k' : ustr) (v : V) d : dget k' (dset k v d) = if decide (k = k') then Some v else dget k' d.
Proof. case_decide as E; [subst; apply dget_dset_eq|by apply dget_dset_ne]. Qed.

(** [dget] through a filter on keys. *)
Lemma dget_filter {V} (p : ustr → bool) (d : list (ustr * V)) k :
  dget k (List.filter (λ kv, p kv.1) d) = if p k then dget k d else None.
Proof.
  induction d as [|[k' v'] d IH]; [by destruct (p k)|]. cbn [List.filter fst]. destruct (p k') eqn:E; cbn [dget];
    case_decide; subst; rewrite ?E, ?IH; try done. by rewrite E.
Qed.

Lemma filter_keys_NoDup {V} (p : ustr → bool) (d : list (ustr * V)) :
  NoDup (dkeys d) → NoDup (dkeys (List.filter (λ kv, p kv.1) d)).
Proof.
  unfold dkeys. induction d as [|[k v] d IH]; [done|]. cbn [List.filter fst fmap list_fmap]. rewrite NoDup_cons. intros [Hk Hd].
  destruct (p k); [|by apply IH]. cbn [fmap list_fmap fst]. apply NoDup_cons. split; [|by apply IH]. contradict Hk.
  apply list_elem_of_fmap in Hk as (x & -> & Hx%list_elem_of_In). apply List.filter_In in Hx as [Hx _].
  apply list_elem_of_fmap. exists x. split; [done|by apply list_elem_of_In].
Qed.

(** The first layer that has a value. *)
Fixpoint first_of {A} (l : list (option A)) : option A :=
  match l with [] => None | Some a :: _ => Some a | None :: l => first_of l end.

Section layers.
Context `{Tomllib} (netloc_check : ustr → result ()).
Context (cwd : path) (system machine : ustr) (environ : list (ustr * ustr)).

Abbreviation defaults := (config_defaults system machine).
Abbreviation CONFIG := (CONFIG_FIELDS system machine).

Definition texts_of (v : setting) : setting :=
  match v with
  | SJson (JList l) => STuple (py_str <$> l)
  | SJson (JStr s) => STuple (split_csv s)
  | v => v
  end.

(** What [_coerce_config_values] makes of the value of one key. *)
Definition coerce_one (key : ustr) (v : setting) : result setting :=
  if decide (u "credentials_path" = key) then Ok (SPath (path_value cwd v))
  else if decide (u "state_dir" = key) then Ok (SPath (path_value cwd v))
  else if decide (u "images" = key) then Ok (texts_of v)
  else if decide (u "storage_origins" = key) then Ok (texts_of v)
  else if decide (u "allow_local_source_urls" = key)
  then match v with SJson (JStr s) => b ← bool_value s; Ok (SJson (JBool b)) | _ => Ok v end
  else Ok v.

Lemma coerce_texts_get key d k :
  dget k (coerce_texts key d) = if decide (key = k) then texts_of <$> dget k d else dget k d.
Proof.
  unfold coerce_texts. case_decide as E; [subst key|].
  - destruct (dget k d) as [[[]| | |]|] eqn:Ek; cbn; rewrite ?dget_dset, ?decide_True; done.
  - destruct (dget key d) as [[[]| | |]|]; rewrite ?dget_dset, ?decide_False; done.
Qed.

(** The settings before the boolean is read. *)
Lemma coerce_values_most d k cp sd v :
  dget (u "credentials_path") d = Some cp → dget (u "state_dir") d = Some sd → dget k d = Some v →
  u "allow_local_source_urls" ≠ k →
  ∃ v', coerce_one k v = Ok v' ∧
    dget k (coerce_texts (u "storage_origins") (coerce_texts (u "images")
      (dset (u "state_dir") (SPath (path_value cwd sd)) (dset (u "credentials_path") (SPath (path_value cwd cp)) d)))) = Some v'.
Proof.
  intros Hcp Hsd Hk Hne. unfold coerce_one. rewrite !coerce_texts_get, !dget_dset, Hk.
  destruct (decide (u "credentials_path" = k)) as [<-|]; [|destruct (decide (u "state_dir" = k)) as [<-|]].
  - rewrite Hcp in Hk. injection Hk as ->. by eexists.
  - rewrite Hsd in Hk. injection Hk as ->. by eexists.
  - destruct (decide (u "images" = k)) as [<-|]; [by eexists|].
    destruct (decide (u "storage_origins" = k)) as [<-|]; [by eexists|].
    destruct (decide (u "allow_local_source_urls" = k)) as [<-|]; [done|]. by eexists.
Qed.

Lemma coerce_values_get d d' k v :
  coerce_config_values cwd d = Ok d' → is_Some (dget (u "credentials_path") d) → is_Some (dget (u "state_dir") d) →
  dget k d = Some v → ∃ v', coerce_one k v = Ok v' ∧ dget k d' = Some v'.
Proof.
  intros Hc [cp Hcp] [sd Hsd] Hk. unfold coerce_config_values, at_key in Hc. cbv zeta in Hc.
  rewrite dget_dset, decide_False in Hc by done. rewrite Hcp, Hsd in Hc. cbn [default id] in Hc.
  pose proof (coerce_values_most d k cp sd v Hcp Hsd Hk) as Hmost.
  assert (dget (u "allow_local_source_urls") (coerce_texts (u "storage_origins") (coerce_texts (u "images")
    (dset (u "state_dir") (SPath (path_value cwd sd)) (dset (u "credentials_path") (SPath (path_value cwd cp)) d))))
    = dget (u "allow_local_source_urls") d) as Hb.
  { by rewrite !coerce_texts_get, !dget_dset, !decide_False. }
  set (d2 := coerce_texts (u "storage_origins") _) in *. clearbody d2. cbv beta iota in Hc. rewrite Hb in Hc.
  destruct (decide (u "allow_local_source_urls" = k)) as [<-|Hne].
  - unfold coerce_one. rewrite !decide_False, decide_True by done. rewrite Hk in Hc.
    destruct v as [[]| | |]; try (injection Hc as <-; rewrite Hb; by eexists).
    munfold. destruct (bool_value s) as [b|]; [|done]. injection Hc as <-. rewrite dget_dset_eq. by eexists.
  - destruct (Hmost Hne) as (v' & Hv & Hd). exists v'. split; [done|].
    destruct (dget (u "allow_local_source_urls") d) as [[[]| | |]|]; try (by injection Hc as <-).
    munfold. destruct (bool_value s) as [b|]; [|done]. injection Hc as <-. by rewrite dget_dset_ne.
Qed.

Lemma defaults_NoDup : NoDup (dkeys defaults).
Proof. unfold dkeys, config_defaults. by apply (bool_decide_unpack _). Qed.

Lemma env_layer_get keys env d : env_layer cwd keys env = Ok d → NoDup keys →
  NoDup (dkeys d) ∧ ∀ k,
  match dget k d with
  | Some v => k ∈ keys ∧ ∃ text, dget (env_name k) env = Some text ∧ coerce_env_value cwd k text = Ok v
  | None => k ∈ keys → dget (env_name k) env = None
  end.
Proof.
  revert d. induction keys as [|key keys IH]; intros d; cbn [env_layer].
  { intros [= <-] _. split; [constructor|]. intros k. cbn. by intros ?%elem_of_nil. }
  intros Hd [Hkey Hn]%NoDup_cons. destruct (dget (env_name key) env) as [text|] eqn:Et.
  - munfold. destruct (coerce_env_value cwd key text) as [v|] eqn:Ev; [|done].
    destruct (env_layer cwd keys env) as [rest|] eqn:Er; [|done]. injection Hd as <-.
    destruct (IH rest eq_refl Hn) as [Hr Hall]. split.
    + cbn. apply NoDup_cons. split; [|done]. apply dget_None. specialize (Hall key). by destruct (dget key rest) as [?|]; [destruct Hall|].
    + intros k. cbn [dget]. specialize (Hall k). case_decide as Ek; [subst k; split; [by left|eauto]|].
      destruct (dget k rest); [destruct Hall as [? ?]; split; [by right|done]|].
      intros [->|?]%elem_of_cons; [done|]. by apply Hall.
  - destruct (IH d Hd Hn) as [Hr Hall]. split; [done|]. intros k. specialize (Hall k).
    destruct (dget k d); [destruct Hall as [? ?]; split; [by right|done]|].
    intros [->|?]%elem_of_cons; [done|]. by apply Hall.
Qed.

(** Compare [env_overrides] by unfolding it, not by running the loop. *)
#[local] Strategy 100 [env_layer].

Lemma env_overrides_NoDup env d : env_overrides cwd system machine env = Ok d → NoDup (dkeys d).
Proof. unfold env_overrides. intros E. apply (env_layer_get _ _ _ E defaults_NoDup). Qed.

Lemma file_layer_run p f r f' : file_layer p f = (r, f') →
  f' = f ∧ ∀ d, r = Ok d → NoDup (dkeys d).
Proof.
  unfold file_layer, load_toml, read_bytes. munfold. destruct (exists_ f p).
  2: { intros [= <- <-]. split; [done|]. intros d [= <-]. constructor. }
  destruct (stat f p) as [[content ? ?| |]|]; try (by intros [= <- <-]).
  destruct (utf8_decode content) as [text|]; [|by intros [= <- <-]].
  destruct (toml_loads text) as [l|]; intros [= <- <-]; [|done]. split; [done|]. intros d [= <-]. apply dict_of_pairs_NoDup.
Qed.

Lemma given_NoDup overrides : NoDup (overrides.*1) → NoDup (dkeys (given overrides)).
Proof.
  unfold dkeys, given. induction overrides as [|[k [v|]] l IH]; cbn; [done| |];
    intros [Hk Hl]%NoDup_cons; [|by apply IH]. apply NoDup_cons. split; [|by apply IH].
  contradict Hk. apply list_elem_of_fmap in Hk as ([k' v'] & -> & Hin). cbn.
  apply list_elem_of_omap in Hin as ([k2 o2] & Hin & E). cbn in E. destruct o2; [|done]. injection E as -> ->.
  apply list_elem_of_fmap. by exists (k', Some v').
Qed.

(** The credentials file that is consulted: the one of the command line, else
    the configuration file's, else the default. *)
Definition active_credentials (credentials_path : option ustr) (file : settings) : path :=
  match credentials_path with
  | Some t => path_of cwd t
  | None => path_value cwd (default (SPath (cf_credentials_path (default_config [] []))) (dget (u "credentials_path") file))
  end.

Lemma default_credentials :
  dget (u "credentials_path") defaults = Some (SPath (cf_credentials_path (default_config [] []))).
Proof. vm_compute. reflexivity. Qed.

Lemma active_get credentials_path file : NoDup (dkeys file) →
  let values := dmerge defaults file in
  path_value cwd (at_key (u "credentials_path")
    match credentials_path with Some t => dset (u "credentials_path") (SPath (path_of cwd t)) values | None => values end)
  = active_credentials credentials_path file.
Proof.
  intros Hf values. unfold active_credentials, at_key. destruct credentials_path as [t|]; [by rewrite dget_dset_eq|].
  unfold values. rewrite (dmerge_get _ _ _ Hf), default_credentials.
  destruct (dget (u "credentials_path") file); reflexivity.
Qed.

(** The settings of the layers below the environment. *)
Definition base_values (credentials_path : option ustr) (file creds : settings) : settings :=
  let values := dmerge defaults file in
  let values := match credentials_path with
                | Some t => dset (u "credentials_path") (SPath (path_of cwd t)) values
                | None => values
                end in
  dmerge (dset (u "credentials_path") (SPath (active_credentials credentials_path file)) values) (credentials_layer creds).

Lemma merged_run config_path credentials_path env overrides f values f' :
  merged cwd system machine environ config_path credentials_path env overrides f = (Ok values, f') →
  f' = f ∧ ∃ file creds from_env,
    file_layer (match config_path with Some t => path_of cwd t | None => DEFAULT_CONFIG_PATH end) f = (Ok file, f) ∧
    file_layer (active_credentials credentials_path file) f = (Ok creds, f) ∧
    env_overrides cwd system machine (chosen_env environ env) = Ok from_env ∧
    values = dmerge (dmerge (base_values credentials_path file creds) from_env) (given overrides).
Proof.
  unfold merged. unfold mbind at 1, M_bind at 1.
  destruct (file_layer _ f) as [[file|] f1] eqn:Ef; [|done].
  destruct (file_layer_run _ _ _ _ Ef) as [-> Hf]. specialize (Hf file eq_refl). cbv zeta.
  pose proof (active_get credentials_path file Hf) as Ea. cbv zeta in Ea. rewrite Ea. clear Ea.
  unfold mbind at 1, M_bind at 1. destruct (file_layer (active_credentials credentials_path file) f) as [[creds|] f2] eqn:Ec; [|done].
  destruct (file_layer_run _ _ _ _ Ec) as [-> _]. unfold mbind, M_bind, lift.
  destruct (env_overrides _ _ _ _) as [from_env|] eqn:Ee; [|done]. intros [= <- <-].
  split; [reflexivity|]. exists file, creds, from_env. split; [reflexivity|]. split; [exact Ec|]. split; reflexivity.
Qed.

Lemma base_get credentials_path file creds k : NoDup (dkeys file) → NoDup (dkeys creds) →
  dget k (base_values credentials_path file creds) = first_of
    [dget k (credentials_layer creds);
     (if decide (u "credentials_path" = k) then Some (SPath (active_credentials credentials_path file)) else None);
     dget k file; dget k defaults].
Proof.
  intros Hf Hc. unfold base_values. cbv zeta.
  assert (NoDup (dkeys (credentials_layer creds))) as Hcn by (by apply (filter_keys_NoDup (λ k, mem_str k [u "backend_url"; u "name"]))).
  rewrite (dmerge_get _ _ _ Hcn). cbn [first_of]. destruct (dget k (credentials_layer creds)); [reflexivity|].
  rewrite dget_dset. case_decide as Ek; [reflexivity|].
  assert (∀ d, dget k match credentials_path with Some t => dset (u "credentials_path") (SPath (path_of cwd t)) d
    | None => d end = dget k d) as ->.
  { intros d. destruct credentials_path; [|reflexivity]. by apply dget_dset_ne. }
  rewrite (dmerge_get _ _ _ Hf). destruct (dget k file); [reflexivity|]. destruct (dget k defaults); reflexivity.
Qed.

Lemma merged_get config_path credentials_path env overrides f values f' :
  NoDup (overrides.*1) →
  merged cwd system machine environ config_path credentials_path env overrides f = (Ok values, f') →
  f' = f ∧ ∃ file creds from_env,
    file_layer (match config_path with Some t => path_of cwd t | None => DEFAULT_CONFIG_PATH end) f = (Ok file, f) ∧
    file_layer (active_credentials credentials_path file) f = (Ok creds, f) ∧
    env_overrides cwd system machine (chosen_env environ env) = Ok from_env ∧
    ∀ k, dget k values = first_of
      [dget k (given overrides); dget k from_env; dget k (credentials_layer creds);
       (if decide (u "credentials_path" = k) then Some (SPath (active_credentials credentials_path file)) else None);
       dget k file; dget k defaults].
Proof.
  intros Ho Em. destruct (merged_run _ _ _ _ _ _ _ Em) as (-> & file & creds & from_env & Ef & Ec & Ee & ->).
  split; [reflexivity|]. exists file, creds, from_env. split; [exact Ef|]. split; [exact Ec|]. split; [exact Ee|]. intros k.
  pose proof (env_overrides_NoDup _ _ Ee) as He.
  rewrite (dmerge_get _ _ _ (given_NoDup _ Ho)), (dmerge_get _ _ _ He), base_get.
  - cbn [first_of]. destruct (dget k (given overrides)); [reflexivity|]. destruct (dget k from_env); reflexivity.
  - by apply (proj2 (file_layer_run _ _ _ _ Ef)).
  - by apply (proj2 (file_layer_run _ _ _ _ Ec)).
Qed.

Lemma check_settings_same d d' : check_settings netloc_check d = Ok d' → d' = d.
Proof.
  unfold check_settings. intros E. repeat apply result_bind_Ok_inv in E as (? & _ & E). by injection E as <-.
Qed.

(** C24: the order of the layers. Loading the configuration changes no file. Each
    setting of the result comes from the first of: the overrides of the command
    line, the environment, the credentials file (only the backend's address and
    the name), the path of that credentials file (only for [credentials_path]),
    the configuration file, the default; lists and texts then become tuples,
    paths and truth values, and the checks have passed. The path given by
    [--credentials] is no override: for the setting [credentials_path] the
    environment is stronger than it, although the credentials file that is
    consulted is the one of the command line, of the configuration file or the
    default, never the one the environment names. Settings the engine does not
    know are refused. *)
Theorem config_layers config_path credentials_path env overrides f d f' :
  NoDup (overrides.*1) →
  load_config netloc_check cwd system machine environ config_path credentials_path env overrides f = (Ok d, f') →
  f' = f ∧ check_settings netloc_check d = Ok d ∧ ∃ file creds from_env,
    file_layer (match config_path with Some t => path_of cwd t | None => DEFAULT_CONFIG_PATH end) f = (Ok file, f) ∧
    file_layer (active_credentials credentials_path file) f = (Ok creds, f) ∧
    env_overrides cwd system machine (chosen_env environ env) = Ok from_env ∧
    Forall (λ k, k ∈ CONFIG) (dkeys (given overrides) ++ dkeys file) ∧
    ∀ k, k ∈ CONFIG → ∃ v v', coerce_one k v = Ok v' ∧ dget k d = Some v' ∧
      first_of
        [dget k (given overrides); dget k from_env; dget k (credentials_layer creds);
         (if decide (u "credentials_path" = k) then Some (SPath (active_credentials credentials_path file)) else None);
         dget k file; dget k defaults] = Some v.
Proof.
  intros Ho. unfold load_config. unfold mbind at 1, M_bind at 1.
  destruct (merged _ _ _ _ _ _ _ _ f) as [[values|] f1] eqn:Em; [|done].
  destruct (merged_get _ _ _ _ _ _ _ Ho Em) as (-> & file & creds & from_env & Ef & Ec & Ee & Hget).
  destruct (List.filter _ (dkeys values)) eqn:Eu; [|done]. munfold.
  destruct (coerce_config_values cwd values) as [d1|] eqn:Ed; [|done].
  destruct (check_settings netloc_check d1) as [d2|] eqn:Eck; [|done]. pose proof (check_settings_same _ _ Eck) as ->.
  intros [= <- <-]. split; [done|]. split; [done|]. exists file, creds, from_env. split_and!; try done.
  - assert (∀ k v, dget k values = Some v → k ∈ CONFIG) as Hk.
    { intros k v Hv. destruct (mem_str k CONFIG) eqn:Hm; [by apply bool_decide_eq_true in Hm|]. exfalso.
      assert (In k []) as []. rewrite <- Eu. apply List.filter_In. rewrite Hm. split; [|done].
      apply list_elem_of_In, list_elem_of_fmap. exists (k, v). split; [done|]. by apply dget_Some_elem. }
    apply Forall_forall. intros k Hin. destruct (dget k values) as [v|] eqn:Ev; [by eapply Hk|].
    rewrite Hget in Ev. cbn [first_of] in Ev.
    apply elem_of_app in Hin as [Hin|Hin]; [destruct (dget k (given overrides)) eqn:Eg; [done|]; by apply dget_None in Eg|].
    destruct (dget k file) eqn:Eg; [|by apply dget_None in Eg].
    destruct (dget k (given overrides)), (dget k from_env), (dget k (credentials_layer creds)); try done.
    by destruct (decide (u "credentials_path" = k)).
  - intros k Hk. assert (∀ k, k ∈ CONFIG → is_Some (dget k values)) as Hall.
    { intros k' Hk'. rewrite Hget. cbn [first_of]. destruct (dget k' defaults) eqn:E; [|by apply dget_None in E].
      repeat case_match; eauto. }
    destruct (Hall k Hk) as [v Hv].
    destruct (coerce_values_get values d1 k v Ed) as (v' & Hc & Hd); try done.
    1, 2: apply Hall; unfold CONFIG_FIELDS, dkeys, config_defaults; by apply (bool_decide_unpack _).
    exists v, v'. split_and!; [done..|]. by rewrite <- Hget.
Qed.
End layers.
