(* ===== verification/AuthProofs.v ===== *)
(** Lemmas on session timestamps: [parse_datetime] inverts [isoformat]. *)

From S2P Require Import Prelude PyStr Dict Json Clock Uuid Protocol Fs Url Config Artifact Auth.

Local Open Scope Z_scope.

#[local] Ltac Zify.zify_post_hook ::= Z.to_euclidean_division_equations.

Definition hms (h mi s : Z) : ustr := pad_dec 2 h ++ [58%N] ++ pad_dec 2 mi ++ [58%N] ++ pad_dec 2 s.
Definition fraction (us : Z) : ustr := if us =? 0 then [] else [46%N] ++ pad_dec 6 us.

(** [isoformat] without its offset. *)
Definition iso_text (t : instant) : ustr :=
  let '(y, m, d) := ord2ymd (t / DAY) in
  let us := t mod DAY in
  iso_date y m d ++ [84%N] ++ hms (us / (3600 * US)) (us / (60 * US) mod 60) (us / US mod 60) ++ fraction (us mod US).

Lemma isoformat_text t : isoformat t = iso_text t ++ u "+00:00".
Proof.
  unfold isoformat, iso_text, hms, fraction. destruct (ord2ymd _) as [[y m] d]. cbv zeta. by rewrite <- !app_assoc.
Qed.

Lemma time_parts us : 0 <= us < DAY →
  let h := us / (3600 * US) in let mi := us / (60 * US) mod 60 in
  let s := us / US mod 60 in let f := us mod US in
  0 <= h < 24 ∧ 0 <= mi < 60 ∧ 0 <= s < 60 ∧ 0 <= f < US ∧ us = ((h * 60 + mi) * 60 + s) * US + f.
Proof. unfold DAY, US. simpl. lia. Qed.

Lemma fraction_ne c us : 0 <= us < US → is_digit c = false → c ≠ 46%N → Forall (λ d, d ≠ c) (fraction us).
Proof.
  intros Hus Hc H46. unfold fraction. destruct (us =? 0); [constructor|]. constructor; [by intros <-|].
  apply pad_dec_ne; [|done]. unfold US in *. simpl. lia.
Qed.

Lemma hms_ne c h mi s : 0 <= h < 24 → 0 <= mi < 60 → 0 <= s < 60 → is_digit c = false → c ≠ 58%N →
  Forall (λ d, d ≠ c) (hms h mi s).
Proof.
  intros. unfold hms.
  repeat (apply Forall_app; split); try (apply pad_dec_ne; [simpl; lia|done]); (constructor; [by intros <-|constructor]).
Qed.

Lemma parse_hhmmss_fraction h mi s us : 0 <= h < 24 → 0 <= mi < 60 → 0 <= s < 60 → 0 <= us < US →
  parse_hhmmss (hms h mi s ++ fraction us) = Some (h, mi, s, us).
Proof.
  intros. unfold parse_hhmmss, hms. munfold. rewrite <- !app_assoc.
  rewrite parse_digits_pad by (simpl; lia). cbn [app N.eqb Pos.eqb].
  rewrite parse_digits_pad by (simpl; lia). cbn [app N.eqb Pos.eqb drop_char].
  rewrite parse_digits_pad by (simpl; lia). unfold fraction. destruct (Z.eqb_spec us 0) as [->|Hne]; [done|]. cbn [app].
  change (is_mark 46) with true. unfold parse_fraction. rewrite pad_dec_length.
  change (Nat.min 6 6) with 6%nat. munfold.
  rewrite <- (app_nil_r (pad_dec 6 us)), parse_digits_pad by (unfold US in *; simpl; lia). cbn [forallb andb negb Nat.eqb].
  by rewrite Z.mul_1_r.
Qed.

Lemma parse_time_text h mi s us : 0 <= h < 24 → 0 <= mi < 60 → 0 <= s < 60 → 0 <= us < US →
  parse_time ((hms h mi s ++ fraction us) ++ u "+00:00") = Some (h, mi, s, us, Some 0).
Proof.
  intros. unfold parse_time.
  assert ((length ((hms h mi s ++ fraction us) ++ u "+00:00") <? 2)%nat = false) as ->.
  { apply Nat.ltb_ge. rewrite length_app. change (length (u "+00:00")) with 6%nat. lia. }
  unfold tz_split. cbv zeta. change (u "+00:00") with (43%N :: u "00:00").
  assert (∀ c, is_digit c = false → c ≠ 46%N → c ≠ 58%N → Forall (λ d, d ≠ c) (hms h mi s ++ fraction us)) as Hne.
  { intros c ? ? ?. apply Forall_app. split; [by apply hms_ne|by apply fraction_ne]. }
  rewrite (partition_on_absent 45).
  2:{ apply Forall_app; split; [by apply Hne|by repeat constructor]. }
  rewrite (partition_on_found 43) by (by apply Hne).
  munfold. by rewrite parse_hhmmss_fraction.
Qed.

Lemma iso_text_fields t : in_range t → ∃ y m d h mi s us,
  1 <= y <= 9999 ∧ valid_date y m d ∧ 0 <= h < 24 ∧ 0 <= mi < 60 ∧ 0 <= s < 60 ∧ 0 <= us < US ∧
  t = instant_of y m d h mi s us ∧ iso_text t = iso_date y m d ++ 84%N :: hms h mi s ++ fraction us.
Proof.
  intros Ht. pose proof (iso_body_fields t Ht) as Hf. destruct (div_mod_us t) as [Et Hus].
  pose proof (time_parts _ Hus) as (H1 & H2 & H3 & H4 & E). cbv zeta in E. unfold iso_text.
  destruct (ord2ymd (t / DAY)) as [[y m] d]. destruct Hf as (Hy & Hv & Ho).
  eexists y, m, d, _, _, _, _. split; [exact Hy|]. split; [exact Hv|]. split; [exact H1|]. split; [exact H2|].
  split; [exact H3|]. split; [exact H4|]. split; [|reflexivity].
  rewrite Et at 1. rewrite <- Ho, E at 1. unfold instant_of, DAY, US. lia.
Qed.

Lemma fromisoformat_isoformat t : in_range t → fromisoformat (isoformat t) = Some (ParsedDatetime t (Some 0)).
Proof.
  intros Ht. rewrite isoformat_text.
  destruct (iso_text_fields t Ht) as (y & m & d & h & mi & s & us & Hy & Hv & Hh & Hmi & Hs & Hus & Et & ->).
  unfold fromisoformat. rewrite <- app_assoc. cbn [app].
  assert ((length (iso_date y m d ++ 84%N :: (hms h mi s ++ fraction us) ++ u "+00:00") <? 7)%nat = false) as ->.
  { apply Nat.ltb_ge. unfold iso_date. rewrite !length_app, !pad_dec_length. cbn [length]. lia. }
  munfold. rewrite separator_location_iso by done.
  change 10%nat with (length (iso_date y m d)). rewrite take_app_length, drop_app_length.
  rewrite parse_date_iso, parse_time_text, date_ok_valid by done. cbn [negb].
  unfold time_ok. assert ((h =? 24) = false) as -> by lia.
  assert ((h <? 24) && (mi <? 60) && (s <? 60) = true) as -> by lia. by rewrite Et.
Qed.

Lemma isoformat_no_Z t : in_range t → replace (isoformat t) (u "Z") (u "+00:00") = isoformat t.
Proof.
  intros Ht. rewrite isoformat_text.
  destruct (iso_text_fields t Ht) as (y & m & d & h & mi & s & us & Hy & Hv%valid_date_small & Hh & Hmi & Hs & Hus & _ & ->).
  unfold replace. change (u "Z") with [90%N]. cbv iota. apply replace_go_absent.
  unfold iso_date. repeat (apply Forall_app; split);
    try (apply pad_dec_ne; [simpl; lia|done]); try (by repeat constructor).
  constructor; [done|]. apply Forall_app. split; [by apply hms_ne|by apply fraction_ne].
Qed.

(** An expiry written by [isoformat] is read back exactly. *)
Lemma parse_isoformat t : in_range t → parse_datetime (isoformat t) = Ok t.
Proof.
  intros Ht. unfold parse_datetime. rewrite isoformat_no_Z, fromisoformat_isoformat by done. cbn.
  rewrite Z.sub_0_r. destruct Ht as [H1 H2]. apply Z.leb_le in H1 as ->. by apply Z.ltb_lt in H2 as ->.
Qed.
