(* ===== verification/Credentials.v ===== *)
(** The credentials file (src/src/build_engine/config.py, [load_credentials],
    [write_credentials]; agent/auth.py, its validation, registration and
    session renewal): a file system with modes and owners, on which every
    system call may fail. *)

From S2P Require Import Prelude PyStr Dict Json Clock Uuid Protocol Fs Url Config Toml Settings Artifact Auth.

Local Open Scope Z_scope.

(** * The host: files with modes and owners *)

Record meta := MkMeta { me_mode : Z; me_uid : Z; me_gid : Z }.

(** [ho_names] are the random names [tempfile] will try, [ho_faults] which of
    the coming system calls fail with an [OSError] of their own. *)
Record host := MkHost {
  ho_fs : fs;
  ho_meta : path → meta;
  ho_names : list ustr;
  ho_faults : list bool;
}.

(** The account database and the process's identity. *)
Record accounts := MkAccounts {
  ac_user : ustr → option Z;
  ac_group : ustr → option Z;
  ac_euid : Z;
  ac_egid : Z;
  ac_groups : list Z;
}.

Definition io_error : exn := os_error (u "Input/output error").
Definition not_permitted : exn := PyExn PermissionError (u "Operation not permitted").

(** A system call: the oracle may make it fail before it does anything. *)
Definition syscall {A} (m : M host A) : M host A := λ h,
  match ho_faults h with
  | true :: rest => (Err io_error, MkHost (ho_fs h) (ho_meta h) (ho_names h) rest)
  | false :: rest => m (MkHost (ho_fs h) (ho_meta h) (ho_names h) rest)
  | [] => m h
  end.

Definition on_fs_part {A} (m : M fs A) : M host A :=
  zoom ho_fs (λ f h, MkHost f (ho_meta h) (ho_names h) (ho_faults h)) m.

Definition set_meta (q : path) (m : meta) : M host () :=
  modify (λ h, MkHost (ho_fs h) (λ p, if decide (p = q) then m else ho_meta h p) (ho_names h) (ho_faults h)).

Section host.
Context (ac : accounts) (now : instant).

(** A new regular file of the process at [q]. *)
Definition create_file (q : path) (mode : Z) : M host () :=
  on_fs_part (modify (put now q (EFile [] now now)));;
  set_meta q (MkMeta mode (ac_euid ac) (ac_egid ac)).

(** [tempfile.mkstemp(prefix, suffix, dir)]: the first free name, mode 0600. *)
Fixpoint try_names (names : list ustr) (prefix suffix : ustr) (d : path) : M host path :=
  match names with
  | [] => raise file_exists
  | n :: names =>
      modify (λ h, MkHost (ho_fs h) (ho_meta h) names (ho_faults h));;
      let p := d ++ [prefix ++ n ++ suffix] in
      place ← gets (λ h, (llocate (ho_fs h) p, lstat (ho_fs h) p));
      match place with
      | (None, _) => raise no_such_file
      | (Some q, None) => create_file q 384;; mret p
      | (Some _, Some _) => try_names names prefix suffix d
      end
  end.
Definition mkstemp (prefix suffix : ustr) (d : path) : M host path := λ h, try_names (ho_names h) prefix suffix d h.

(** [os.fchmod] and [path.chmod]: of one's own files, or as root. *)
Definition chmod (mode : Z) (p : path) : M host () :=
  here ← gets (λ h, (stat (ho_fs h) p, locate (ho_fs h) p));
  match here with
  | (Some _, Some q) =>
      m ← gets (λ h, ho_meta h q);
      raise_if (negb ((ac_euid ac =? 0) || (ac_euid ac =? me_uid m))) not_permitted;;
      set_meta q (MkMeta mode (me_uid m) (me_gid m))
  | _ => raise no_such_file
  end.

(** [os.chown]: root, or the owner who keeps the file and gives it one of the
    process's groups. *)
Definition chown (p : path) (uid gid : Z) : M host () :=
  here ← gets (λ h, (stat (ho_fs h) p, locate (ho_fs h) p));
  match here with
  | (Some _, Some q) =>
      m ← gets (λ h, ho_meta h q);
      raise_if (negb ((ac_euid ac =? 0) || (ac_euid ac =? me_uid m) && (uid =? me_uid m)
                      && ((gid =? me_gid m) || bool_decide (gid ∈ ac_groups ac)))) not_permitted;;
      set_meta q (MkMeta (me_mode m) uid gid)
  | _ => raise no_such_file
  end.

(** [source.replace(target)]: mode and owner move with the file. *)
Definition replace_path (source target : path) : M host () :=
  places ← gets (λ h, (llocate (ho_fs h) source, llocate (ho_fs h) target));
  on_fs_part (replace_file now source target);;
  match places with
  | (Some qs, Some qt) => m ← gets (λ h, ho_meta h qs); set_meta qt m
  | _ => mret ()
  end.

(** * Writing the credentials *)

(** [json.dumps(value)]. *)
Definition toml_string (value : ustr) : ustr := dumps (spaced false) (JStr value).

Definition chown_service_file (p : path) : M host () :=
  match ac_user ac (u "build-engine"), ac_group ac (u "build-engine") with
  | Some uid, Some gid =>
      try_except (syscall (chown p uid gid))
        (λ e, if isinstance e PermissionError then raise_if (ac_euid ac =? 0) e else raise e)
  | _, _ => mret ()
  end.

Definition credentials_text (c : EngineCredentials) : ustr :=
  join [10%N]
    [u "engine_id = " ++ toml_string (cr_engine_id c);
     u "engine_secret = " ++ toml_string (cr_engine_secret c);
     u "session_jwt = " ++ toml_string (cr_session_jwt c);
     u "session_jwt_expires_at = " ++ toml_string (cr_session_jwt_expires_at c);
     u "backend_url = " ++ toml_string (default [] (cr_backend_url c));
     u "name = " ++ toml_string (default [] (cr_name c));
     []].

(** The body of the [try]: the temporary file becomes the destination. *)
Definition fill_and_replace (temporary destination : path) (content : ustr) : M host () :=
  syscall (chmod 384 temporary);;
  bytes ← lift (utf8_encode content);
  syscall (on_fs_part (write_bytes now temporary bytes));;
  chown_service_file temporary;;
  syscall (replace_path temporary destination);;
  syscall (chmod 384 destination);;
  chown_service_file destination.

Definition write_credentials (destination : path) (c : EngineCredentials) : M host () :=
  syscall (on_fs_part (mkdir_parents now (parent destination)));;
  temporary ← syscall (mkstemp (u "." ++ name destination ++ u ".") (u ".tmp") (parent destination));
  try_finally (fill_and_replace temporary destination (credentials_text c))
    (syscall (on_fs_part (unlink now true temporary))).

(** * Reading and validating them *)

Context `{Tomllib}.

Definition REQUIRED_CREDENTIALS : list ustr :=
  [u "engine_id"; u "engine_secret"; u "session_jwt"; u "session_jwt_expires_at"].

(** [str(raw[key])]; [str(raw[key]) if raw.get(key) else None]. *)
Definition raw_text (raw : settings) (key : ustr) : ustr := set_str (at_key key raw).
Definition raw_optional (raw : settings) (key : ustr) : option ustr :=
  if set_truthy (at_key key raw) then Some (raw_text raw key) else None.

Definition credentials_of (raw : settings) : result EngineCredentials :=
  match List.filter (λ key, negb (set_truthy (at_key key raw))) REQUIRED_CREDENTIALS with
  | [] =>
      match uuid_parse (raw_text raw (u "engine_id")) with
      | Some _ =>
          Ok (MkEngineCredentials (raw_text raw (u "engine_id")) (raw_text raw (u "engine_secret"))
                (raw_text raw (u "session_jwt")) (raw_text raw (u "session_jwt_expires_at"))
                (raw_optional raw (u "backend_url")) (raw_optional raw (u "name")))
      | None => Err (value_error (u "Credentials engine_id must be a UUID"))
      end
  | missing => Err (value_error (u "Credentials file is missing required keys: " ++ join (u ", ") missing))
  end.

Definition load_credentials (p : path) : M host EngineCredentials :=
  raw ← on_fs_part (load_toml p);
  lift (credentials_of raw).

(** [path.stat()]. *)
Definition stat_path (p : path) : M host meta :=
  here ← gets (λ h, (stat (ho_fs h) p, locate (ho_fs h) p));
  match here with
  | (Some _, Some q) => gets (λ h, ho_meta h q)
  | _ => raise no_such_file
  end.

Definition validate_secret_file_permissions (p : path) : M host () :=
  m ← stat_path p;
  raise_if (negb (Z.land (me_mode m) 63 =? 0)) (auth_error (u "Secret file permissions are too open: " ++ path_str p)).

Definition expected_uid (service_user : option ustr) : Z :=
  match service_user with Some s => default (ac_euid ac) (ac_user ac s) | None => ac_euid ac end.
Definition expected_gid (service_group : option ustr) : Z :=
  match service_group with Some s => default (ac_egid ac) (ac_group ac s) | None => ac_egid ac end.

Definition validate_secret_file_ownership (p : path) (service_user service_group : option ustr) : M host () :=
  m ← stat_path p;
  let uid := expected_uid service_user in
  let gid := expected_gid service_group in
  raise_if (negb (me_uid m =? uid) || negb (me_gid m =? gid))
    (auth_error (u "Secret file ownership is invalid: " ++ path_str p ++ u " uid=" ++ str_of_Z (me_uid m) ++ u " gid="
       ++ str_of_Z (me_gid m) ++ u "; expected uid=" ++ str_of_Z uid ++ u " gid=" ++ str_of_Z gid)).

Definition validate_credentials_file (p : path) (service_user service_group : option ustr) : M host EngineCredentials :=
  c ← load_credentials p;
  validate_secret_file_permissions p;;
  validate_secret_file_ownership p service_user service_group;;
  lift (validate_engine_secret (cr_engine_secret c));;
  lift (parse_datetime (cr_session_jwt_expires_at c));;
  mret c.

End host.

(** * Registration and session renewal (agent/auth.py) *)

Record RegistrationResult := MkRegistrationResult {
  rr_engine_id : ustr;
  rr_session_jwt_expires_at : instant;
  rr_credentials_path : path;
}.

Section agent.
(** The process: its host and its HTTP transport. *)
Context {S : Type} `{Http S} `{Tomllib}.
Context (get_host : S → host) (put_host : host → S → S).
Context (ac : accounts) (version : ustr).

Definition on_host {A} (m : M host A) : M S A := zoom get_host put_host m.

Definition credentials_eqb (a b : EngineCredentials) : bool :=
  ustr_eqb (cr_engine_id a) (cr_engine_id b) && ustr_eqb (cr_engine_secret a) (cr_engine_secret b)
  && ustr_eqb (cr_session_jwt a) (cr_session_jwt b)
  && ustr_eqb (cr_session_jwt_expires_at a) (cr_session_jwt_expires_at b)
  && bool_decide (cr_backend_url a = cr_backend_url b) && bool_decide (cr_name a = cr_name b).

Definition register_engine (now : instant) (config : EngineConfig) (registration_token : ustr) : M S RegistrationResult :=
  match cf_backend_url config, cf_name config with
  | None, _ | Some [], _ => raise (auth_error (u "backend_url is required to register"))
  | _, None | _, Some [] => raise (auth_error (u "name is required to register"))
  | Some url, Some name =>
      response ← register version url registration_token name (config_capabilities config);
      c ← lift (credentials_from_registration_response response config);
      on_host (write_credentials ac now (cf_credentials_path config) c);;
      on_host (validate_credentials_file ac (cf_credentials_path config) None None);;
      expires ← lift (parse_datetime (cr_session_jwt_expires_at c));
      mret (MkRegistrationResult (cr_engine_id c) expires (cf_credentials_path config))
  end.

(** [backend_url or credentials.backend_url]. *)
Definition selected_url (backend_url : option ustr) (c : EngineCredentials) : option ustr :=
  match backend_url, cr_backend_url c with
  | Some (x :: url), _ => Some (x :: url)
  | _, Some (x :: url) => Some (x :: url)
  | _, _ => None
  end.

Definition refresh_session (now : instant) (p : path) (backend_url : option ustr) : M S EngineCredentials :=
  c ← on_host (load_credentials p);
  match selected_url backend_url c with
  | None => raise (auth_error (u "backend_url is required to refresh a session"))
  | Some url =>
      refreshed ← refresh_session_if_needed url now c;
      (if credentials_eqb refreshed c then mret () else on_host (write_credentials ac now p refreshed));;
      mret refreshed
  end.
End agent.
