(* ===== verification/CredentialsProofs.v ===== *)
(** Properties of the credentials file: it is replaced atomically whatever
    fails, it reads back as it was written, and what registration and session
    renewal make of it. *)

From S2P Require Import Prelude PyStr Dict Json Clock Uuid Protocol Fs Url Config Toml Settings Artifact Auth Credentials.

Local Open Scope Z_scope.

(** * Writing, call by call *)

Lemma syscall_run {A} (m : M host A) h r h' : syscall m h = (r, h') →
  ∃ rest, (r = Err io_error ∧ h' = MkHost (ho_fs h) (ho_meta h) (ho_names h) rest) ∨
          m (MkHost (ho_fs h) (ho_meta h) (ho_names h) rest) = (r, h').
Proof.
  unfold syscall. destruct h as [f me names [|[] rest]]; cbn.
  - intros E. exists []. by right.
  - intros [= <- <-]. exists rest. by left.
  - intros E. exists rest. by right.
Qed.

Section writing.
Context (ac : accounts) (now : instant) (d : path) (n tmp : ustr) (h0 : host).

Abbreviation destination := (d ++ [n]).
Abbreviation temporary := (d ++ [tmp]).

Context (Hnt : n ≠ tmp) (Hn : plain_name n) (Ht : plain_name tmp).
Context (Hfree : file_or_free (ho_fs h0) destination).

Lemma same_entry_free f x e : file_or_free f x → same_entry (f !! x) e → e = f !! x.
Proof. intros [->|(c & m & a & ->)] [<-|(? & ? & ? & ?)]; done. Qed.

(** Nothing but the destination and the temporary file has changed. *)
Definition rest_kept (h : host) : Prop :=
  real_dir (ho_fs h) d ∧
  ∀ x, x ≠ destination → x ≠ temporary → same_entry (ho_fs h0 !! x) (ho_fs h !! x) ∧ ho_meta h x = ho_meta h0 x.

Definition private_file (h : host) (p : path) (content : list N) : Prop :=
  (∃ m a, ho_fs h !! p = Some (EFile content m a)) ∧ me_mode (ho_meta h p) = 384.

(** The old destination is in place. *)
Definition untouched (h : host) : Prop :=
  ho_fs h !! destination = ho_fs h0 !! destination ∧ ho_meta h destination = ho_meta h0 destination.

(** While the temporary file exists, and after it became the destination. *)
Definition before (content : list N) (h : host) : Prop :=
  rest_kept h ∧ untouched h ∧ private_file h temporary content.
Definition after (content : list N) (h : host) : Prop :=
  rest_kept h ∧ private_file h destination content ∧ ho_fs h !! temporary = None.

(** What a predicate on files and metadata does not look at. *)
Definition same_files (h h' : host) : Prop := ho_fs h = ho_fs h' ∧ ho_meta h = ho_meta h'.

Lemma before_same c h h' : same_files h h' → before c h → before c h'.
Proof. unfold before, rest_kept, untouched, private_file. by intros [-> ->]. Qed.
Lemma after_same c h h' : same_files h h' → after c h → after c h'.
Proof. unfold after, rest_kept, private_file. by intros [-> ->]. Qed.

(** A system call that keeps a predicate on the files. *)
Lemma syscall_keeps {A} (P : host → Prop) (m : M host A) h :
  (∀ h h', same_files h h' → P h → P h') → (∀ h, P h → P (m h).2) → P h → P (syscall m h).2.
Proof.
  intros Hs Hm Hp. destruct (syscall m h) as [r h'] eqn:E. apply syscall_run in E as [rest [[_ ->]|E]].
  - eapply Hs; [|exact Hp]. done.
  - assert (P (MkHost (ho_fs h) (ho_meta h) (ho_names h) rest)) as Hp' by (eapply Hs; [|exact Hp]; done).
    apply Hm in Hp'. by rewrite E in Hp'.
Qed.

(** Modes and owners of the file at [p] that leave it private. *)
Lemma file_place h p content : real_dir (ho_fs h) d → (p = destination ∨ p = temporary) → private_file h p content →
  stat (ho_fs h) p = ho_fs h !! p ∧ locate (ho_fs h) p = Some p.
Proof.
  intros Hd Hp [(m & a & Ef) _].
  assert (no_link (ho_fs h) p) as Hl by (intros ? ?; by rewrite Ef).
  destruct Hp as [->| ->]; (split; [by rewrite stat_child|by rewrite locate_child]).
Qed.

Lemma set_meta_eq h q mo : ho_meta (set_meta q mo h).2 q = mo.
Proof. cbn. by rewrite decide_True. Qed.
Lemma set_meta_ne h q mo x : x ≠ q → ho_meta (set_meta q mo h).2 x = ho_meta h x.
Proof. intros. cbn. by rewrite decide_False. Qed.

Lemma destination_ne : destination ≠ temporary.
Proof. by intros [= ?]%app_inv_head. Qed.

Lemma set_meta_before c h mo : me_mode mo = 384 → before c h → before c (set_meta temporary mo h).2.
Proof.
  intros Hm ((Hd & Hr) & (Hf & Hme) & (Hfile & _)). split; [split; [done|]|split; split].
  - intros x H1 H2. rewrite set_meta_ne by done. by apply Hr.
  - done.
  - by rewrite set_meta_ne by apply destination_ne.
  - done.
  - by rewrite set_meta_eq.
Qed.

Lemma set_meta_after c h mo : me_mode mo = 384 → after c h → after c (set_meta destination mo h).2.
Proof.
  intros Hm ((Hd & Hr) & (Hfile & _) & Hf). split; [split; [done|]|split; [split|done]].
  - intros x H1 H2. rewrite set_meta_ne by done. by apply Hr.
  - done.
  - by rewrite set_meta_eq.
Qed.

(** Changing mode or owner of the private file at [p]. *)
Section meta.
Context (P : host → Prop) (p : path) (Hp : p = destination ∨ p = temporary).
Context (Hsame : ∀ h h', same_files h h' → P h → P h').
Context (Hfile : ∀ h, P h → real_dir (ho_fs h) d ∧ ∃ c, private_file h p c).
Context (Hset : ∀ h mo, me_mode mo = 384 → P h → P (set_meta p mo h).2).

Lemma chmod_keeps h : P h → P (chmod ac 384 p h).2.
Proof.
  intros Hh. destruct (Hfile h Hh) as (Hd & c & Hc). destruct (file_place h p c Hd Hp Hc) as [Es El].
  unfold chmod, gets, mbind, M_bind. rewrite Es, El. destruct Hc as [(m & a & ->) Hm].
  unfold raise_if. destruct (negb _); [done|]. by apply Hset.
Qed.

Lemma chown_keeps uid gid h : P h → P (chown ac p uid gid h).2.
Proof.
  intros Hh. destruct (Hfile h Hh) as (Hd & c & Hc). destruct (file_place h p c Hd Hp Hc) as [Es El].
  unfold chown, gets, mbind, M_bind. rewrite Es, El. destruct Hc as [(m & a & ->) Hm].
  unfold raise_if. destruct (negb _); [done|]. by apply Hset.
Qed.

Lemma chown_service_keeps h : P h → P (chown_service_file ac p h).2.
Proof.
  intros Hh. unfold chown_service_file. destruct (ac_user ac (u "build-engine")) as [uid|], (ac_group ac (u "build-engine")) as [gid|]; try done.
  unfold try_except. pose proof (syscall_keeps P (chown ac p uid gid) h Hsame (λ h, chown_keeps uid gid h) Hh) as Hk.
  destruct (syscall _ h) as [[|e] h']; cbn [snd] in *; [done|]. unfold raise_if, raise.
  destruct (isinstance e PermissionError), (ac_euid ac =? 0); exact Hk.
Qed.
End meta.

Lemma before_file c h : before c h → real_dir (ho_fs h) d ∧ ∃ c, private_file h temporary c.
Proof. intros ((? & _) & _ & ?). eauto. Qed.
Lemma after_file c h : after c h → real_dir (ho_fs h) d ∧ ∃ c, private_file h destination c.
Proof. intros ((? & _) & ? & _). eauto. Qed.

Lemma write_before c content h : before c h →
  match on_fs_part (write_bytes now temporary content) h with
  | (Ok _, h') => before content h'
  | (Err _, h') => before c h'
  end.
Proof.
  intros ((Hd & Hr) & (Hf & Hme) & ((m & a & Et) & Hm)). unfold on_fs_part, zoom.
  destruct (write_bytes_child now d tmp content (ho_fs h) Hd Ht) as (m' & a' & f' & E & Ef & Hd' & Hs); [right; eauto|].
  rewrite E. split; [split; [done|]|split; split; cbn].
  - intros x H1 H2. destruct (Hr x H1 H2). split; [|done]. by eapply same_entry_trans; [|apply Hs].
  - pose proof (Hs _ destination_ne) as Hx. rewrite Hf in Hx. by apply same_entry_free in Hx.
  - done.
  - eauto.
  - done.
Qed.

Lemma replace_before c h : before c h →
  ∃ h', replace_path now temporary destination h = (Ok (), h') ∧ after c h'.
Proof.
  intros ((Hd & Hr) & (Hf & Hme) & ((m & a & Et) & Hm)). unfold replace_path, on_fs_part, zoom, gets, mbind, M_bind.
  rewrite !llocate_child by done.
  destruct (replace_child now d tmp n c m a (ho_fs h)) as (f' & E & Ef & En & Hd' & Hs); [done|congruence|done| |].
  { unfold file_or_free. by rewrite Hf. }
  rewrite E. exists (set_meta destination (ho_meta h temporary) (MkHost f' (ho_meta h) (ho_names h) (ho_faults h))).2.
  split; [reflexivity|]. split; [split; [done|]|split; [split|done]].
  - intros x H1 H2. destruct (Hr x H1 H2). rewrite set_meta_ne by done. split; [|done].
    eapply same_entry_trans; [done|]. by apply Hs.
  - by exists m, a.
  - by rewrite set_meta_eq.
Qed.

(** The temporary file is gone, the destination is the old one. *)
Definition cleaned (h : host) : Prop := rest_kept h ∧ untouched h ∧ ho_fs h !! temporary = None.

Lemma unlink_before c h : before c h →
  ∃ h', on_fs_part (unlink now true temporary) h = (Ok (), h') ∧ cleaned h'.
Proof.
  intros ((Hd & Hr) & (Hf & Hme) & ((m & a & Et) & _)). unfold on_fs_part, zoom.
  destruct (unlink_child now d tmp (ho_fs h) Hd) as (f' & E & En & Hd' & Hs); [right; eauto|].
  rewrite E. eexists. split; [reflexivity|]. split; [split; [done|]|split; [split|done]]; cbn.
  - intros x H1 H2. destruct (Hr x H1 H2). split; [|done]. eapply same_entry_trans; [done|]. by apply Hs.
  - pose proof (Hs _ destination_ne) as Hx. rewrite Hf in Hx. by apply same_entry_free in Hx.
  - done.
Qed.

Lemma unlink_after c h : after c h →
  ∃ h', on_fs_part (unlink now true temporary) h = (Ok (), h') ∧ after c h' ∧ ho_meta h' = ho_meta h.
Proof.
  intros ((Hd & Hr) & ((m & a & Ef) & Hm) & En). unfold on_fs_part, zoom.
  destruct (unlink_child now d tmp (ho_fs h) Hd) as (f' & E & En' & Hd' & Hs); [by left|].
  rewrite E. eexists. split; [reflexivity|]. split; [|done]. split; [split; [done|]|split; [split|done]]; cbn.
  - intros x H1 H2. destruct (Hr x H1 H2). split; [|done]. eapply same_entry_trans; [done|]. by apply Hs.
  - exists m, a. eapply same_entry_file; [apply Hs, destination_ne|done].
  - done.
Qed.

(** The text is in place as the destination. *)
Definition placed (content : ustr) (h : host) : Prop := ∃ bytes, utf8_encode content = Ok bytes ∧ after bytes h.

Lemma chmod_tmp c h : before c h → before c (syscall (chmod ac 384 temporary) h).2.
Proof.
  intros Hh. apply syscall_keeps; [by apply before_same| |done]. intros. apply chmod_keeps; [by right|apply before_file| |done].
  apply set_meta_before.
Qed.

Lemma chown_tmp c h : before c h → before c (chown_service_file ac temporary h).2.
Proof.
  intros Hh. apply chown_service_keeps; [by right|by apply before_same|apply before_file|apply set_meta_before|done].
Qed.

(** As root, with the packaged account, the file ends up owned by it. *)
Definition owned (h : host) : Prop := ∀ uid gid,
  ac_euid ac = 0 → ac_user ac (u "build-engine") = Some uid → ac_group ac (u "build-engine") = Some gid →
  me_uid (ho_meta h destination) = uid ∧ me_gid (ho_meta h destination) = gid.

Lemma chown_owned c h h' : after c h → chown_service_file ac destination h = (Ok (), h') → owned h'.
Proof.
  intros Ha E uid gid He Hu Hg. unfold chown_service_file, try_except in E. rewrite Hu, Hg in E.
  destruct (syscall (chown ac destination uid gid) h) as [[[]|e] h1] eqn:Es.
  2: { rewrite He in E. unfold raise_if, raise in E. by destruct (isinstance e PermissionError). }
  injection E as ->. apply syscall_run in Es as [rest [[? _]|Es]]; [done|].
  destruct (after_file c h Ha) as (Hd & c' & Hc). destruct (file_place h destination c' Hd (or_introl eq_refl) Hc) as [E1 E2].
  unfold chown, gets, mbind, M_bind in Es. cbn [ho_fs ho_meta] in Es. rewrite E1, E2, He in Es.
  destruct Hc as [(m & a & Ef) _]. rewrite Ef in Es. cbn [Z.eqb orb negb raise_if mret M_ret] in Es.
  injection Es as <-. cbn. by rewrite decide_True.
Qed.

Lemma settle_after c h r h' : after c h →
  (syscall (chmod ac 384 destination);; chown_service_file ac destination) h = (r, h') →
  after c h' ∧ (r = Ok () → owned h').
Proof.
  intros Hh. unfold mbind, M_bind.
  assert (after c (syscall (chmod ac 384 destination) h).2) as H1.
  { apply syscall_keeps; [by apply after_same| |done]. intros. apply chmod_keeps; [by left|apply after_file| |done].
    apply set_meta_after. }
  destruct (syscall _ h) as [[[]|e] h1]; [|by intros [= <- <-]]. cbn [snd] in *. intros E. split.
  - assert (after c (chown_service_file ac destination h1).2) as H2; [|by rewrite E in H2].
    apply chown_service_keeps; [by left|by apply after_same|apply after_file|apply set_meta_after|done].
  - intros ->. by eapply chown_owned.
Qed.

Lemma fill_run content c0 h r h' : before c0 h → fill_and_replace ac now temporary destination content h = (r, h') →
  placed content h' ∧ (r = Ok () → owned h') ∨ r ≠ Ok () ∧ ∃ c, before c h'.
Proof.
  intros Hh. unfold fill_and_replace. unfold mbind at 1, M_bind at 1. pose proof (chmod_tmp c0 h Hh) as H1.
  destruct (syscall (chmod ac 384 temporary) h) as [[[]|e] h1]; [|intros [= <- <-]; right; split; [done|eauto]].
  cbn [snd] in H1. unfold mbind at 1, M_bind at 1, lift at 1.
  destruct (utf8_encode content) as [bytes|] eqn:Eb; [|intros [= <- <-]; right; split; [done|eauto]].
  unfold mbind at 1, M_bind at 1. destruct (syscall (on_fs_part (write_bytes now temporary bytes)) h1) as [r2 h2] eqn:E2.
  apply syscall_run in E2 as [rest [[-> ->]|E2]].
  { intros [= <- <-]. right. split; [done|]. exists c0. by eapply before_same; [|exact H1]. }
  pose proof (write_before c0 bytes _ (before_same c0 h1 (MkHost (ho_fs h1) (ho_meta h1) (ho_names h1) rest) (conj eq_refl eq_refl) H1)) as H2.
  rewrite E2 in H2. destruct r2 as [[]|]; [|intros [= <- <-]; right; split; [done|eauto]].
  unfold mbind at 1, M_bind at 1. pose proof (chown_tmp bytes h2 H2) as H3.
  destruct (chown_service_file ac temporary h2) as [[[]|e] h3]; [|intros [= <- <-]; right; split; [done|eauto]].
  cbn [snd] in H3. unfold mbind at 1, M_bind at 1. destruct (syscall (replace_path now temporary destination) h3) as [r4 h4] eqn:E4.
  apply syscall_run in E4 as [rest4 [[-> ->]|E4]].
  { intros [= <- <-]. right. split; [done|]. exists bytes. by eapply before_same; [|exact H3]. }
  destruct (replace_before bytes (MkHost (ho_fs h3) (ho_meta h3) (ho_names h3) rest4)) as (h5 & E5 & H5).
  { by eapply before_same; [|exact H3]. }
  rewrite E4 in E5. injection E5 as -> ->. intros E. left.
  destruct (settle_after bytes h5 r h' H5 E) as [H6 H7]. split; [by exists bytes|done].
Qed.

End writing.

(** * The whole write *)

Section atomic.
Context (ac : accounts) (now : instant) (d : path) (n : ustr).

Abbreviation destination := (d ++ [n]).

Definition temporary_name (tok : ustr) : ustr := u "." ++ n ++ u "." ++ tok ++ u ".tmp".

Lemma temporary_name_ok tok : n ≠ temporary_name tok ∧ plain_name (temporary_name tok).
Proof.
  unfold temporary_name, plain_name. split; [|split]; intros E; apply (f_equal length) in E; revert E;
    rewrite !length_app; change (length (u ".")) with 1%nat; change (length (u ".tmp")) with 4%nat;
    change (length (u "..")) with 2%nat; lia.
Qed.

(** A free name is taken, or nothing happened. *)
Lemma try_names_run names h r h' : real_dir (ho_fs h) d →
  file_or_free (ho_fs h) destination →
  try_names ac now names (u "." ++ n ++ u ".") (u ".tmp") d h = (r, h') →
  match r with
  | Ok p => ∃ tok, p = d ++ [temporary_name tok] ∧ ho_fs h !! p = None ∧ before d n (temporary_name tok) h [] h'
  | Err _ => same_files h h'
  end.
Proof.
  revert h. induction names as [|tok names IH]; intros h Hd Hf; cbn [try_names]; [by intros [= <- <-]|].
  unfold modify, gets, mbind, M_bind. cbn [ho_fs ho_meta ho_faults].
  assert ((u "." ++ n ++ u ".") ++ tok ++ u ".tmp" = temporary_name tok) as ->.
  { unfold temporary_name. by rewrite <- !app_assoc. }
  rewrite llocate_child, lstat_child by done.
  destruct (ho_fs h !! (d ++ [temporary_name tok])) as [e|] eqn:Et.
  - intros E. by apply IH in E.
  - intros [= <- <-]. exists tok. split; [done|]. split; [done|].
    assert (destination ≠ d ++ [temporary_name tok]) as Hne.
    { intros [= E]%app_inv_head. by destruct (proj1 (temporary_name_ok tok)). }
    split; [split|split; split].
    + cbn. by apply put_real_dir.
    + intros x H1 H2. split; [cbn; by apply put_lookup_ne|cbn; by rewrite decide_False].
    + cbn. apply same_entry_free; [done|]. by apply put_lookup_ne.
    + cbn. by rewrite decide_False.
    + exists now, now. cbn. apply put_lookup_eq.
    + cbn. by rewrite decide_True.
Qed.

(** What the state of the files can be when [write_credentials] is over. *)
Lemma write_run c h r h' : real_dir (ho_fs h) d → plain_name n → file_or_free (ho_fs h) destination →
  write_credentials ac now destination c h = (r, h') →
  r ≠ Ok () ∧ same_files h h' ∨
  ∃ tok, ho_fs h !! (d ++ [temporary_name tok]) = None ∧
    (placed d n (temporary_name tok) h (credentials_text c) h' ∧ (r = Ok () → owned ac d n h') ∨
     r ≠ Ok () ∧ (cleaned d n (temporary_name tok) h h' ∨ ∃ content, before d n (temporary_name tok) h content h')).
Proof.
  intros Hd Hn Hf. unfold write_credentials. rewrite parent_child, name_child.
  unfold mbind at 1, M_bind at 1. destruct (syscall (on_fs_part (mkdir_parents now d)) h) as [r1 h1] eqn:E1.
  assert ((r1 = Ok () ∨ ∃ e, r1 = Err e) ∧ same_files h h1) as [Hr1 H1].
  { apply syscall_run in E1 as [rest [[-> ->]|E1]]; [split; [by right; eexists|done]|].
    unfold on_fs_part, zoom in E1. cbn [ho_fs] in E1. rewrite mkdir_parents_real in E1 by done.
    injection E1 as <- <-. split; [by left|done]. }
  destruct Hr1 as [->|[e ->]]; [|by intros [= <- <-]; left]. destruct H1 as [Hf1 Hm1].
  unfold mbind at 1, M_bind at 1. destruct (syscall (mkstemp ac now _ _ _) h1) as [r2 h2] eqn:E2.
  apply syscall_run in E2 as [rest [[-> ->]|E2]]; [by intros [= <- <-]; left|]. unfold mkstemp in E2.
  apply try_names_run in E2; [|cbn; congruence|cbn; by rewrite <- Hf1].
  destruct r2 as [p|e]; [|by intros [= <- <-]; left; split; [|destruct E2 as [Ha Hb]; cbn in Ha, Hb; split; congruence]].
  destruct E2 as (tok & -> & Hfree & Hb). cbn [ho_fs] in Hfree. rewrite <- Hf1 in Hfree.
  destruct (temporary_name_ok tok) as [Hnt Htp].
  assert (before d n (temporary_name tok) h [] h2) as Hb2.
  { revert Hb. unfold before, rest_kept, untouched. cbn [ho_fs ho_meta]. by rewrite <- Hf1, <- Hm1. }
  intros E. right. exists tok. split; [done|]. unfold try_finally in E.
  destruct (fill_and_replace ac now (d ++ [temporary_name tok]) destination (credentials_text c) h2) as [r3 h3] eqn:E3.
  apply (fill_run ac now d n (temporary_name tok) h Hnt Hn Htp Hf _ [] _ _ _ Hb2) in E3.
  destruct (syscall (on_fs_part (unlink now true (d ++ [temporary_name tok]))) h3) as [r4 h4] eqn:E4.
  apply syscall_run in E4 as [rest4 E4]. destruct E3 as [((bytes & Eb & Ha) & Ho)|(Hr3 & content & Hb3)].
  - left. destruct E4 as [[-> ->]|E4].
    + injection E as <- <-. split; [|done]. exists bytes. split; [done|]. by eapply after_same; [|exact Ha].
    + destruct (unlink_after now d n (temporary_name tok) h Hnt bytes (MkHost (ho_fs h3) (ho_meta h3) (ho_names h3) rest4))
        as (h5 & E5 & H5 & Em); [by eapply after_same; [|exact Ha]|].
      rewrite E4 in E5. injection E5 as -> ->. injection E as <- <-. split; [by exists bytes|].
      intros Hr. unfold owned. rewrite Em. by apply Ho.
  - right. destruct E4 as [[-> ->]|E4].
    + injection E as <- <-. split; [done|]. right. exists content. by eapply before_same; [|exact Hb3].
    + destruct (unlink_before now d n (temporary_name tok) h Hnt Hf content (MkHost (ho_fs h3) (ho_meta h3) (ho_names h3) rest4))
        as (h5 & E5 & H5); [by eapply before_same; [|exact Hb3]|].
      rewrite E4 in E5. injection E5 as -> ->. injection E as <- <-. split; [done|]. by left.
Qed.

(** C20: the credentials are written atomically. Whichever system calls fail,
    and whatever stands at the destination (a file or nothing), afterwards it is
    either as it was, and the write has raised, or the complete new text in a
    file of mode 0600. Every other file is as it was, except that a failed write
    may leave a temporary file behind, and that one is of mode 0600 too. *)
Theorem credentials_atomic c h r h' :
  real_dir (ho_fs h) d → plain_name n → file_or_free (ho_fs h) destination →
  write_credentials ac now destination c h = (r, h') →
  ((∃ bytes m a, utf8_encode (credentials_text c) = Ok bytes ∧ ho_fs h' !! destination = Some (EFile bytes m a) ∧
      me_mode (ho_meta h' destination) = 384) ∨
   r ≠ Ok () ∧ ho_fs h' !! destination = ho_fs h !! destination ∧ ho_meta h' destination = ho_meta h destination) ∧
  ∀ x, x ≠ destination →
    same_entry (ho_fs h !! x) (ho_fs h' !! x) ∧ (is_Some (ho_fs h' !! x) → ho_meta h' x = ho_meta h x) ∨
    r ≠ Ok () ∧ ho_fs h !! x = None ∧ me_mode (ho_meta h' x) = 384.
Proof.
  intros Hd Hn Hf E. destruct (write_run c h r h' Hd Hn Hf E) as [(Hr & Hfs & Hm)|(tok & Hfree & Hcases)].
  { split; [right; rewrite Hfs, Hm; done|]. intros x _. left. rewrite Hfs, Hm. split; [by left|done]. }
  assert (∀ x, x ≠ destination → rest_kept d n (temporary_name tok) h h' → ho_fs h' !! (d ++ [temporary_name tok]) = None →
    same_entry (ho_fs h !! x) (ho_fs h' !! x) ∧ (is_Some (ho_fs h' !! x) → ho_meta h' x = ho_meta h x)) as Hrest.
  { intros x Hx [_ Hr] Hnone. destruct (decide (x = d ++ [temporary_name tok])) as [->|Hx2].
    - rewrite Hfree, Hnone. split; [by left|]. by intros [? ?].
    - destruct (Hr x Hx Hx2). by split. }
  destruct Hcases as [((bytes & Eb & Hk & ((m & a & Ef) & Hm) & Hnone) & _)|(Hr & [(Hk & (Hf1 & Hm1) & Hnone)|(content & Hk & (Hf1 & Hm1) & (? & Hm))])].
  - split; [left; eauto 10|]. intros x Hx. left. by apply Hrest.
  - split; [by right|]. intros x Hx. left. by apply Hrest.
  - split; [by right|]. intros x Hx. destruct (decide (x = d ++ [temporary_name tok])) as [->|Hx2].
    + right. done.
    + left. destruct (proj2 Hk x Hx Hx2). by split.
Qed.

End atomic.

(** * Reading back *)

Definition credential_fields (c : EngineCredentials) : list (ustr * ustr) :=
  [(u "engine_id", cr_engine_id c); (u "engine_secret", cr_engine_secret c); (u "session_jwt", cr_session_jwt c);
   (u "session_jwt_expires_at", cr_session_jwt_expires_at c); (u "backend_url", default [] (cr_backend_url c));
   (u "name", default [] (cr_name c))].

(** Credentials as the backend gives them: texts, an identifier, nothing empty. *)
Definition credentials_ok (c : EngineCredentials) : Prop :=
  Forall (λ kv, Forall (λ x, valid_cp x = true) kv.2) (credential_fields c) ∧
  is_Some (uuid_parse (cr_engine_id c)) ∧ cr_engine_secret c ≠ [] ∧ cr_session_jwt c ≠ [] ∧ cr_session_jwt_expires_at c ≠ [].

(** An empty optional text is read as none. *)
Definition none_if_empty (o : option ustr) : option ustr := match o with Some (_ :: _) => o | _ => None end.
Definition as_read (c : EngineCredentials) : EngineCredentials :=
  MkEngineCredentials (cr_engine_id c) (cr_engine_secret c) (cr_session_jwt c) (cr_session_jwt_expires_at c)
    (none_if_empty (cr_backend_url c)) (none_if_empty (cr_name c)).

(** TOML can read every text: no surrogates, nothing outside the basic plane. *)
Definition toml_texts (c : EngineCredentials) : bool := forallb (λ kv, forallb toml_safe kv.2) (credential_fields c).

Lemma credentials_text_lines c : credentials_text c = join [10%N] (string_line <$> credential_fields c) ++ [10%N].
Proof.
  unfold credentials_text, credential_fields, string_line, toml_string. cbn [fmap list_fmap join dumps fst snd].
  repeat rewrite <- !app_assoc. done.
Qed.

Lemma credentials_plain c : credentials_ok c →
  toml_plain (credentials_text c) =
    Some (if toml_texts c then Ok ((λ kv, (kv.1, SJson (JStr kv.2))) <$> credential_fields c) else Err bad_escape).
Proof.
  intros (Hv & _). rewrite credentials_text_lines. apply toml_plain_strings; [done| |].
  - unfold credential_fields in *. repeat apply Forall_cons in Hv as [? Hv]. repeat constructor; done.
  - unfold credential_fields. cbn [fmap list_fmap fst]. by apply (bool_decide_unpack _).
Qed.

Lemma credentials_of_fields c : credentials_ok c →
  credentials_of ((λ kv, (kv.1, SJson (JStr kv.2))) <$> credential_fields c) = Ok (as_read c).
Proof.
  intros (_ & [id Hid] & H1 & H2 & H3). set (raw := _ <$> _).
  assert (at_key (u "engine_id") raw = SJson (JStr (cr_engine_id c))) as E1 by reflexivity.
  assert (at_key (u "engine_secret") raw = SJson (JStr (cr_engine_secret c))) as E2 by reflexivity.
  assert (at_key (u "session_jwt") raw = SJson (JStr (cr_session_jwt c))) as E3 by reflexivity.
  assert (at_key (u "session_jwt_expires_at") raw = SJson (JStr (cr_session_jwt_expires_at c))) as E4 by reflexivity.
  assert (at_key (u "backend_url") raw = SJson (JStr (default [] (cr_backend_url c)))) as E5 by reflexivity.
  assert (at_key (u "name") raw = SJson (JStr (default [] (cr_name c)))) as E6 by reflexivity.
  clearbody raw. assert (cr_engine_id c ≠ []) as H0 by (intros E0; by rewrite E0 in Hid).
  unfold credentials_of, REQUIRED_CREDENTIALS, raw_optional, raw_text. cbn [List.filter].
  rewrite E1, E2, E3, E4, E5, E6, !set_truthy_text, !bool_decide_false by done. cbn [negb set_str py_str].
  rewrite Hid. unfold as_read. by destruct (cr_backend_url c) as [[]|], (cr_name c) as [[]|].
Qed.

Section read_back.
Context `{TomlLaws} (ac : accounts) (now : instant) (d : path) (n : ustr).

Abbreviation destination := (d ++ [n]).

(** What [load_credentials] makes of the file. *)
Lemma load_written c h bytes m a : real_dir (ho_fs h) d → plain_name n → credentials_ok c →
  utf8_encode (credentials_text c) = Ok bytes → ho_fs h !! destination = Some (EFile bytes m a) →
  ∃ r, load_credentials destination h = (r, h) ∧
    if toml_texts c then r = Ok (as_read c) else ∃ msg, r = Err (toml_error msg).
Proof.
  intros Hd Hn Hc Eb Ef. pose proof (credentials_plain c Hc) as Hp. destruct Hc as (Hv & [id Hid] & H1 & H2 & H3).
  unfold load_credentials, load_toml, on_fs_part, zoom, read_bytes. munfold.
  rewrite stat_child, Ef by (done || intros ? ?; by rewrite Ef). rewrite (utf8_decode_encode _ _ Eb).
  destruct (toml_texts c).
  2: { destruct (toml_refuses _ _ Hp) as [msg ->]. destruct h as [f me ns fa]. cbn. eauto. }
  rewrite (toml_reads _ _ Hp). rewrite dict_of_pairs_id by by apply (bool_decide_unpack _).
  eexists. split; [by destruct h|]. by apply credentials_of_fields.
Qed.

(** A write that returns leaves the complete file. *)
Lemma written_file c h h' : real_dir (ho_fs h) d → plain_name n → file_or_free (ho_fs h) destination →
  write_credentials ac now destination c h = (Ok (), h') →
  real_dir (ho_fs h') d ∧ ∃ bytes m a, utf8_encode (credentials_text c) = Ok bytes ∧
    ho_fs h' !! destination = Some (EFile bytes m a) ∧ me_mode (ho_meta h' destination) = 384 ∧
    owned ac d n h'.
Proof.
  intros Hd Hn Hf E. destruct (write_run ac now d n c h _ h' Hd Hn Hf E) as [[[] _]|(tok & _ & [[Hp Ho]|[[] _]])]; try done.
  destruct Hp as (bytes & Eb & (Hk & _) & ((m & a & Ef) & Hm) & _). split; [done|]. exists bytes, m, a. auto.
Qed.

(** C28: what was written is read back. When the credentials are complete (an
    identifier, a secret, a token, an expiry) and the write returns, loading
    the file gives exactly these credentials, an empty address or name read as
    none, provided that no text has a surrogate or a code point outside the
    basic plane; with one, the file is not TOML and every later load raises. *)
Theorem credentials_roundtrip c h h' :
  real_dir (ho_fs h) d → plain_name n → file_or_free (ho_fs h) destination → credentials_ok c →
  write_credentials ac now destination c h = (Ok (), h') →
  ∃ r, load_credentials destination h' = (r, h') ∧
    if toml_texts c then r = Ok (as_read c) else ∃ msg, r = Err (toml_error msg).
Proof.
  intros Hd Hn Hf Hc E. destruct (written_file c h h' Hd Hn Hf E) as (Hd' & bytes & m & a & Eb & Ef & _).
  by eapply load_written.
Qed.
End read_back.
