(* ===== verification/Registration.v ===== *)
(** Registration and session renewal on the credentials file: what the engine's
    owner is told, what is on disk, and when the backend is asked again. *)

From S2P Require Import Prelude PyStr Dict Json Clock Uuid Protocol Fs Url Config Toml Settings Artifact Auth AuthProofs Credentials CredentialsProofs.

Local Open Scope Z_scope.

(** * Validation of a written file *)

Section validation.
Context `{TomlLaws} (ac : accounts) (d : path) (n : ustr).

Abbreviation destination := (d ++ [n]).

(** The file of these credentials, readable by its owner only. *)
Definition credentials_file (c : EngineCredentials) (h : host) : Prop :=
  real_dir (ho_fs h) d ∧ ∃ bytes m a, utf8_encode (credentials_text c) = Ok bytes ∧
    ho_fs h !! destination = Some (EFile bytes m a) ∧ me_mode (ho_meta h destination) = 384.

Lemma load_file c h : plain_name n → credentials_ok c → toml_texts c = true → credentials_file c h →
  load_credentials destination h = (Ok (as_read c), h).
Proof.
  intros Hn Hc Ht (Hd & bytes & m & a & Eb & Ef & _).
  destruct (load_written d n c h bytes m a Hd Hn Hc Eb Ef) as (r & E & Hr). rewrite Ht in Hr. by rewrite E, Hr.
Qed.

Lemma stat_file c h : plain_name n → credentials_file c h → stat_path destination h = (Ok (ho_meta h destination), h).
Proof.
  intros Hn (Hd & bytes & m & a & _ & Ef & _). unfold stat_path, gets, mbind, M_bind.
  rewrite stat_child, Ef by (done || intros ? ?; by rewrite Ef).
  rewrite locate_child by (done || intros ? ?; by rewrite Ef). done.
Qed.

(** The owner is what remains to be checked of a file the engine wrote. *)
Lemma validate_file c h t su sg : plain_name n → credentials_ok c → toml_texts c = true → credentials_file c h →
  validate_engine_secret (cr_engine_secret c) = Ok () → parse_datetime (cr_session_jwt_expires_at c) = Ok t →
  let m := ho_meta h destination in
  ∃ r, validate_credentials_file ac destination su sg h = (r, h) ∧
    if (me_uid m =? expected_uid ac su) && (me_gid m =? expected_gid ac sg) then r = Ok (as_read c)
    else ∃ msg, r = Err (auth_error msg).
Proof.
  intros Hn Hc Ht Hf Hs Hp m. unfold validate_credentials_file, validate_secret_file_permissions, validate_secret_file_ownership.
  unfold mbind, M_bind. rewrite (load_file c h Hn Hc Ht Hf), (stat_file c h Hn Hf).
  assert (me_mode (ho_meta h destination) = 384) as Hm by (by destruct Hf as (_ & ? & ? & ? & _ & _ & ?)).
  rewrite Hm. change (negb (Z.land 384 63 =? 0)) with false. unfold raise_if at 1, mret at 1, M_ret.
  rewrite (stat_file c h Hn Hf). fold m. change (cr_engine_secret (as_read c)) with (cr_engine_secret c).
  change (cr_session_jwt_expires_at (as_read c)) with (cr_session_jwt_expires_at c). unfold lift. rewrite Hs, Hp.
  unfold raise_if, raise, mret, M_ret.
  destruct (me_uid m =? expected_uid ac su), (me_gid m =? expected_gid ac sg); cbn [negb orb andb]; eexists; split; try reflexivity; eauto.
Qed.
End validation.

(** * Registration *)

Section agent.
Context {S : Type} `{Http S} `{TomlLaws}.
Context (get_host : S → host) (put_host : host → S → S).
Context (get_put : ∀ h s, get_host (put_host h s) = h) (put_put : ∀ h h' s, put_host h (put_host h' s) = put_host h s).
Context (put_get : ∀ s, put_host (get_host s) s = s).
Context (ac : accounts) (version : ustr).

(** Registering as root reports a failure for a registration that worked.
    Suppose root runs [register] on a machine with the packaged account, the
    backend answers with complete credentials, and the file is written. Then
    the file holds exactly these credentials and is valid for the account the
    service runs under; but unless that account is root's own user and group,
    [register_engine] raises [AuthError] (it compares the owner with root), and
    the one-time token is spent. *)
Theorem root_registration now config token url name d n response s s1 c t uid gid h' :
  cf_backend_url config = Some url → url ≠ [] → cf_name config = Some name → name ≠ [] →
  cf_credentials_path config = d ++ [n] → plain_name n →
  register version url token name (config_capabilities config) s = (Ok response, s1) →
  credentials_from_registration_response response config = Ok c → credentials_ok c → toml_texts c = true →
  validate_engine_secret (cr_engine_secret c) = Ok () → parse_datetime (cr_session_jwt_expires_at c) = Ok t →
  real_dir (ho_fs (get_host s1)) d → file_or_free (ho_fs (get_host s1)) (d ++ [n]) →
  ac_euid ac = 0 → ac_user ac SERVICE_USER = Some uid → ac_group ac SERVICE_GROUP = Some gid →
  write_credentials ac now (d ++ [n]) c (get_host s1) = (Ok (), h') →
  load_credentials (d ++ [n]) h' = (Ok (as_read c), h') ∧
  validate_credentials_file ac (d ++ [n]) (Some SERVICE_USER) (Some SERVICE_GROUP) h' = (Ok (as_read c), h') ∧
  ∃ r, register_engine get_host put_host ac version now config token s = (r, put_host h' s1) ∧
    if (uid =? 0) && (gid =? ac_egid ac) then r = Ok (MkRegistrationResult (cr_engine_id c) t (d ++ [n]))
    else ∃ msg, r = Err (auth_error msg).
Proof.
  intros Eu Hu En Hne Ep Hn Er Ec Hc Ht Hs Hp Hd Hf He Huser Hgroup Ew.
  destruct (written_file ac now d n c (get_host s1) h' Hd Hn Hf Ew) as (Hd' & bytes & m & a & Eb & Ef & Hm & Ho).
  assert (credentials_file d n c h') as Hfile by (split; [done|]; by exists bytes, m, a).
  destruct (Ho uid gid He Huser Hgroup) as [Eo Eg].
  split; [by apply load_file|]. split.
  - destruct (validate_file ac d n c h' t (Some SERVICE_USER) (Some SERVICE_GROUP) Hn Hc Ht Hfile Hs Hp) as (r & E & Hr).
    cbv zeta in Hr. unfold expected_uid, expected_gid in Hr. rewrite Huser, Hgroup, Eo, Eg, !Z.eqb_refl in Hr. cbn in Hr.
    by rewrite E, Hr.
  - destruct (validate_file ac d n c h' t None None Hn Hc Ht Hfile Hs Hp) as (r & E & Hr).
    cbv zeta in Hr. unfold expected_uid, expected_gid in Hr. rewrite Eo, Eg, He in Hr.
    unfold register_engine. rewrite Eu, En. destruct url as [|c1 url], name as [|c2 name]; try done.
    unfold mbind, M_bind, lift, on_host, zoom. rewrite Er, Ec, Ep, Ew, get_put, E, put_put.
    destruct ((uid =? 0) && (gid =? ac_egid ac)); [subst r|destruct Hr as [msg ->]].
    + rewrite Hp. eexists. split; reflexivity.
    + eexists. split; [reflexivity|]. by exists msg.
Qed.

(** * Renewal *)

(** The credentials after a renewal. *)
Definition renewed (c : EngineCredentials) (session : Session) : EngineCredentials :=
  MkEngineCredentials (cr_engine_id c) (cr_engine_secret c) (se_token session) (isoformat (se_expires_at session))
    (cr_backend_url c) (cr_name c).

(** A session is due when it has no token or five minutes or less to live. *)
Definition due (now t : instant) (c : EngineCredentials) : bool :=
  bool_decide (cr_session_jwt c = []) || (t - now <=? REFRESH_WINDOW).

Lemma refresh_if_needed_run url now c t s : parse_datetime (cr_session_jwt_expires_at c) = Ok t →
  refresh_session_if_needed url now c s =
    if due now t c then
      (session ← create_session url (cr_engine_id c) (cr_engine_secret c); mret (renewed c session)) s
    else (Ok c, s).
Proof.
  intros Hp. unfold refresh_session_if_needed, due. unfold mbind at 1, M_bind at 1, lift at 1. rewrite Hp.
  rewrite Z.leb_antisym. by destruct (bool_decide _), (REFRESH_WINDOW <? t - now).
Qed.

Lemma credentials_eqb_refl c : credentials_eqb c c = true.
Proof. unfold credentials_eqb, ustr_eqb. by rewrite !bool_decide_true. Qed.

Lemma credentials_eqb_eq a b : credentials_eqb a b = true → a = b.
Proof.
  unfold credentials_eqb, ustr_eqb. rewrite !andb_true_iff, !bool_decide_eq_true. destruct a, b; cbn.
  intros (((((? & ?) & ?) & ?) & ?) & ?). congruence.
Qed.

Lemma refresh_session_run now d n backend_url url c t s : plain_name n → credentials_ok c → toml_texts c = true →
  credentials_file d n c (get_host s) → selected_url backend_url (as_read c) = Some url →
  parse_datetime (cr_session_jwt_expires_at c) = Ok t →
  refresh_session get_host put_host ac now (d ++ [n]) backend_url s =
    if due now t c then
      (session ← create_session url (cr_engine_id c) (cr_engine_secret c);
       (if credentials_eqb (renewed (as_read c) session) (as_read c) then mret ()
        else on_host get_host put_host (write_credentials ac now (d ++ [n]) (renewed (as_read c) session)));;
       mret (renewed (as_read c) session)) s
    else (Ok (as_read c), s).
Proof.
  intros Hn Hc Ht Hf Hu Hp. unfold refresh_session. unfold mbind at 1, M_bind at 1. unfold on_host at 1, zoom at 1.
  rewrite (load_file d n c _ Hn Hc Ht Hf), put_get, Hu. unfold mbind at 1, M_bind at 1.
  rewrite (refresh_if_needed_run url now (as_read c) t s Hp). change (due now t (as_read c)) with (due now t c).
  destruct (due now t c).
  - unfold mbind, M_bind. change (cr_engine_id (as_read c)) with (cr_engine_id c).
    change (cr_engine_secret (as_read c)) with (cr_engine_secret c).
    by destruct (create_session url (cr_engine_id c) (cr_engine_secret c) s) as [[session|] s1].
  - by rewrite credentials_eqb_refl.
Qed.

(** A session is renewed when it is due, once. With the credentials on
    disk, a session with a token and more than five minutes to live is returned
    as it is, without a request and without a write. Otherwise the backend is
    asked with the stored identifier and secret; the new token and expiry are
    returned and written, all else is kept; and from then on, up to five minutes
    before the new expiry, renewing again sends nothing and changes nothing: the
    expiry that was written is read back to the microsecond. *)
Theorem session_renewal now d n backend_url url c t s :
  plain_name n → credentials_ok c → toml_texts c = true → credentials_file d n c (get_host s) →
  file_or_free (ho_fs (get_host s)) (d ++ [n]) →
  selected_url backend_url (as_read c) = Some url → parse_datetime (cr_session_jwt_expires_at c) = Ok t →
  (due now t c = false → refresh_session get_host put_host ac now (d ++ [n]) backend_url s = (Ok (as_read c), s)) ∧
  ∀ session s1 h', due now t c = true →
    create_session url (cr_engine_id c) (cr_engine_secret c) s = (Ok session, s1) → get_host s1 = get_host s →
    let c' := renewed (as_read c) session in
    c' ≠ as_read c → credentials_ok c' → toml_texts c' = true → in_range (se_expires_at session) →
    write_credentials ac now (d ++ [n]) c' (get_host s) = (Ok (), h') →
    refresh_session get_host put_host ac now (d ++ [n]) backend_url s = (Ok c', put_host h' s1) ∧
    ∀ later, REFRESH_WINDOW < se_expires_at session - later →
      refresh_session get_host put_host ac later (d ++ [n]) backend_url (put_host h' s1) = (Ok c', put_host h' s1).
Proof.
  intros Hn Hc Ht Hf Hfree Hu Hp. pose proof (λ now, refresh_session_run now d n backend_url url c t s Hn Hc Ht Hf Hu Hp) as Hrun.
  split; [intros Hdue; by rewrite Hrun, Hdue|]. intros session s1 h' Hdue Es Eh c' Hne Hc' Ht' Hr Ew. split.
  - rewrite Hrun, Hdue. unfold mbind, M_bind. rewrite Es. fold c'.
    destruct (credentials_eqb c' (as_read c)) eqn:Eq; [by apply credentials_eqb_eq in Eq|].
    unfold on_host, zoom. by rewrite Eh, Ew.
  - intros later Hlater.
    destruct (written_file ac now d n c' (get_host s) h' (proj1 Hf) Hn Hfree Ew) as (Hd' & bytes & m & a & Eb & Ef & Hm & _).
    assert (as_read c' = c') as Ec by (unfold c', renewed, as_read; cbn; by destruct (cr_backend_url c) as [[]|], (cr_name c) as [[]|]).
    rewrite (refresh_session_run later d n backend_url url c' (se_expires_at session)); try done.
    + assert (due later (se_expires_at session) c' = false) as ->; [|by rewrite Ec].
      unfold due. rewrite bool_decide_false by apply Hc'. cbn. apply Z.leb_gt. lia.
    + rewrite get_put. split; [done|]. by exists bytes, m, a.
    + by rewrite Ec.
    + by apply parse_isoformat.
Qed.
End agent.
