(* ===== verification/SettingsExamples.v ===== *)
(** Concrete configurations, credentials files and registrations: the inputs at
    which the properties of [SettingsProofs], [CredentialsProofs] and
    [Registration] are instantiated. *)

From S2P Require Import Prelude PyStr Dict Json Clock Uuid Protocol Fs Url Config Toml Settings SettingsProofs Artifact Auth AuthProofs Credentials CredentialsProofs Registration.

Local Open Scope Z_scope.

(** TOML on plain documents; everything else is refused. *)
#[local] Instance ex_toml : Tomllib :=
  λ s, match toml_plain s with Some (Ok d) => Ok d | _ => Err (toml_error []) end.

#[local] Instance ex_toml_laws : TomlLaws.
Proof. split; intros s x E; unfold toml_loads, ex_toml; rewrite E; [done|by exists []]. Qed.

Definition ex_netloc (s : ustr) : result () := Ok ().

(** * A configuration in four layers *)

Definition ex_config_text : ustr :=
  join [10%N] [u "# engine"; u "backend_url = " ++ quote (u "https://from-config.example"); u "name = " ++ quote (u "config-name");
    u "max_concurrency = 3"; u "credentials_path = " ++ quote (u "/etc/c.toml"); []].

Definition ex_creds : EngineCredentials :=
  MkEngineCredentials (u "6ba7b810-9dad-11d1-80b4-00c04fd430c8") (u "0123456789abcdef0123456789abcdef") (u "jwt")
    (u "2030-01-01T00:00:00+00:00") (Some (u "https://from-credentials.example")) (Some (u "credential-name")).

Definition ex_files : fs :=
  <[[u "etc"] := EDir 0]> (<[[u "etc"; u "config.toml"] := EFile ex_config_text 0 0]>
    (<[[u "etc"; u "c.toml"] := EFile (credentials_text ex_creds) 0 0]> ∅)).

Definition ex_overrides : list (ustr * option setting) :=
  [(u "name", Some (SJson (JStr (u "cli-name")))); (u "state_dir", None)].
Definition ex_environ : list (ustr * ustr) := [(u "BUILD_ENGINE_MAX_CONCURRENCY", u "4")].

Definition ex_load : result settings * fs :=
  load_config ex_netloc [] (u "Linux") (u "x86_64") ex_environ (Some (u "/etc/config.toml")) None None ex_overrides ex_files.

(** The command line's name, the environment's concurrency, the credentials
    file's address, the configuration file's path and a default. *)
Lemma config_layers_witness : ∃ d, ex_load = (Ok d, ex_files) ∧
  (∃ from_env, env_overrides [] (u "Linux") (u "x86_64") ex_environ = Ok from_env) ∧
  (λ k, dget k d) <$> [u "name"; u "max_concurrency"; u "backend_url"; u "credentials_path"; u "arch"] =
    [Some (SJson (JStr (u "cli-name"))); Some (SJson (JInt 4));
     Some (SJson (JStr (u "https://from-credentials.example"))); Some (SPath [u "etc"; u "c.toml"]);
     Some (SJson (JStr (u "amd64")))].
Proof.
  destruct ex_load as [r f'] eqn:E. assert (∃ d, r = Ok d ∧
    (λ k, dget k d) <$> [u "name"; u "max_concurrency"; u "backend_url"; u "credentials_path"; u "arch"] =
    [Some (SJson (JStr (u "cli-name"))); Some (SJson (JInt 4));
     Some (SJson (JStr (u "https://from-credentials.example"))); Some (SPath [u "etc"; u "c.toml"]);
     Some (SJson (JStr (u "amd64")))]) as (d & -> & Hd).
  { apply (f_equal fst) in E. cbn [fst] in E. rewrite <- E. eexists. split; vm_compute; reflexivity. }
  exists d. assert (NoDup (ex_overrides.*1)) as Ho by (by apply (bool_decide_unpack _)).
  destruct (config_layers _ _ _ _ _ _ _ _ _ _ _ _ Ho E) as (-> & _ & file & creds & from_env & _ & _ & He & _).
  split; [reflexivity|]. split; [by exists from_env|exact Hd].
Defined.

(** * Writing credentials *)

Definition ex_dir : path := [u "etc"].
Definition ex_host (faults : list bool) : host := MkHost ex_files (λ _, MkMeta 420 0 0) [u "x1"; u "x2"] faults.

Definition ex_root : accounts :=
  MkAccounts (λ s, if ustr_eqb s (u "build-engine") then Some 998 else None)
             (λ s, if ustr_eqb s (u "build-engine") then Some 997 else None) 0 0 [0].

Lemma ex_dir_real : real_dir ex_files ex_dir.
Proof.
  split; [by repeat constructor; vm_compute|]. intros [|c [|? ?]] b E Ha; try done. injection E as <- _. exists 0. by vm_compute.
Qed.

Lemma ex_plain : plain_name (u "c.toml").
Proof. by split; vm_compute. Qed.

Lemma ex_free : file_or_free ex_files (ex_dir ++ [u "c.toml"]).
Proof. right. exists (credentials_text ex_creds), 0, 0. vm_compute. reflexivity. Qed.

Definition ex_new : EngineCredentials :=
  MkEngineCredentials (cr_engine_id ex_creds) (cr_engine_secret ex_creds) (u "jwt-2") (u "2030-02-01T00:00:00+00:00")
    (cr_backend_url ex_creds) (cr_name ex_creds).

(** The rename fails: the old file stands, the temporary one is gone. *)
Definition ex_failed : result () * host :=
  write_credentials ex_root 5 (ex_dir ++ [u "c.toml"]) ex_new (ex_host [false; false; false; false; false; true]).

Lemma credentials_atomic_witness :
  ex_failed.1 = Err io_error ∧
  ho_fs ex_failed.2 !! (ex_dir ++ [u "c.toml"]) = Some (EFile (credentials_text ex_creds) 0 0) ∧
  ho_fs ex_failed.2 !! (ex_dir ++ [temporary_name (u "c.toml") (u "x1")]) = None.
Proof.
  split; [vm_compute; reflexivity|].
  destruct (credentials_atomic ex_root 5 ex_dir (u "c.toml") ex_new (ex_host [false; false; false; false; false; true])
    ex_failed.1 ex_failed.2 ex_dir_real ex_plain ex_free (surjective_pairing ex_failed)) as [[H|(_ & Hf & _)] _].
  - exfalso. destruct H as (bytes & m & a & Eb & Ef & _). revert Ef.
    assert (ho_fs ex_failed.2 !! (ex_dir ++ [u "c.toml"]) = Some (EFile (credentials_text ex_creds) 0 0)) as -> by (vm_compute; reflexivity).
    intros [= E _ _]. revert Eb. rewrite <- E. vm_compute. discriminate.
  - split; [rewrite Hf; vm_compute; reflexivity|vm_compute; reflexivity].
Defined.

Definition ex_written : result () * host := write_credentials ex_root 5 (ex_dir ++ [u "c.toml"]) ex_new (ex_host []).

Lemma ex_new_ok : credentials_ok ex_new.
Proof.
  split; [by apply (bool_decide_unpack _)|]. split; [vm_compute; by eexists|]. by split_and!.
Qed.

Lemma ex_written_ok : write_credentials ex_root 5 (ex_dir ++ [u "c.toml"]) ex_new (ex_host []) = (Ok (), ex_written.2).
Proof. assert (ex_written.1 = Ok ()) as H by (vm_compute; reflexivity). rewrite <- H. apply surjective_pairing. Qed.

Lemma credentials_roundtrip_witness :
  (load_credentials (ex_dir ++ [u "c.toml"]) ex_written.2).1 = Ok ex_new.
Proof.
  destruct (credentials_roundtrip ex_root 5 ex_dir (u "c.toml") ex_new (ex_host []) ex_written.2 ex_dir_real ex_plain ex_free
    ex_new_ok ex_written_ok) as (r & -> & Hr).
  assert (toml_texts ex_new = true) as Ht by (vm_compute; reflexivity). rewrite Ht in Hr. rewrite Hr. reflexivity.
Defined.

(** * A backend that always gives the same answer *)

Definition ex_response : jdict :=
  [(u "engine_id", JStr (cr_engine_id ex_new)); (u "engine_secret", JStr (cr_engine_secret ex_new));
   (u "session_jwt", JStr (u "jwt-2")); (u "session_jwt_expires_at", JStr (u "2030-02-01T00:00:00+00:00"))].

#[local] Instance ex_http : Http host := λ _ h, (Ok (HttpOk (dumps (spaced false) (JObj ex_response))), h).

Definition ex_config : EngineConfig :=
  let c := default_config (u "linux") (u "amd64") in
  MkEngineConfig (cr_backend_url ex_new) (cr_name ex_new) (cf_max_concurrency c) (cf_heartbeat_interval_seconds c)
    (cf_build_timeout_seconds c) (cf_sigterm_grace_seconds c) (cf_container_memory c) (cf_container_cpus c)
    (cf_artifact_max_bytes c) (cf_cache_site_max_bytes c) (cf_cache_ttl_days c) (ex_dir ++ [u "c.toml"]) (cf_state_dir c)
    (cf_image_manifest_version c) (cf_images c) [] (cf_lease_seconds c) (cf_outbox_max_bytes c)
    (cf_state_retention_days c) false (u "linux") (u "amd64").

Definition ex_put (h : host) (_ : host) : host := h.

Lemma root_registration_witness :
  (∃ msg, (register_engine id ex_put ex_root (u "1") 5 ex_config (u "token") (ex_host [])).1 = Err (auth_error msg)) ∧
  (load_credentials (ex_dir ++ [u "c.toml"]) ex_written.2).1 = Ok ex_new.
Proof.
  assert (∃ t, parse_datetime (cr_session_jwt_expires_at ex_new) = Ok t) as [t Et] by (vm_compute; by eexists).
  assert (∃ url, cr_backend_url ex_new = Some url ∧ url ≠ []) as (url & Eu & Hu) by (by eexists).
  assert (∃ name, cr_name ex_new = Some name ∧ name ≠ []) as (name & En & Hne) by (by eexists).
  assert (register (u "1") url (u "token") name (config_capabilities ex_config) (ex_host []) = (Ok ex_response, ex_host [])) as Er.
  { injection Eu as <-. injection En as <-. vm_compute. reflexivity. }
  destruct (root_registration id ex_put (λ _ _, eq_refl) (λ _ _ _, eq_refl) ex_root (u "1") 5 ex_config (u "token") url name
    ex_dir (u "c.toml") ex_response (ex_host []) (ex_host []) ex_new t 998 997 ex_written.2 Eu Hu En Hne eq_refl ex_plain Er)
    as (Hl & _ & r & E & Hr);
    [vm_compute; reflexivity|exact ex_new_ok|vm_compute; reflexivity|vm_compute; reflexivity|exact Et|exact ex_dir_real
    |exact ex_free|reflexivity|vm_compute; reflexivity|vm_compute; reflexivity|exact ex_written_ok|].
  rewrite E, Hl. cbn [fst]. split; [exact Hr|reflexivity].
Defined.

(** * A renewal *)

Definition ex_now : instant := match parse_datetime (cr_session_jwt_expires_at ex_creds) with Ok t => t | Err _ => 0 end.
Definition ex_session : Session :=
  MkSession (cr_engine_id ex_new) (u "jwt-2")
    (match parse_datetime (cr_session_jwt_expires_at ex_new) with Ok t => t | Err _ => 0 end).

Definition ex_private : host := MkHost ex_files (λ _, MkMeta 384 998 997) [u "x1"] [].

Definition ex_renewed : result () * host := write_credentials ex_root ex_now (ex_dir ++ [u "c.toml"]) ex_new ex_private.

Lemma session_renewal_witness :
  refresh_session id ex_put ex_root ex_now (ex_dir ++ [u "c.toml"]) None ex_private = (Ok ex_new, ex_renewed.2) ∧
  refresh_session id ex_put ex_root (ex_now + DAY) (ex_dir ++ [u "c.toml"]) None ex_renewed.2 = (Ok ex_new, ex_renewed.2).
Proof.
  assert (credentials_ok ex_creds) as Hc.
  { split; [by apply (bool_decide_unpack _)|]. split; [vm_compute; by eexists|]. by split_and!. }
  assert (write_credentials ex_root ex_now (ex_dir ++ [u "c.toml"]) ex_new ex_private = (Ok (), ex_renewed.2)) as Ew.
  { assert (ex_renewed.1 = Ok ()) as H by (vm_compute; reflexivity). rewrite <- H. apply surjective_pairing. }
  assert (renewed (as_read ex_creds) ex_session = ex_new) as Er by (vm_compute; reflexivity).
  assert (credentials_file ex_dir (u "c.toml") ex_creds ex_private) as Hf.
  { split; [exact ex_dir_real|]. exists (credentials_text ex_creds), 0, 0. split_and!; vm_compute; reflexivity. }
  destruct (session_renewal id ex_put (λ _ _, eq_refl) (λ _, eq_refl) ex_root ex_now ex_dir (u "c.toml") None
    (u "https://from-credentials.example") ex_creds ex_now ex_private ex_plain Hc) as [_ H];
    [vm_compute; reflexivity|exact Hf|exact ex_free|vm_compute; reflexivity|vm_compute; reflexivity|].
  specialize (H ex_session ex_private ex_renewed.2). cbv zeta in H. rewrite Er in H.
  destruct H as [H1 H2];
    [vm_compute; reflexivity|vm_compute; reflexivity|reflexivity| |exact ex_new_ok|vm_compute; reflexivity| |exact Ew|].
  - intros E. assert (cr_session_jwt ex_new = cr_session_jwt (as_read ex_creds)) as E2 by (by rewrite E).
    revert E2. vm_compute. discriminate.
  - split; vm_compute; [discriminate|reflexivity].
  - split; [exact H1|]. apply H2. vm_compute. reflexivity.
Defined.
