(* ===== verification/Stream.v ===== *)
(** Container output on its way to the backend (src/src/build_engine/executor/stream.py):
    redaction of exact secret values and framing to the protocol's log size. *)

From S2P Require Import Prelude PyStr Protocol.

Local Open Scope N_scope.

(** * Redaction *)

Definition REDACTED : ustr := u "[REDACTED]".

(** The distinct non-empty secrets; [clean] is a set, whose order is not fixed. *)
Class SetOrder := set_order : list ustr → list ustr.
Class SetOrderLaws `{SetOrder} := set_order_perm : ∀ l, set_order l ≡ₚ l.

Section stream.
Context `{SetOrder}.

Definition longer (a b : ustr) : bool := (length b <=? length a)%nat.

(** [SecretRedactor.__init__]: longest first. *)
Definition new_redactor (secrets : list ustr) : list ustr :=
  sort_by longer (set_order (remove_dups (List.filter (λ s, negb (bool_decide (s = []))) secrets))).

Definition redact (secrets : list ustr) (value : ustr) : ustr :=
  fold_left (λ redacted secret, replace redacted secret REDACTED) secrets value.

(** * Framing *)

(** [while len(chunk.encode()) > MAX: limit -= 1]. *)
Fixpoint shrink (limit : nat) (remaining : ustr) : result nat :=
  n ← utf8_len (take limit remaining);
  if MAX_LOG_DATA_BYTES <? n then match limit with O => Ok O | S limit => shrink limit remaining end
  else Ok limit.

(** [while remaining:], with fuel: every round takes a character at least. *)
Fixpoint frame_loop (fuel : nat) (remaining : ustr) : result (list ustr) :=
  match fuel, remaining with
  | S fuel, _ :: _ =>
      limit ← shrink (N.to_nat (N.min (N.of_nat (length remaining)) MAX_LOG_DATA_BYTES)) remaining;
      rest ← frame_loop fuel (drop limit remaining);
      Ok (take limit remaining :: rest)
  | _, _ => Ok []
  end.

Definition frame_chunks (value : ustr) : result (list ustr) :=
  n ← utf8_len value;
  if n <=? MAX_LOG_DATA_BYTES then Ok [value] else frame_loop (length value) value.

(** [pump_stream]: [reads] are the results of [reader.read], ended by an empty one. *)
Fixpoint pump_stream {S} (publish : ustr → ustr → M S ()) (stream : ustr) (redactor : list ustr)
    (reads : list (list N)) : M S () :=
  match reads with
  | [] | [] :: _ => mret ()
  | chunk :: reads =>
      frames ← lift (frame_chunks (redact redactor (utf8_decode_replace chunk)));
      for_each (publish stream) frames;;
      pump_stream publish stream redactor reads
  end.

End stream.

(** * Lemmas: framing *)

Lemma utf8_len_scalar s : Forall scalar s → ∃ n, utf8_len s = Ok n ∧ N.of_nat (length s) <= n <= 4 * N.of_nat (length s).
Proof.
  intros [b Hb]%utf8_encode_scalar. unfold utf8_len. rewrite Hb. exists (N.of_nat (length b)). split; [done|].
  apply utf8_encode_length_le in Hb. lia.
Qed.

Lemma shrink_run limit s : Forall scalar s → (1 <= limit <= length s)%nat →
  ∃ k, shrink limit s = Ok k ∧ (1 <= k <= limit)%nat ∧ ∃ n, utf8_len (take k s) = Ok n ∧ n <= MAX_LOG_DATA_BYTES.
Proof.
  intros Hs. induction limit as [|limit IH]; intros Hl; [lia|]. cbn [shrink].
  destruct (utf8_len_scalar (take (S limit) s)) as (n & Hn & Hle); [by apply Forall_take|]. munfold. rewrite Hn.
  destruct (MAX_LOG_DATA_BYTES <? n) eqn:E.
  - destruct limit as [|limit].
    { rewrite length_take in Hle. unfold MAX_LOG_DATA_BYTES in E. lia. }
    destruct IH as (k & Hk & ? & ?); [lia|]. exists k. split; [done|]. split; [lia|done].
  - exists (S limit). split; [done|]. split; [lia|]. exists n. split; [done|lia].
Qed.

Definition frame_ok (frame : ustr) : Prop := ∃ n, utf8_len frame = Ok n ∧ n <= MAX_LOG_DATA_BYTES.

Lemma frame_loop_run fuel s : Forall scalar s → (length s <= fuel)%nat →
  ∃ fs, frame_loop fuel s = Ok fs ∧ concat fs = s ∧ Forall (λ f, f ≠ [] ∧ frame_ok f) fs.
Proof.
  revert s. induction fuel as [|fuel IH]; intros s Hs Hl.
  { destruct s; [|cbn in Hl; lia]. by exists []. }
  destruct s as [|c s]; [by exists []|]. cbn [frame_loop]. set (s' := c :: s) in *.
  destruct (shrink_run (N.to_nat (N.min (N.of_nat (length s')) MAX_LOG_DATA_BYTES)) s' Hs) as (k & Hk & Hk1 & Hok).
  { unfold MAX_LOG_DATA_BYTES. cbn [length s']. lia. }
  destruct (IH (drop k s')) as (fs & Hfs & Hc & Hall); [by apply Forall_drop|rewrite length_drop; lia|].
  munfold. rewrite Hk, Hfs. exists (take k s' :: fs). split; [done|]. split.
  - cbn [concat]. by rewrite Hc, take_drop.
  - constructor; [|done]. split; [|done]. destruct k; [lia|]. done.
Qed.

Lemma frame_chunks_run s : Forall scalar s →
  ∃ fs, frame_chunks s = Ok fs ∧ concat fs = s ∧ Forall frame_ok fs ∧ (s ≠ [] → Forall (λ f, f ≠ []) fs).
Proof.
  intros Hs. destruct (utf8_len_scalar s Hs) as (n & Hn & _). unfold frame_chunks. munfold. rewrite Hn.
  destruct (n <=? MAX_LOG_DATA_BYTES) eqn:E.
  - exists [s]. split; [done|]. cbn [concat]. rewrite app_nil_r. split; [done|]. split.
    + constructor; [|constructor]. exists n. split; [done|lia].
    + intros ?. by constructor.
  - destruct (frame_loop_run (length s) s Hs) as (fs & Hf & Hc & Hall); [done|]. exists fs.
    split; [done|]. split; [done|]. split; [|intros _]; eapply List.Forall_impl; try exact Hall; by intros ? [].
Qed.

(** * Lemmas: decoded and redacted text *)

Lemma utf8_step_scalar b bs c r : utf8_step b bs = (Some c, r) → scalar c.
Proof.
  unfold utf8_step, second_ok, is_cont, scalar. intros H.
  repeat case_match; simplify_eq; lia.
Qed.

Lemma utf8_decode_replace_scalar bs : Forall scalar (utf8_decode_replace bs).
Proof.
  unfold utf8_decode_replace. generalize (length bs). intros fuel. revert bs.
  induction fuel as [|fuel IH]; intros [|b bs]; try constructor. cbn [utf8_decode_replace_go].
  destruct (utf8_step b bs) as [[c|] r] eqn:E; constructor; try apply IH.
  - by eapply utf8_step_scalar.
  - cbn. unfold scalar. lia.
Qed.

Lemma Forall_replace_go (P : N → Prop) old new k s :
  Forall P new → Forall P s → Forall P (replace_go old new k s).
Proof.
  intros Hn Hs. revert k. induction Hs as [|c s Hc Hs IH]; intros k; [constructor|]. cbn [replace_go].
  destruct k; [|apply IH]. destruct (startswith _ _); [apply Forall_app; split; [done|apply IH]|by constructor].
Qed.

Lemma redact_scalar secrets s : Forall (λ x, x ≠ []) secrets → Forall scalar s → Forall scalar (redact secrets s).
Proof.
  unfold redact. intros Hn. revert s. induction Hn as [|x secrets Hx Hn IH]; intros s Hs; [done|].
  cbn [fold_left]. apply IH. unfold replace. destruct x; [done|]. apply Forall_replace_go; [|done].
  assert (ascii_str REDACTED) as Ha by by repeat constructor.
  eapply List.Forall_impl; [|exact Ha]. cbn. unfold scalar. intros c Hc. lia.
Qed.

(** * Lemmas: what replacing leaves *)

Lemma replace_go_drop old new k s : replace_go old new k s = replace_go old new 0 (drop k s).
Proof. revert k. induction s as [|c s IH]; intros [|k]; try done. cbn [replace_go drop]. by rewrite IH. Qed.

Definition occurs (t s : ustr) : Prop := contains s t = true.

Lemma occurs_middle t s : occurs t s ↔ ∃ a b, s = a ++ t ++ b.
Proof. apply contains_spec. Qed.

Lemma occurs_cons t c s : occurs t s → occurs t (c :: s).
Proof. rewrite !occurs_middle. intros (a & b & ->). by exists (c :: a), b. Qed.

Lemma occurs_app_r t a s : occurs t s → occurs t (a ++ s).
Proof. induction a; [done|]. intros. by apply occurs_cons, IHa. Qed.

(** Replacing splits the text at the occurrences: the pieces have none. *)
Lemma replace_pieces old new s : old ≠ [] →
  ∃ p ps, replace_go old new 0 s = join new (p :: ps) ∧ (∃ r, s = p ++ r) ∧
    Forall (λ q, ¬ occurs old q ∧ ∀ t, occurs t q → occurs t s) (p :: ps).
Proof.
  intros Ho. remember (length s) as n eqn:Hn. revert s Hn.
  induction (lt_wf n) as [n _ IH]. intros s ->. destruct s as [|c s].
  { exists [], []. split; [done|]. split; [by exists []|]. constructor; [|constructor].
    split; [|done]. intros (a & b & E)%occurs_middle. by destruct a, old. }
  cbn [replace_go]. destruct (startswith (c :: s) old) eqn:E.
  - apply startswith_spec in E as [r Er]. rewrite replace_go_drop.
    assert (drop (pred (length old)) s = r) as ->.
    { destruct old as [|o old]; [done|]. injection Er as -> ->. cbn. by rewrite drop_app_length. }
    destruct (IH (length r) ltac:(rewrite Er, length_app; destruct old; [done|cbn; lia]) r eq_refl) as (p & ps & -> & _ & Hall).
    exists [], (p :: ps). split; [done|]. split; [by exists (c :: s)|]. constructor.
    + split; [intros (a & b & E)%occurs_middle; by destruct a, old|].
      intros t (a & b & E)%occurs_middle. by destruct a, t.
    + rewrite Er. eapply List.Forall_impl; [|exact Hall]. intros q [H1 H2]. split; [done|].
      intros t Ht. by apply occurs_app_r, H2.
  - destruct (IH (length s) ltac:(cbn; lia) s eq_refl) as (p & ps & -> & [r ->] & Hall).
    inversion Hall as [|? ? [Hp1 Hp2] Hps]; subst. exists (c :: p), ps.
    split; [by destruct ps|]. split; [by exists r|]. constructor.
    + split.
      * intros (a & b & E')%occurs_middle. destruct a as [|x a].
        -- assert (startswith (c :: p ++ r) old = true); [|congruence]. apply startswith_spec. exists (b ++ r).
           cbn [app] in E'. by rewrite (app_assoc old), <- E'.
        -- injection E' as -> ->. apply Hp1, occurs_middle. by exists a, b.
      * intros t (a & b & E')%occurs_middle. apply occurs_middle. exists a, (b ++ r).
        by rewrite (app_assoc t), (app_assoc a), <- E'.
    + eapply List.Forall_impl; [|exact Hps]. intros q [H1 H2]. split; [done|]. intros t Ht. by apply occurs_cons, H2.
Qed.

(** A text that shares no character with the separator occurs within one piece. *)
Lemma occurs_join t new p ps : new ≠ [] → Forall (λ c, c ∉ new) t → occurs t (join new (p :: ps)) →
  t = [] ∨ ∃ q, q ∈ p :: ps ∧ occurs t q.
Proof.
  intros Hn Ht. revert p. induction ps as [|p' ps IH]; intros p H.
  { right. exists p. split; [left|done]. }
  rewrite join_app_cons in H by done. apply occurs_middle in H as (a & b & E).
  destruct t as [|c t]; [by left|]. right.
  apply app_eq_inv in E as [(k & -> & E)|(k & -> & E)].
  - apply app_eq_inv in E as [(k' & Et & E)|(k' & -> & E)].
    + destruct k' as [|x k'].
      { rewrite app_nil_r in Et. subst k. exists (a ++ c :: t). split; [left|]. apply occurs_middle. exists a, [].
        by rewrite app_nil_r. }
      exfalso. destruct new as [|y new]; [done|]. injection E as <- _.
      rewrite Et in Ht. apply Forall_app in Ht as [_ Ht]. inversion Ht as [|? ? Hx]. apply Hx. left.
    + exists (a ++ (c :: t) ++ k'). split; [left|]. apply occurs_middle. by exists a, k'.
  - apply app_eq_inv in E as [(k' & -> & E)|(k' & -> & E)].
    + destruct k' as [|x k'].
      { destruct (IH p') as [?|(q & Hq & Ho)]; [|done|exists q; split; [by right|done]].
        apply occurs_middle. exists [], b. by rewrite E. }
      exfalso. injection E as <- _. inversion Ht as [|? ? Hx]. apply Hx, elem_of_app. right. left.
    + destruct (IH p') as [?|(q & Hq & Ho)]; [|done|exists q; split; [by right|done]].
      apply occurs_middle. by exists k', b.
Qed.

Definition apart (t : ustr) : Prop := t ≠ [] ∧ Forall (λ c, c ∉ REDACTED) t.

Lemma replace_redacted t old s : apart t → old ≠ [] →
  (occurs t (replace s old REDACTED) → occurs t s) ∧ (t = old → ¬ occurs t (replace s old REDACTED)).
Proof.
  intros [Ht Hd] Ho. unfold replace. destruct old as [|o old]; [done|].
  destruct (replace_pieces (o :: old) REDACTED s Ho) as (p & ps & -> & _ & Hall). rewrite Forall_forall in Hall.
  assert (occurs t (join REDACTED (p :: ps)) → ∃ q, q ∈ p :: ps ∧ occurs t q) as H.
  { intros [?|?]%occurs_join; done. }
  split.
  - intros (q & Hq & Hoc)%H. by apply (Hall q Hq).
  - intros -> (q & Hq & Hoc)%H. by apply (Hall q Hq).
Qed.

Lemma redact_spec t secrets s : apart t → Forall (λ x, x ≠ []) secrets →
  (occurs t (redact secrets s) → occurs t s) ∧ (t ∈ secrets → ¬ occurs t (redact secrets s)).
Proof.
  intros Ht Hn. unfold redact. revert s. induction Hn as [|x secrets Hx Hn IH]; intros s.
  { split; [done|]. by intros ?%elem_of_nil. }
  cbn [fold_left]. destruct (IH (replace s x REDACTED)) as [IH1 IH2]. destruct (replace_redacted t x s Ht Hx) as [H1 H2].
  split; [auto|]. intros [->|Hin]%elem_of_cons; [|by apply IH2]. intros Hoc. by apply H2, IH1.
Qed.

Lemma elem_of_redactor `{SetOrderLaws} secrets t : t ∈ new_redactor secrets ↔ t ∈ secrets ∧ t ≠ [].
Proof.
  unfold new_redactor. rewrite elem_of_sort_by, set_order_perm, elem_of_remove_dups, list_elem_of_In, List.filter_In,
    <- list_elem_of_In, negb_true_iff, bool_decide_eq_false. done.
Qed.

Lemma occurs_concat t f fs : f ∈ fs → occurs t f → occurs t (concat fs).
Proof.
  intros (l & r & ->)%list_elem_of_split (a & b & ->)%occurs_middle. apply occurs_middle.
  rewrite concat_app. exists (concat l ++ a), (b ++ concat r). cbn [concat]. by rewrite <- !app_assoc.
Qed.

Lemma for_each_app {S A} (f : A → M S ()) l l' σ : for_each f (l ++ l') σ = (for_each f l;; for_each f l') σ.
Proof.
  revert σ. induction l as [|x l IH]; intros σ; [done|]. cbn [app for_each]. munfold.
  destruct (f x σ) as [[[]|e] σ']; [|done]. rewrite IH. munfold. done.
Qed.

(** The texts of the chunks that are read before the end of the stream. *)
Fixpoint chunk_texts (redactor : list ustr) (reads : list (list N)) : list ustr :=
  match reads with
  | [] | [] :: _ => []
  | chunk :: reads => redact redactor (utf8_decode_replace chunk) :: chunk_texts redactor reads
  end.

Lemma pump_stream_run {S} (publish : ustr → ustr → M S ()) stream redactor reads :
  Forall (λ x, x ≠ []) redactor →
  ∃ fss, Forall2 (λ text fs, concat fs = text ∧ Forall frame_ok fs) (chunk_texts redactor reads) fss ∧
    ∀ σ, pump_stream publish stream redactor reads σ = for_each (publish stream) (concat fss) σ.
Proof.
  intros Hr. induction reads as [|chunk reads (fss & Hfss & IH)]; [by exists []; split; [constructor|]|].
  destruct chunk as [|b chunk]; [by exists []; split; [constructor|]|].
  destruct (frame_chunks_run (redact redactor (utf8_decode_replace (b :: chunk)))) as (fs & Hfs & Hc & Hok & _).
  { apply redact_scalar; [done|]. apply utf8_decode_replace_scalar. }
  exists (fs :: fss). split; [by constructor|]. intros σ. cbn [pump_stream concat]. rewrite for_each_app.
  unfold mbind, M_bind, lift. rewrite Hfs. by destruct (for_each _ fs σ) as [[]].
Qed.

Lemma frames_of_texts texts fss : Forall2 (λ text fs, concat fs = text ∧ Forall frame_ok fs) texts fss →
  concat (concat fss) = concat texts ∧ Forall frame_ok (concat fss) ∧
  ∀ t, Forall (λ text, ¬ occurs t text) texts → Forall (λ f, ¬ occurs t f) (concat fss).
Proof.
  induction 1 as [|text fs texts fss [<- Hok] _ (E & H3 & H4)]; [by repeat constructor|].
  cbn [concat]. rewrite concat_app, E. split; [done|]. split; [by apply Forall_app|].
  intros t Ht. inversion Ht as [|? ? H1 H2]; subst. apply Forall_app. split; [|by apply H4].
  rewrite Forall_forall. intros f Hf Hoc. by eapply H1, occurs_concat.
Qed.

Lemma chunk_texts_clean t redactor reads : apart t → Forall (λ x, x ≠ []) redactor → t ∈ redactor →
  Forall (λ text, ¬ occurs t text) (chunk_texts redactor reads).
Proof.
  intros Ht Hr Hin. induction reads as [|[|b chunk] reads IH]; try constructor; [|exact IH].
  by apply redact_spec.
Qed.

(** * Properties *)

(** C37: what a build container prints is published as log frames of at most
    64 KiB of UTF-8 that together are the redacted text of the chunks read, in
    order, nothing lost and nothing added, and no frame contains a secret (any
    configured non-empty value that shares no character with the token
    [REDACTED]). Every loop ends: nothing is raised before publishing. *)
Theorem log_frames `{SetOrderLaws} {S} (publish : ustr → ustr → M S ()) stream secrets reads :
  ∃ frames,
    (∀ σ, pump_stream publish stream (new_redactor secrets) reads σ = for_each (publish stream) frames σ) ∧
    Forall frame_ok frames ∧
    concat frames = concat (chunk_texts (new_redactor secrets) reads) ∧
    ∀ t, t ∈ secrets → apart t → Forall (λ f, ¬ occurs t f) frames.
Proof.
  assert (Forall (λ x, x ≠ []) (new_redactor secrets)) as Hr.
  { rewrite Forall_forall. by intros x [_ ?]%elem_of_redactor. }
  destruct (pump_stream_run publish stream (new_redactor secrets) reads Hr) as (fss & Hfss & Hrun).
  destruct (frames_of_texts _ _ Hfss) as (E & Hok & Hclean). exists (concat fss). split; [done|].
  split; [done|]. split; [done|]. intros t Hin Ht. apply Hclean, chunk_texts_clean; [done|done|].
  apply elem_of_redactor. split; [done|]. by destruct Ht.
Qed.

Lemma replace_absent_whole t s : t ≠ [] → ¬ occurs t s → replace s t REDACTED = s.
Proof.
  intros Ht Ho. unfold replace. destruct t as [|c t]; [done|]. induction s as [|x s IH]; [done|]. cbn [replace_go].
  destruct (startswith (x :: s) (c :: t)) eqn:E.
  - exfalso. apply Ho. unfold occurs. cbn [contains]. by rewrite E.
  - rewrite IH; [done|]. intros H. by apply Ho, occurs_cons.
Qed.

Lemma occurs_length t s : occurs t s → (length t <= length s)%nat.
Proof. intros (a & b & ->)%occurs_middle. rewrite !length_app. lia. Qed.

(** Redaction works read by read. A secret whose text arrives in two reads
    of the pipe is published unredacted, as two consecutive frames. *)
Theorem split_secret_leaks `{SetOrderLaws} {S} (publish : ustr → ustr → M S ()) stream a b ba bb σ :
  a ≠ [] → b ≠ [] → utf8_encode a = Ok ba → utf8_encode b = Ok bb →
  N.of_nat (length ba) <= MAX_LOG_DATA_BYTES → N.of_nat (length bb) <= MAX_LOG_DATA_BYTES →
  pump_stream publish stream (new_redactor [a ++ b]) [ba; bb] σ = for_each (publish stream) [a; b] σ.
Proof.
  intros Ha Hb Ea Eb Hla Hlb. assert (a ++ b ≠ []) as Hne by (by destruct a).
  assert (new_redactor [a ++ b] = [a ++ b]) as ->.
  { unfold new_redactor. cbn [List.filter]. rewrite bool_decide_false by done. cbn [negb].
    change (remove_dups [a ++ b]) with (if decide_rel (∈) (a ++ b) [] then [] else [a ++ b]).
    destruct (decide_rel _ _ _) as [Hin|_]; [by apply elem_of_nil in Hin|].
    pose proof (set_order_perm [a ++ b]) as Hp. apply Permutation_singleton_r in Hp. by rewrite Hp. }
  assert (∀ x bx, x ≠ [] → utf8_encode x = Ok bx → N.of_nat (length bx) <= MAX_LOG_DATA_BYTES →
    (length x < length (a ++ b))%nat → bx ≠ [] ∧ frame_chunks (redact [a ++ b] (utf8_decode_replace bx)) = Ok [x]) as Hx.
  { intros x bx Hx Ex Hl Hlt. split; [apply utf8_encode_length_le in Ex; destruct x, bx; simpl in *; done || lia|].
    rewrite (utf8_decode_replace_encode x bx Ex). unfold redact. cbn [fold_left].
    rewrite replace_absent_whole by (done || intros ?%occurs_length; lia). unfold frame_chunks, utf8_len. munfold. rewrite Ex.
    by rewrite (proj2 (N.leb_le _ _) Hl). }
  destruct (Hx a ba Ha Ea Hla) as [Hba Fa]; [rewrite length_app; destruct b; [done|cbn; lia]|].
  destruct (Hx b bb Hb Eb Hlb) as [Hbb Fb]; [rewrite length_app; destruct a; [done|cbn; lia]|].
  destruct ba as [|xa ba]; [done|]. destruct bb as [|xb bb]; [done|]. cbn [pump_stream].
  unfold mbind, M_bind, lift, mret, M_ret. rewrite Fa, Fb. cbn [for_each]. unfold mbind, M_bind, mret, M_ret.
  destruct (publish stream a σ) as [[[]|e] σ']; [|done]. by destruct (publish stream b σ') as [[[]|e] σ''].
Qed.

(** * Witnesses *)

Section example.
#[local] Instance plain_order : SetOrder := λ l, l.
#[local] Instance plain_order_laws : SetOrderLaws.
Proof. intros l. reflexivity. Qed.

Lemma log_frames_witness : ∃ frames,
  (∀ σ : list ustr, pump_stream (λ _ d l, (Ok (), l ++ [d])) (u "stdout") (new_redactor [u "hunter2"]) [u "key=hunter2;"] σ
     = for_each (λ d l, (Ok (), l ++ [d])) frames σ) ∧
  concat frames = u "key=[REDACTED];".
Proof.
  destruct (log_frames (λ (_ : ustr) (d : ustr) l, (Ok (), l ++ [d])) (u "stdout") [u "hunter2"] [u "key=hunter2;"])
    as (frames & H1 & _ & H3 & _).
  exists frames. split; [exact H1|]. rewrite H3. vm_compute. reflexivity.
Defined.

Lemma split_secret_leaks_witness :
  pump_stream (λ _ d l, (Ok (), l ++ [d])) (u "stdout") (new_redactor [u "hunter2"]) [u "hunt"; u "er2"] ([] : list ustr)
    = (Ok (), [u "hunt"; u "er2"]).
Proof.
  refine (split_secret_leaks (λ (_ : ustr) (d : ustr) l, (Ok (), l ++ [d])) (u "stdout") (u "hunt") (u "er2")
    (u "hunt") (u "er2") [] _ _ _ _ _ _); vm_compute; (reflexivity || discriminate).
Defined.

End example.
