(* ===== verification/Metrics.v ===== *)
(** Counters and their reports (src/src/build_engine/metrics/collector.py,
    metrics/reporter.py and agent/heartbeat.py). *)

From Corelib Require Import SpecFloat.
From S2P Require Import Prelude PyStr PyFloat Dict Json Clock Fs Cache.

Local Open Scope Z_scope.

(** * Heartbeats *)

Record HeartbeatSnapshot := MkHeartbeat {
  hb_workers_busy : Z;
  hb_workers_total : Z;
  hb_queue_depth : Z;
  hb_cache_size_bytes : Z;
  hb_disk_free_bytes : Z;
  hb_jobs_running : Z;
  hb_jobs_completed_total : Z;
  hb_docker_errors_total : Z;
  hb_uplink_reconnects_total : Z;
}.

Definition heartbeat_payload (h : HeartbeatSnapshot) : jdict :=
  [(u "workers_busy", JInt (hb_workers_busy h)); (u "workers_total", JInt (hb_workers_total h));
   (u "queue_depth", JInt (hb_queue_depth h)); (u "cache_size_bytes", JInt (hb_cache_size_bytes h));
   (u "disk_free_bytes", JInt (hb_disk_free_bytes h)); (u "jobs_running", JInt (hb_jobs_running h));
   (u "jobs_completed_total", JInt (hb_jobs_completed_total h));
   (u "docker_errors_total", JInt (hb_docker_errors_total h));
   (u "uplink_reconnects_total", JInt (hb_uplink_reconnects_total h))].

Definition idle_heartbeat (workers_total : Z) : HeartbeatSnapshot := MkHeartbeat 0 workers_total 0 0 0 0 0 0 0.

(** * The collector *)

Record MetricsCollector := MkCollector {
  mc_workers_total : Z;
  mc_jobs_running : Z;
  mc_jobs_completed_total : Z;
  mc_docker_errors_total : Z;
  mc_uplink_reconnects_total : Z;
  mc_cache_hits : Z;
  mc_cache_misses : Z;
}.

Definition new_collector (workers_total : Z) : MetricsCollector := MkCollector workers_total 0 0 0 0 0 0.

Definition job_started (m : MetricsCollector) : MetricsCollector :=
  MkCollector (mc_workers_total m) (mc_jobs_running m + 1) (mc_jobs_completed_total m) (mc_docker_errors_total m)
    (mc_uplink_reconnects_total m) (mc_cache_hits m) (mc_cache_misses m).

Definition job_finished (completed : bool) (m : MetricsCollector) : MetricsCollector :=
  MkCollector (mc_workers_total m) (Z.max 0 (mc_jobs_running m - 1))
    (if completed then mc_jobs_completed_total m + 1 else mc_jobs_completed_total m) (mc_docker_errors_total m)
    (mc_uplink_reconnects_total m) (mc_cache_hits m) (mc_cache_misses m).

Definition docker_error_metric (m : MetricsCollector) : MetricsCollector :=
  MkCollector (mc_workers_total m) (mc_jobs_running m) (mc_jobs_completed_total m) (mc_docker_errors_total m + 1)
    (mc_uplink_reconnects_total m) (mc_cache_hits m) (mc_cache_misses m).

Definition uplink_reconnect (m : MetricsCollector) : MetricsCollector :=
  MkCollector (mc_workers_total m) (mc_jobs_running m) (mc_jobs_completed_total m) (mc_docker_errors_total m)
    (mc_uplink_reconnects_total m + 1) (mc_cache_hits m) (mc_cache_misses m).

Definition cache_event (event : option CacheEvent) (m : MetricsCollector) : MetricsCollector :=
  match event with
  | None => m
  | Some HIT => MkCollector (mc_workers_total m) (mc_jobs_running m) (mc_jobs_completed_total m)
                  (mc_docker_errors_total m) (mc_uplink_reconnects_total m) (mc_cache_hits m + 1) (mc_cache_misses m)
  | Some (MISS | WIPED) => MkCollector (mc_workers_total m) (mc_jobs_running m) (mc_jobs_completed_total m)
                  (mc_docker_errors_total m) (mc_uplink_reconnects_total m) (mc_cache_hits m) (mc_cache_misses m + 1)
  end.

(** [a / b] of integers with [0 <= a] and [0 < b]: the correctly rounded quotient. *)
Definition int_truediv (a b : Z) : pyfloat :=
  match a with
  | Zpos p => SFdiv PREC EMAX (S754_finite false p 0) (S754_finite false (Z.to_pos b) 0)
  | _ => S754_zero false
  end.

Record MetricsSnapshot := MkSnapshot {
  ms_recorded_at : ustr;
  ms_workers_busy : Z;
  ms_workers_total : Z;
  ms_queue_depth : Z;
  ms_cache_size_bytes : Z;
  ms_cache_hit_ratio : pyfloat;
  ms_jobs_running : Z;
  ms_jobs_completed_total : Z;
  ms_docker_errors_total : Z;
  ms_uplink_reconnects_total : Z;
}.

Definition snapshot (now : instant) (queue_depth cache_size_bytes : Z) (m : MetricsCollector) : MetricsSnapshot :=
  let cache_total := mc_cache_hits m + mc_cache_misses m in
  let hit_ratio := if cache_total =? 0 then S754_zero false else int_truediv (mc_cache_hits m) cache_total in
  MkSnapshot (format_datetime now) (mc_jobs_running m) (mc_workers_total m) queue_depth cache_size_bytes hit_ratio
    (mc_jobs_running m) (mc_jobs_completed_total m) (mc_docker_errors_total m) (mc_uplink_reconnects_total m).

Definition snapshot_payload (s : MetricsSnapshot) : jdict :=
  [(u "recorded_at", JStr (ms_recorded_at s)); (u "workers_busy", JInt (ms_workers_busy s));
   (u "workers_total", JInt (ms_workers_total s)); (u "queue_depth", JInt (ms_queue_depth s));
   (u "cache_size_bytes", JInt (ms_cache_size_bytes s)); (u "cache_hit_ratio", JFloat (ms_cache_hit_ratio s));
   (u "jobs_running", JInt (ms_jobs_running s)); (u "jobs_completed_total", JInt (ms_jobs_completed_total s));
   (u "docker_errors_total", JInt (ms_docker_errors_total s));
   (u "uplink_reconnects_total", JInt (ms_uplink_reconnects_total s))].

Definition to_heartbeat (disk_free_bytes : Z) (s : MetricsSnapshot) : HeartbeatSnapshot :=
  MkHeartbeat (ms_workers_busy s) (ms_workers_total s) (ms_queue_depth s) (ms_cache_size_bytes s) disk_free_bytes
    (ms_jobs_running s) (ms_jobs_completed_total s) (ms_docker_errors_total s) (ms_uplink_reconnects_total s).

(** * The textfile report *)

Definition metric_lines (metric help kind value : ustr) : list ustr :=
  [u "# HELP " ++ metric ++ u " " ++ help; u "# TYPE " ++ metric ++ u " " ++ kind; metric ++ u " " ++ value].

Definition textfile (s : MetricsSnapshot) : ustr :=
  join [10%N] (
    metric_lines (u "build_engine_workers_busy") (u "Build engine workers currently busy.") (u "gauge")
      (str_of_Z (ms_workers_busy s))
    ++ metric_lines (u "build_engine_workers_total") (u "Build engine configured worker count.") (u "gauge")
      (str_of_Z (ms_workers_total s))
    ++ metric_lines (u "build_engine_queue_depth") (u "Local queued build attempts.") (u "gauge")
      (str_of_Z (ms_queue_depth s))
    ++ metric_lines (u "build_engine_cache_size_bytes") (u "Build cache size in bytes.") (u "gauge")
      (str_of_Z (ms_cache_size_bytes s))
    ++ metric_lines (u "build_engine_cache_hit_ratio") (u "Build cache hit ratio since process start.") (u "gauge")
      (float_repr (ms_cache_hit_ratio s))
    ++ metric_lines (u "build_engine_jobs_running") (u "Local build attempts currently running.") (u "gauge")
      (str_of_Z (ms_jobs_running s))
    ++ metric_lines (u "build_engine_jobs_completed_total") (u "Completed local build attempts.") (u "counter")
      (str_of_Z (ms_jobs_completed_total s))
    ++ metric_lines (u "build_engine_docker_errors_total") (u "Docker infrastructure errors.") (u "counter")
      (str_of_Z (ms_docker_errors_total s))
    ++ metric_lines (u "build_engine_uplink_reconnects_total") (u "WSS reconnect attempts.") (u "counter")
      (str_of_Z (ms_uplink_reconnects_total s))) ++ [10%N].

Definition write_textfile_metrics (now : instant) (p : path) (s : MetricsSnapshot) : M fs () :=
  mkdir_parents now (parent p);;
  let temporary := parent p ++ [name p ++ u ".tmp"] in
  write_text now temporary (textfile s);;
  replace_file now temporary p.

(** * Properties *)

(** What happens in the engine, one counted event at a time. *)
Inductive metric_event :=
| MStarted (worker : N)
| MFinished (worker : N) (completed : bool)
| MDockerError
| MReconnect
| MCache (event : option CacheEvent).

Definition count (m : MetricsCollector) (e : metric_event) : MetricsCollector :=
  match e with
  | MStarted _ => job_started m
  | MFinished _ c => job_finished c m
  | MDockerError => docker_error_metric m
  | MReconnect => uplink_reconnect m
  | MCache e => cache_event e m
  end.

(** The workers busy after a sequence of events in which a worker starts a job
    only when it is idle and finishes only a job it has started. *)
Fixpoint busy (b : list N) (l : list metric_event) : option (list N) :=
  match l with
  | [] => Some b
  | MStarted w :: l => if decide (w ∈ b) then None else busy (w :: b) l
  | MFinished w _ :: l => if decide (w ∈ b) then busy (List.filter (λ v, negb (v =? w)%N) b) l else None
  | _ :: l => busy b l
  end.

Definition completions (l : list metric_event) : Z :=
  Z.of_nat (length (List.filter (λ e, match e with MFinished _ c => c | _ => false end) l)).
Definition hits (l : list metric_event) : Z :=
  Z.of_nat (length (List.filter (λ e, match e with MCache (Some HIT) => true | _ => false end) l)).
Definition lookups (l : list metric_event) : Z :=
  Z.of_nat (length (List.filter (λ e, match e with MCache (Some _) => true | _ => false end) l)).

Lemma remove_worker w b : NoDup b → w ∈ b →
  NoDup (List.filter (λ v, negb (v =? w)%N) b) ∧ S (length (List.filter (λ v, negb (v =? w)%N) b)) = length b.
Proof.
  intros Hn Hw. assert (∀ c, w ∉ c → List.filter (λ v, negb (v =? w)%N) c = c) as Hid.
  { induction c as [|x c IH]; [done|]. intros [H1 H2]%not_elem_of_cons. cbn.
    rewrite (proj2 (N.eqb_neq x w)) by congruence. cbn. by rewrite IH. }
  induction Hn as [|x b Hx Hn IH]; [by apply elem_of_nil in Hw|]. cbn.
  destruct (N.eqb_spec x w) as [->|Hne]; cbn [negb].
  - rewrite Hid by done. by split.
  - destruct IH as [H1 H2]; [set_solver|]. split; [|cbn; lia]. constructor; [|done].
    intros H. apply Hx. apply list_elem_of_In, List.filter_In in H as [H _]. by apply list_elem_of_In.
Qed.

Lemma count_run b l b' m : NoDup b → mc_jobs_running m = Z.of_nat (length b) → busy b l = Some b' →
  let m' := fold_left count l m in
  NoDup b' ∧ mc_jobs_running m' = Z.of_nat (length b') ∧ mc_workers_total m' = mc_workers_total m ∧
  mc_jobs_completed_total m' = mc_jobs_completed_total m + completions l ∧
  mc_cache_hits m' = mc_cache_hits m + hits l ∧
  mc_cache_hits m' + mc_cache_misses m' = mc_cache_hits m + mc_cache_misses m + lookups l.
Proof.
  unfold completions, hits, lookups. revert b m. induction l as [|e l IH]; intros b m Hb Hm; cbn [busy fold_left].
  { intros [= <-]. cbn. split_and!; try done; lia. }
  intros Hl. assert (∃ b1, NoDup b1 ∧ mc_jobs_running (count m e) = Z.of_nat (length b1) ∧ busy b1 l = Some b')
    as (b1 & Hb1 & Hm1 & Hl1).
  { destruct e as [w|w c| | |[[]|]]; try by exists b.
    - case_decide as Hw; [done|]. exists (w :: b). split_and!; [by constructor|cbn; lia|done].
    - case_decide as Hw; [|done]. destruct (remove_worker w b Hb Hw) as [H1 H2].
      eexists. split_and!; [exact H1|cbn; lia|done]. }
  destruct (IH b1 _ Hb1 Hm1 Hl1) as (H1 & H2 & H3 & H4 & H5 & H6). cbv zeta.
  destruct e as [w|w []| | |[[]|]]; cbn in *; split_and!; try done; lia.
Qed.

(** The counters. When no worker starts a job before it has finished its
    last one, the number of running jobs is the number of busy workers, the
    total of completed jobs counts the finished ones that were completed, and
    hits and lookups count the cache events; the clamp at zero never acts. *)
Theorem counters_exact workers_total l b :
  busy [] l = Some b →
  let m := fold_left count l (new_collector workers_total) in
  NoDup b ∧ mc_jobs_running m = Z.of_nat (length b) ∧ mc_workers_total m = workers_total ∧
  mc_jobs_completed_total m = completions l ∧
  mc_cache_hits m = hits l ∧ mc_cache_hits m + mc_cache_misses m = lookups l.
Proof.
  intros H. by apply (count_run [] l b (new_collector workers_total)); [constructor| |].
Qed.

Lemma counters_exact_witness :
  let m := fold_left count [MStarted 0; MStarted 1; MCache (Some HIT); MFinished 0 true] (new_collector 2) in
  mc_jobs_running m = 1 ∧ mc_jobs_completed_total m = 1.
Proof.
  destruct (counters_exact 2 [MStarted 0; MStarted 1; MCache (Some HIT); MFinished 0 true] [1%N] eq_refl)
    as (_ & H1 & _ & H2 & _).
  exact (conj H1 H2).
Defined.
