(* ===== verification/Docker.v ===== *)
(** Builder images and hardened containers
    (src/src/build_engine/executor/docker_runner.py and network.py). *)

From Corelib Require Import SpecFloat.
From S2P Require Import Prelude PyStr PyFloat Dict Json Clock Protocol Fs Resolve Stream Cache Config.

Local Open Scope Z_scope.

Definition docker_error (msg : ustr) : exn := PyExn DockerError msg.

(** * Network policy *)

Definition DEFAULT_NETWORK_MODE : ustr := u "bridge".

Definition network_args (mode : ustr) : result (list ustr) :=
  fail_if (negb (ustr_eqb mode DEFAULT_NETWORK_MODE))
    (PyExn NetworkPolicyError (u "Build containers must use the unrestricted bridge network"));;
  Ok [u "--network"; DEFAULT_NETWORK_MODE].

(** * Image manifests *)

Record ImageManifestEntry := MkImageEntry { ie_tag : ustr; ie_digest : ustr; ie_frameworks : list ustr }.

Definition reference (e : ImageManifestEntry) : ustr := ie_tag e ++ [64%N] ++ ie_digest e.

Abbreviation image_manifest := (list (ustr * ImageManifestEntry)).

Definition hex_lower (c : N) : bool := is_digit c || ((97 <=? c) && (c <=? 102))%N.

(** [re.fullmatch(r"sha256:[0-9a-f]{64}", digest)]. *)
Definition digest_ok (digest : ustr) : bool :=
  startswith digest (u "sha256:") && Nat.eqb (length digest) 71 && forallb hex_lower (drop 7 digest).

(** [re.fullmatch(r"[^\s@]+@sha256:[0-9a-f]{64}", image)]. *)
Definition pinned (image : ustr) : bool :=
  match split_on 64 image with
  | [tag; digest] => negb (bool_decide (tag = [])) && forallb (λ c, negb (is_space c)) tag && digest_ok digest
  | _ => false
  end.

Definition require_pinned_image (image : ustr) : result () :=
  fail_if (negb (pinned image)) (docker_error (u "Docker images must use an immutable tag@sha256:digest reference")).

Definition string_field (d : jdict) (k : ustr) : option ustr :=
  match dget k d with Some (JStr (c :: s)) => Some (c :: s) | _ => None end.

Fixpoint framework_names (l : list json) : option (list ustr) :=
  match l with
  | [] => Some []
  | JStr (c :: s) :: l => rest ← framework_names l; Some ((c :: s) :: rest)
  | _ :: _ => None
  end.

(** One entry of [images]. *)
Definition image_entry (key : ustr) (raw : json) : result ImageManifestEntry :=
  match raw with
  | JObj raw =>
      tag ← res_of_option (docker_error (u "Image manifest entry " ++ key ++ u " is missing tag"))
              (string_field raw (u "tag"));
      digest ← res_of_option (docker_error (u "Image manifest entry " ++ key ++ u " is missing digest"))
              (match dget (u "digest") raw with
               | Some (JStr s) => if digest_ok s then Some s else None
               | _ => None
               end);
      frameworks ← res_of_option (docker_error (u "Image manifest entry " ++ key ++ u " is missing frameworks"))
              (match dget (u "frameworks") raw with Some (JList l) => framework_names l | _ => None end);
      Ok (MkImageEntry tag digest frameworks)
  | _ => Err (docker_error (u "Image manifest entries must be objects"))
  end.

Fixpoint image_entries (images : jdict) : result image_manifest :=
  match images with
  | [] => Ok []
  | (key, raw) :: images => e ← image_entry key raw; rest ← image_entries images; Ok ((key, e) :: rest)
  end.

Definition parse_image_manifest (decoded : json) (require_protocol_v2 : bool) : result image_manifest :=
  match decoded with
  | JObj decoded =>
      (if require_protocol_v2 then
         fail_if (match string_field decoded (u "version") with None => true | Some _ => false end)
           (docker_error (u "Image manifest must contain a version"));;
         fail_if (match dget (u "engine_compat") decoded with
                  | Some (JObj c) =>
                      let is_two k := match dget k c with Some v => json_eq_int v 2 | None => false end in
                      negb (is_two (u "proto_min") && is_two (u "proto_max"))
                  | _ => true
                  end) (docker_error (u "Image manifest is not compatible with protocol v2"))
       else Ok ());;
      fail_if (match dget (u "version") decoded with
               | None | Some JNull | Some (JStr (_ :: _)) => false
               | Some _ => true
               end) (docker_error (u "Image manifest version must be a non-empty string"));;
      match dget (u "images") decoded with
      | Some (JObj ((_ :: _) as images)) => image_entries images
      | _ => Err (docker_error (u "Image manifest must contain images"))
      end
  | _ => Err (docker_error (u "Image manifest must be a JSON object"))
  end.

Definition load_image_manifest (p : path) (require_protocol_v2 : bool) : M fs image_manifest :=
  text ← read_text p;
  decoded ← lift (loads text);
  lift (parse_image_manifest decoded require_protocol_v2).

(** The manifest shipped in the package: [data] is its directory. *)
Definition load_bundled_image_manifest (data : path) : M fs image_manifest :=
  decoded ← try_except (text ← read_text (data ++ [u "manifest.json"]); lift (loads text))
              (λ e, if isinstance e OSError || isinstance e JSONDecodeError
                    then raise (docker_error (u "Bundled builder image manifest is unavailable")) else raise e);
  lift (parse_image_manifest decoded true).

Definition resolve_image_reference (image : ustr) (manifest : option image_manifest) : result ustr :=
  match manifest with
  | None => require_pinned_image image;; Ok image
  | Some m =>
      match dget image m with
      | Some e => Ok (reference e)
      | None =>
          match List.find (λ ke : ustr * ImageManifestEntry, mem_str image [ie_tag ke.2; reference ke.2]) m with
          | Some (_, e) => Ok (reference e)
          | None => Err (docker_error (u "Image " ++ image ++ u " is not present in the builder manifest"))
          end
      end
  end.

(** * Run specifications *)

Record DockerRunSpec := MkRunSpec {
  rs_image : ustr;
  rs_project_root : path;
  rs_command : ustr;
  rs_config : EngineConfig;
  rs_network_mode : ustr;
  rs_source_root : option path;
  rs_output_root : option path;
  rs_build_manifest : option jdict;
  rs_environment : list (ustr * ustr);
  rs_cache_mounts : list CacheMount;
  rs_secret_env : list (ustr * ustr);
  rs_container_label : ustr;
  rs_host_uid : Z;
  rs_host_gid : Z;
  rs_timeout_seconds : option Z;
  rs_memory_limit : option ustr;
  rs_cpu_limit : option pyfloat;
  rs_pids_limit : Z;
}.

Record ContainerResult := MkContainerResult { co_exit_code : Z; co_timed_out : bool; co_cancelled : bool }.

(** [limit or default]. *)
Definition memory_text (s : DockerRunSpec) : ustr :=
  match rs_memory_limit s with Some (c :: m) => c :: m | _ => cf_container_memory (rs_config s) end.
Definition cpu_value (s : DockerRunSpec) : pyfloat :=
  match rs_cpu_limit s with
  | Some (S754_zero _) | None => cf_container_cpus (rs_config s)
  | Some c => c
  end.

Definition item_leb (a b : ustr * ustr) : bool := ustr_leb a.1 b.1.

Definition volume (host : path) (rest : ustr) : list ustr := [u "--volume"; path_str host ++ rest].

Fixpoint mount_args (now : instant) (mounts : list CacheMount) : M fs (list ustr) :=
  match mounts with
  | [] => mret []
  | m :: mounts =>
      mkdir_parents now (cm_host_path m);;
      host ← gets (λ f, resolve f (cm_host_path m));
      rest ← mount_args now mounts;
      mret (volume host ([58%N] ++ cm_container_path m ++ u ":rw") ++ rest)
  end.

(** The options before the volumes. *)
Definition base_args (docker_bin : ustr) (s : DockerRunSpec) (net : list ustr) : list ustr :=
  [docker_bin; u "run"; u "--rm"; u "--init"; u "--label"; rs_container_label s;
   u "--memory"; memory_text s; u "--memory-swap"; memory_text s; u "--cpus"; float_repr (cpu_value s);
   u "--pids-limit"; str_of_Z (rs_pids_limit s); u "--read-only";
   u "--user"; str_of_Z (rs_host_uid s) ++ [58%N] ++ str_of_Z (rs_host_gid s);
   u "--cap-drop"; u "ALL"; u "--security-opt"; u "no-new-privileges";
   u "--tmpfs"; u "/tmp:rw,noexec,nosuid,size=512m"]
  ++ net ++ [u "--workdir"; match rs_build_manifest s with Some _ => u "/workspace/src" | None => u "/workspace" end].

Definition docker_run_args (now : instant) (s : DockerRunSpec) (docker_bin : ustr)
    (env_file_path build_manifest_path cidfile_path : option path) : M fs (list ustr) :=
  lift (require_pinned_image (rs_image s));;
  net ← lift (network_args (rs_network_mode s));
  volumes ← match rs_build_manifest s with
            | Some _ =>
                match build_manifest_path with
                | None => raise (docker_error (u "build_manifest_path is required when build_manifest is set"))
                | Some mp =>
                    let output_root := default (parent (rs_project_root s) ++ [u "out"]) (rs_output_root s) in
                    mkdir_parents now output_root;;
                    gets (λ f,
                      volume (resolve f mp) (u ":/build/manifest.json:ro")
                      ++ volume (resolve f (default (rs_project_root s) (rs_source_root s))) (u ":/workspace/src:rw")
                      ++ volume (resolve f output_root) (u ":/workspace/out:rw"))
                end
            | None => gets (λ f, volume (resolve f (rs_project_root s)) (u ":/workspace:rw"))
            end;
  mounts ← mount_args now (rs_cache_mounts s);
  let env := concat ((λ kv : ustr * ustr, [u "--env"; kv.1 ++ [61%N] ++ kv.2]) <$> sort_by item_leb (rs_environment s)) in
  let file := match env_file_path with Some p => [u "--env-file"; path_str p] | None => [] end in
  let cid := match cidfile_path with Some p => [u "--cidfile"; path_str p] | None => [] end in
  let command := match rs_build_manifest s with
                 | Some _ => [rs_image s]
                 | None => [rs_image s; u "sh"; u "-c"; rs_command s]
                 end in
  mret (base_args docker_bin s net ++ volumes ++ mounts ++ env ++ file ++ cid ++ command).

(** * The environment file of the secrets *)

(** [str.isalnum] and [str.isdigit] of one character; ASCII is decided here,
    the Unicode tables beyond are a parameter. *)
Class UnicodeTables := { alnum_beyond : N → bool; digit_beyond : N → bool }.

Section env_file.
Context `{UnicodeTables}.

Definition is_alnum (c : N) : bool :=
  if (c <? 128)%N then is_digit c || ((65 <=? c) && (c <=? 90) || (97 <=? c) && (c <=? 122))%N else alnum_beyond c.
Definition is_digit_char (c : N) : bool := if (c <? 128)%N then is_digit c else digit_beyond c.

Definition secret_key_ok (key : ustr) : bool :=
  let bare := List.filter (λ c, negb (c =? 95)%N) key in
  match key with
  | [] => false
  | c :: _ => negb (bool_decide (bare = [])) && forallb is_alnum bare && negb (is_digit_char c)
  end.

Definition validate_secret_env_key (key : ustr) : result () :=
  fail_if (negb (secret_key_ok key)) (docker_error (u "Invalid secret env var name: " ++ py_repr_str key)).

Fixpoint env_lines (items : list (ustr * ustr)) : result (list ustr) :=
  match items with
  | [] => Ok []
  | (key, value) :: items =>
      validate_secret_env_key key;;
      fail_if (bool_decide (10%N ∈ value) || bool_decide (13%N ∈ value))
        (docker_error (u "Secret env var " ++ py_repr_str key ++ u " contains a newline"));;
      rest ← env_lines items;
      Ok ((key ++ [61%N] ++ value) :: rest)
  end.

Definition format_env_file (secret_env : list (ustr * ustr)) : result ustr :=
  lines ← env_lines (sort_by item_leb secret_env);
  Ok (join [10%N] lines ++ match lines with [] => [] | _ => [10%N] end).

End env_file.

(** * Running a container *)

(** The host a container runs on: files, a clock, temporary files, and the
    docker process with what one observes of it. *)
Class ContainerHost (S : Type) := {
  host_files : ∀ {A}, M fs A → M S A;
  host_now : M S instant;
  (** [loop.time()]. *)
  host_time : M S pyfloat;
  (** A new empty file with this prefix and suffix. *)
  host_mkstemp : ustr → ustr → M S path;
  (** [create_subprocess_exec] of the container's command. *)
  host_start : list ustr → M S ();
  (** [wait_for(process.wait(), timeout)]: the exit code, unless it timed out. *)
  host_wait : pyfloat → M S (option Z);
  host_wait_forever : M S Z;
  host_returncode : M S (option Z);
  host_terminate : M S ();
  host_kill : M S ();
  (** Another docker command, awaited: exit code, output and error output. *)
  host_command : list ustr → M S (Z * ustr * ustr);
  (** The reads of the container's stdout and stderr, until they close. *)
  host_stdout : M S (list (list N));
  host_stderr : M S (list (list N));
}.

Section run.
Context {S : Type} `{ContainerHost S} `{UnicodeTables} `{SetOrder}.

Definition docker : ustr := u "docker".

Definition pull_image (image : ustr) : M S () :=
  lift (require_pinned_image image);;
  '(code, out, err) ← host_command [docker; u "pull"; image];
  let detail := strip is_space (match err with [] => out | _ => err end) in
  raise_if (negb (code =? 0)) (docker_error (u "Docker image pull failed for " ++ image ++ u ": " ++ detail)).

(** [_materialize_env_file] and [_materialize_build_manifest] around [body]. *)
Definition with_env_file {A} (secret_env : list (ustr * ustr)) (body : option path → M S A) : M S A :=
  match secret_env with
  | [] => body None
  | _ =>
      p ← host_mkstemp (u "build-engine-env-") (u ".env");
      try_finally
        (t ← host_now;
         text ← lift (format_env_file secret_env);
         host_files (write_text t p text);;
         body (Some p))
        (t ← host_now; host_files (unlink t true p))
  end.

Definition with_build_manifest {A} (manifest : option jdict) (body : option path → M S A) : M S A :=
  match manifest with
  | None => body None
  | Some m =>
      p ← host_mkstemp (u "build-engine-manifest-") (u ".json");
      try_finally
        (t ← host_now;
         host_files (write_text t p (dumps (compact true) (JObj m) ++ [10%N]));;
         body (Some p))
        (t ← host_now; host_files (unlink t true p))
  end.

Definition hex_any (c : N) : bool := is_digit c || ((97 <=? c) && (c <=? 102) || (65 <=? c) && (c <=? 70))%N.

(** [_read_container_id]. *)
Definition read_container_id (cidfile : path) : M fs (option ustr) :=
  bytes ← try_except (b ← read_bytes cidfile; mret (Some b)) (λ e, if isinstance e OSError then mret None else raise e);
  match bytes with
  | None => mret None
  | Some b =>
      raise_if (negb (forallb (λ c, (c <? 128)%N) b))
        (PyExn UnicodeDecodeError (u "'ascii' codec can't decode byte"));;
      let value := strip is_space (universal_newlines b) in
      mret (if Nat.leb 12 (length value) && Nat.leb (length value) 128 && forallb hex_any value then Some value else None)
  end.

Definition stop_container (container_id : option ustr) (grace_seconds : Z) : M S () :=
  match container_id with
  | None => mret ()
  | Some id =>
      host_command [docker; u "stop"; u "--time"; str_of_Z (Z.max 1 grace_seconds); id];;
      host_command [docker; u "rm"; u "--force"; id];;
      mret ()
  end.

Definition terminate_then_kill (grace_seconds : pyfloat) : M S () :=
  code ← host_returncode;
  match code with
  | Some _ => mret ()
  | None =>
      host_terminate;;
      ended ← host_wait grace_seconds;
      match ended with
      | Some _ => mret ()
      | None => host_kill;; host_wait_forever;; mret ()
      end
  end.

(** Stop the container, then the client; [process.returncode or -1]. *)
Definition end_process (s : DockerRunSpec) (cidfile : path) : M S Z :=
  id ← host_files (read_container_id cidfile);
  stop_container id (cf_sigterm_grace_seconds (rs_config s));;
  grace ← lift (float_of_Z (cf_sigterm_grace_seconds (rs_config s)));
  terminate_then_kill grace;;
  code ← host_returncode;
  mret (match code with Some 0 | None => -1 | Some c => c end).

Definition QUARTER : pyfloat := S754_finite false 4503599627370496 (-54).

(** [spec.timeout_seconds or config.build_timeout_seconds]. *)
Definition timeout_of (s : DockerRunSpec) : Z :=
  match rs_timeout_seconds s with Some 0 | None => cf_build_timeout_seconds (rs_config s) | Some t => t end.

(** The loop of [_wait_for_process]; [None] says that the process still runs
    after [polls] rounds. *)
Fixpoint wait_loop (polls : nat) (cancel_is_set : M S bool) (s : DockerRunSpec) (cidfile : path) (deadline : pyfloat)
    : M S (option ContainerResult) :=
  match polls with
  | O => mret None
  | Datatypes.S polls =>
      cancel ← cancel_is_set;
      if (cancel : bool) then
        code ← end_process s cidfile; mret (Some (MkContainerResult code false true))
      else
        t ← host_time;
        let remaining := SFsub PREC EMAX deadline t in
        if float_leb remaining (S754_zero false) then
          code ← end_process s cidfile; mret (Some (MkContainerResult code true false))
        else
          ended ← host_wait (if float_ltb remaining QUARTER then remaining else QUARTER);
          match ended with
          | None => wait_loop polls cancel_is_set s cidfile deadline
          | Some code => mret (Some (MkContainerResult code false false))
          end
  end.

Definition wait_for_process (polls : nat) (cancel_is_set : M S bool) (s : DockerRunSpec) (cidfile : path)
    : M S (option ContainerResult) :=
  t ← host_time;
  timeout ← lift (float_of_Z (timeout_of s));
  wait_loop polls cancel_is_set s cidfile (SFadd PREC EMAX t timeout).

(** [run_container]; the two pumps, which run beside the wait, come after it. *)
Definition run_container (polls : nat) (s : DockerRunSpec) (publish_log : ustr → ustr → M S ()) (cancel_is_set : M S bool)
    : M S (option ContainerResult) :=
  cidfile ← host_mkstemp (u "build-engine-cid-") (u ".txt");
  t ← host_now;
  host_files (unlink t true cidfile);;
  with_env_file (rs_secret_env s) (λ env_file_path,
  with_build_manifest (rs_build_manifest s) (λ build_manifest_path,
    try_finally
      (t ← host_now;
       args ← host_files (docker_run_args t s docker env_file_path build_manifest_path (Some cidfile));
       host_start args;;
       let redactor := new_redactor (snd <$> rs_secret_env s) in
       try_finally
         (wait_for_process polls cancel_is_set s cidfile)
         (out ← host_stdout; err ← host_stderr;
          pump_stream publish_log (u "stdout") redactor out;;
          pump_stream publish_log (u "stderr") redactor err))
      (t ← host_now; suppress OSError (host_files (unlink t true cidfile))))).

End run.
