(* ===== verification/DockerProofs.v ===== *)
(** What docker sees of a build: the options of the command line, the secrets'
    environment file, the resolved images, and the end of the wait. *)

From Corelib Require Import SpecFloat.
From S2P Require Import Prelude PyStr PyFloat Dict Json Clock Protocol Fs Resolve Stream Cache Config Docker.

Local Open Scope Z_scope.

(** * The command line as docker reads it *)

Definition FLAGS : list ustr := [u "--rm"; u "--init"; u "--read-only"].

(** [docker run]'s arguments: options, with a value unless they are flags, up
    to the first other word, which is the image; the rest is the command. *)
Fixpoint parse_run (args : list ustr) : option (list (ustr * option ustr) * ustr * list ustr) :=
  match args with
  | [] => None
  | a :: rest =>
      if startswith a (u "-") then
        if mem_str a FLAGS then
          '(opts, image, command) ← parse_run rest; Some ((a, None) :: opts, image, command)
        else match rest with
             | [] => None
             | v :: rest => '(opts, image, command) ← parse_run rest; Some ((a, Some v) :: opts, image, command)
             end
      else Some ([], a, rest)
  end.

(** The options every container runs with. *)
Definition hardening (s : DockerRunSpec) : list (ustr * option ustr) :=
  [(u "--rm", None); (u "--init", None); (u "--label", Some (rs_container_label s));
   (u "--memory", Some (memory_text s)); (u "--memory-swap", Some (memory_text s));
   (u "--cpus", Some (float_repr (cpu_value s))); (u "--pids-limit", Some (str_of_Z (rs_pids_limit s)));
   (u "--read-only", None); (u "--user", Some (str_of_Z (rs_host_uid s) ++ [58%N] ++ str_of_Z (rs_host_gid s)));
   (u "--cap-drop", Some (u "ALL")); (u "--security-opt", Some (u "no-new-privileges"));
   (u "--tmpfs", Some (u "/tmp:rw,noexec,nosuid,size=512m")); (u "--network", Some (u "bridge"));
   (u "--workdir", Some (match rs_build_manifest s with Some _ => u "/workspace/src" | None => u "/workspace" end))].

(** Options as words, and options that all have values. *)
Definition as_words (opts : list (ustr * option ustr)) : list ustr :=
  concat ((λ kv, kv.1 :: match kv.2 with Some v => [v] | None => [] end) <$> opts).
Definition as_options (opts : list (ustr * ustr)) : list (ustr * option ustr) := (λ kv, (kv.1, Some kv.2)) <$> opts.
Definition as_args (opts : list (ustr * ustr)) : list ustr := concat ((λ kv, [kv.1; kv.2]) <$> opts).

Definition option_ok (kv : ustr * option ustr) : bool :=
  startswith kv.1 (u "-") && Bool.eqb (mem_str kv.1 FLAGS) (match kv.2 with None => true | Some _ => false end).

Lemma as_words_options opts : as_words (as_options opts) = as_args opts.
Proof. unfold as_words, as_options, as_args. by rewrite <- list_fmap_compose. Qed.

Lemma parse_run_words opts rest o image command :
  forallb option_ok opts = true → parse_run rest = Some (o, image, command) →
  parse_run (as_words opts ++ rest) = Some (opts ++ o, image, command).
Proof.
  intros Ho Hr. induction opts as [|[k v] opts IH]; [exact Hr|].
  cbn [forallb] in Ho. apply andb_true_iff in Ho as [Hk Ho]. specialize (IH Ho).
  unfold option_ok in Hk. cbn [fst snd] in Hk. apply andb_true_iff in Hk as [H1 H2%eqb_prop].
  change (as_words ((k, v) :: opts)) with ((k :: match v with Some v => [v] | None => [] end) ++ as_words opts).
  rewrite <- app_assoc. cbn [app parse_run]. rewrite H1, H2. destruct v as [v|]; cbn [app]; by rewrite IH.
Qed.

Lemma parse_run_image image command : startswith image (u "-") = false →
  parse_run (image :: command) = Some ([], image, command).
Proof. intros H. cbn [parse_run]. by rewrite H. Qed.

Lemma base_args_words bin s : drop 2 (base_args bin s [u "--network"; u "bridge"]) = as_words (hardening s).
Proof. reflexivity. Qed.

Lemma hardening_ok s : forallb option_ok (hardening s) = true.
Proof. reflexivity. Qed.

Lemma options_ok opts : Forall (λ kv, option_ok (kv.1, Some []) = true) opts → forallb option_ok (as_options opts) = true.
Proof. 
  induction 1 as [|[k v] opts H _ IH]; [done|]. change (option_ok (k, Some v) && forallb option_ok (as_options opts) = true).
  rewrite IH, andb_true_r. exact H.
 Qed.

(** The volumes, as the files are when docker's arguments are made: the
    directories to mount are created one after the other, and each is named by
    what its path resolves to right after. *)
Definition made (now : instant) (p : path) (f : fs) : fs := (mkdir_parents now p f).2.

Definition volume_text (f : fs) (host : path) (rest : ustr) : ustr * ustr :=
  (u "--volume", path_str (resolve f host) ++ rest).

Fixpoint mount_volumes (now : instant) (mounts : list CacheMount) (f : fs) : list (ustr * ustr) :=
  match mounts with
  | [] => []
  | m :: mounts =>
      let f := made now (cm_host_path m) f in
      volume_text f (cm_host_path m) ([58%N] ++ cm_container_path m ++ u ":rw") :: mount_volumes now mounts f
  end.

(** The project's own: what the container may write is the source and the
    output, or the workspace, and nothing else. *)
Definition output_of (s : DockerRunSpec) : path := default (parent (rs_project_root s) ++ [u "out"]) (rs_output_root s).
Definition source_of (s : DockerRunSpec) : path := default (rs_project_root s) (rs_source_root s).
Definition project_files (now : instant) (s : DockerRunSpec) (f : fs) : fs :=
  match rs_build_manifest s with Some _ => made now (output_of s) f | None => f end.
Definition project_volumes (now : instant) (s : DockerRunSpec) (manifest_path : option path) (f : fs) : list (ustr * ustr) :=
  match rs_build_manifest s, manifest_path with
  | Some _, Some mp =>
      let f := made now (output_of s) f in
      [volume_text f mp (u ":/build/manifest.json:ro");
       volume_text f (source_of s) (u ":/workspace/src:rw");
       volume_text f (output_of s) (u ":/workspace/out:rw")]
  | _, _ => [volume_text f (rs_project_root s) (u ":/workspace:rw")]
  end.

Lemma mount_args_run now mounts f args f' :
  mount_args now mounts f = (Ok args, f') → args = as_args (mount_volumes now mounts f).
Proof.
  revert f args. induction mounts as [|m mounts IH]; intros f args; cbn [mount_args]; [by intros [= <- <-]|].
  intros (x & f1 & H1 & H)%bind_Ok_inv. apply bind_Ok_inv in H as (host & f2 & Hh & H).
  injection Hh as <- <-. apply bind_Ok_inv in H as (rest & f3 & Hr & [= <- <-]).
  apply IH in Hr as ->. cbn [mount_volumes]. unfold made. by rewrite H1.
Qed.

(** Creating directories keeps the real ones, and a real directory is named as it is. *)
Lemma mkdir_from_keeps now done_ todo f p : real_dir f p → real_dir (mkdir_from now done_ todo f).2 p.
Proof.
  revert done_ f. induction todo as [|c todo IH]; intros done_ f Hp; [done|]. cbn [mkdir_from]. munfold.
  destruct (is_dir f (done_ ++ [c])); [by apply IH|]. destruct (exists_ f (done_ ++ [c])); [done|]. cbn [raise_if]. munfold.
  unfold mkdir1. destruct (llocate f (done_ ++ [c])) as [q|]; [|done].
  destruct (lookup_entry f q) eqn:Eq; [done|]. munfold. apply IH.
  eapply real_dir_same; [|exact Hp]. intros a b E Ha. apply put_lookup_ne. intros ->.
  destruct Hp as [_ Hp]. destruct (Hp _ _ E Ha) as [t Ht]. unfold lookup_entry in Eq. destruct a; congruence.
Qed.

Lemma made_keeps now p f q : real_dir f q → real_dir (made now p f) q.
Proof. apply mkdir_from_keeps. Qed.

Lemma volume_text_real f host rest : real_dir f host → [] ∉ host →
  volume_text f host rest = (u "--volume", path_str host ++ rest).
Proof.
  intros [Hp Hd] Hn. unfold volume_text. rewrite resolve_plain; [done| |].
  - rewrite Forall_forall in *. intros c Hc. split; [by intros ->|by apply Hp].
  - intros a b E Ha a' t Hl. destruct (Hd a b E Ha). congruence.
Qed.

Lemma mount_volumes_real now mounts f :
  Forall (λ m, real_dir f (cm_host_path m) ∧ [] ∉ cm_host_path m) mounts →
  mount_volumes now mounts f =
    (λ m, (u "--volume", path_str (cm_host_path m) ++ [58%N] ++ cm_container_path m ++ u ":rw")) <$> mounts.
Proof.
  revert f. induction mounts as [|m mounts IH]; intros f; [done|]. intros [[Hr Hn] H]%Forall_cons.
  cbn [mount_volumes fmap list_fmap]. rewrite volume_text_real by (done || by apply made_keeps). f_equal.
  apply IH. eapply List.Forall_impl; [|exact H]. intros x [Hx ?]. split; [by apply made_keeps|done].
Qed.

Lemma volumes_ok now mounts f : forallb option_ok (as_options (mount_volumes now mounts f)) = true.
Proof. apply options_ok. revert f. by induction mounts; intros f; constructor. Qed.

Lemma docker_run_args_run now s bin env_file manifest_path cid f args f' :
  docker_run_args now s bin env_file manifest_path cid f = (Ok args, f') →
  pinned (rs_image s) = true ∧
  args = base_args bin s [u "--network"; u "bridge"] ++
      as_args (project_volumes now s manifest_path f ++ mount_volumes now (rs_cache_mounts s) (project_files now s f)
        ++ ((λ kv, (u "--env", kv.1 ++ [61%N] ++ kv.2)) <$> sort_by item_leb (rs_environment s))
        ++ (match env_file with Some p => [(u "--env-file", path_str p)] | None => [] end)
        ++ (match cid with Some p => [(u "--cidfile", path_str p)] | None => [] end)) ++
      rs_image s :: match rs_build_manifest s with Some _ => [] | None => [u "sh"; u "-c"; rs_command s] end.
Proof.
  unfold docker_run_args. intros (x & f1 & H1 & H)%bind_Ok_inv. unfold lift in H1. injection H1 as H1 <-.
  unfold require_pinned_image, fail_if in H1. destruct (pinned (rs_image s)); [|done]. split; [done|].
  apply bind_Ok_inv in H as (net & f2 & Hn & H). unfold lift in Hn. injection Hn as Hn <-.
  unfold network_args in Hn. apply result_bind_Ok_inv in Hn as ([] & _ & [= <-]).
  apply bind_Ok_inv in H as (vs & f3 & Hv & H). apply bind_Ok_inv in H as (ms & f4 & Hm & [= <- <-]).
  apply mount_args_run in Hm as ->.
  assert (f3 = project_files now s f ∧ vs = as_args (project_volumes now s manifest_path f)) as [-> ->].
  { unfold project_files, project_volumes. destruct (rs_build_manifest s); [destruct manifest_path as [mp|]; [|done]|].
    - apply bind_Ok_inv in Hv as (y & f5 & Hy & Hv). injection Hv as <- <-. unfold made, output_of. by rewrite Hy.
    - unfold gets in Hv. by injection Hv as <- <-. }
  change DEFAULT_NETWORK_MODE with (u "bridge").
  apply (f_equal (app (base_args bin s [u "--network"; u "bridge"]))).
  unfold as_args. rewrite !fmap_app, !concat_app, <- !app_assoc.
  assert ((λ kv : ustr * ustr, [kv.1; kv.2]) <$> ((λ kv : ustr * ustr, (u "--env", kv.1 ++ [61%N] ++ kv.2)) <$> sort_by item_leb (rs_environment s))
     = (λ kv : ustr * ustr, [u "--env"; kv.1 ++ [61%N] ++ kv.2]) <$> sort_by item_leb (rs_environment s)) as ->
    by (by rewrite <- list_fmap_compose).
  destruct env_file, cid, (rs_build_manifest s); reflexivity.
Qed.

(** C11: the container's command line, read the way docker reads it, for an
    image whose name does not begin with a dash (docker would take that name
    for an option). Whatever the other texts of the build contain, docker sees
    exactly these options: the hardening ones (read-only root, all capabilities
    dropped, no new privileges, limits, the caller's user, the bridge network),
    the volumes of the project and of the caches, the declared environment, the
    secrets' file and the cid file; then an image pinned by digest, and the
    command. The host side of a volume is what the path given for it resolves
    to after the directories to mount have been created; when the mounted
    directories are real ones, it is that very path. No secret is among the
    arguments: they do not depend on the secrets' values. *)
Theorem container_options now s env_file manifest_path cid f args f' :
  docker_run_args now s docker env_file manifest_path cid f = (Ok args, f') →
  startswith (rs_image s) (u "-") = false →
  pinned (rs_image s) = true ∧
  parse_run (drop 2 args) = Some (
    hardening s ++ as_options (project_volumes now s manifest_path f ++
      mount_volumes now (rs_cache_mounts s) (project_files now s f) ++
      ((λ kv, (u "--env", kv.1 ++ [61%N] ++ kv.2)) <$> sort_by item_leb (rs_environment s))
      ++ (match env_file with Some p => [(u "--env-file", path_str p)] | None => [] end)
      ++ (match cid with Some p => [(u "--cidfile", path_str p)] | None => [] end)),
    rs_image s,
    match rs_build_manifest s with Some _ => [] | None => [u "sh"; u "-c"; rs_command s] end) ∧
  (Forall (λ m, real_dir f (cm_host_path m) ∧ [] ∉ cm_host_path m) (rs_cache_mounts s) →
     mount_volumes now (rs_cache_mounts s) (project_files now s f) =
     (λ m, (u "--volume", path_str (cm_host_path m) ++ [58%N] ++ cm_container_path m ++ u ":rw")) <$> rs_cache_mounts s) ∧
  (real_dir f (rs_project_root s) → [] ∉ rs_project_root s → rs_build_manifest s = None →
     project_volumes now s manifest_path f = [(u "--volume", path_str (rs_project_root s) ++ u ":/workspace:rw")]) ∧
  ∀ secrets,
    docker_run_args now (MkRunSpec (rs_image s) (rs_project_root s) (rs_command s) (rs_config s) (rs_network_mode s)
      (rs_source_root s) (rs_output_root s) (rs_build_manifest s) (rs_environment s) (rs_cache_mounts s) secrets
      (rs_container_label s) (rs_host_uid s) (rs_host_gid s) (rs_timeout_seconds s) (rs_memory_limit s) (rs_cpu_limit s)
      (rs_pids_limit s)) docker env_file manifest_path cid f = (Ok args, f').
Proof.
  intros H Hi. destruct (docker_run_args_run _ _ _ _ _ _ _ _ _ H) as [Hp Ha].
  split_and!; [done| | | |intros secrets; by rewrite <- H].
  - rewrite Ha. unfold docker. set (opts := project_volumes _ _ _ _ ++ _). set (tail := rs_image s :: _).
    change (drop 2 (base_args (u "docker") s [u "--network"; u "bridge"] ++ as_args opts ++ tail))
      with (as_words (hardening s) ++ as_args opts ++ tail).
    rewrite <- as_words_options. erewrite parse_run_words; [reflexivity|apply hardening_ok|].
    rewrite <- (app_nil_r (as_options opts)) at 2. apply parse_run_words; [|by apply parse_run_image].
    unfold opts, as_options. rewrite !fmap_app, !forallb_app. repeat (apply andb_true_iff; split).
    + apply options_ok. unfold project_volumes. destruct (rs_build_manifest s), manifest_path; by repeat constructor.
    + apply volumes_ok.
    + apply options_ok. rewrite Forall_fmap. by apply Forall_true.
    + apply options_ok. destruct env_file; by repeat constructor.
    + apply options_ok. destruct cid; by repeat constructor.
  - intros Hm. apply mount_volumes_real. eapply List.Forall_impl; [|exact Hm]. intros m [Hm1 Hm2].
    split; [|done]. unfold project_files. destruct (rs_build_manifest s); [by apply made_keeps|done].
  - intros Hr Hn Hb. unfold project_volumes. rewrite Hb. by rewrite volume_text_real.
Qed.

(** * The secrets' environment file *)

Section env_file.
Context `{UnicodeTables}.

(** What docker reads: a line per variable, the name up to the first [=]. *)
Definition read_env (text : ustr) : list (ustr * ustr) :=
  (λ line, let '(k, _, v) := partition_on 61 line in (k, v)) <$> removelast (split_on 10 text).

Lemma secret_key_chars key : secret_key_ok key = true → Forall (λ c, c = 95%N ∨ is_alnum c = true) key ∧ key ≠ [].
Proof.
  unfold secret_key_ok. destruct key as [|c key]; [done|]. intros [[_ Ha]%andb_true_iff _]%andb_true_iff. split; [|done].
  rewrite forallb_forall in Ha. rewrite Forall_forall. intros x Hx%list_elem_of_In.
  destruct (N.eqb_spec x 95) as [->|Hne]; [by left|]. right. apply Ha, List.filter_In. split; [done|].
  by apply N.eqb_neq in Hne as ->.
Qed.

Lemma alnum_ne c d : (c < 128)%N → is_alnum c = false → (d = 95%N ∨ is_alnum d = true) → c ≠ 95%N → d ≠ c.
Proof. intros Hc Hf [->|Hd] Hn; congruence. Qed.

Lemma key_no_sep key c : secret_key_ok key = true → c = 61%N ∨ c = 10%N → Forall (λ d, d ≠ c) key.
Proof.
  intros [Hk _]%secret_key_chars Hc. eapply List.Forall_impl; [|exact Hk]. cbn. intros d Hd.
  destruct Hc as [-> | ->]; (apply alnum_ne; [done|reflexivity|done|done]).
Qed.

Lemma env_lines_Ok items lines : env_lines items = Ok lines →
  lines = (λ kv, kv.1 ++ [61%N] ++ kv.2) <$> items ∧
  Forall (λ kv, secret_key_ok kv.1 = true ∧ 10%N ∉ kv.2 ∧ 13%N ∉ kv.2) items.
Proof.
  revert lines. induction items as [|[k v] items IH]; intros lines; cbn [env_lines]; [by intros [= <-]|].
  intros ([] & Hk & Hl)%result_bind_Ok_inv. apply result_bind_Ok_inv in Hl as ([] & Hv & Hl).
  apply result_bind_Ok_inv in Hl as (rest & Hr & [= <-]). apply IH in Hr as [-> Hall].
  unfold validate_secret_env_key, fail_if in Hk, Hv. destruct (secret_key_ok k) eqn:Ek; [|done].
  destruct (_ || _) eqn:Ev; [done|]. apply orb_false_iff in Ev as [E1%bool_decide_eq_false E2%bool_decide_eq_false].
  split; [done|]. by constructor.
Qed.

Lemma env_lines_total items :
  Forall (λ kv, secret_key_ok kv.1 = true ∧ 10%N ∉ kv.2 ∧ 13%N ∉ kv.2) items → ∃ lines, env_lines items = Ok lines.
Proof.
  induction 1 as [|[k v] items (Hk & H1 & H2) _ [lines IH]]; [by exists []|]. cbn [env_lines fst snd] in *.
  unfold validate_secret_env_key. rewrite Hk, !bool_decide_false by done. munfold. rewrite IH. eauto.
Qed.

Lemma no_newline_line k v : secret_key_ok k = true → 10%N ∉ v → Forall (λ c, (c =? 10)%N = false) (k ++ [61%N] ++ v).
Proof.
  intros Hk Hv. apply Forall_app. split.
  - eapply List.Forall_impl; [|apply (key_no_sep k 10 Hk); by right]. cbn. intros c. apply N.eqb_neq.
  - constructor; [done|]. rewrite Forall_forall. intros c Hc. apply N.eqb_neq. by intros ->.
Qed.

(** C38: the secrets' file. It is written exactly when every name is an
    identifier and no value has a line end, and then docker reads back exactly
    the secrets, sorted by name: no value can add or change a variable. *)
Theorem env_file_roundtrip env :
  match format_env_file env with
  | Ok text => read_env text = sort_by item_leb env ∧
               Forall (λ kv, secret_key_ok kv.1 = true ∧ 10%N ∉ kv.2 ∧ 13%N ∉ kv.2) env
  | Err _ => ¬ Forall (λ kv, secret_key_ok kv.1 = true ∧ 10%N ∉ kv.2 ∧ 13%N ∉ kv.2) env
  end.
Proof.
  unfold format_env_file. munfold. destruct (env_lines (sort_by item_leb env)) as [lines|e] eqn:E.
  - apply env_lines_Ok in E as [-> Hall]. split; [|by rewrite sort_by_perm in Hall].
    set (items := sort_by item_leb env) in *. clearbody items. unfold read_env.
    destruct items as [|kv items]; [done|]. remember (kv :: items) as l eqn:El.
    assert (Forall (λ l, Forall (λ c, (c =? 10)%N = false) l) ((λ kv : ustr * ustr, kv.1 ++ [61%N] ++ kv.2) <$> l)) as Hn.
    { rewrite Forall_fmap. eapply List.Forall_impl; [|exact Hall]. intros [k v] (Hk & Hv & _). by apply no_newline_line. }
    destruct ((λ kv : ustr * ustr, kv.1 ++ [61%N] ++ kv.2) <$> l) as [|x xs] eqn:Ex; [by rewrite El in Ex|].
    rewrite <- Ex in *. rewrite split_lines by (done || by rewrite Ex). rewrite removelast_last, <- list_fmap_compose.
    clear -Hall. induction Hall as [|[k v] l (Hk & _) _ IH]; [done|]. cbn [fmap list_fmap compose fst snd app] in *.
    rewrite partition_on_found by (apply key_no_sep; [done|by left]). by rewrite IH.
  - intros Hall. destruct (env_lines_total (sort_by item_leb env)) as [lines E']; [by rewrite sort_by_perm|]. congruence.
Qed.

End env_file.

(** * Resolved images *)

Lemma image_entry_Ok key raw e : image_entry key raw = Ok e → digest_ok (ie_digest e) = true ∧ ie_tag e ≠ [].
Proof.
  unfold image_entry. destruct raw as [| | | | | |d]; try done.
  intros (tag & Ht & H)%result_bind_Ok_inv. apply result_bind_Ok_inv in H as (digest & Hd & H).
  apply result_bind_Ok_inv in H as (fw & _ & [= <-]). cbn. split.
  - destruct (dget (u "digest") d) as [[| | | |s| |]|]; try done. cbn in Hd. destruct (digest_ok s) eqn:E; [|done].
    by injection Hd as <-.
  - unfold string_field in Ht. destruct (dget (u "tag") d) as [[| | | |[|]| |]|]; try done. by injection Ht as <-.
Qed.

Lemma image_entries_Ok images m : image_entries images = Ok m →
  Forall (λ ke, digest_ok (ie_digest ke.2) = true ∧ ie_tag ke.2 ≠ []) m ∧ m.*1 = dkeys images.
Proof.
  revert m. induction images as [|[k raw] images IH]; intros m; cbn [image_entries]; [by intros [= <-]|].
  intros (e & He & H)%result_bind_Ok_inv. apply result_bind_Ok_inv in H as (rest & Hr & [= <-]).
  apply image_entry_Ok in He. apply IH in Hr as [Hr Hk]. split; [by constructor|]. cbn. by rewrite Hk.
Qed.

(** An image is resolved to a digest. Whatever manifest the parser
    accepts, an image name is either refused or resolved to [tag@sha256:digest]
    of an entry of the manifest, found by its key, its tag or that very
    reference. *)
Theorem resolved_image decoded v2 m image ref :
  parse_image_manifest decoded v2 = Ok m → resolve_image_reference image (Some m) = Ok ref →
  ∃ key e, (key, e) ∈ m ∧ ref = ie_tag e ++ [64%N] ++ ie_digest e ∧ digest_ok (ie_digest e) = true ∧ ie_tag e ≠ [] ∧
    (image = key ∨ image = ie_tag e ∨ image = ref).
Proof.
  unfold parse_image_manifest. destruct decoded as [| | | | | |d]; try done.
  intros ([] & _ & H)%result_bind_Ok_inv. apply result_bind_Ok_inv in H as ([] & _ & H).
  destruct (dget (u "images") d) as [[| | | | | |[|i images]]|]; try done.
  apply image_entries_Ok in H as [H _]. rewrite Forall_forall in H. unfold resolve_image_reference.
  destruct (dget image m) as [e|] eqn:Eg.
  - intros [= <-]. apply dget_Some_elem in Eg. destruct (H _ Eg). exists image, e. split_and!; try done. by left.
  - destruct (List.find _ m) as [[k e]|] eqn:Ef; [|done]. intros [= <-].
    apply List.find_some in Ef as [Hin%list_elem_of_In Hm]. destruct (H _ Hin). exists k, e. split_and!; try done.
    right. unfold mem_str in Hm. apply bool_decide_eq_true in Hm. cbn in Hm.
    apply elem_of_cons in Hm as [->|[->|Hm%elem_of_nil]%elem_of_cons]; [by left|by right|done].
Qed.

(** * The end of the wait *)

(** A reading of the clock, in units of the least positive double. *)
Definition is_time (t : pyfloat) : bool :=
  match t with S754_zero _ => true | S754_finite _ _ e => -1074 <=? e | _ => false end.
Definition units (t : pyfloat) : Z :=
  match t with S754_finite s m e => cond_Zopp s (Zpos m * 2 ^ (e + 1074)) | _ => 0 end.

Lemma iter_pos_inv {A} (P : A → Prop) (f : A → A) n x : (∀ y, P y → P (f y)) → P x → P (SpecFloat.iter_pos f n x).
Proof. intros Hf. revert x. induction n; intros x Hx; cbn; auto. Qed.

Lemma shr_fexp_nonneg m e l : 0 <= m → 0 <= shr_m (shr_fexp PREC EMAX m e l).1.
Proof.
  intros Hm. unfold shr_fexp, shr. assert (0 <= shr_m (shr_record_of_loc m l)) as H0 by (by destruct l as [|[]]).
  destruct (_ - e) as [|p|p]; cbn [fst]; [done| |done].
  apply (iter_pos_inv (λ r, 0 <= shr_m r)); [|done]. intros [k r s] Hk. cbn in *.
  by destruct k as [|[| |]|].
Qed.

Lemma round_nonneg m l : 0 <= m → 0 <= round_nearest_even m l.
Proof. intros Hm. destruct l as [|[]]; cbn; [done| |done|lia]. destruct (Z.even m); lia. Qed.

(** What is rounded from a negative number is not positive, nor no number. *)
Lemma round_negative m e : float_leb (binary_round PREC EMAX true m e) (S754_zero false) = true.
Proof.
  unfold binary_round. destruct (shl_align _ _ _) as [mz ez]. unfold binary_round_aux.
  destruct (shr_fexp PREC EMAX (Zpos mz) ez loc_Exact) as [r1 e1] eqn:E1.
  pose proof (shr_fexp_nonneg (Zpos mz) ez loc_Exact ltac:(done)) as H1. rewrite E1 in H1.
  pose proof (shr_fexp_nonneg _ e1 loc_Exact (round_nonneg _ (loc_of_shr_record r1) H1)) as H2.
  destruct (shr_fexp _ _ (round_nearest_even _ _) _ _) as [r2 e2]. cbn [fst] in H2.
  destruct (shr_m r2); [done| |lia]. by destruct (_ <=? _).
Qed.

Lemma shl_align_value m e e' : e' <= e → Zpos (shl_align m e e').1 = Zpos m * 2 ^ (e - e').
Proof.
  intros He. unfold shl_align. destruct (e' - e) as [|p|p] eqn:E; cbn [fst]; [|lia|].
  - replace (e - e') with 0 by lia. lia.
  - replace (e - e') with (Zpos p) by lia. clear. induction p as [|p IH] using Pos.peano_ind; [cbn; lia|].
    rewrite Pos.iter_succ, Pos2Z.inj_succ, Z.pow_succ_r by done. rewrite Pos2Z.inj_xO, IH. lia.
Qed.

Lemma cond_Zopp_mul b a c : cond_Zopp b (a * c) = cond_Zopp b a * c.
Proof. destruct b; cbn; lia. Qed.

(** Past the deadline, what remains is not positive. *)
Lemma expired D t : is_time D = true → is_time t = true → units D <= units t →
  float_leb (SFsub PREC EMAX D t) (S754_zero false) = true.
Proof.
  destruct D as [sx| | |sx mx ex], t as [sy| | |sy my ey]; cbn [is_time units]; try done; intros Hx Hy Hu.
  - by destruct sx, sy.
  - assert (sy = false) as -> by (destruct sy; [cbn in Hu; lia|done]). done.
  - assert (sx = true) as -> by (destruct sx; [done|cbn in Hu; lia]). done.
  - cbn [SFsub]. set (ez := Z.min ex ey).
    rewrite !shl_align_value by lia.
    assert (cond_Zopp sx (Zpos mx * 2 ^ (ex - ez)) - cond_Zopp sy (Zpos my * 2 ^ (ey - ez)) <= 0) as Hle.
    { rewrite !cond_Zopp_mul in *. replace (ex + 1074) with ((ex - ez) + (ez + 1074)) in Hu by lia.
      replace (ey + 1074) with ((ey - ez) + (ez + 1074)) in Hu by lia.
      rewrite (Z.pow_add_r 2 (ex - ez)), (Z.pow_add_r 2 (ey - ez)), !Z.mul_assoc in Hu by lia. apply Z.mul_le_mono_pos_r in Hu; [lia|].
      apply Z.pow_pos_nonneg; lia. }
    destruct (_ - _) as [|p|p]; cbn [binary_normalize]; [done|lia|apply round_negative].
Qed.

(** What one asks of the host's clock, [now_] bounding from below what it may
    still show: its readings are finite numbers that never go back, and a wait
    that timed out took time. *)
Record clock_laws {S} `{ContainerHost S} (cancel_is_set : M S bool) (now_ : S → Z) : Prop := ClockLaws {
  ck_time : ∀ σ t σ', host_time σ = (Ok t, σ') → is_time t = true ∧ now_ σ <= units t <= now_ σ';
  ck_cancel : ∀ σ b σ', cancel_is_set σ = (Ok b, σ') → now_ σ <= now_ σ';
  ck_wait : ∀ r σ σ', host_wait r σ = (Ok None, σ') → now_ σ < now_ σ';
}.

Section wait.
Context {S : Type} `{ContainerHost S}.
Variables (cancel_is_set : M S bool) (s : DockerRunSpec) (cidfile : path).

(** Why the wait ended. *)
Definition wait_end (deadline : pyfloat) (r : result (option ContainerResult)) : Prop :=
  match r with
  | Ok (Some (MkContainerResult code false true)) => code ≠ 0 ∧ ∃ σ, (cancel_is_set σ).1 = Ok true
  | Ok (Some (MkContainerResult code true false)) =>
      code ≠ 0 ∧ ∃ σ t, (host_time σ).1 = Ok t ∧ float_leb (SFsub PREC EMAX deadline t) (S754_zero false) = true
  | Ok (Some (MkContainerResult code false false)) => ∃ w σ, (host_wait w σ).1 = Ok (Some code)
  | Ok (Some (MkContainerResult _ true true)) | Ok None => False
  | Err e => ∃ σ, (cancel_is_set σ).1 = Err e ∨ (host_time σ).1 = Err e ∨ (∃ w, (host_wait w σ).1 = Err e) ∨
                  (end_process s cidfile σ).1 = Err e
  end.

Lemma end_process_code σ c σ' : end_process s cidfile σ = (Ok c, σ') → c ≠ 0.
Proof. unfold end_process. munfold. intros E. repeat (case_match; try done); simplify_eq; done. Qed.

Lemma wait_loop_run (now_ : S → Z) deadline : clock_laws cancel_is_set now_ → is_time deadline = true →
  ∀ polls σ, (Z.to_nat (units deadline - now_ σ) < polls)%nat →
  wait_end deadline (wait_loop polls cancel_is_set s cidfile deadline σ).1.
Proof.
  intros [Ht Hc Hw] Hd. induction polls as [|polls IH]; intros σ Hp; [lia|]. cbn [wait_loop]. munfold.
  destruct (cancel_is_set σ) as [[[]|e] σ1] eqn:E1.
  - destruct (end_process s cidfile σ1) as [[c|e] σ2] eqn:E2; cbn.
    + split; [by eapply end_process_code|]. exists σ. by rewrite E1.
    + exists σ1. rewrite E2. auto.
  - destruct (host_time σ1) as [[t|e] σ2] eqn:E2; [|cbn; exists σ1; rewrite E2; auto].
    destruct (float_leb (SFsub PREC EMAX deadline t) (S754_zero false)) eqn:El.
    { destruct (end_process s cidfile σ2) as [[c|e] σ3] eqn:E3; cbn.
      - split; [by eapply end_process_code|]. exists σ1, t. by rewrite E2.
      - exists σ2. rewrite E3. auto. }
    destruct (host_wait _ σ2) as [[[c|]|e] σ3] eqn:E3; cbn.
    + eexists _, σ2. by rewrite E3.
    + apply IH. apply Hc in E1. destruct (Ht _ _ _ E2) as [Hv Hle]. apply Hw in E3.
      assert (units t < units deadline); [|lia].
      apply Z.nle_gt. intros Hle'. by rewrite expired in El.
    + exists σ2. right; right; left. eexists. by rewrite E3.
  - cbn. exists σ. rewrite E1. auto.
Qed.

(** C39: waiting for a container ends. Let the readings of the clock be finite
    numbers that never go back and let a wait that timed out take time; let the
    deadline (the first reading plus the timeout) be finite. Then the loop ends
    after finitely many rounds, in one of four ways: a cancellation was seen,
    and the container, stopped, reports a failure; the clock has reached the
    deadline, likewise; the container has exited, with the code reported; or a
    call of the loop raised, and its exception is passed on. It never reports
    both a cancellation and a timeout. *)
Theorem container_wait (now_ : S → Z) σ t0 σ1 timeout :
  clock_laws cancel_is_set now_ →
  host_time σ = (Ok t0, σ1) → float_of_Z (timeout_of s) = Ok timeout → is_time (SFadd PREC EMAX t0 timeout) = true →
  ∃ n, ∀ polls, (n <= polls)%nat →
  match (wait_for_process polls cancel_is_set s cidfile σ).1 with
  | Ok (Some (MkContainerResult code false true)) => code ≠ 0 ∧ ∃ σ', (cancel_is_set σ').1 = Ok true
  | Ok (Some (MkContainerResult code true false)) => code ≠ 0 ∧
      ∃ σ' t, (host_time σ').1 = Ok t ∧
              float_leb (SFsub PREC EMAX (SFadd PREC EMAX t0 timeout) t) (S754_zero false) = true
  | Ok (Some (MkContainerResult code false false)) => ∃ w σ', (host_wait w σ').1 = Ok (Some code)
  | Ok (Some (MkContainerResult _ true true)) | Ok None => False
  | Err e => ∃ σ', (cancel_is_set σ').1 = Err e ∨ (host_time σ').1 = Err e ∨ (∃ w, (host_wait w σ').1 = Err e) ∨
                   (end_process s cidfile σ').1 = Err e
  end.
Proof.
  intros Hck E1 Et Hd.
  exists (Datatypes.S (Z.to_nat (units (SFadd PREC EMAX t0 timeout) - now_ σ1))). intros polls Hp.
  unfold wait_for_process. munfold. rewrite E1, Et. by apply (wait_loop_run now_).
Qed.
End wait.

(** * Witnesses *)

Definition ex_digest : ustr := u "sha256:" ++ repeat 97%N 64.
Definition ex_image : ustr := u "node:22@" ++ ex_digest.
Definition ex_spec : DockerRunSpec :=
  MkRunSpec ex_image [u "work"; u "src"] (u "npm ci && npm run build") (default_config (u "linux") (u "amd64")) (u "bridge")
    None None None [(u "CI", u "1")] [] [(u "TOKEN", u "s3cr3t")] (u "build-engine.managed=true") 1000 1000
    (Some 60) None None 1024.

Lemma container_options_witness :
  ∃ args f', docker_run_args 0 ex_spec docker (Some [u "env"]) None (Some [u "cid"]) ∅ = (Ok args, f') ∧
    ∃ opts, parse_run (drop 2 args) = Some (opts, ex_image, [u "sh"; u "-c"; u "npm ci && npm run build"]) ∧
      (u "--cap-drop", Some (u "ALL")) ∈ opts.
Proof.
  destruct (docker_run_args 0 ex_spec docker (Some [u "env"]) None (Some [u "cid"]) ∅) as [[args|e] f'] eqn:E.
  2: { assert (is_ok (docker_run_args 0 ex_spec docker (Some [u "env"]) None (Some [u "cid"]) ∅).1 = true) as Hok
         by (vm_compute; reflexivity). rewrite E in Hok. discriminate Hok. }
  exists args, f'. split; [reflexivity|].
  destruct (container_options 0 ex_spec (Some [u "env"]) None (Some [u "cid"]) ∅ args f' E eq_refl)
    as (_ & Hp & _).
  eexists. split; [exact Hp|]. apply elem_of_app. left. unfold hardening. do 9 apply list_elem_of_further. apply list_elem_of_here.
Defined.

Section example.
#[local] Instance no_tables : UnicodeTables := {| alnum_beyond := λ _, false; digit_beyond := λ _, false |}.

Lemma env_file_roundtrip_witness :
  ∃ text, format_env_file [(u "TOKEN", u "a=b"); (u "KEY", u "c")] = Ok text ∧ read_env text = [(u "KEY", u "c"); (u "TOKEN", u "a=b")].
Proof.
  pose proof (env_file_roundtrip [(u "TOKEN", u "a=b"); (u "KEY", u "c")]) as H.
  assert (is_ok (format_env_file [(u "TOKEN", u "a=b"); (u "KEY", u "c")]) = true) as Hok by (vm_compute; reflexivity).
  destruct (format_env_file _) as [text|e]; [|discriminate Hok]. exists text. split; [reflexivity|].
  destruct H as [H _]. rewrite H. vm_compute. reflexivity.
Defined.

End example.

Definition ex_manifest : json :=
  JObj [(u "images", JObj [(u "node:22", JObj [(u "tag", JStr (u "node:22")); (u "digest", JStr ex_digest);
                                              (u "frameworks", JList [JStr (u "vite")])])])].

Lemma resolved_image_witness : ∃ m, parse_image_manifest ex_manifest false = Ok m ∧
  ∃ key e, (key, e) ∈ m ∧ ex_image = ie_tag e ++ [64%N] ++ ie_digest e.
Proof.
  destruct (parse_image_manifest ex_manifest false) as [m|x] eqn:E; [|vm_compute in E; discriminate E].
  exists m. split; [reflexivity|].
  assert (resolve_image_reference (u "node:22") (Some m) = Ok ex_image) as Hr.
  { vm_compute in E. injection E as <-. vm_compute. reflexivity. }
  destruct (resolved_image ex_manifest false m (u "node:22") ex_image E Hr) as (key & e & Hin & He & _).
  exists key, e. exact (conj Hin He).
Defined.

Section wait_example.
(** A host whose clock counts its own waits, with a container that never exits. *)
Definition tick (n : nat) : pyfloat :=
  match n with O => S754_zero false | Datatypes.S _ => S754_finite false (Pos.of_nat n) 0 end.

#[local] Instance counting_host : ContainerHost nat := {|
  host_files := λ A m n, ((m ∅).1, n);
  host_now := λ n, (Ok 0, n);
  host_time := λ n, (Ok (tick n), n);
  host_mkstemp := λ _ _ n, (Ok [], n);
  host_start := λ _ n, (Ok (), n);
  host_wait := λ _ n, (Ok None, S n);
  host_wait_forever := λ n, (Ok 0, n);
  host_returncode := λ n, (Ok None, n);
  host_terminate := λ n, (Ok (), n);
  host_kill := λ n, (Ok (), n);
  host_command := λ _ n, (Ok (0, [], []), n);
  host_stdout := λ n, (Ok [], n);
  host_stderr := λ n, (Ok [], n);
|}.

Lemma units_tick n : units (tick n) = Z.of_nat n * 2 ^ 1074.
Proof. destruct n as [|n]; [done|]. unfold tick, units, cond_Zopp. rewrite Z.add_0_l. f_equal. lia. Qed.

Lemma counting_clock : clock_laws (λ n, (Ok false, n)) (λ n, units (tick n)).
Proof.
  assert (0 < 2 ^ 1074) as Hpos by (by apply Z.pow_pos_nonneg).
  split.
  - intros n t n' [= <- <-]. split; [by destruct n|lia].
  - intros n b n' [= <- <-]. lia.
  - intros r n n' [= <-]. rewrite !units_tick. apply Z.mul_lt_mono_pos_r; lia.
Qed.

Lemma container_wait_witness : ∃ n, ∀ polls, (n <= polls)%nat →
  match (wait_for_process polls (λ n, (Ok false, n)) ex_spec [] 0%nat).1 with
  | Ok (Some (MkContainerResult code true false)) => code ≠ 0
  | _ => True
  end.
Proof.
  assert (∃ x, float_of_Z (timeout_of ex_spec) = Ok x ∧ is_time (SFadd PREC EMAX (tick 0) x) = true) as (x & Hx & Ht).
  { eexists. split; [vm_compute; reflexivity|]. reflexivity. }
  destruct (container_wait (λ n, (Ok false, n)) ex_spec [] _ 0%nat (tick 0) 0%nat x counting_clock eq_refl Hx Ht) as [n Hn].
  exists n. intros polls Hp. specialize (Hn polls Hp).
  destruct (wait_for_process _ _ _ _ _) as [[[[c [|] [|]]|]|e] n'] in *; cbn in *; try exact I; try contradiction.
  destruct Hn as [Hc _]. exact Hc.
Defined.

Example wait_times_out :
  (wait_for_process 100 (λ n, (Ok false, n)) ex_spec [] 0%nat).1 = Ok (Some (MkContainerResult (-1) true false)).
Proof. vm_compute. reflexivity. Qed.
End wait_example.
