(* ===== verification/Meanwhile.v ===== *)
(** What the rest of the engine may do to the queue while a worker holds an
    attempt: calls of the queue and of the outbox that do not use the worker's
    lease token, and what they leave of the attempt's row. *)

From S2P Require Import Prelude PyStr Dict Json Clock Uuid Protocol Db Store StoreRun StoreInv Queue Outbox OutboxProofs System.

Local Open Scope Z_scope.

(** * Steps of the others *)

Section meanwhile.
Context (a t : ustr).

(** A call that does not act on attempt [a] with token [t]. *)
Definition foreign (o : sys_op) : Prop :=
  match o with
  | SysQueue (OpAcquire _ token _ _) => token ≠ t
  | SysQueue (OpTransition _ a' _ _ _ _ token) | SysQueue (OpCrash _ a' _ _ token) => a' = a → ∃ t', token = Some t' ∧ t' ≠ t
  | _ => True
  end.

(** Any number of such calls; pruning, which removes attempts that ended days
    ago, does not remove [a]. *)
Inductive meanwhile : store → store → Prop :=
| mw_done s : meanwhile s s
| mw_step s o s' :
    sys_op_ok o → foreign o →
    (find_row a (st_disk s) ≠ None → find_row a (st_disk (run_sys o s).2) ≠ None) →
    meanwhile (run_sys o s).2 s' → meanwhile s s'.

Definition sys_ok (s : store) : Prop := idle s ∧ db_ok (st_disk s) ∧ spool_inv (st_disk s).

(** Who holds the token afterwards held it before, in the same state; a row in
    a terminal state stays as it is. *)
Record row_keeps (row row' : option job_row) : Prop := RowKeeps {
  rk_token : ∀ r', row' = Some r' → r_lease_token r' = Some t →
    ∃ r, row = Some r ∧ r_lease_token r = Some t ∧ r_state r' = r_state r ∧ r_lease_owner r' = r_lease_owner r ∧
         r_build_job_id r' = r_build_job_id r;
  rk_terminal : ∀ r, row = Some r → terminal (r_state r) = true →
    ∃ r', row' = Some r' ∧ r_state r' = r_state r ∧ r_lease_token r' = r_lease_token r ∧ r_error r' = r_error r;
}.

Definition tracks (s s' : store) : Prop :=
  sys_ok s → sys_ok s' ∧ row_keeps (find_row a (st_disk s)) (find_row a (st_disk s')).

(** * Lemmas *)

Lemma row_keeps_refl row : row_keeps row row.
Proof. split; eauto 10. Qed.

#[export] Instance tracks_preorder : PreOrder tracks.
Proof.
  split.
  - intros s Hs. split; [done|apply row_keeps_refl].
  - intros s1 s2 s3 H12 H23 H1. destruct (H12 H1) as [H2 [K1 K2]]. destruct (H23 H2) as [H3 [L1 L2]].
    split; [done|]. split.
    + intros r3 E3 T3. destruct (L1 _ E3 T3) as (r2 & E2 & T2 & S2 & O2 & B2).
      destruct (K1 _ E2 T2) as (r1 & E1 & T1 & S1 & O1 & B1).
      exists r1. split_and!; congruence.
    + intros r1 E1 T1. destruct (K2 _ E1 T1) as (r2 & E2 & S2 & O2 & R2). destruct (L2 r2 E2) as (r3 & E3 & S3 & O3 & R3);
        [congruence|]. exists r3. split_and!; congruence.
Qed.

(** Rows that a call leaves alone up to cursors, times, flags and expiry. *)
Lemma row_keeps_same row row' :
  match row with
  | Some r => ∃ r', row' = Some r' ∧ r_state r' = r_state r ∧ r_lease_token r' = r_lease_token r ∧
                    r_lease_owner r' = r_lease_owner r ∧ r_error r' = r_error r ∧ r_build_job_id r' = r_build_job_id r
  | None => ∀ r', row' = Some r' → r_lease_token r' = None
  end → row_keeps row row'.
Proof.
  destruct row as [r|]; intros H; split; try done.
  - destruct H as (r' & -> & S & T & O & E & B). intros ? [= <-] Ht. exists r. split_and!; congruence.
  - destruct H as (r' & -> & S & T & O & E & B). intros ? [= <-] Ht. exists r'. by split_and!.
  - intros r' E Ht. rewrite (H _ E) in Ht. done.
Qed.

(** A row the call moves: it was not terminal, and it does not get the token. *)
Lemma row_keeps_moved r r' :
  terminal (r_state r) = false → (r_lease_token r' = Some t → False) → row_keeps (Some r) (Some r').
Proof.
  intros Ht Hn. split.
  - intros ? [= <-] H. by destruct (Hn H).
  - intros ? [= <-] H. congruence.
Qed.

Lemma finish_token st e n r : r_lease_token (finish_row st e n r) = Some t → False.
Proof. done. Qed.

(** [transition] under a lease token: it does not hand the token to the row. *)
Lemma transition_keeps now a' st err exp own tok d :
  unique_attempts d → (∀ s, parse_state st = Some s → terminal s = true) ∨ (a' = a → ∃ t', tok = Some t' ∧ t' ≠ t) →
  row_keeps (find_row a d) (find_row a (op_db (OpTransition now a' st err exp own tok) d)).
Proof.
  intros Hu Hor. cbn [op_db]. destruct (transition_spec _ _ _ _ _ _ _) as [r'|] eqn:E; [|apply row_keeps_refl].
  apply transition_spec_Ok in E as (r & s & Hf & Hp & Hr).
  assert (r_attempt_id r' = a') as Ha'.
  { apply find_row_Some in Hf as [Hf _]. destruct Hr as [[-> _]|[-> _]]; [done|]. unfold transition_row. by destruct (terminal s). }
  rewrite (find_set_row _ _ r) by done. case_decide as Ea; [|apply row_keeps_refl]. clear Ha'. rewrite Ea, Hf.
  destruct Hr as [[-> _]|(-> & Hl%legal_step & _ & _ & Ht)]; [apply row_keeps_refl|].
  apply row_keeps_moved; [by destruct Hl|]. unfold transition_row. destruct (terminal s) eqn:Es; [done|]. cbn.
  destruct Hor as [Hor|Hor]; [by rewrite (Hor _ Hp) in Es|]. destruct Hor as (t' & -> & Hne); [by symmetry|].
  cbn in Ht. apply bool_decide_eq_true in Ht. congruence.
Qed.

Lemma crash_keeps now a' err own tok d :
  unique_attempts d → row_keeps (find_row a d) (find_row a (op_db (OpCrash now a' err own tok) d)).
Proof.
  intros Hu. cbn [op_db]. destruct (crash_spec _ _ _ _ _) as [r'|] eqn:E; [|apply row_keeps_refl].
  apply crash_spec_Ok in E as (r & Hf & Ha & _ & _ & ->). rewrite Hf.
  rewrite (find_set_row _ _ r); cycle 1.
  - unfold unique_attempts. by rewrite crash_dlq_jobs.
  - by rewrite crash_dlq_find.
  - cbn. by apply find_row_Some in Hf as [Hf _].
  - rewrite crash_dlq_find. case_decide as Ea; [|apply row_keeps_refl]. rewrite Ea, Hf.
    apply row_keeps_moved; [by apply active_not_terminal|done].
Qed.

Lemma acquire_keeps now token owner v d :
  db_ok d → token ≠ t →
  row_keeps (find_row a d) (find_row a (op_db (OpAcquire now token owner v) d)).
Proof.
  intros Hd Hne. pose proof (ok_unique _ Hd) as Hu. cbn [op_db]. destruct (add_time _ _) as [e|]; [|apply row_keeps_refl].
  unfold settled. set (n := format_datetime now). pose proof (settle_find (S (length (db_jobs d))) n d a Hu) as Hs.
  pose proof (settle_ok (S (length (db_jobs d))) n d Hd) as Hok.
  assert (row_keeps (find_row a d) (find_row a (settle (S (length (db_jobs d))) n d).1)) as Hk.
  { destruct Hs as [->|(r & -> & He & _ & ->)]; [apply row_keeps_refl|].
    apply row_keeps_moved; [by eapply eligible_not_terminal|done]. }
  destruct (settle _ _ d) as [d' [r|]] eqn:Es; [|done]. cbn [fst] in *. apply settle_Some in Es as [En Ec].
  pose proof (next_eligible_find _ _ _ (ok_unique _ Hok) En) as Hf.
  rewrite (find_set_row _ _ r) by (done || apply Hok). case_decide as Ea; [|done]. rewrite Ea in *.
  apply next_eligible_Some in En as (_ & En & _). destruct Hs as [Hs|(r1 & Hr1 & _ & _ & Hs)].
  - rewrite Hf in Hs. rewrite <- Hs. apply row_keeps_moved; [by eapply eligible_not_terminal|]. cbn. intros [= E]. congruence.
  - rewrite Hf in Hs. injection Hs as ->. by rewrite finished_not_eligible in En.
Qed.

Lemma enqueue_keeps now p d : row_keeps (find_row a d) (find_row a (op_db (OpEnqueue now p) d)).
Proof.
  cbn [op_db]. destruct (_ ≫= _) as [[b' a']|]; [|apply row_keeps_refl]. unfold enqueue_db.
  destruct (find_row a' d); [apply row_keeps_refl|]. rewrite find_append. apply row_keeps_same.
  destruct (find_row a d) as [r|]; [by exists r|]. intros r'. destruct (is_attempt a _); [|done]. by intros [= <-].
Qed.

Lemma refresh_keeps now a' owner v tok d :
  unique_attempts d → row_keeps (find_row a d) (find_row a (op_db (OpRefresh now a' owner v tok) d)).
Proof.
  intros Hu. cbn [op_db]. destruct (_ ≫= _) as [r'|] eqn:E; [|apply row_keeps_refl].
  apply result_bind_Ok_inv in E as (e & _ & E). apply refresh_spec_Ok in E as (r & Hf & -> & _).
  rewrite (find_set_row _ _ r) by (done || by apply find_row_Some in Hf as [Hf _]).
  case_decide as Ea; [|apply row_keeps_refl]. rewrite Ea, Hf. apply row_keeps_same. by eexists.
Qed.

Lemma cancel_keeps now b c d :
  unique_attempts d → row_keeps (find_row a d) (find_row a (op_db (OpCancel now b c) d)).
Proof.
  intros Hu. cbn [op_db]. set (f := cancel_row (format_datetime now)).
  rewrite <- (lookup_entries (with_jobs d (update_rows (cancel_target b c) f (db_jobs d))) a) by (by apply update_unique).
  rewrite entries_update by done. rewrite lookup_fmap, lookup_entries by done. apply row_keeps_same.
  destruct (find_row a d) as [r|]; [|done]. cbn. eexists. split; [done|]. by destruct (cancel_target b c r).
Qed.

Lemma prune_keeps now n d :
  unique_attempts d → (find_row a d ≠ None → find_row a (op_db (OpPrune now n) d) ≠ None) →
  row_keeps (find_row a d) (find_row a (op_db (OpPrune now n) d)).
Proof.
  intros Hu. cbn [op_db]. destruct (add_time _ _) as [c|]; [|intros; apply row_keeps_refl]. rewrite find_delete by done.
  destruct (find_row a d) as [r|]; [|intros; apply row_keeps_refl]. destruct (expired _ r); [|intros; apply row_keeps_refl].
  intros H. by destruct H.
Qed.

Lemma queue_step_keeps o d :
  op_ok o → db_ok d → foreign (SysQueue o) → (find_row a d ≠ None → find_row a (op_db o d) ≠ None) →
  row_keeps (find_row a d) (find_row a (op_db o d)).
Proof.
  intros Ho Hd Hf Hp. pose proof (ok_unique _ Hd) as Hu. destruct o; cbn [foreign] in Hf.
  - apply enqueue_keeps.
  - by apply acquire_keeps.
  - by apply refresh_keeps.
  - apply transition_keeps; [done|by right].
  - by apply cancel_keeps.
  - by apply crash_keeps.
  - by apply prune_keeps.
Qed.

Lemma keeps_jobs_row d d' : keeps_jobs d d' → row_keeps (find_row a d) (find_row a d').
Proof.
  intros H. apply row_keeps_same. specialize (H a). destruct (find_row a d) as [r|]; [|by rewrite H].
  destruct H as (r' & -> & B & S & _ & _ & T & _ & O & E). exists r'. by split_and!.
Qed.

Lemma thinned_keeps d d' : thinned d d' → keeps_jobs d d'.
Proof. intros Ht. apply keeps_same. intros b. by apply thinned_find. Qed.

Lemma step_tracks s o :
  sys_op_ok o → foreign o → (find_row a (st_disk s) ≠ None → find_row a (st_disk (run_sys o s).2) ≠ None) →
  tracks s (run_sys o s).2.
Proof.
  intros Ho Hf Hp (Hi & Hd & Hs). split; [by apply sys_step_ok|].
  destruct o as [o|cfg now e|a' n|cfg now]; cbn [run_sys sys_op_ok] in *.
  - destruct (runs_to_idle _ _ _ (run_op_db o s Hi (db_ok_table _ Hd) Ho)) as [_ E]. rewrite E in *.
    by apply queue_step_keeps.
  - destruct (on_disk_run (append cfg now e) s Hi) as [_ ->]. by apply keeps_jobs_row, append_keeps.
  - destruct (on_disk_run (ack_through a' n) s Hi) as [_ ->]. apply keeps_jobs_row, thinned_keeps, delete_events_thinned.
  - destruct (on_disk_run (prune cfg now) s Hi) as [_ ->]. apply keeps_jobs_row, thinned_keeps, prune_thinned.
Qed.

Lemma meanwhile_tracks s s' : meanwhile s s' → tracks s s'.
Proof. induction 1; [reflexivity|]. etransitivity; [by apply step_tracks|done]. Qed.

Lemma ignore_snd {A} (m : M store A) s : ((m;; mret ()) s).2 = (m s).2.
Proof. munfold. by destruct (m s) as [[]]. Qed.

(** The worker's own calls: an end of the attempt under its lease, a crash, and
    the readings. *)
Lemma own_step_tracks o s :
  op_ok o → (db_ok (st_disk s) → row_keeps (find_row a (st_disk s)) (find_row a (op_db o (st_disk s)))) →
  tracks s (run_op o s).2.
Proof.
  intros Ho Hk (Hi & Hd & Hs). pose proof (runs_to_idle _ _ _ (run_op_db o s Hi (db_ok_table _ Hd) Ho)) as [_ E].
  split; [by apply (sys_step_ok s (SysQueue o))|]. rewrite E. by apply Hk.
Qed.

Lemma settle_tracks now a' st err exp own tok s :
  (∀ x, parse_state st = Some x → terminal x = true) → tracks s (transition now a' st err exp own tok s).2.
Proof.
  intros Hst. rewrite <- ignore_snd. apply (own_step_tracks (OpTransition now a' st err exp own tok)); [done|].
  intros Hd. apply transition_keeps; [apply Hd|by left].
Qed.

Lemma crash_tracks now a' err own tok s : tracks s (record_executor_crash now a' err own tok s).2.
Proof.
  rewrite <- ignore_snd. apply (own_step_tracks (OpCrash now a' err own tok)); [done|].
  intros Hd. apply crash_keeps, Hd.
Qed.

Lemma same_disk_tracks {A} (m : M store A) r s tr :
  (sys_ok s → runs m s r (st_disk s) tr) → tracks s (m s).2.
Proof.
  intros H Hs. destruct (H Hs) as [op E]. rewrite E. destruct Hs as (Hi & Hd & Hp). split; [|apply row_keeps_refl].
  by split_and!.
Qed.

Lemma get_job_tracks b a' s : tracks s (get_job b a' s).2.
Proof. eapply same_disk_tracks. intros (Hi & Hd & _). by apply get_job_run, db_ok_table. Qed.

Lemma is_current_tracks b a' s : tracks s (is_current_attempt b a' s).2.
Proof.
  intros (Hi & Hd & Hp). pose proof (is_current_run b a' s Hi (db_ok_table _ Hd)) as H.
  destruct (hit _ _); destruct H as [op ->]; (split; [by split_and!|apply row_keeps_refl]).
Qed.

End meanwhile.
