(* ===== verification/JobLoop.v ===== *)
(** The job loop (src/src/build_engine/agent/job_loop.py): one leased attempt
    from its source archive to its uploaded artifact, the worker that leases
    attempts and settles how each one ended, and the tasks that run beside it.

    A worker is a sequence of steps; what the event loop runs at its [await]s
    (other workers, the uplink, the refresh of the lease) is part of the
    operations of [Engine], which may do anything to the state. *)

From Corelib Require Import SpecFloat.
From S2P Require Import Prelude PyStr PyFloat Dict Json Clock Uuid Protocol Db Store Fs Resolve PackageJson Framework.
From S2P Require Import Cache Url Config Handlers Workspace Artifact Auth Stream Metrics Docker.

Local Open Scope Z_scope.

(** * The engine a worker runs on *)

Class Engine (S : Type) := {
  eng_host :: ContainerHost S;
  eng_http :: Http S;
  (** The queue's database and the metrics collector, if there is one. *)
  eng_store : S → store;
  eng_set_store : store → S → S;
  eng_metrics : S → option MetricsCollector;
  eng_set_metrics : option MetricsCollector → S → S;
  (** [publisher.publish_attempt_event]: type, payload, build and attempt. *)
  eng_publish : ustr → jdict → ustr → ustr → M S ();
  (** [secrets.token_urlsafe], [time.perf_counter], [asyncio.sleep]. *)
  eng_token : M S ustr;
  eng_perf_counter : M S pyfloat;
  eng_sleep : pyfloat → M S ();
  (** [stop_event.is_set()]. *)
  eng_stop : M S bool;
  (** Whether the monitor of cancellations runs before the next poll of the container. *)
  eng_monitor : M S bool;
  (** [await lease_refresh] after its cancellation. *)
  eng_join_refresh : QueueLease → M S ();
}.

Record JobLoopOptions := MkJobLoopOptions {
  op_lease_seconds : Z;
  op_idle_sleep_seconds : pyfloat;
  op_retain_failed_workspaces : bool;
  op_failed_workspace_keep : Z;
}.

(** [type(exc).__name__] of the errors that are reported. *)
Definition exn_name (e : exn) : ustr :=
  match exn_cls e with
  | ArtifactError => u "ArtifactError" | DetectionError => u "DetectionError" | WorkspaceError => u "WorkspaceError"
  | CacheError => u "CacheError" | DockerError => u "DockerError" | _ => u "Exception"
  end.

(** * Reading a payload *)

(** [job.payload], which is read with [get]. *)
Definition payload_dict (j : json) : result jdict :=
  match j with JObj d => Ok d | _ => Err (PyExn ExceptionC (u "object has no attribute 'get'")) end.

Definition optional_int (payload : jdict) (key : ustr) : result (option Z) :=
  match dget key payload with
  | None | Some JNull => Ok None
  | Some (JInt n) => if n <=? 0 then Err (workspace_error (u "payload " ++ key ++ u " must be a positive integer")) else Ok (Some n)
  | Some _ => Err (workspace_error (u "payload " ++ key ++ u " must be a positive integer"))
  end.

Definition optional_str (payload : jdict) (key : ustr) : result (option ustr) :=
  match dget key payload with
  | None | Some JNull => Ok None
  | Some (JStr (c :: s)) => Ok (Some (c :: s))
  | Some _ => Err (workspace_error (u "payload " ++ key ++ u " must be a non-empty string"))
  end.

Definition required_str (payload : jdict) (key : ustr) : result ustr :=
  value ← optional_str payload key;
  match value with Some s => Ok s | None => Err (workspace_error (u "payload " ++ key ++ u " is required")) end.

(** The first of the two older keys that is set decides. *)
Fixpoint cache_flag (payload : jdict) (keys : list ustr) : result bool :=
  match keys with
  | [] => Ok true
  | key :: keys =>
      match dget key payload with
      | Some (JBool b) => Ok b
      | None | Some JNull => cache_flag payload keys
      | Some _ => Err (workspace_error (u "payload " ++ key ++ u " must be a boolean"))
      end
  end.

Definition cache_enabled (payload : jdict) : result bool :=
  match dget (u "cache_policy") payload with
  | None | Some JNull => cache_flag payload [u "cache_enabled"; u "build_cache_enabled"]
  | Some (JObj policy) =>
      match dget (u "enabled") policy with
      | None => Ok true
      | Some (JBool b) => Ok b
      | Some _ => Err (workspace_error (u "payload cache_policy.enabled must be a boolean"))
      end
  | Some _ => Err (workspace_error (u "payload cache_policy must be an object"))
  end.

(** [memory.lower()] of a character: the Kelvin sign is the one character
    beyond ASCII that becomes a digit or a unit. *)
Definition lower_unit (c : N) : N := if (c =? 8490)%N then 107%N else lower_char c.

(** [re.fullmatch(r"[1-9][0-9]*(?:[bkmg])", memory.lower())]. *)
Definition memory_ok (memory : ustr) : bool :=
  let m := lower_unit <$> memory in
  match m, last m with
  | c :: _ :: _, Some unit =>
      (49 <=? c)%N && (c <=? 57)%N && forallb is_digit (removelast m) && bool_decide (unit ∈ [98; 107; 109; 103]%N)
  | _, _ => false
  end.

(** [0 < float(cpus) <= limit]; [float] of a large integer raises. *)
Definition cpu_limit_of (cpus : json) (limit : pyfloat) : result pyfloat :=
  c ← match cpus with
      | JInt n => float_of_Z n
      | JFloat f => Ok f
      | _ => Err (workspace_error (u "payload resource_limits.cpus exceeds the local limit"))
      end;
  if float_ltb (S754_zero false) c && float_leb c limit then Ok c
  else Err (workspace_error (u "payload resource_limits.cpus exceeds the local limit")).

Definition timeout_limit (payload : jdict) (c : EngineConfig) : result Z :=
  match default (JInt (cf_build_timeout_seconds c)) (dget (u "timeout_seconds") payload) with
  | JInt n => if (1 <=? n) && (n <=? cf_build_timeout_seconds c) then Ok n
              else Err (workspace_error (u "payload timeout_seconds exceeds the local bounded limit"))
  | _ => Err (workspace_error (u "payload timeout_seconds exceeds the local bounded limit"))
  end.

Definition pids_limit_of (raw : jdict) : result Z :=
  match default (JInt 1024) (dget (u "pids_limit") raw) with
  | JInt n => if (1 <=? n) && (n <=? 4096) then Ok n
              else Err (workspace_error (u "payload resource_limits.pids_limit is invalid"))
  | _ => Err (workspace_error (u "payload resource_limits.pids_limit is invalid"))
  end.

(** [_resource_limits]: timeout, memory, cpus, pids. *)
Definition resource_limits (payload : jdict) (c : EngineConfig) : result (Z * option ustr * option pyfloat * Z) :=
  timeout ← timeout_limit payload c;
  match default (JObj []) (dget (u "resource_limits") payload) with
  | JObj raw =>
      memory ← match dget (u "memory") raw with
               | None | Some JNull => Ok None
               | Some (JStr m) => if memory_ok m then Ok (Some m)
                                  else Err (workspace_error (u "payload resource_limits.memory is invalid"))
               | Some _ => Err (workspace_error (u "payload resource_limits.memory is invalid"))
               end;
      cpus ← match dget (u "cpus") raw with
             | None | Some JNull => Ok None
             | Some j => f ← cpu_limit_of j (cf_container_cpus c); Ok (Some f)
             end;
      pids ← pids_limit_of raw;
      Ok (timeout, memory, cpus, pids)
  | _ => Err (workspace_error (u "payload resource_limits must be an object"))
  end.

Definition combined_command (install_command build_command : ustr) : ustr :=
  match install_command with [] => build_command | _ => install_command ++ u " && " ++ build_command end.

Definition build_manifest (plan : BuildPlan) (source_root project_root : path) : jdict :=
  let root := if under source_root project_root
              then match drop (length source_root) project_root with [] => u "." | rel => join (u "/") rel end
              else u "." in
  [(u "framework", JStr (bp_framework_id plan)); (u "package_manager", JStr (manager_text (bp_package_manager plan)));
   (u "root", JStr root); (u "install_command", JStr (bp_install_command plan));
   (u "build_command", JStr (bp_build_command plan)); (u "output_dir", JStr (default [] (bp_output_dir plan)));
   (u "env", JObj [])].

(** * Events *)

Section job_loop.
Context {S : Type} `{Engine S} `{Urllib} `{TarFile} `{DirScan} `{Archiver} `{Packaging} `{UnicodeTables} `{SetOrder}.
(** The check of a URL's host part, the package's version and data directory,
    the user the engine runs as, its configuration and its credentials. *)
Context (netloc_check : ustr → result ()) (version : ustr) (data : path) (uid gid : Z).
Context (config : EngineConfig) (credentials : EngineCredentials).

Definition on_queue {A} : M store A → M S A := zoom eng_store eng_set_store.

(** [metrics.f()] when there is a collector. *)
Definition update_metrics (f : MetricsCollector → MetricsCollector) : M S () :=
  modify (λ s, eng_set_metrics (f <$> eng_metrics s) s).

Definition publish_event (job : JobRecord) (message_type : ustr) (payload : jdict) : M S () :=
  eng_publish message_type payload (jr_build_job_id job) (jr_attempt_id job).

Definition status (job : JobRecord) (phase : ustr) (extra : jdict) : M S () :=
  publish_event job (u "attempt.status") (dmerge [(u "phase", JStr phase)] extra).

Definition log (job : JobRecord) (stream data : ustr) : M S () :=
  suppress ExceptionC (publish_event job (u "attempt.log") [(u "stream", JStr stream); (u "data", JStr data)]).

Definition metric (job : JobRecord) (name : ustr) (value : json) : M S () :=
  publish_event job (u "attempt.status") [(u "phase", JStr (u "METRIC")); (u "name", JStr name); (u "value", value)].

(** [time.perf_counter() - started] as a metric. *)
Definition timing (job : JobRecord) (name : ustr) (started : pyfloat) : M S () :=
  t ← eng_perf_counter; metric job name (JFloat (SFsub PREC EMAX t started)).

Definition ack (job : JobRecord) (state : ustr) (error : option (ustr * ustr * ustr)) : M S () :=
  publish_event job (u "attempt.status")
    ([(u "build_job_id", JStr (jr_build_job_id job)); (u "attempt_id", JStr (jr_attempt_id job)); (u "state", JStr state)]
     ++ match error with
        | Some (error_class, error_code, message) =>
            [(u "error_class", JStr error_class); (u "error_code", JStr error_code); (u "error_message", JStr message)]
        | None => []
        end).

Definition publish_error (job : JobRecord) (error_class error_code message : ustr) : M S () :=
  publish_event job (u "error")
    [(u "error_class", JStr error_class); (u "error_code", JStr error_code); (u "message", JStr message)].

Definition publish_safely (job : JobRecord) (error_class error_code message : ustr) : M S () :=
  suppress ExceptionC (publish_error job error_class error_code message).
Definition ack_safely (job : JobRecord) (state error_class error_code message : ustr) : M S () :=
  suppress ExceptionC (ack job state (Some (error_class, error_code, message))).

(** * Freshness, cancellation, secrets, image *)

Definition stale (message : ustr) : exn := BuildExecutionError (u "STALE_ATTEMPT") (u "STALE_ATTEMPT") message.
Definition cancelled (message : ustr) : exn := BuildExecutionError (u "CANCELLED") (u "CANCELLED") message.

(** A check [wanted is not None and column != wanted]. *)
Definition lost (wanted column : option ustr) : bool :=
  match wanted with Some w => negb (bool_decide (column = Some w)) | None => false end.

Definition ensure_current_attempt (job : JobRecord) (lease_owner lease_token : option ustr) : M S () :=
  current ← on_queue (get_job (jr_build_job_id job) (jr_attempt_id job));
  fresh ← on_queue (is_current_attempt (jr_build_job_id job) (jr_attempt_id job));
  raise_if (negb fresh) (stale (u "Build attempt was superseded by a newer assignment"));;
  match current with
  | None => raise (stale (u "Build attempt is no longer running"))
  | Some current =>
      raise_if (negb (bool_decide (jr_state current = RUNNING))) (stale (u "Build attempt is no longer running"));;
      raise_if (lost lease_owner (jr_lease_owner current)) (stale (u "Build lease ownership was lost"));;
      raise_if (lost lease_token (jr_lease_token current)) (stale (u "Build lease token was replaced"));;
      raise_if (jr_cancel_requested current) (cancelled (u "Build cancellation was requested"))
  end.

(** One look of [_monitor_cancel] at the queue, and the event it sets: the look
    is placed at the poll that reads the event. An error ends the monitor. *)
Definition monitor_look (job : JobRecord) : M S bool :=
  current ← on_queue (get_job (jr_build_job_id job) (jr_attempt_id job));
  mret match current with Some c => jr_cancel_requested c || bool_decide (jr_state c = CANCELLED) | None => false end.
Definition cancel_is_set (job : JobRecord) : M S bool :=
  turn ← eng_monitor;
  if (turn : bool) then try_except (monitor_look job) (λ _, mret false) else mret false.

(** [credentials.backend_url or config.backend_url]. *)
Definition selected_backend_url : option ustr := or_text (cr_backend_url credentials) (cf_backend_url config).

Definition fetch_secret_env (job : JobRecord) : M S (list (ustr * ustr)) :=
  match selected_backend_url with
  | None => raise (BuildExecutionError (u "PLATFORM_ERROR") (u "BACKEND_URL_MISSING") (u "backend_url is missing"))
  | Some url =>
      try_except (fetch_attempt_secrets version url (jr_build_job_id job) (jr_attempt_id job) credentials)
        (λ e, raise (if isinstance e ExceptionC
                     then BuildExecutionError (u "EXEC_INFRA") (u "SECRET_FETCH_FAILED") (u "Build secret fetch failed")
                     else e))
  end.

Definition resolve_builder_image (image : ustr) : M S ustr :=
  manifest ← host_files (load_bundled_image_manifest data);
  lift (resolve_image_reference image (Some manifest)).

(** A step on the files, at the current time. *)
Definition on_files {A} (m : instant → M fs A) : M S A := t ← host_now; host_files (m t).

(** * One attempt *)

(** From the source archive to the build plan. *)
Definition prepare_source (job : JobRecord) (w : WorkspacePaths) : M S (jdict * path * BuildPlan) :=
  status job (u "PREPARING") [];;
  payload ← lift (payload_dict (jr_payload job));
  source_url ← lift (required_str payload (u "source_download_url"));
  source_sha256 ← lift (required_str payload (u "source_sha256"));
  source_size ← lift (optional_int payload (u "source_size_bytes"));
  on_files (λ t, download_source netloc_check t source_url (wp_source_archive w) source_sha256 source_size
                   (Some (cf_artifact_max_bytes config)) (cf_storage_origins config) (cf_allow_local_source_urls config));;
  on_files (λ t, extract_source t (wp_source_archive w) (wp_source_root w));;
  root_directory ← lift (optional_str payload (u "root_directory"));
  f ← host_files (gets id);
  project_root ← lift (resolve_project_root f (wp_source_root w) root_directory);
  framework_id ← lift (optional_str payload (u "framework_id"));
  plan ← lift (plan_build f project_root framework_id None None None None);
  let compatibility := bp_compatibility plan in
  raise_if (negb (cr_compatible compatibility))
    (BuildExecutionError (u "USER_CONFIG_INVALID") (u "BUILD_INCOMPATIBLE")
       (dumps (spaced true) (JList ((λ g, JObj (guidance_to_dict g)) <$> cr_guidance compatibility))));;
  mret (payload, project_root, plan).

(** The cache of the site, and the pruning of the others. *)
Definition prepare_cache (job : JobRecord) (payload : jdict) (project_root : path) (plan : BuildPlan) : M S (list CacheMount) :=
  site_id ← lift (required_str payload (u "site_id"));
  enabled ← lift (cache_enabled payload);
  let enabled := enabled && negb (bool_decide (bp_package_manager plan = NoManager)) in
  cache ← on_files (λ t, prepare_site_cache t (cf_state_dir config) site_id (bp_package_manager plan) project_root enabled);
  on_files (λ t, prune_cache t (cf_state_dir config) (cf_cache_site_max_bytes config) (cf_cache_ttl_days config) [site_id]);;
  update_metrics (cache_event (cpr_event cache));;
  match cpr_event cache with
  | Some event => publish_event job (u "attempt.status")
                    [(u "phase", JStr (u "CACHE")); (u "event", JStr (cache_event_text event))]
  | None => mret ()
  end;;
  mret (cpr_mounts cache).

(** Pulling the image and running the container. *)
Definition build (polls : nat) (job : JobRecord) (w : WorkspacePaths) (payload : jdict) (project_root : path)
    (plan : BuildPlan) : M S ContainerResult :=
  image ← resolve_builder_image (bp_image plan);
  status job (u "PULLING_IMAGE") [(u "image", JStr image)];;
  image_pull_started_at ← eng_perf_counter;
  pull_image image;;
  timing job (u "docker.image_pull_seconds") image_pull_started_at;;
  '(timeout_seconds, memory_limit, cpu_limit, pids_limit) ← lift (resource_limits payload config);
  let command := combined_command (bp_install_command plan) (bp_build_command plan) in
  cache_mounts ← prepare_cache job payload project_root plan;
  status job (u "BUILDING") (to_job_payload_fields plan);;
  build_started_at ← eng_perf_counter;
  secret_env ← fetch_secret_env job;
  result ← run_container polls
    (MkRunSpec image project_root command config DEFAULT_NETWORK_MODE (Some (wp_source_root w)) (Some (wp_output_root w))
       (Some (build_manifest plan (wp_source_root w) project_root)) [] cache_mounts secret_env
       (u "build-engine.managed=true") uid gid (Some timeout_seconds) memory_limit cpu_limit pids_limit)
    (log job) (cancel_is_set job);
  match result with
  | None => raise (PyExn CancelledError [])       (* still running when the worker is cancelled *)
  | Some result => timing job (u "build.seconds") build_started_at;; mret result
  end.

(** What a finished container means. *)
Definition container_verdict (r : ContainerResult) : result () :=
  fail_if (co_cancelled r) (cancelled (u "Build was cancelled"));;
  fail_if (co_timed_out r) (BuildExecutionError (u "EXEC_TIMEOUT") (u "TIMEOUT") (u "Build exceeded timeout"));;
  fail_if (co_exit_code r =? 137)
    (BuildExecutionError (u "EXEC_OOM") (u "EXEC_OOM") (u "Build container was killed after exceeding its memory limit"));;
  fail_if (negb (co_exit_code r =? 0))
    (BuildExecutionError (u "USER_BUILD_FAILED") (u "CONTAINER_EXIT")
       (u "Build container exited with code " ++ str_of_Z (co_exit_code r))).

(** Packaging and uploading the output. *)
Definition upload_artifact (job : JobRecord) (artifact : ArtifactPackage) : M S () :=
  match selected_backend_url with
  | None => raise (BuildExecutionError (u "PLATFORM_ERROR") (u "BACKEND_URL_MISSING") (u "backend_url is missing"))
  | Some url =>
      ticket ← request_upload_url netloc_check url (cr_session_jwt credentials) false
                 (jr_build_job_id job) (jr_attempt_id job) artifact;
      upload_started_at ← eng_perf_counter;
      content ← host_files (read_bytes (ap_path artifact));
      upload ticket artifact content;;
      timing job (u "upload.seconds") upload_started_at
  end.

Definition deliver (job : JobRecord) (w : WorkspacePaths) : M S () :=
  status job (u "PACKAGING") [];;
  package_started_at ← eng_perf_counter;
  artifact ← on_files (λ t, package_output t (wp_attempt_dir w) (Some (u "out")) (wp_artifact_dir w ++ [u "artifact.tar.gz"])
                              (cf_artifact_max_bytes config));
  timing job (u "package.seconds") package_started_at;;
  metric job (u "artifact.bytes") (JInt (ap_size_bytes artifact));;
  publish_event job (u "artifact.ready")
    [(u "sha256", JStr (ap_sha256 artifact)); (u "size_bytes", JInt (ap_size_bytes artifact))];;
  status job (u "UPLOADING") [];;
  upload_artifact job artifact.

(** A change of the attempt's state under the worker's lease. *)
Definition settle_as (job : JobRecord) (state : ustr) (error : option ustr) (expected : ustr)
    (lease_owner lease_token : option ustr) : M S () :=
  t ← host_now;
  on_queue (transition t (jr_attempt_id job) state error (Some expected) lease_owner lease_token);;
  mret ().

(** The last steps of a successful attempt. *)
Definition record_success (job : JobRecord) (job_started_at : pyfloat) (lease_owner lease_token : option ustr) : M S () :=
  settle_as job (u "SUCCEEDED") None (u "RUNNING") lease_owner lease_token;;
  timing job (u "jobs.duration_seconds") job_started_at;;
  ack job (u "SUCCEEDED") None.

(** The body of the [try] of [execute_job]. *)
Definition stages (polls : nat) (job : JobRecord) (w : WorkspacePaths) (job_started_at : pyfloat)
    (lease_owner lease_token : option ustr) : M S () :=
  '(payload, project_root, plan) ← prepare_source job w;
  result ← build polls job w payload project_root plan;
  lift (container_verdict result);;
  ensure_current_attempt job lease_owner lease_token;;
  deliver job w;;
  record_success job job_started_at lease_owner lease_token.

(** The [except] clauses: whether a failed workspace is retained, and what is raised. *)
Definition retains (e : exn) : bool :=
  existsb (isinstance e) [ArtifactUploadError; ArtifactError; DetectionError; WorkspaceError; CacheError; DockerError].

Definition reclassify (e : exn) : exn :=
  if isinstance e ArtifactUploadError then BuildExecutionError (u "EXEC_INFRA") (u "STORAGE_FAILURE") (exn_text e)
  else if existsb (isinstance e) [ArtifactError; DetectionError; WorkspaceError]
  then BuildExecutionError (u "USER_CONFIG_INVALID") (exn_name e) (exn_text e)
  else if isinstance e CacheError || isinstance e DockerError
  then BuildExecutionError (u "EXEC_INFRA") (exn_name e) (exn_text e)
  else e.

(** Run a computation and keep its outcome as a value. *)
Definition outcome {A} (m : M S A) : M S (result A) := λ s, let '(r, s) := m s in (Ok r, s).

(** The workspace of a finished attempt. *)
Definition clean_up (w : WorkspacePaths) (options : JobLoopOptions) (retain_failed : bool) : M S () :=
  on_files (λ t, cleanup_workspace t w (retain_failed && op_retain_failed_workspaces options) (op_failed_workspace_keep options)).

Definition execute_job (polls : nat) (job : JobRecord) (options : JobLoopOptions) (lease_owner lease_token : option ustr)
    : M S () :=
  w ← on_files (λ t, create_workspace t (cf_state_dir config) (jr_attempt_id job));
  job_started_at ← eng_perf_counter;
  ended ← outcome (stages polls job w job_started_at lease_owner lease_token);
  match ended with
  | Ok _ => clean_up w options false
  | Err e =>
      (if isinstance e DockerError then update_metrics docker_error_metric else mret ());;
      clean_up w options (retains e);;
      raise (reclassify e)
  end.

(** * The worker *)

Definition terminal_state (job : option JobRecord) : bool :=
  match job with Some j => terminal (jr_state j) | None => false end.

Definition failure_state (error_class : ustr) : ustr :=
  if ustr_eqb error_class (u "EXEC_TIMEOUT") then u "TIMED_OUT"
  else if ustr_eqb error_class (u "CANCELLED") then u "CANCELLED" else u "FAILED".

(** [except BuildExecutionError]: the first part, up to [completed = True]. *)
Definition settle_failure (l : QueueLease) (error_class message : ustr) : M S () :=
  let job := ql_job l in
  current ← on_queue (get_job (jr_build_job_id job) (jr_attempt_id job));
  match current with
  | Some c =>
      if terminal (jr_state c) then mret ()
      else suppress QueueError
             (settle_as job (failure_state error_class) (Some message) (state_text (jr_state c))
                (Some (ql_owner l)) (Some (ql_token l)))
  | None => mret ()
  end.

(** [except Exception]: a crash goes back to the queue or to the dead letters;
    the result says whether the attempt is over. *)
Definition settle_crash (l : QueueLease) (message : ustr) : M S bool :=
  t ← host_now;
  recovered ← try_except
    (job ← on_queue (record_executor_crash t (jr_attempt_id (ql_job l)) message (Some (ql_owner l)) (Some (ql_token l)));
     mret (Some job))
    (λ e, if isinstance e QueueError then mret None else raise e);
  mret match recovered with Some j => bool_decide (jr_state j = FAILED) | None => false end.

(** The body and the handlers of the worker's [try], with its local [completed]. *)
Definition inner {A} : M S A → M (S * bool) A := zoom fst (λ s sb, (s, sb.2)).
Definition set_completed (b : bool) : M (S * bool) () := modify (λ sb, (sb.1, b)).

Definition handle_failure (l : QueueLease) (e : exn) : M (S * bool) () :=
  match e with
  | BuildExecutionError error_class error_code message =>
      inner (settle_failure l error_class message);;
      set_completed true;;
      inner (publish_safely (ql_job l) error_class error_code message);;
      inner (ack_safely (ql_job l) (failure_state error_class) error_class error_code message)
  | PyExn _ message =>
      if negb (isinstance e ExceptionC) then raise e
      else
        current ← inner (on_queue (get_job (jr_build_job_id (ql_job l)) (jr_attempt_id (ql_job l))));
        if terminal_state current then set_completed true
        else
          completed ← inner (settle_crash l message);
          set_completed (completed : bool);;
          inner (publish_safely (ql_job l) (u "EXEC_INFRA") (u "EXECUTOR_CRASH") message);;
          if (completed : bool) then inner (ack_safely (ql_job l) (u "FAILED") (u "EXEC_INFRA") (u "EXECUTOR_CRASH") message)
          else mret ()
  end.

(** Run the [try] with [completed] false; its outcome and the final [completed]. *)
Definition supervised (m : M (S * bool) ()) : M S (result () * bool) := λ s,
  let '(r, (s, completed)) := m (s, false) in (Ok (r, completed), s).

Definition supervise (polls : nat) (l : QueueLease) (options : JobLoopOptions) : M (S * bool) () :=
  try_except
    (inner (execute_job polls (ql_job l) options (Some (ql_owner l)) (Some (ql_token l)));; set_completed true)
    (handle_failure l).

(** The attempt under its lease; the [finally] block awaits the refresh task
    and counts the job. *)
Definition run_lease (polls : nat) (l : QueueLease) (options : JobLoopOptions) : M S () :=
  update_metrics job_started;;
  '(r, completed) ← supervised (supervise polls l options);
  suppress CancelledError (eng_join_refresh l);;
  update_metrics (job_finished completed);;
  lift r.

(** One turn of [_worker]; [false] says that it returned. *)
Definition worker_turn (polls : nat) (owner : ustr) (options : JobLoopOptions) : M S bool :=
  stop ← eng_stop;
  if (stop : bool) then mret false
  else
    t ← host_now;
    token ← eng_token;
    lease ← on_queue (acquire_queue_lease t token owner (op_lease_seconds options));
    match lease with
    | None => eng_sleep (op_idle_sleep_seconds options);; mret true
    | Some l =>
        running ← try_except
          (settle_as (ql_job l) (u "RUNNING") None (u "LEASED") (Some (ql_owner l)) (Some (ql_token l));; mret true)
          (λ e, if isinstance e QueueError then mret false else raise e);
        if (running : bool) then run_lease polls l options;; mret true else mret true
    end.

(** [_worker] for a number of turns: [true] when the stop event ended it. *)
Fixpoint worker (turns polls : nat) (owner : ustr) (options : JobLoopOptions) : M S bool :=
  match turns with
  | O => mret false
  | Datatypes.S turns =>
      again ← worker_turn polls owner options;
      if (again : bool) then worker turns polls owner options else mret true
  end.

(** [_refresh_lease]: its interval, and the task for a number of beats; [false]
    when ownership was lost. *)
Definition refresh_interval (visibility_timeout_seconds : Z) : pyfloat :=
  let third := int_truediv visibility_timeout_seconds 3 in
  let x := if float_ltb third (float_of_decimal false 30 0) then third else float_of_decimal false 30 0 in
  if float_ltb (float_of_decimal false 1 0) x then x else float_of_decimal false 1 0.

Fixpoint refresh_task (beats : nat) (l : QueueLease) : M S bool :=
  match beats with
  | O => mret true
  | Datatypes.S beats =>
      eng_sleep (refresh_interval (ql_visibility_timeout_seconds l));;
      t ← host_now;
      owned ← try_except
        (on_queue (refresh_lease t (jr_attempt_id (ql_job l)) (ql_owner l) (ql_visibility_timeout_seconds l) (Some (ql_token l)));;
         mret true)
        (λ e, if isinstance e QueueError then mret false else raise e);
      if (owned : bool) then refresh_task beats l else mret false
  end.

(** The workers of [run_worker_pool], by the owner each one leases under. *)
Definition worker_owners : list ustr :=
  (λ i, u "worker-" ++ str_of_N (N.of_nat i)) <$> seq 0 (Z.to_nat (cf_max_concurrency config)).

End job_loop.
