(* ===== verification/JobLoopProofs.v ===== *)
(** Properties of the job loop: success only under the lease, how a worker
    settles the attempts that fail, crash or were lost, the limits a payload
    may ask for, the beats of the lease. *)

From Corelib Require Import SpecFloat.
From S2P Require Import Prelude PyStr PyFloat Dict Json Clock Uuid Protocol Db Store StoreRun StoreInv Queue Outbox OutboxProofs.
From S2P Require Import System Fs Resolve PackageJson Framework Cache Url Config Handlers Workspace Artifact Auth Stream Metrics.
From S2P Require Import Docker Meanwhile JobLoop.

Local Open Scope Z_scope.

Section proofs.
Context {S : Type} `{Engine S} (a t : ustr).

(** The other tasks do to the queue what the queue's methods do, without the
    worker's token [t] on its attempt [a]; reading the clock is not an [await]. *)
Definition calm {A} (m : M S A) : Prop := ∀ s, meanwhile a t (eng_store s) (eng_store (m s).2).

Class Environment : Prop := {
  env_store : ∀ q s, eng_store (eng_set_store q s) = q;
  env_metrics : ∀ m s, eng_store (eng_set_metrics m s) = eng_store s;
  env_files : ∀ A (m : M fs A), calm (host_files m);
  env_clock : ∀ s, is_ok (host_now s).1 = true ∧ eng_store (host_now s).2 = eng_store s;
  env_time : calm host_time;
  env_mkstemp : ∀ p x, calm (host_mkstemp p x);
  env_start : ∀ args, calm (host_start args);
  env_wait : ∀ x, calm (host_wait x);
  env_wait_forever : calm host_wait_forever;
  env_returncode : calm host_returncode;
  env_terminate : calm host_terminate;
  env_kill : calm host_kill;
  env_command : ∀ args, calm (host_command args);
  env_stdout : calm host_stdout;
  env_stderr : calm host_stderr;
  env_http : ∀ r, calm (http_send r);
  env_publish : ∀ ty p b x, calm (eng_publish ty p b x);
  env_token : calm eng_token;
  env_perf_counter : calm eng_perf_counter;
  env_sleep : ∀ x, calm (eng_sleep x);
  env_stop : calm eng_stop;
  env_monitor : calm eng_monitor;
  env_join_refresh : ∀ l, calm (eng_join_refresh l);
}.

Context `{Environment}.

Lemma env_now : calm host_now.
Proof. intros s. rewrite (proj2 (env_clock s)). constructor. Qed.

Definition R (s s' : S) : Prop := tracks a t (eng_store s) (eng_store s').

#[local] Instance R_preorder : PreOrder R.
Proof. split; [intros s; unfold R; reflexivity|intros x y z; unfold R; apply transitivity]. Qed.

Lemma calm_steps {A} (m : M S A) : calm m → steps R m.
Proof. intros Hm s. apply meanwhile_tracks, Hm. Qed.

(** Split a [steps] goal along the program down to the operations. *)
Ltac go := repeat first
  [ (apply steps_same; [exact R_preorder|intros ?; reflexivity])
  | (apply calm_steps; first [ apply env_files | apply env_now | apply env_time | apply env_mkstemp | apply env_start
      | apply env_wait | apply env_wait_forever | apply env_returncode | apply env_terminate | apply env_kill
      | apply env_command | apply env_stdout | apply env_stderr | apply env_http | apply env_publish | apply env_token
      | apply env_perf_counter | apply env_sleep | apply env_stop | apply env_monitor | apply env_join_refresh ])
  | solve [auto with steps]
  | (apply steps_bind; [exact R_preorder| |intros ?])
  | (apply steps_try; [exact R_preorder| |intros ?])
  | (apply steps_finally; [exact R_preorder| |])
  | (apply steps_for_each; [exact R_preorder|intros ?])
  | case_match ].

(** * Lemmas: every part of the loop follows the queue *)

Section host.
Context `{UnicodeTables} `{SetOrder}.

Lemma pull_image_steps image : steps R (pull_image image).
Proof. unfold pull_image, raise_if. go. Qed.

Lemma with_env_file_steps {A} env (body : option path → M S A) : (∀ p, steps R (body p)) → steps R (with_env_file env body).
Proof. intros Hb. unfold with_env_file. go. Qed.

Lemma with_build_manifest_steps {A} m (body : option path → M S A) :
  (∀ p, steps R (body p)) → steps R (with_build_manifest m body).
Proof. intros Hb. unfold with_build_manifest. go. Qed.

Lemma end_process_steps s cid : steps R (end_process s cid).
Proof. unfold end_process, stop_container, terminate_then_kill. go. Qed.
#[local] Hint Resolve end_process_steps : steps.

Lemma wait_loop_steps polls c s cid d : steps R c → steps R (wait_loop polls c s cid d).
Proof. intros Hc. induction polls as [|polls IH]; cbn [wait_loop]; go. Qed.

Lemma pump_steps publish stream redactor reads :
  (∀ x y, steps R (publish x y)) → steps R (pump_stream publish stream redactor reads).
Proof. intros Hp. induction reads as [|[|c r] reads IH]; cbn [pump_stream]; go. Qed.
#[local] Hint Resolve wait_loop_steps pump_steps : steps.

Lemma run_container_steps polls s publish c :
  (∀ x y, steps R (publish x y)) → steps R c → steps R (run_container polls s publish c).
Proof.
  intros Hp Hc. unfold run_container, wait_for_process, suppress. go.
  apply with_env_file_steps. intros p. apply with_build_manifest_steps. intros q. go.
Qed.
End host.

#[local] Hint Resolve pull_image_steps run_container_steps : steps.

Lemma on_queue_steps {A} (m : M store A) : (∀ q, tracks a t q (m q).2) → steps R (on_queue m).
Proof.
  intros Hm s. unfold on_queue, zoom, R. specialize (Hm (eng_store s)). destruct (m (eng_store s)) as [r q]. cbn in *.
  by rewrite env_store.
Qed.

Lemma update_metrics_steps f : steps R (update_metrics f).
Proof. intros s. unfold update_metrics, modify, R. cbn. by rewrite env_metrics. Qed.

Lemma get_job_steps b a' : steps R (on_queue (get_job b a')).
Proof. apply on_queue_steps. intros q. apply get_job_tracks. Qed.

Lemma is_current_steps b a' : steps R (on_queue (is_current_attempt b a')).
Proof. apply on_queue_steps. intros q. apply is_current_tracks. Qed.

(** The states a worker ends an attempt in. *)
Definition ends (state : ustr) : Prop := ∀ x, parse_state state = Some x → terminal x = true.

Lemma transition_steps now a' st err exp own tok : ends st → steps R (on_queue (transition now a' st err exp own tok)).
Proof. intros He. apply on_queue_steps. intros q. by apply settle_tracks. Qed.

Lemma crash_steps now a' err own tok : steps R (on_queue (record_executor_crash now a' err own tok)).
Proof. apply on_queue_steps. intros q. apply crash_tracks. Qed.
#[local] Hint Resolve update_metrics_steps get_job_steps is_current_steps transition_steps crash_steps : steps.

Lemma failure_state_ends c : ends (failure_state c) ∧ ∃ x, parse_state (failure_state c) = Some x ∧ RUNNING ∈ LEGAL_PREVIOUS_STATES x.
Proof.
  unfold failure_state, ends. destruct (ustr_eqb c _); [|destruct (ustr_eqb c _)]; (split; [intros x; vm_compute; by intros [= <-]|]);
    eexists; (split; [vm_compute; reflexivity|]); cbn; set_solver.
Qed.
Lemma ends_failure c : ends (failure_state c).
Proof. apply failure_state_ends. Qed.
#[local] Hint Resolve ends_failure : steps.

Section job.
Context `{Urllib} `{TarFile} `{DirScan} `{Archiver} `{Packaging} `{UnicodeTables} `{SetOrder}.
Context (netloc_check : ustr → result ()) (version : ustr) (data : path) (uid gid : Z).
Context (config : EngineConfig) (credentials : EngineCredentials).

Lemma publish_event_steps job ty p : steps R (publish_event job ty p).
Proof. unfold publish_event. go. Qed.
#[local] Hint Resolve publish_event_steps : steps.

Lemma log_steps job x y : steps R (log job x y).
Proof. unfold log, suppress. go. Qed.
Lemma status_steps job phase extra : steps R (status job phase extra).
Proof. unfold status. go. Qed.
Lemma metric_steps job name value : steps R (metric job name value).
Proof. unfold metric. go. Qed.
Lemma timing_steps job name started : steps R (timing job name started).
Proof. unfold timing, metric. go. Qed.
Lemma ack_steps job state error : steps R (ack job state error).
Proof. unfold ack. go. Qed.
Lemma publish_safely_steps job x y z : steps R (publish_safely job x y z).
Proof. unfold publish_safely, suppress, publish_error. go. Qed.
Lemma ack_safely_steps job s x y z : steps R (ack_safely job s x y z).
Proof. unfold ack_safely, suppress, ack. go. Qed.
Lemma on_files_steps {A} (m : instant → M fs A) : steps R (on_files m).
Proof. unfold on_files. go. Qed.
Lemma cancel_is_set_steps job : steps R (cancel_is_set job).
Proof. unfold cancel_is_set, monitor_look. go. Qed.
Lemma ensure_steps job own tok : steps R (ensure_current_attempt job own tok).
Proof. unfold ensure_current_attempt, raise_if. go. Qed.
#[local] Hint Resolve log_steps status_steps metric_steps timing_steps ack_steps publish_safely_steps ack_safely_steps
  on_files_steps cancel_is_set_steps ensure_steps : steps.

Lemma fetch_secret_env_steps job : steps R (fetch_secret_env version config credentials job).
Proof. unfold fetch_secret_env, fetch_attempt_secrets. go. Qed.
Lemma resolve_builder_image_steps image : steps R (resolve_builder_image data image).
Proof. unfold resolve_builder_image. go. Qed.
Lemma prepare_source_steps job w : steps R (prepare_source netloc_check config job w).
Proof. unfold prepare_source, raise_if. go. Qed.
Lemma prepare_cache_steps job payload root plan : steps R (prepare_cache config job payload root plan).
Proof. unfold prepare_cache. go. Qed.
#[local] Hint Resolve fetch_secret_env_steps resolve_builder_image_steps prepare_source_steps prepare_cache_steps : steps.

Lemma build_steps polls job w payload root plan :
  steps R (build version data uid gid config credentials polls job w payload root plan).
Proof. unfold build. go. Qed.
Lemma upload_artifact_steps job artifact : steps R (upload_artifact netloc_check config credentials job artifact).
Proof. unfold upload_artifact, request_upload_url, upload. go. Qed.
#[local] Hint Resolve build_steps upload_artifact_steps : steps.
Lemma deliver_steps job w : steps R (deliver netloc_check config credentials job w).
Proof. unfold deliver. go. Qed.
#[local] Hint Resolve deliver_steps : steps.

Lemma settle_as_steps job st err exp own tok : ends st → steps R (settle_as job st err exp own tok).
Proof. intros He. unfold settle_as. go. Qed.

Lemma ends_succeeded : ends (u "SUCCEEDED").
Proof. intros x. vm_compute. by intros [= <-]. Qed.
#[local] Hint Resolve ends_succeeded settle_as_steps : steps.

Lemma stages_steps polls job w started own tok :
  steps R (stages netloc_check version data uid gid config credentials polls job w started own tok).
Proof.
  unfold stages, record_success. go.
Qed.

Lemma execute_job_steps polls job options own tok :
  steps R (execute_job netloc_check version data uid gid config credentials polls job options own tok).
Proof.
  unfold execute_job, clean_up. do 2 (apply steps_bind; [exact R_preorder|go|intros ?]).
  apply steps_bind; [exact R_preorder| |intros [|]; go].
  intros s. unfold outcome. pose proof (stages_steps polls job a0 a1 own tok s) as Hs. by destruct (stages _ _ _ _ _ _ _ _ _ _ _ _ _ s).
Qed.

(** * Lemmas: settling an attempt *)

Lemma on_queue_run {A} (m : M store A) s r q op :
  m (eng_store s) = (r, Store q None (st_transient (eng_store s)) op) →
  (on_queue m s).1 = r ∧ st_disk (eng_store (on_queue m s).2) = q.
Proof. intros E. unfold on_queue, zoom. rewrite E. cbn. by rewrite env_store. Qed.

(** The attempt's row. *)
Definition row_at (s : S) : option job_row := find_row a (st_disk (eng_store s)).

Lemma settle_as_Ok job st x err exp owner s s' :
  jr_attempt_id job = a → parse_state st = Some x → sys_ok (eng_store s) →
  settle_as job st err exp (Some owner) (Some t) s = (Ok (), s') →
  ∃ s1 r now, R s s1 ∧ row_at s1 = Some r ∧ state_text (r_state r) = exp ∧ r_lease_owner r = Some owner ∧
    r_lease_token r = Some t ∧ r_state r ∈ LEGAL_PREVIOUS_STATES x ∧ row_at s' = Some (transition_row x err now r).
Proof.
  intros Ha Hx Hs. unfold settle_as. intros (now & s1 & E1 & E)%bind_Ok_inv.
  apply bind_Ok_inv in E as (j & s2 & E & [= <-]).
  assert (R s s1) as HR. { pose proof (calm_steps _ env_now s) as HR. by rewrite E1 in HR. }
  destruct (HR Hs) as [(Hi & Hd & _) _]. exists s1.
  pose proof (transition_run now (jr_attempt_id job) st err (Some exp) (Some owner) (Some t) _ Hi (db_ok_table _ Hd)) as Ht.
  cbv zeta in Ht. destruct (transition_spec _ _ _ _ _ _ _) as [r'|x'] eqn:Es; destruct Ht as [op Ht];
    apply on_queue_run in Ht as [Hr Hd']; rewrite E in Hr, Hd'; [|done]. cbn in Hr, Hd'.
  pose proof Es as (r & x0 & Hf & Hp & Hor)%transition_spec_Ok. rewrite Hx in Hp. injection Hp as <-. rewrite Ha in *.
  exists r, (format_datetime now). unfold row_at. rewrite Hd', (find_set_row _ _ r); cycle 1.
  { apply Hd. } { done. }
  { apply find_row_Some in Hf as [Hf _]. destruct Hor as [[-> _]|[-> _]]; [done|]. unfold transition_row. by destruct (terminal x). }
  rewrite decide_True by done. destruct Hor as [[-> Hst]|(-> & Hl & He & Ho & Hk)].
  - exfalso. unfold transition_spec in Es. rewrite Hx, Hf in Es. do 3 (destruct (unexpected _ _); [discriminate Es|]).
    rewrite bool_decide_true in Es by done. discriminate Es.
  - cbn in He, Ho, Hk. apply bool_decide_eq_true in He, Ho, Hk. split_and!; try done; congruence.
Qed.

Lemma held_before s s' r' owner :
  sys_ok (eng_store s) → R s s' → row_at s' = Some r' → r_lease_token r' = Some t → r_lease_owner r' = Some owner →
  ∃ r, row_at s = Some r ∧ r_state r = r_state r' ∧ r_lease_token r = Some t ∧ r_lease_owner r = Some owner.
Proof.
  intros Hs HR Er Et Eo. destruct (HR Hs) as [_ [K _]]. destruct (K _ Er Et) as (r & E1 & E2 & E3 & E4 & _).
  exists r. unfold row_at. split_and!; congruence.
Qed.

Lemma ended_after s s' r :
  sys_ok (eng_store s) → R s s' → row_at s = Some r → terminal (r_state r) = true →
  ∃ r', row_at s' = Some r' ∧ r_state r' = r_state r ∧ r_lease_token r' = r_lease_token r ∧ r_error r' = r_error r.
Proof. intros Hs HR Er Et. destruct (HR Hs) as [_ [_ K]]. exact (K _ Er Et). Qed.

Lemma steps_run {A} (m : M S A) s r s' : steps R m → m s = (r, s') → R s s'.
Proof. intros Hm E. specialize (Hm s). by rewrite E in Hm. Qed.

(** * Success *)

Lemma stages_success polls job w started owner s s' :
  jr_attempt_id job = a → sys_ok (eng_store s) →
  stages netloc_check version data uid gid config credentials polls job w started (Some owner) (Some t) s = (Ok (), s') →
  ∃ r r', row_at s = Some r ∧ r_state r = RUNNING ∧ r_lease_owner r = Some owner ∧ r_lease_token r = Some t ∧
          row_at s' = Some r' ∧ r_state r' = SUCCEEDED ∧ r_lease_token r' = None.
Proof.
  intros Ha Hs. unfold stages, record_success. intros ([[payload root] plan] & s1 & E1 & E)%bind_Ok_inv.
  apply bind_Ok_inv in E as (res & s2 & E2 & E). apply bind_Ok_inv in E as ([] & s3 & E3 & E).
  apply bind_Ok_inv in E as ([] & s4 & E4 & E). apply bind_Ok_inv in E as ([] & s5 & E5 & E).
  apply bind_Ok_inv in E as ([] & s6 & E6 & E).
  apply (steps_run _ _ _ _ (prepare_source_steps _ _)) in E1. apply (steps_run _ _ _ _ (build_steps _ _ _ _ _ _)) in E2.
  apply (steps_run _ _ _ _ (ensure_steps _ _ _)) in E4. apply (steps_run _ _ _ _ (deliver_steps _ _)) in E5.
  injection E3 as _ <-.
  assert (R s s5) as Hb5 by (do 3 (etransitivity; [eassumption|]); exact E5).
  assert (sys_ok (eng_store s5)) as Hs5 by (by apply Hb5).
  assert (R s6 s') as Hb6. { refine (steps_run _ _ _ _ _ E). go. }
  assert (R s5 s6) as Hb56. { refine (steps_run _ _ _ _ _ E6). go. }
  destruct (settle_as_Ok job (u "SUCCEEDED") SUCCEEDED None (u "RUNNING") owner s5 s6 Ha eq_refl Hs5 E6)
    as (s51 & r & now & HR & Er & Est & Eo & Et & _ & Er').
  change (u "RUNNING") with (state_text RUNNING) in Est. apply state_text_inj in Est.
  assert (R s s51) as Hb51 by (by etransitivity).
  destruct (held_before s s51 r owner Hs Hb51 Er Et Eo) as (r0 & E0 & Es0 & Et0 & Eo0).
  assert (sys_ok (eng_store s6)) as Hs6 by (by apply Hb56).
  destruct (ended_after s6 s' _ Hs6 Hb6 Er' eq_refl) as (r1 & E1' & Es1 & Et1 & _).
  exists r0, r1. split_and!; try done; congruence.
Qed.

(** * Lemmas: the worker's handlers *)

(** Nobody holds the token on the attempt; or it is held by a running attempt
    of this lease. *)
Definition released (s : S) : Prop := ∀ r, row_at s = Some r → r_lease_token r ≠ Some t.
Definition held_in (x : job_state) (l : QueueLease) (s : S) : Prop := ∀ r, row_at s = Some r → r_lease_token r = Some t →
  r_state r = x ∧ r_lease_owner r = Some (ql_owner l) ∧ r_build_job_id r = jr_build_job_id (ql_job l).
Definition held : QueueLease → S → Prop := held_in RUNNING.

Lemma released_after s s' : sys_ok (eng_store s) → R s s' → released s → released s'.
Proof. intros Hs HR Hr r E Et. destruct (HR Hs) as [_ [K _]]. destruct (K _ E Et) as (r0 & E0 & Et0 & _). by apply (Hr _ E0). Qed.

Lemma held_after x l s s' : sys_ok (eng_store s) → R s s' → held_in x l s → held_in x l s'.
Proof.
  intros Hs HR Hh r E Et. destruct (HR Hs) as [_ [K _]]. destruct (K _ E Et) as (r0 & E0 & Et0 & S0 & O0 & B0).
  destruct (Hh _ E0 Et0) as (? & ? & ?). split_and!; congruence.
Qed.

Lemma terminal_released s r : sys_ok (eng_store s) → row_at s = Some r → terminal (r_state r) = true → released s.
Proof.
  intros (_ & Hd & _) E Ht r' E'. rewrite E in E'. injection E' as <-.
  destruct (elem_row_ok _ _ _ Hd E) as [_ _ _ _ Hrow]. destruct (Hrow Ht) as (_ & -> & _). done.
Qed.

(** What [get_job] returns: the row, when it belongs to the build. *)
Lemma get_job_at job s r s' :
  sys_ok (eng_store s) → jr_attempt_id job = a → on_queue (get_job (jr_build_job_id job) (jr_attempt_id job)) s = (r, s') →
  row_at s' = row_at s ∧
  match r with
  | Ok (Some j) => ∃ x, row_at s = Some x ∧ jr_state j = r_state x
  | Ok None => ∀ x, row_at s = Some x → r_build_job_id x ≠ jr_build_job_id job
  | Err _ => False
  end.
Proof.
  intros (Hi & Hd & _) Ha E.
  pose proof (get_job_run (jr_build_job_id job) (jr_attempt_id job) _ Hi (db_ok_table _ Hd)) as [op Hg].
  apply on_queue_run in Hg as [Hr Hq]. rewrite E in Hr, Hq. cbn in Hr, Hq. rewrite Ha in Hr. unfold row_at. rewrite Hq.
  split; [done|]. rewrite Hr. destruct (find_row a _) as [x|]; [|done]. cbn [hit]. destruct (is_build _ x) eqn:Eb; cbn.
  - by exists x.
  - intros ? [= <-] Hb. by rewrite (proj2 (is_build_spec _ _) Hb) in Eb.
Qed.

(** A refused settlement under a held lease: it was not held any more. *)
Lemma settle_as_refused job st x y err s s' e l :
  jr_attempt_id job = a → parse_state st = Some x → y ∈ LEGAL_PREVIOUS_STATES x → y ≠ x →
  sys_ok (eng_store s) → held_in y l s →
  settle_as job st err (state_text y) (Some (ql_owner l)) (Some t) s = (Err e, s') → released s'.
Proof.
  intros Ha Hx Hl Hne Hs Hh. unfold settle_as. munfold.
  pose proof (calm_steps _ env_now s) as HR. pose proof (proj1 (env_clock s)) as Hc.
  destruct (host_now s) as [[now|e'] s1]; cbn [fst snd] in *; [|done].
  pose proof (held_after _ _ _ _ Hs HR Hh) as Hh1. destruct (HR Hs) as [(Hi & Hd & _) _].
  pose proof (transition_run now (jr_attempt_id job) st err (Some (state_text y)) (Some (ql_owner l)) (Some t) _ Hi (db_ok_table _ Hd)) as Ht.
  cbv zeta in Ht. destruct (transition_spec _ _ _ _ _ _ _) as [r'|x'] eqn:Es; destruct Ht as [op Ht];
    apply on_queue_run in Ht as [Hr Hd']; destruct (on_queue _ s1) as [r2 s2]; cbn in Hr, Hd'; subst r2; [done|].
  intros [= -> ->] r Er Et. unfold row_at in Er. rewrite Hd' in Er. destruct (Hh1 r Er Et) as (G1 & G2 & _).
  rewrite Ha in Es. unfold transition_spec in Es. rewrite Hx, Er, G1 in Es. unfold unexpected in Es. cbn [matches] in Es.
  rewrite Et, G2 in Es. rewrite !(bool_decide_true (Some _ = Some _)) in Es by done. cbn [negb] in Es.
  rewrite bool_decide_false in Es by done. by rewrite bool_decide_true in Es.
Qed.

Lemma settle_as_released job st x err s s' r l :
  jr_attempt_id job = a → parse_state st = Some x → terminal x = true → RUNNING ∈ LEGAL_PREVIOUS_STATES x →
  sys_ok (eng_store s) → held l s →
  settle_as job st err (u "RUNNING") (Some (ql_owner l)) (Some t) s = (r, s') → released s'.
Proof.
  intros Ha Hx Ht Hl Hs Hh E.
  destruct r as [[]|e]; [|apply (settle_as_refused _ _ _ RUNNING _ _ _ _ _ Ha Hx Hl) in E; try done; intros <-; discriminate Ht].
  destruct (settle_as_Ok _ _ _ _ _ _ _ _ Ha Hx Hs E) as (s1 & r & now & _ & _ & _ & _ & _ & _ & Er').
  intros r' E'. rewrite Er' in E'. injection E' as <-. unfold transition_row. by rewrite Ht.
Qed.

Lemma suppress_inv {A} c (m : M A ()) s r s' : suppress c m s = (r, s') → ∃ r0, m s = (r0, s').
Proof. unfold suppress. munfold. destruct (m s) as [[]]; [|case_match]; intros [= <- <-]; eauto. Qed.

Lemma settle_failure_released l error_class msg s s' :
  jr_attempt_id (ql_job l) = a → ql_token l = t → sys_ok (eng_store s) → held l s →
  settle_failure l error_class msg s = (Ok (), s') → released s'.
Proof.
  intros Ha Htk Hs Hh. unfold settle_failure. intros (c & s1 & E1 & E)%bind_Ok_inv.
  pose proof (steps_run _ _ _ _ (get_job_steps _ _) E1) as HR1. destruct (get_job_at _ _ _ _ Hs Ha E1) as [Hrow Hc].
  assert (sys_ok (eng_store s1)) as Hs1 by (by apply HR1). pose proof (held_after _ _ _ _ Hs HR1 Hh) as Hh1.
  destruct c as [j|].
  - destruct Hc as (x & Ex & Ej). rewrite Ej in E. destruct (terminal (r_state x)) eqn:Et.
    + injection E as <-. eapply terminal_released; [done|by rewrite Hrow|done].
    + apply suppress_inv in E as [r E].
      destruct (decide (r_lease_token x = Some t)) as [Hx|Hx].
      * destruct (Hh x Ex Hx) as (Hst & _). rewrite Hst, Htk in E.
        destruct (failure_state_ends error_class) as [He (y & Hy & Hly)].
        eapply settle_as_released; try done. by apply He.
      * apply (released_after s1); [done| |].
        -- refine (steps_run _ _ _ _ _ E). apply settle_as_steps, failure_state_ends.
        -- intros r' Er'. rewrite Hrow, Ex in Er'. by injection Er' as <-.
  - injection E as <-. intros r Er Et. rewrite Hrow in Er. destruct (Hh r Er Et) as (_ & _ & Hb). by apply (Hc r).
Qed.

Lemma settle_crash_released l msg s b s' :
  jr_attempt_id (ql_job l) = a → ql_token l = t → sys_ok (eng_store s) → held l s →
  settle_crash l msg s = (Ok b, s') → released s'.
Proof.
  intros Ha Htk Hs Hh. unfold settle_crash. intros (now & s1 & E1 & E)%bind_Ok_inv.
  apply bind_Ok_inv in E as (o & s2 & E & [= _ <-]).
  pose proof (calm_steps _ env_now s) as HR. rewrite E1 in HR. cbn in HR.
  pose proof (held_after _ _ _ _ Hs HR Hh) as Hh1. destruct (HR Hs) as [(Hi & Hd & Hp) _].
  pose proof (record_crash_run now (jr_attempt_id (ql_job l)) msg (Some (ql_owner l)) (Some (ql_token l)) _ Hi (db_ok_table _ Hd)) as Hr.
  cbv zeta in Hr. rewrite Ha, Htk in *. munfold. unfold row_at, released in *.
  destruct (crash_spec _ _ _ _ _) as [r'|x] eqn:Es.
  - apply crash_spec_Ok in Es as (r & Hf & _ & _ & _ & ->). rewrite Hf in Hr. destruct Hr as [op Hr].
    apply on_queue_run in Hr as [Hr Hq]. destruct (on_queue _ s1) as [r2 s3]. cbn in Hr, Hq. subst r2.
    injection E as _ <-. intros r' Er'. unfold row_at in Er'. rewrite Hq in Er'.
    rewrite (find_set_row _ _ r) in Er'; [| |by rewrite crash_dlq_find|].
    + rewrite decide_True in Er' by done. by injection Er' as <-.
    + unfold unique_attempts. rewrite crash_dlq_jobs. apply Hd.
    + cbn. by apply find_row_Some in Hf as [Hf _].
  - destruct Hr as [op Hr]. apply on_queue_run in Hr as [Hr Hq]. destruct (on_queue _ s1) as [r2 s3]. cbn in Hr, Hq. subst r2.
    assert (s3 = s2) as <- by (case_match; by injection E). intros r Er Et. unfold row_at in Er. rewrite Hq in Er.
    destruct (Hh1 r Er Et) as (G1 & G2 & _). unfold crash_spec in Es. rewrite Er, G1, G2, Et in Es. cbn [active matches] in Es.
    by rewrite !(bool_decide_true (Some _ = Some _)) in Es by done.
Qed.

(** * Lemmas: a turn of the worker *)

(** The handlers' computations run on the state beside the flag. *)
Definition R2 (x y : S * bool) : Prop := R x.1 y.1.
#[local] Instance R2_preorder : PreOrder R2.
Proof. split; [intros x; unfold R2; reflexivity|intros x y z; unfold R2; apply transitivity]. Qed.

Lemma inner_run {A} (m : M S A) s b r s' b' : inner m (s, b) = (r, (s', b')) → m s = (r, s') ∧ b' = b.
Proof. unfold inner, zoom. cbn. destruct (m s) as [r0 s0]. by intros [= <- <- <-]. Qed.

Lemma inner_bind {A B} (m : M S A) (f : A → M (S * bool) B) s b x s1 :
  m s = (Ok x, s1) → (inner m ≫= f) (s, b) = f x (s1, b).
Proof. intros E. unfold mbind, M_bind, inner, zoom. cbn. by rewrite E. Qed.

Lemma inner_steps {A} (m : M S A) : steps R m → steps R2 (inner m).
Proof. intros Hm [s b]. specialize (Hm s). unfold inner, zoom, R2. cbn. by destruct (m s). Qed.

Lemma settle_failure_steps l c msg : steps R (settle_failure l c msg).
Proof. unfold settle_failure, suppress. go. Qed.
Lemma settle_crash_steps l msg : steps R (settle_crash l msg).
Proof. unfold settle_crash. go. Qed.

Lemma handle_failure_steps l e : steps R2 (handle_failure l e).
Proof.
  assert (∀ b, steps R2 (set_completed b)) as Hset by (by intros b [s b0]; unfold R2).
  unfold handle_failure. repeat first
    [ (apply inner_steps; first [apply settle_failure_steps | apply settle_crash_steps | auto with steps])
    | apply Hset
    | (apply steps_same; [exact R2_preorder|intros ?; reflexivity])
    | (apply steps_bind; [exact R2_preorder| |intros ?])
    | case_match ].
Qed.

Lemma handle_failure_released l e s b s' b' :
  jr_attempt_id (ql_job l) = a → ql_token l = t → sys_ok (eng_store s) → held l s →
  handle_failure l e (s, b) = (Ok (), (s', b')) → released s'.
Proof.
  intros Ha Htk Hs Hh. destruct e as [cls msg|c code msg]; cbn [handle_failure].
  - destruct (isinstance _ _); [|done]. cbn [negb]. intros (cur & [s1 b1] & E1 & E)%bind_Ok_inv.
    apply inner_run in E1 as [E1 ->]. pose proof (steps_run _ _ _ _ (get_job_steps _ _) E1) as HR1.
    destruct (get_job_at _ _ _ _ Hs Ha E1) as [Hrow Hc].
    assert (sys_ok (eng_store s1)) as Hs1 by (by apply HR1). pose proof (held_after _ _ _ _ Hs HR1 Hh) as Hh1.
    destruct (terminal_state cur) eqn:Et.
    + injection E as <- _. destruct cur as [j|]; [|done]. destruct Hc as (x & Ex & Ej). cbn in Et. rewrite Ej in Et.
      eapply terminal_released; [done|by rewrite Hrow|done].
    + apply bind_Ok_inv in E as (done_ & [s2 b2] & E2 & E). apply inner_run in E2 as [E2 ->].
      apply bind_Ok_inv in E as ([] & [s3 b3] & [= <- <-] & E).
      pose proof (settle_crash_released _ _ _ _ _ Ha Htk Hs1 Hh1 E2) as Hr.
      assert (sys_ok (eng_store s2)) as Hs2 by (by apply (steps_run _ _ _ _ (settle_crash_steps _ _) E2)).
      apply (released_after s2); [done| |done].
      apply bind_Ok_inv in E as ([] & [s4 b4] & E4 & E). apply inner_run in E4 as [E4 ->].
      transitivity s4; [by apply (steps_run _ _ _ _ (publish_safely_steps _ _ _ _) E4)|].
      destruct done_; [|by injection E as <-]. apply inner_run in E as [E _].
      by apply (steps_run _ _ _ _ (ack_safely_steps _ _ _ _ _) E).
  - intros ([] & [s1 b1] & E1 & E)%bind_Ok_inv. apply inner_run in E1 as [E1 ->].
    pose proof (settle_failure_released _ _ _ _ _ Ha Htk Hs Hh E1) as Hr.
    assert (sys_ok (eng_store s1)) as Hs1 by (by apply (steps_run _ _ _ _ (settle_failure_steps _ _ _) E1)).
    apply bind_Ok_inv in E as ([] & [s2 b2] & [= <- <-] & E).
    apply bind_Ok_inv in E as ([] & [s3 b3] & E3 & E). apply inner_run in E3 as [E3 ->]. apply inner_run in E as [E ->].
    apply (released_after s1); [done| |done].
    transitivity s3; [by apply (steps_run _ _ _ _ (publish_safely_steps _ _ _ _) E3)|].
    by apply (steps_run _ _ _ _ (ack_safely_steps _ _ _ _ _) E).
Qed.

Notation execute := (execute_job netloc_check version data uid gid config credentials).
Notation run_one := (run_lease netloc_check version data uid gid config credentials).
Notation turn := (worker_turn netloc_check version data uid gid config credentials).

Lemma execute_success polls job options owner s s' :
  jr_attempt_id job = a → sys_ok (eng_store s) → execute polls job options (Some owner) (Some t) s = (Ok (), s') →
  ∃ r r', row_at s = Some r ∧ r_state r = RUNNING ∧ r_lease_owner r = Some owner ∧ r_lease_token r = Some t ∧
          row_at s' = Some r' ∧ r_state r' = SUCCEEDED ∧ r_lease_token r' = None.
Proof.
  intros Ha Hs. unfold execute_job, clean_up. intros (w & s1 & E1 & E)%bind_Ok_inv. apply bind_Ok_inv in E as (p & s2 & E2 & E).
  apply bind_Ok_inv in E as (res & s3 & E3 & E). unfold outcome in E3.
  destruct (stages _ _ _ _ _ _ _ _ _ _ _ _ _ s2) as [r0 s30] eqn:E0. injection E3 as <- <-.
  assert (R s s2) as HR.
  { transitivity s1; [exact (steps_run _ _ _ _ (on_files_steps _) E1)|exact (steps_run _ _ _ _ (calm_steps _ env_perf_counter) E2)]. }
  assert (sys_ok (eng_store s2)) as Hs2 by (by apply HR).
  destruct r0 as [[]|e]; [|by apply bind_Ok_inv in E as (? & ? & _ & (? & ? & _ & E)%bind_Ok_inv)].
  destruct (stages_success _ _ _ _ _ _ _ Ha Hs2 E0) as (r & r' & Er & Es & Eo & Et & Er' & Es' & Et').
  assert (sys_ok (eng_store s30)) as Hs3 by (by apply (steps_run _ _ _ _ (stages_steps _ _ _ _ _ _) E0)).
  destruct (held_before s s2 r owner Hs HR Er Et Eo) as (r1 & Er1 & Es1 & Et1 & Eo1).
  assert (R s30 s') as HR' by (exact (steps_run _ _ _ _ (on_files_steps _) E)).
  destruct (ended_after s30 s' r' Hs3 HR' Er') as (r2 & Er2 & Es2 & Et2 & _); [by rewrite Es'|].
  exists r1, r2. split_and!; congruence.
Qed.

Lemma run_lease_released polls l options s s' :
  jr_attempt_id (ql_job l) = a → ql_token l = t → sys_ok (eng_store s) → held l s →
  run_one polls l options s = (Ok (), s') → released s'.
Proof.
  intros Ha Htk Hs Hh. unfold run_lease. intros ([] & s1 & E1 & E)%bind_Ok_inv.
  apply (steps_run _ _ _ _ (update_metrics_steps _)) in E1. assert (sys_ok (eng_store s1)) as Hs1 by (by apply E1).
  pose proof (held_after _ _ _ _ Hs E1 Hh) as Hh1. apply bind_Ok_inv in E as ([r done_] & s2 & E2 & E).
  apply bind_Ok_inv in E as ([] & s3 & E3 & E). apply bind_Ok_inv in E as ([] & s4 & E4 & E). injection E as -> <-.
  unfold supervised in E2. destruct (supervise _ _ _ _ _ _ _ _ _ _ _) as [r0 [s20 b]] eqn:Ev. injection E2 as -> <- <-.
  assert (sys_ok (eng_store s20) ∧ released s20) as [Hs2 Hr2].
  { unfold supervise in Ev. unfold try_except in Ev.
    destruct ((inner _ ≫= _) (s1, false)) as [[[]|e] [s5 b5]] eqn:E5.
    - injection Ev as <- <-. apply bind_Ok_inv in E5 as ([] & [s6 b6] & E6 & [= <- <-]). apply inner_run in E6 as [E6 ->].
      rewrite Htk in E6. pose proof (steps_run _ _ _ _ (execute_job_steps _ _ _ _ _) E6) as HR6.
      destruct (execute_success _ _ _ _ _ _ Ha Hs1 E6) as (_ & r' & _ & _ & _ & _ & Er' & _ & Et').
      split; [by apply HR6|]. intros r Er. rewrite Er' in Er. injection Er as <-. by rewrite Et'.
    - assert (R s1 s5) as HR5.
      { assert (steps R2 (inner (execute polls (ql_job l) options (Some (ql_owner l)) (Some (ql_token l)));; set_completed true)) as Hst.
        { apply steps_bind; [exact _|apply inner_steps, execute_job_steps|]. by intros [] [x y]; unfold R2. }
        specialize (Hst (s1, false)). by rewrite E5 in Hst. }
      assert (sys_ok (eng_store s5)) as Hs5 by (by apply HR5). pose proof (held_after _ _ _ _ Hs1 HR5 Hh1) as Hh5.
      split; [|by eapply handle_failure_released].
      pose proof (handle_failure_steps l e (s5, b5)) as HR. rewrite Ev in HR. by apply HR. }
  apply (released_after s20); [done| |done].
  transitivity s3; [|exact (steps_run _ _ _ _ (update_metrics_steps _) E4)].
  refine (steps_run _ _ _ _ _ E3). unfold suppress. go.
Qed.

Lemma run_lease_steps polls l options : steps R (run_one polls l options).
Proof.
  unfold run_lease. apply steps_bind; [exact _|auto with steps|]. intros []. apply steps_bind; [exact _| |].
  - intros s. unfold supervised, supervise.
    assert (steps R2 (try_except (inner (execute polls (ql_job l) options (Some (ql_owner l)) (Some (ql_token l)));; set_completed true)
              (handle_failure l))) as Hst.
    { apply steps_try; [exact _| |intros e; apply handle_failure_steps].
      apply steps_bind; [exact _|apply inner_steps, execute_job_steps|]. by intros [] [x y]; unfold R2. }
    specialize (Hst (s, false)). by destruct (try_except _ _ (s, false)) as [r [s' b]].
  - intros [r b]. apply steps_bind; [exact _|unfold suppress; go|]. intros []. go.
Qed.

Lemma settled_released n d : unique_attempts d → (∀ r, find_row a d = Some r → r_lease_token r ≠ Some t) →
  ∀ r, find_row a (settled n d).1 = Some r → r_lease_token r ≠ Some t.
Proof.
  intros Hu Hr r. unfold settled. destruct (settle_find (Datatypes.S (length (db_jobs d))) n d a Hu) as [->|(r1 & _ & _ & _ & ->)].
  - apply Hr.
  - by intros [= <-].
Qed.

(** What a lease the worker takes does to the attempt. *)
Lemma acquire_at now tok owner v s r s' :
  sys_ok (eng_store s) → released s → on_queue (acquire_queue_lease now tok owner v) s = (r, s') →
  sys_ok (eng_store s') ∧
  match r with
  | Ok (Some l) => ql_owner l = owner ∧ ql_token l = tok ∧
                   (jr_attempt_id (ql_job l) = a → tok = t → held_in LEASED l s') ∧
                   (jr_attempt_id (ql_job l) ≠ a ∨ tok ≠ t → released s')
  | _ => released s'
  end.
Proof.
  intros (Hi & Hd & Hp) Hr E.
  pose proof (sys_step_ok (eng_store s) (SysQueue (OpAcquire now tok owner v)) I Hi Hd Hp) as Hok. cbn [run_sys run_op] in Hok.
  rewrite ignore_snd in Hok. unfold on_queue, zoom, acquire_queue_lease in E. munfold.
  pose proof (acquire_lease_run now tok owner v _ Hi (db_ok_table _ Hd)) as Hq. cbv zeta in Hq.
  pose proof (settled_released (format_datetime now) _ (ok_unique _ Hd) Hr) as Hse.
  pose proof (settle_ok (Datatypes.S (length (db_jobs (st_disk (eng_store s))))) (format_datetime now) _ Hd) as Hsd.
  assert (∀ q x, acquire_lease now tok owner v (eng_store s) = (x, q) → sys_ok (eng_store (eng_set_store q s))) as Hsys.
  { intros q x Hx. rewrite Hx in Hok. by rewrite env_store. }
  destruct (add_time _ _) as [e|]; [destruct (settled _ _) as [d' [r0|]] eqn:Es|]; destruct Hq as [op Hq];
    rewrite Hq in E; injection E as <- <-; (split; [by eapply Hsys|]); unfold released, held_in, row_at;
    rewrite ?env_store; cbn [st_disk fst] in *; try done.
  cbn. unfold settled in Es. rewrite Es in Hsd. apply settle_Some in Es as [En _]. cbn [fst] in Hsd.
  pose proof (next_eligible_find _ _ _ (ok_unique _ Hsd) En) as Hf. split_and!; try done.
  - intros Ha -> r. rewrite (find_set_row _ _ r0), Ha, decide_True by (done || apply Hsd). intros [= <-] _. done.
  - intros Hor r. rewrite (find_set_row _ _ r0) by (done || apply Hsd). case_decide as Ea; [|apply Hse].
    intros [= <-]. cbn. intros [= Etk]. destruct Hor as [Hor|Hor]; [by apply Hor|congruence].
Qed.

Lemma settle_running_foreign job own tok :
  (jr_attempt_id job = a → tok ≠ t) → steps R (settle_as job (u "RUNNING") None (u "LEASED") own (Some tok)).
Proof.
  intros Hf. unfold settle_as. apply steps_bind; [exact _|go|]. intros now. apply steps_bind; [exact _| |intros; go].
  apply on_queue_steps. intros q. rewrite <- ignore_snd.
  apply (own_step_tracks a t (OpTransition now (jr_attempt_id job) (u "RUNNING") None (Some (u "LEASED")) own (Some tok))); [done|].
  intros Hd. apply transition_keeps; [apply Hd|right]. intros Ha. exists tok. auto.
Qed.

(** After the step to RUNNING: the lease is held by a running attempt, or not at all. *)
Lemma settle_running l s r s' :
  jr_attempt_id (ql_job l) = a → sys_ok (eng_store s) → held_in LEASED l s →
  settle_as (ql_job l) (u "RUNNING") None (u "LEASED") (Some (ql_owner l)) (Some t) s = (r, s') →
  match r with Ok _ => sys_ok (eng_store s') → held l s' | Err _ => released s' end.
Proof.
  intros Ha Hs Hh E. destruct r as [[]|e].
  - destruct (settle_as_Ok _ (u "RUNNING") RUNNING _ _ _ _ _ Ha eq_refl Hs E) as (s1 & r & now & HR & Er & _ & Eo & Et & _ & Er').
    intros _ r' E'. rewrite Er' in E'. injection E' as <-. destruct (held_after _ _ _ _ Hs HR Hh r Er Et) as (_ & _ & Hb).
    intros _. by split_and!.
  - change (u "LEASED") with (state_text LEASED) in E. apply (settle_as_refused _ (u "RUNNING") RUNNING LEASED) in E; try done. apply list_elem_of_here.
Qed.

Lemma settle_running_ok job own tok s r s' :
  sys_ok (eng_store s) → settle_as job (u "RUNNING") None (u "LEASED") own (Some tok) s = (r, s') → sys_ok (eng_store s').
Proof.
  intros Hs. unfold settle_as. munfold. pose proof (calm_steps _ env_now s) as HR.
  destruct (host_now s) as [[now|e] s1]; cbn [snd] in HR; [|intros [= _ <-]; by apply HR].
  destruct (HR Hs) as [(Hi & Hd & Hp) _].
  pose proof (sys_step_ok (eng_store s1) (SysQueue (OpTransition now (jr_attempt_id job) (u "RUNNING") None (Some (u "LEASED")) own (Some tok)))
    I Hi Hd Hp) as Hok. cbn [run_sys run_op] in Hok. rewrite ignore_snd in Hok.
  unfold on_queue, zoom. destruct (transition _ _ _ _ _ _ _ _) as [[j|e] q]; cbn in Hok; intros [= _ <-]; by rewrite env_store.
Qed.

Lemma worker_turn_released polls owner options s b s' :
  sys_ok (eng_store s) → released s → turn polls owner options s = (Ok b, s') → sys_ok (eng_store s') ∧ released s'.
Proof.
  intros Hs Hr. unfold worker_turn. intros (stop & s1 & E1 & E)%bind_Ok_inv.
  pose proof (steps_run _ _ _ _ (calm_steps _ env_stop) E1) as HR1. destruct stop.
  { injection E as _ <-. split; [by apply HR1|]. by apply (released_after s). }
  apply bind_Ok_inv in E as (now & s2 & E2 & E). apply bind_Ok_inv in E as (tok & s3 & E3 & E).
  apply bind_Ok_inv in E as (lease & s4 & E4 & E).
  assert (R s s3) as HR3.
  { transitivity s1; [done|]. transitivity s2; [exact (steps_run _ _ _ _ (calm_steps _ env_now) E2)|].
    exact (steps_run _ _ _ _ (calm_steps _ env_token) E3). }
  assert (sys_ok (eng_store s3)) as Hs3 by (by apply HR3). pose proof (released_after _ _ Hs HR3 Hr) as Hr3.
  destruct (acquire_at _ _ _ _ _ _ _ Hs3 Hr3 E4) as [Hs4 Hl]. destruct lease as [l|].
  2: { apply bind_Ok_inv in E as ([] & s5 & E5 & [= _ <-]).
       pose proof (steps_run _ _ _ _ (calm_steps _ (env_sleep _)) E5) as HR5. split; [by apply HR5|]. by apply (released_after s4). }
  destruct Hl as (Ho & Htk & Hheld & Hrel). apply bind_Ok_inv in E as (running & s5 & E5 & E).
  unfold try_except in E5. destruct ((settle_as _ _ _ _ _ _ ≫= _) s4) as [[ran|e] s50] eqn:E50.
  - injection E5 as -> <-. apply bind_Ok_inv in E50 as ([] & s51 & E51 & [= <- <-]).
    pose proof (settle_running_ok _ _ _ _ _ _ Hs4 E51) as Hs5. apply bind_Ok_inv in E as ([] & s6 & E6 & [= _ <-]).
    split; [by apply (steps_run _ _ _ _ (run_lease_steps _ _ _) E6)|].
    destruct (decide (jr_attempt_id (ql_job l) = a ∧ tok = t)) as [[Ha Ht]|Hn].
    + rewrite Htk, Ht in E51. pose proof (settle_running l s4 _ _ Ha Hs4 (Hheld Ha Ht) E51 Hs5) as Hh.
      refine (run_lease_released _ _ _ _ _ Ha _ Hs5 Hh E6). by rewrite Htk.
    + assert (released s4) as Hr4 by (apply Hrel; destruct (decide (jr_attempt_id (ql_job l) = a)); [right|left]; naive_solver).
      apply (released_after s51); [done|exact (steps_run _ _ _ _ (run_lease_steps _ _ _) E6)|].
      apply (released_after s4); [done| |done]. refine (steps_run _ _ _ _ _ E51). apply settle_running_foreign.
      rewrite Htk. naive_solver.
  - destruct (isinstance e QueueError); [|done]. injection E5 as <- <-. injection E as _ <-.
    assert (∃ e', settle_as (ql_job l) (u "RUNNING") None (u "LEASED") (Some (ql_owner l)) (Some (ql_token l)) s4 = (Err e', s50)) as [e' E'].
    { revert E50. munfold. destruct (settle_as _ _ _ _ _ _ s4) as [[]]; intros [= <- <-]; eauto. }
    split; [exact (settle_running_ok _ _ _ _ _ _ Hs4 E')|].
    destruct (decide (jr_attempt_id (ql_job l) = a ∧ tok = t)) as [[Ha Ht]|Hn].
    + rewrite Htk, Ht in E'. exact (settle_running l s4 _ _ Ha Hs4 (Hheld Ha Ht) E').
    + assert (released s4) as Hr4 by (apply Hrel; destruct (decide (jr_attempt_id (ql_job l) = a)); [right|left]; naive_solver).
      apply (released_after s4); [done| |done]. refine (steps_run _ _ _ _ _ E'). apply settle_running_foreign.
      rewrite Htk. naive_solver.
Qed.

Lemma worker_released turns polls owner options s b s' :
  sys_ok (eng_store s) → released s →
  worker netloc_check version data uid gid config credentials turns polls owner options s = (Ok b, s') → released s'.
Proof.
  revert s. induction turns as [|turns IH]; intros s Hs Hr; cbn [worker]; [by intros [= _ <-]|].
  intros (again & s1 & E1 & E)%bind_Ok_inv. destruct (worker_turn_released _ _ _ _ _ _ Hs Hr E1) as [Hs1 Hr1].
  destruct again; [by apply (IH s1)|by injection E as _ <-].
Qed.

(** * Lemmas: the handlers on a held lease *)

(** The clock reading inside [settle_as] leaves the queue as it is. *)
Lemma settle_as_run job st x err s row :
  jr_attempt_id job = a → parse_state st = Some x → RUNNING ∈ LEGAL_PREVIOUS_STATES x → sys_ok (eng_store s) →
  row_at s = Some row → r_state row = RUNNING →
  ∀ owner r s', settle_as job st err (u "RUNNING") (Some owner) (Some t) s = (r, s') →
  if bool_decide (r_lease_owner row = Some owner) && bool_decide (r_lease_token row = Some t)
  then ∃ now, r = Ok () ∧ row_at s' = Some (transition_row x err now row)
  else (∃ m, r = Err (queue_error m)) ∧ st_disk (eng_store s') = st_disk (eng_store s).
Proof.
  intros Ha Hx Hl (Hi & Hd & _) Er Hst owner r s'. unfold settle_as. munfold.
  destruct (env_clock s) as [Hc Hst1]. destruct (host_now s) as [[now|e'] s1]; cbn [fst snd] in *; [|done].
  rewrite <- Hst1 in Hi, Hd.
  pose proof (transition_run now (jr_attempt_id job) st err (Some (u "RUNNING")) (Some owner) (Some t) _ Hi (db_ok_table _ Hd)) as Ht.
  cbv zeta in Ht. rewrite Ha in *. unfold row_at in *. rewrite <- Hst1 in Er. rewrite Er in Ht.
  unfold transition_spec, unexpected in Ht. rewrite Hx, Hst in Ht. change (u "RUNNING") with (state_text RUNNING) in *.
  cbn [matches] in Ht. rewrite (bool_decide_true (Some (state_text RUNNING) = _)) in Ht by done. cbn [negb] in Ht.
  assert (RUNNING ≠ x) as Hne by (intros <-; cbn in Hl; by apply list_elem_of_singleton in Hl).
  rewrite (bool_decide_false (RUNNING = x)) in Ht by done. rewrite (bool_decide_true (RUNNING ∈ _)) in Ht by done.
  rewrite <- Hst1.
  destruct (bool_decide (r_lease_owner row = _)), (bool_decide (r_lease_token row = _)); cbn [negb andb] in *;
    destruct Ht as [op Ht]; apply on_queue_run in Ht as [Hr Hq]; destruct (on_queue _ s1) as [r2 s2]; cbn in Hr, Hq; subst r2;
    intros [= <- <-]; rewrite ?Hq; eauto.
  exists (format_datetime now). split; [done|]. rewrite (find_set_row _ _ row), decide_True; try done; [apply Hd|].
  apply find_row_Some in Er as [Er _]. unfold transition_row. by destruct (terminal x).
Qed.

Lemma get_job_here job s x :
  sys_ok (eng_store s) → jr_attempt_id job = a → row_at s = Some x → r_build_job_id x = jr_build_job_id job →
  ∃ j s1, on_queue (get_job (jr_build_job_id job) (jr_attempt_id job)) s = (Ok (Some j), s1) ∧ jr_state j = r_state x ∧
          row_at s1 = Some x ∧ st_disk (eng_store s1) = st_disk (eng_store s) ∧ sys_ok (eng_store s1).
Proof.
  intros Hs Ha Ex Hb. destruct (on_queue (get_job _ _) s) as [r s1] eqn:E.
  destruct (get_job_at _ _ _ _ Hs Ha E) as [Hrow Hr]. pose proof (steps_run _ _ _ _ (get_job_steps _ _) E) as HR.
  destruct r as [[j|]|]; [|by destruct (Hr _ Ex)|done]. destruct Hr as (x' & Ex' & Ej). exists j, s1.
  split_and!; try done; [congruence|congruence| |by apply HR]. destruct Hs as (Hi & Hd & _).
  pose proof (get_job_run (jr_build_job_id job) (jr_attempt_id job) _ Hi (db_ok_table _ Hd)) as [op Hg].
  apply on_queue_run in Hg as [_ Hq]. by rewrite E in Hq.
Qed.

Lemma settle_failure_run l error_class msg s x :
  jr_attempt_id (ql_job l) = a → ql_token l = t → sys_ok (eng_store s) → row_at s = Some x → r_state x = RUNNING →
  r_build_job_id x = jr_build_job_id (ql_job l) →
  ∃ s', settle_failure l error_class msg s = (Ok (), s') ∧
    if bool_decide (r_lease_owner x = Some (ql_owner l)) && bool_decide (r_lease_token x = Some t)
    then ∃ st now, parse_state (failure_state error_class) = Some st ∧ row_at s' = Some (finish_row st (Some msg) now x)
    else st_disk (eng_store s') = st_disk (eng_store s).
Proof.
  intros Ha Htk Hs Ex Hst Hb. destruct (get_job_here _ _ _ Hs Ha Ex Hb) as (j & s1 & E1 & Ej & Ex1 & Hd1 & Hs1).
  unfold settle_failure. munfold. rewrite E1, Ej, Hst. cbn [terminal].
  destruct (failure_state_ends error_class) as [He (st & Hp & Hl)].
  unfold suppress. munfold. change (state_text RUNNING) with (u "RUNNING").
  destruct (settle_as (ql_job l) _ _ _ _ _ s1) as [r s2] eqn:E2. rewrite Htk in E2.
  pose proof (settle_as_run _ _ _ _ _ _ Ha Hp Hl Hs1 Ex1 Hst _ _ _ E2) as Hst2.
  destruct (bool_decide _ && bool_decide _).
  - destruct Hst2 as (now & -> & Er). exists s2. split; [done|]. exists st, now. split; [done|].
    rewrite Er. unfold transition_row. by rewrite (He _ Hp).
  - destruct Hst2 as [[m ->] Hd2]. exists s2. split; [done|]. congruence.
Qed.

(** C8: a failed build is recorded before it is reported. When the attempt
    still runs under the worker's lease, the handler of a build failure ends it:
    timed out, cancelled or failed by the class of the error, with its message,
    and it stays so whether or not the reports reach the backend; the job counts
    as completed. *)
Theorem failure_recorded l error_class error_code msg s b r s' b' x :
  jr_attempt_id (ql_job l) = a → ql_token l = t → sys_ok (eng_store s) →
  row_at s = Some x → r_state x = RUNNING → r_lease_owner x = Some (ql_owner l) → r_lease_token x = Some t →
  r_build_job_id x = jr_build_job_id (ql_job l) →
  handle_failure l (BuildExecutionError error_class error_code msg) (s, b) = (r, (s', b')) →
  b' = true ∧ ∃ x', row_at s' = Some x' ∧ state_text (r_state x') = failure_state error_class ∧
    r_error x' = Some msg ∧ r_lease_token x' = None.
Proof.
  intros Ha Htk Hs Ex Hst Ho Ht Hb. cbn [handle_failure].
  destruct (settle_failure_run l error_class msg s x Ha Htk Hs Ex Hst Hb) as (s1 & E1 & Hrun).
  rewrite Ho, Ht, !bool_decide_true in Hrun by done. destruct Hrun as (st & now & Hp & Er1). cbn [andb] in *.
  assert (sys_ok (eng_store s1)) as Hs1 by (by apply (steps_run _ _ _ _ (settle_failure_steps _ _ _) E1)).
  set (tail := inner (publish_safely (ql_job l) error_class error_code msg);;
               inner (ack_safely (ql_job l) (failure_state error_class) error_class error_code msg)).
  assert (steps R2 tail) as Htail.
  { apply steps_bind; [exact _|apply inner_steps; auto with steps|]. intros []. apply inner_steps. auto with steps. }
  assert (∀ y r z c, tail (y, true) = (r, (z, c)) → c = true) as Hflag.
  { unfold tail, inner, zoom. intros y r0 z c. munfold. cbn. destruct (publish_safely _ _ _ _ y) as [[]];
      [destruct (ack_safely _ _ _ _ _ _) as [? ?]|]; by intros [= _ _ <-]. }
  intros E. assert (tail (s1, true) = (r, (s', b'))) as Et.
  { revert E. by rewrite (inner_bind _ _ _ _ _ _ E1). }
  split; [by eapply Hflag|]. specialize (Htail (s1, true)). rewrite Et in Htail. unfold R2 in Htail. cbn in Htail.
  destruct (failure_state_ends error_class) as [He _].
  destruct (ended_after s1 s' _ Hs1 Htail Er1) as (x' & Er' & Es' & Et' & Ee'); [by apply He|]. cbn in Es', Et', Ee'.
  exists x'. split_and!; try congruence. rewrite Es'. by apply parse_state_inv in Hp.
Qed.

(** A worker that lost its lease does not change the attempt, but still
    tells the backend that it failed. When the row runs under another token or
    another owner, the handler leaves the database as it is and goes on to
    publish the error and an acknowledgement with the failure's state. *)
Theorem stale_worker_reports_failure l error_class error_code msg s b x :
  jr_attempt_id (ql_job l) = a → ql_token l = t → sys_ok (eng_store s) →
  row_at s = Some x → r_state x = RUNNING → r_build_job_id x = jr_build_job_id (ql_job l) →
  r_lease_owner x ≠ Some (ql_owner l) ∨ r_lease_token x ≠ Some t →
  ∃ s1, st_disk (eng_store s1) = st_disk (eng_store s) ∧
    handle_failure l (BuildExecutionError error_class error_code msg) (s, b) =
      (inner (publish_safely (ql_job l) error_class error_code msg);;
       inner (ack_safely (ql_job l) (failure_state error_class) error_class error_code msg)) (s1, true).
Proof.
  intros Ha Htk Hs Ex Hst Hb Hlost. cbn [handle_failure].
  destruct (settle_failure_run l error_class msg s x Ha Htk Hs Ex Hst Hb) as (s1 & E1 & Hrun).
  exists s1. split.
  - destruct Hlost as [Hl|Hl]; rewrite (bool_decide_false _ Hl) in Hrun; [done|]. by rewrite andb_false_r in Hrun.
  - by rewrite (inner_bind _ _ _ _ _ _ E1).
Qed.

(** * Crashes *)

Lemma settle_crash_run l msg s x :
  jr_attempt_id (ql_job l) = a → ql_token l = t → sys_ok (eng_store s) → row_at s = Some x → r_state x = RUNNING →
  r_lease_owner x = Some (ql_owner l) → r_lease_token x = Some t →
  ∃ s' now, settle_crash l msg s = (Ok (MAX_LOCAL_CRASHES <=? r_attempts x), s') ∧ row_at s' =
    Some (finish_row (if MAX_LOCAL_CRASHES <=? r_attempts x then FAILED else QUEUED) (Some msg) now x).
Proof.
  intros Ha Htk (Hi & Hd & Hp) Ex Hst Ho Ht. unfold settle_crash. munfold. destruct (env_clock s) as [Hc Hst1].
  destruct (host_now s) as [[now|] s1]; cbn [fst snd] in *; [|done].
  unfold row_at in *. rewrite <- Hst1 in *.
  pose proof (record_crash_run now a msg (Some (ql_owner l)) (Some t) _ Hi (db_ok_table _ Hd)) as Hr. cbv zeta in Hr.
  rewrite Ha, Htk. unfold crash_spec in Hr. rewrite Ex, Hst, Ho, Ht in Hr. cbn [active matches] in Hr.
  rewrite !(bool_decide_true (Some _ = Some _)) in Hr by done. cbn [andb] in Hr. destruct Hr as [op Hr].
  apply on_queue_run in Hr as [Hr Hq]. destruct (on_queue _ s1) as [r2 s2]. cbn [fst snd] in *. subst r2.
  exists s2, (format_datetime now). split.
  - f_equal. f_equal. cbn. by destruct (MAX_LOCAL_CRASHES <=? r_attempts x).
  - rewrite Hq, (find_set_row _ _ x); [by rewrite decide_True| |by rewrite crash_dlq_find|].
    + unfold unique_attempts. rewrite crash_dlq_jobs. apply Hd.
    + cbn. by apply find_row_Some in Ex as [Ex _].
Qed.

(** C13: what an unexpected exception of a build costs. While the attempt runs
    under the worker's lease, the report of a first or second crash puts it back
    into the queue (its row is [QUEUED], with the exception's text and without
    owner, token and expiry, and the job does not count as completed); from the
    third lease on it is failed for good, counted as completed, and stays failed
    with that text. What follows the report is only the publication of the error
    (and the acknowledgement of a failed attempt), and at the end nobody holds
    the worker's token, whatever others do meanwhile. *)
Theorem crash_recorded l cls msg s b r s' b' x :
  jr_attempt_id (ql_job l) = a → ql_token l = t → sys_ok (eng_store s) → issubclass cls ExceptionC = true →
  row_at s = Some x → r_state x = RUNNING → r_lease_owner x = Some (ql_owner l) → r_lease_token x = Some t →
  r_build_job_id x = jr_build_job_id (ql_job l) →
  handle_failure l (PyExn cls msg) (s, b) = (r, (s', b')) →
  b' = (MAX_LOCAL_CRASHES <=? r_attempts x) ∧
  (∃ s1 s2 x2, settle_crash l msg s1 = (Ok b', s2) ∧ row_at s1 = Some x ∧ row_at s2 = Some x2 ∧
     r_state x2 = (if b' then FAILED else QUEUED) ∧ r_error x2 = Some msg ∧
     r_lease_owner x2 = None ∧ r_lease_token x2 = None ∧ r_lease_expires_at x2 = None ∧
     r_attempts x2 = r_attempts x ∧ r_cancel_requested x2 = false ∧
     (publish_safely (ql_job l) (u "EXEC_INFRA") (u "EXECUTOR_CRASH") msg;;
      if b' then ack_safely (ql_job l) (u "FAILED") (u "EXEC_INFRA") (u "EXECUTOR_CRASH") msg else mret ()) s2 = (r, s')) ∧
  released s' ∧
  (b' = true → ∃ x', row_at s' = Some x' ∧ r_state x' = FAILED ∧ r_error x' = Some msg).
Proof.
  intros Ha Htk Hs Hcls Ex Hst Ho Ht Hb. cbn [handle_failure]. unfold isinstance. cbn [exn_cls]. rewrite Hcls. cbn [negb].
  destruct (get_job_here _ _ _ Hs Ha Ex Hb) as (j & s1 & E1 & Ej & Ex1 & _ & Hs1).
  rewrite (inner_bind _ _ _ _ _ _ E1). cbn [terminal_state]. rewrite Ej, Hst. cbn [terminal].
  destruct (settle_crash_run l msg s1 x Ha Htk Hs1 Ex1 Hst Ho Ht) as (s2 & now & E2 & Er2).
  rewrite (inner_bind _ _ _ _ _ _ E2). assert (sys_ok (eng_store s2)) as Hs2.
  { by apply (steps_run _ _ _ _ (settle_crash_steps _ _) E2). }
  set (over := MAX_LOCAL_CRASHES <=? r_attempts x) in *.
  set (tail := publish_safely (ql_job l) (u "EXEC_INFRA") (u "EXECUTOR_CRASH") msg;;
    if over then ack_safely (ql_job l) (u "FAILED") (u "EXEC_INFRA") (u "EXECUTOR_CRASH") msg else mret ()).
  assert (steps R tail) as Htail.
  { apply steps_bind; [exact _|auto with steps|]. intros []. destruct over; [auto with steps|by apply steps_same; [exact _|]]. }
  intros E. assert (b' = over ∧ tail s2 = (r, s')) as [-> Et].
  { revert E. unfold tail, set_completed, modify, inner, zoom, mbind, M_bind, mret, M_ret. cbn.
    destruct (publish_safely _ _ _ _ s2) as [[] s3]; [|by intros [= <- <- <-]].
    destruct over; [destruct (ack_safely _ _ _ _ _ _) as [? ?]|]; by intros [= <- <- <-]. }
  specialize (Htail s2). rewrite Et in Htail. cbn [snd] in Htail.
  assert (released s2) as Hr2 by (intros r' Er'; rewrite Er2 in Er'; by injection Er' as <-).
  split_and!; [done| |by apply (released_after s2)|].
  - exists s1, s2, (finish_row (if over then FAILED else QUEUED) (Some msg) now x). split_and!; done.
  - intros Hover. rewrite Hover in Er2.
    destruct (ended_after s2 s' _ Hs2 Htail Er2 eq_refl) as (x' & Er' & Es' & _ & Ee'). by exists x'.
Qed.

(** * The job as a whole *)

(** C3: success means success under the lease. When [execute_job] returns
    normally, the attempt was running under the worker's owner and token at the
    start, and it ends as succeeded, with the lease given up; whatever the other
    workers, the uplink and the outbox did meanwhile. *)
Theorem success_under_lease polls job options owner s s' :
  jr_attempt_id job = a → sys_ok (eng_store s) → execute polls job options (Some owner) (Some t) s = (Ok (), s') →
  ∃ r r', row_at s = Some r ∧ r_state r = RUNNING ∧ r_lease_owner r = Some owner ∧ r_lease_token r = Some t ∧
          row_at s' = Some r' ∧ r_state r' = SUCCEEDED ∧ r_lease_token r' = None.
Proof. apply execute_success. Qed.

(** C14: between its turns a worker holds no lease. If no row of an attempt
    carries a token, and the worker runs any number of turns that may draw this
    very token (leasing, building, failing, crashing, losing the lease), then
    once it is back at the top of its loop no row of the attempt carries it. *)
Theorem worker_keeps_no_lease turns polls owner options s b s' :
  sys_ok (eng_store s) → released s →
  worker netloc_check version data uid gid config credentials turns polls owner options s = (Ok b, s') → released s'.
Proof. apply worker_released. Qed.
End job.
End proofs.
