(* ===== verification/JobLimits.v ===== *)
(** What a job may ask for and how its failures are reported: resource limits,
    the freshness check before packaging, the classes of errors, the beats of
    the lease, the owners of the pool. *)

From Corelib Require Import SpecFloat.
From S2P Require Import Prelude PyStr PyFloat Dict Json Clock Db Store StoreRun Fs PackageJson Framework Cache Url Config Handlers.
From S2P Require Import Workspace Artifact Auth Stream Metrics Docker DockerProofs JobLoop.

Local Open Scope Z_scope.

(** * Resource limits *)

(** [[1-9][0-9]*] followed by a unit, the Kelvin sign read as [k]. *)
Definition memory_shape (m : ustr) : Prop := ∃ c digits unit, m = c :: digits ++ [unit] ∧
  (49 <= c <= 57)%N ∧ Forall (λ d, (48 <= d <= 57)%N) digits ∧ lower_unit unit ∈ [98; 107; 109; 103]%N.

Lemma lower_unit_digit c : is_digit (lower_unit c) = true → (48 <= c <= 57)%N ∧ lower_unit c = c.
Proof. unfold lower_unit, lower_char, is_digit. destruct (N.eqb_spec c 8490); [by subst|]. case_match; lia. Qed.

Lemma memory_ok_shape m : memory_ok m = true → memory_shape m.
Proof.
  unfold memory_ok. destruct m as [|unit l _] using rev_ind; [done|]. destruct l as [|c digits]; [done|].
  replace (lower_unit <$> (c :: digits) ++ [unit]) with ((lower_unit c :: (lower_unit <$> digits)) ++ [lower_unit unit])
    by (by rewrite fmap_app).
  rewrite removelast_last. cbn [app].
  destruct ((lower_unit <$> digits) ++ _) as [|d0 r] eqn:E; [by destruct digits|].
  rewrite <- E, app_comm_cons, last_snoc.
  rewrite !andb_true_iff. intros (((H1 & H2) & Hd) & Hu). exists c, digits, unit.
  cbn [forallb] in Hd. apply andb_true_iff in Hd as [Hc Hd]. apply lower_unit_digit in Hc as [Hc Ec]. rewrite Ec in *.
  apply bool_decide_eq_true in Hu. split_and!; try done; try lia.
  rewrite forallb_forall in Hd. apply Forall_forall. intros d Hin. apply (lower_unit_digit d), Hd, list_elem_of_In, list_elem_of_fmap_2, Hin.
Qed.

Lemma timeout_limit_Ok payload c n : timeout_limit payload c = Ok n → 1 <= n <= cf_build_timeout_seconds c.
Proof.
  unfold timeout_limit. destruct (default _ _) as [| |k| | | |]; try discriminate 1.
  destruct (_ && _) eqn:E; [|discriminate 1]. intros [= <-]. lia.
Qed.

Lemma pids_limit_Ok raw n : pids_limit_of raw = Ok n → 1 <= n <= 4096.
Proof.
  unfold pids_limit_of. destruct (default _ _) as [| |k| | | |]; try discriminate 1.
  destruct (_ && _) eqn:E; [|discriminate 1]. intros [= <-]. lia.
Qed.

Lemma resource_limits_Ok payload c timeout memory cpus pids :
  resource_limits payload c = Ok (timeout, memory, cpus, pids) →
  1 <= timeout <= cf_build_timeout_seconds c ∧ 1 <= pids <= 4096 ∧
  (∀ m, memory = Some m → memory_shape m) ∧
  (∀ x, cpus = Some x → float_ltb (S754_zero false) x = true ∧ float_leb x (cf_container_cpus c) = true).
Proof.
  unfold resource_limits. intros (n & Ht & E)%result_bind_Ok_inv.
  destruct (default _ _) as [| | | | | |raw]; try done.
  apply result_bind_Ok_inv in E as (m & Hm & E). apply result_bind_Ok_inv in E as (x & Hx & E).
  apply result_bind_Ok_inv in E as (p & Hp & [= <- <- <- <-]). split_and!.
  1-2: by apply timeout_limit_Ok in Ht as [].
  1-2: by apply pids_limit_Ok in Hp as [].
  - intros m' ->. destruct (dget (u "memory") raw) as [[]|]; simplify_eq. destruct (memory_ok s) eqn:Em; simplify_eq. by apply memory_ok_shape.
  - intros y ->. destruct (dget (u "cpus") raw) as [j|]; [|done]. destruct j; try done;
      apply result_bind_Ok_inv in Hx as (q & Hq & [= ->]); unfold cpu_limit_of in Hq;
      apply result_bind_Ok_inv in Hq as (q' & _ & Hq); by destruct (float_ltb _ _) eqn:?, (float_leb _ _) eqn:?; simplify_eq/=.
Qed.

Definition refusal (e : exn) : Prop := exn_cls e = WorkspaceError ∨ exn_cls e = OverflowError.

Lemma limit_refusals payload raw c cpus :
  (∀ e, timeout_limit payload c = Err e → refusal e) ∧ (∀ e, pids_limit_of raw = Err e → refusal e) ∧
  (∀ e, cpu_limit_of cpus (cf_container_cpus c) = Err e → refusal e).
Proof.
  unfold refusal. split_and!; intros e.
  - unfold timeout_limit. repeat case_match; intros [= <-]; auto.
  - unfold pids_limit_of. repeat case_match; intros [= <-]; auto.
  - revert e. apply result_bind_Err_all.
    + intros e. destruct cpus; try (intros [= <-]; by left). unfold float_of_Z. case_match; intros [= <-]; auto.
    + intros x e _. case_match; intros [= <-]; auto.
Qed.

Lemma resource_limits_Err payload c e : resource_limits payload c = Err e → refusal e.
Proof.
  revert e. apply result_bind_Err_all; [apply (limit_refusals payload [] c JNull)|]. intros n e _.
  destruct (default _ _) as [| | | | | |raw]; try (intros [= <-]; by left). revert e.
  apply result_bind_Err_all; [intros e; repeat case_match; intros [= <-]; by left|]. intros m e _. revert e.
  apply result_bind_Err_all.
  { intros e. destruct (dget (u "cpus") raw) as [cpus|]; [|done].
    assert (∀ e, (f ← cpu_limit_of cpus (cf_container_cpus c); Ok (Some f)) = Err e → refusal e) as Hc.
    { apply result_bind_Err_all; [apply (limit_refusals payload raw c cpus)|done]. }
    destruct cpus; try done; apply Hc. }
  intros x e _. revert e. apply result_bind_Err_all; [apply (limit_refusals payload raw c JNull)|done].
Qed.

(** The limits are the ones the payload names, or the defaults. *)
Definition asked (payload : jdict) (c : EngineConfig) (timeout : Z) (memory : option ustr) (cpus : option pyfloat) (pids : Z) : Prop :=
  default (JInt (cf_build_timeout_seconds c)) (dget (u "timeout_seconds") payload) = JInt timeout ∧
  ∃ raw, default (JObj []) (dget (u "resource_limits") payload) = JObj raw ∧
    default (JInt 1024) (dget (u "pids_limit") raw) = JInt pids ∧
    default JNull (dget (u "memory") raw) = match memory with Some m => JStr m | None => JNull end ∧
    match cpus with
    | Some x => dget (u "cpus") raw = Some (JFloat x) ∨ ∃ n, dget (u "cpus") raw = Some (JInt n) ∧ float_of_Z n = Ok x
    | None => default JNull (dget (u "cpus") raw) = JNull
    end.

Lemma resource_limits_asked payload c timeout memory cpus pids :
  resource_limits payload c = Ok (timeout, memory, cpus, pids) → asked payload c timeout memory cpus pids.
Proof.
  unfold resource_limits, asked. intros (n & Ht & E)%result_bind_Ok_inv.
  destruct (default _ (dget (u "resource_limits") payload)) as [| | | | | |raw]; try done.
  apply result_bind_Ok_inv in E as (m & Hm & E). apply result_bind_Ok_inv in E as (x & Hx & E).
  apply result_bind_Ok_inv in E as (p & Hp & [= <- <- <- <-]). split.
  { unfold timeout_limit in Ht. destruct (default _ _); try done. destruct (_ && _); [|done]. by injection Ht as ->. }
  exists raw. split; [done|]. split; [|split].
  - unfold pids_limit_of in Hp. destruct (default _ _); try done. destruct (_ && _); [|done]. by injection Hp as ->.
  - destruct (dget (u "memory") raw) as [[]|]; simplify_eq; try done. destruct (memory_ok s); by simplify_eq.
  - destruct (dget (u "cpus") raw) as [j|]; [|by injection Hx as <-]. destruct j; try (by injection Hx as <-);
      apply result_bind_Ok_inv in Hx as (q & Hq & [= <-]); unfold cpu_limit_of in Hq;
      apply result_bind_Ok_inv in Hq as (y & Hy & Hq); try done; destruct (_ && _) in Hq; try done; injection Hq as <-;
      [right; eauto|left; by injection Hy as ->].
Qed.

(** C36: what a payload may ask for, and what the container gets. The accepted
    limits are the values the payload names, or the defaults: a timeout between
    one second and the configured one, at most 4096 processes, a positive CPU
    share up to the configured one, a memory size of digits and one unit, which
    no limit of the engine bounds. In the command line of any container whose
    run specification is built with them, docker's options for memory, swap,
    CPUs and processes carry exactly these values, the configured memory and CPU
    share where the payload names none, and the wait ends after exactly this
    timeout. A request is refused with [WorkspaceError]; only a CPU share too
    large for a float escapes as [OverflowError]. *)
Theorem resource_limits_bounds payload c :
  match resource_limits payload c with
  | Ok (timeout, memory, cpus, pids) =>
      asked payload c timeout memory cpus pids ∧
      1 <= timeout <= cf_build_timeout_seconds c ∧ 1 <= pids <= 4096 ∧
      (∀ m, memory = Some m → memory_shape m) ∧
      (∀ x, cpus = Some x → float_ltb (S754_zero false) x = true ∧ float_leb x (cf_container_cpus c) = true) ∧
      (∀ s, rs_config s = c → rs_timeout_seconds s = Some timeout → rs_memory_limit s = memory → rs_cpu_limit s = cpus →
         rs_pids_limit s = pids →
         timeout_of s = timeout ∧
         ∀ now env_file manifest_path cid f args f',
           docker_run_args now s docker env_file manifest_path cid f = (Ok args, f') →
           take 14 args = [docker; u "run"; u "--rm"; u "--init"; u "--label"; rs_container_label s;
             u "--memory"; default (cf_container_memory c) memory; u "--memory-swap"; default (cf_container_memory c) memory;
             u "--cpus"; float_repr (default (cf_container_cpus c) cpus); u "--pids-limit"; str_of_Z pids])
  | Err e => refusal e
  end.
Proof.
  destruct (resource_limits payload c) as [[[[timeout memory] cpus] pids]|e] eqn:E.
  2: by apply (resource_limits_Err payload c).
  destruct (resource_limits_Ok _ _ _ _ _ _ E) as (Ht & Hp & Hm & Hc). apply resource_limits_asked in E.
  split_and!; try lia; try done.
  intros s <- Et Em Ec Ep. split; [unfold timeout_of; rewrite Et; destruct timeout; [lia|done..]|].
  intros now env_file mp cid f args f' H. destruct (docker_run_args_run _ _ _ _ _ _ _ _ _ H) as [_ ->].
  assert (memory_text s = default (cf_container_memory (rs_config s)) memory) as Hmt.
  { unfold memory_text. rewrite Em. destruct memory as [[|d m]|]; try done.
    destruct (Hm [] eq_refl) as (? & ? & ? & ? & _). done. }
  assert (cpu_value s = default (cf_container_cpus (rs_config s)) cpus) as Hcv.
  { unfold cpu_value. rewrite Ec. destruct cpus as [x|]; [|done]. destruct (Hc x eq_refl) as [Hpos _]. by destruct x. }
  unfold base_args. rewrite Hmt, Hcv, Ep. reflexivity.
Qed.

(** The memory a payload asks for is not compared with the configured one. *)
Example memory_not_bounded c timeout :
  timeout_limit [(u "resource_limits", JObj [(u "memory", JStr (u "999999g"))])] c = Ok timeout →
  resource_limits [(u "resource_limits", JObj [(u "memory", JStr (u "999999g"))])] c = Ok (timeout, Some (u "999999g"), None, 1024).
Proof. intros H. unfold resource_limits. by rewrite H. Qed.

(** * The beats of the lease *)

(** [sleep(refresh_interval(n))] measured against the lease of [n] seconds. *)
Definition beats_in_time (n : Z) : bool :=
  let i := refresh_interval n in
  match float_of_Z n with
  | Ok lease =>
      float_leb (float_of_decimal false 1 0) i && float_leb i (float_of_decimal false 30 0) &&
      (float_ltb i lease || (n =? 1)) && (float_ltb (SFadd PREC EMAX i i) lease || (n <=? 2))
  | Err _ => false
  end.

Lemma beats_table : forallb beats_in_time (Z.of_nat <$> seq 1 3600) = true.
Proof. vm_compute. reflexivity. Qed.

(** A lease is renewed in time. For leases of up to an hour the refresh
    task sleeps between one and thirty seconds, less than the lease, and two of
    its beats fit into a lease of three seconds or more; a lease of one second
    expires before its first beat. *)
Theorem refresh_beats n : 1 <= n <= 3600 →
  ∃ lease, float_of_Z n = Ok lease ∧ let i := refresh_interval n in
  float_leb (float_of_decimal false 1 0) i = true ∧ float_leb i (float_of_decimal false 30 0) = true ∧
  (n ≠ 1 ↔ float_ltb i lease = true) ∧ (3 <= n → float_ltb (SFadd PREC EMAX i i) lease = true).
Proof.
  intros Hn. pose proof beats_table as H. rewrite forallb_forall in H.
  specialize (H n). unfold beats_in_time in H. assert (In n (Z.of_nat <$> seq 1 3600)) as Hin.
  { apply list_elem_of_In, list_elem_of_fmap. exists (Z.to_nat n). split; [lia|]. apply elem_of_seq. lia. }
  specialize (H Hin). destruct (float_of_Z n) as [lease|] eqn:El; [|done]. exists lease. split; [done|]. cbv zeta.
  rewrite !andb_true_iff, !orb_true_iff in H. destruct H as (((H1 & H2) & H3) & H4). split_and!; try done.
  - split; [intros Hne; destruct H3 as [H3|H3]; [exact H3|by apply Z.eqb_eq in H3]|]. intros Hlt ->. revert Hlt. injection El as <-. by vm_compute.
  - intros H5. destruct H4 as [H4|H4]; [exact H4|]. apply Z.leb_le in H4. clear -H4 H5. lia.
Qed.

(** * The pool *)

(** The workers of the pool lease under different owners: as many as the
    configured concurrency, all distinct. *)
Theorem pool_owners c : 1 <= cf_max_concurrency c →
  NoDup (worker_owners c) ∧ Z.of_nat (length (worker_owners c)) = cf_max_concurrency c.
Proof.
  intros Hc. unfold worker_owners. split.
  - apply NoDup_fmap_2; [|apply NoDup_seq]. intros i j E. apply app_inv_head in E. apply (f_equal N_of_digits) in E. rewrite !N_of_str_of_N in E. lia.
  - rewrite length_fmap, length_seq. lia.
Qed.

(** * The freshness check *)

Section checks.
Context {S : Type} `{Engine S} (Hstore : ∀ q s, eng_store (eng_set_store q s) = q).

(** The decision on the attempt's row, in the order of the tests. *)
Definition freshness (b : ustr) (d : db) (owner token : option ustr) (row : option job_row) : result () :=
  match hit (is_build b) row with
  | None => Err (queue_error (u "Cannot check freshness for unknown attempt"))
  | Some r =>
      if negb (newest b r d) then Err (stale (u "Build attempt was superseded by a newer assignment"))
      else if negb (bool_decide (r_state r = RUNNING)) then Err (stale (u "Build attempt is no longer running"))
      else if lost owner (r_lease_owner r) then Err (stale (u "Build lease ownership was lost"))
      else if lost token (r_lease_token r) then Err (stale (u "Build lease token was replaced"))
      else if r_cancel_requested r then Err (cancelled (u "Build cancellation was requested"))
      else Ok ()
  end.

(** Before its output is packaged, an attempt must be the newest of its
    build, running, under the worker's owner and token, and not cancelled; each
    other case has its own error, and the database stays as it is. An attempt
    that is gone is the queue's error, before any of these tests. *)
Theorem ensure_current_exact job owner token s :
  idle (eng_store s) → table_ok (st_disk (eng_store s)) →
  let d := st_disk (eng_store s) in
  (ensure_current_attempt job owner token s).1 = freshness (jr_build_job_id job) d owner token (find_row (jr_attempt_id job) d) ∧
  st_disk (eng_store (ensure_current_attempt job owner token s).2) = d.
Proof.
  intros Hi Ht. cbv zeta. unfold ensure_current_attempt, on_queue, zoom. munfold.
  destruct (get_job_run (jr_build_job_id job) (jr_attempt_id job) _ Hi Ht) as [op ->]. rewrite Hstore.
  set (q := Store _ _ _ _). assert (idle q ∧ table_ok (st_disk q)) as [Hi' Ht'] by done.
  pose proof (is_current_run (jr_build_job_id job) (jr_attempt_id job) q Hi' Ht') as Hc.
  change (st_disk q) with (st_disk (eng_store s)) in Hc. unfold freshness.
  destruct (hit _ _) as [r|]; destruct Hc as [op' ->]; [|by cbn; rewrite Hstore].
  cbn [fmap option_fmap option_map record_of jr_state jr_lease_owner jr_lease_token jr_cancel_requested].
  destruct (newest _ _ _), (bool_decide _), (lost owner _), (lost token _), (r_cancel_requested r); cbn; by rewrite Hstore.
Qed.

(** * What a failed job reports *)

Context `{Urllib} `{TarFile} `{DirScan} `{Archiver} `{Packaging} `{UnicodeTables} `{SetOrder}.
Context (netloc_check : ustr → result ()) (version : ustr) (data : path) (uid gid : Z).
Context (config : EngineConfig) (credentials : EngineCredentials).

(** Error class and code under which an exception of the stages is reported. *)
Definition reported_as (cls : exn_class) : option (ustr * ustr) :=
  match cls with
  | ArtifactUploadError => Some (u "EXEC_INFRA", u "STORAGE_FAILURE")
  | ArtifactError => Some (u "USER_CONFIG_INVALID", u "ArtifactError")
  | DetectionError => Some (u "USER_CONFIG_INVALID", u "DetectionError")
  | WorkspaceError => Some (u "USER_CONFIG_INVALID", u "WorkspaceError")
  | CacheError => Some (u "EXEC_INFRA", u "CacheError")
  | DockerError => Some (u "EXEC_INFRA", u "DockerError")
  | _ => None
  end.

Lemma reclassify_spec e : reclassify e =
  match e with
  | PyExn cls msg => match reported_as cls with Some (c, code) => BuildExecutionError c code msg | None => e end
  | BuildExecutionError _ _ _ => e
  end.
Proof. destruct e as [cls msg|c code msg]; [|done]. by destruct cls. Qed.

(** C35: the errors a job reports. When the stages of a job raise, and the
    workspace can be cleaned up, [execute_job] raises a build failure as it is,
    an upload error, an artifact, detection, workspace, cache or docker error as
    a build failure of its class and code, and everything else unchanged: an
    unreadable package.json or an unsupported package manager, which are the
    user's errors too, reach the worker as crashes of the executor. *)
Theorem job_errors polls job options owner token s w s1 t0 s2 e s3 :
  on_files (λ t, create_workspace t (cf_state_dir config) (jr_attempt_id job)) s = (Ok w, s1) →
  eng_perf_counter s1 = (Ok t0, s2) →
  stages netloc_check version data uid gid config credentials polls job w t0 owner token s2 = (Err e, s3) →
  (∀ σ, is_ok (on_files (λ t, cleanup_workspace t w (retains e && op_retain_failed_workspaces options)
                                (op_failed_workspace_keep options)) σ).1 = true) →
  (execute_job netloc_check version data uid gid config credentials polls job options owner token s).1 =
    Err match e with
        | PyExn cls msg => match reported_as cls with Some (c, code) => BuildExecutionError c code msg | None => e end
        | BuildExecutionError _ _ _ => e
        end ∧
  reported_as PackageJsonError = None ∧ reported_as PackageManagerDetectionError = None.
Proof.
  intros Ew Et Es Hc. split; [|done]. rewrite <- reclassify_spec. unfold execute_job, clean_up, outcome, mbind, M_bind.
  rewrite Ew, Et, Es. unfold raise. destruct (isinstance e DockerError).
  - unfold update_metrics at 1, modify. specialize (Hc (eng_set_metrics (docker_error_metric <$> eng_metrics s3) s3)).
    clear Ew. destruct (on_files _ _) as [[u0|e0] s4]; [reflexivity|discriminate Hc].
  - unfold mret at 1, M_ret. specialize (Hc s3).
    clear Ew. destruct (on_files _ _) as [[u0|e0] s4]; [reflexivity|discriminate Hc].
Qed.
End checks.
