(* ===== verification/JobLoopExamples.v ===== *)
(** The job loop at a concrete engine: a Hugo site from its archive to its
    uploaded artifact, and the properties of the job loop there. *)

From Corelib Require Import SpecFloat.
From S2P Require Import Prelude PyStr PyFloat Dict Json Clock Uuid Db Store StoreRun StoreInv Queue QueueExamples Outbox OutboxProofs.
From S2P Require Import System Fs Resolve PackageJson Framework DetectExamples Sha256 Cache Url Config Handlers Workspace Artifact.
From S2P Require Import Auth Stream Metrics Docker Meanwhile JobLoop JobLoopProofs JobLimits.

Local Open Scope Z_scope.

(** * A host *)

Record site := Site {
  si_fs : fs;
  si_store : store;
  si_metrics : option MetricsCollector;
  si_events : list (ustr * jdict);
  si_exit : Z;
}.

Definition si_on_fs {A} : M fs A → M site A :=
  zoom si_fs (λ f s, Site f (si_store s) (si_metrics s) (si_events s) (si_exit s)).

Lemma si_on_fs_store {A} (m : M fs A) s : si_store (si_on_fs m s).2 = si_store s.
Proof. unfold si_on_fs, zoom. by destruct (m (si_fs s)). Qed.

Definition ex_state : path := [u "state"].
Definition ex_out : path := ex_state ++ [u "workspaces"; ex_attempt; u "out"].

(** The container writes one page. *)
Definition ex_start (args : list ustr) : M site () :=
  si_on_fs (write_text ex_now (ex_out ++ [u "index.html"]) (u "<h1>hello</h1>")).

Definition ex_response (r : http_request) : http_outcome :=
  HttpOk (if ustr_eqb (hr_method r) (u "GET") then dumps (compact false) (JObj [(u "env", JObj [(u "TOKEN", JStr (u "s3cr3t"))])])
          else if ustr_eqb (hr_method r) (u "POST") then
            dumps (compact false) (JObj [(u "upload_url", JStr (u "https://store.example/put")); (u "expires_at", JStr (u "soon"));
                                         (u "storage_key", JStr (u "key"))])
          else []).

#[local] Instance site_host : ContainerHost site := {|
  host_files := λ A m, si_on_fs m;
  host_now := λ s, (Ok (ex_now + seconds 20), s);
  host_time := λ s, (Ok (S754_zero false), s);
  host_mkstemp := λ prefix suffix, si_on_fs (write_bytes ex_now [u "tmp"; prefix ++ suffix] [];; mret [u "tmp"; prefix ++ suffix]);
  host_start := ex_start;
  host_wait := λ _ s, (Ok (Some (si_exit s)), s);
  host_wait_forever := λ s, (Ok 0, s);
  host_returncode := λ s, (Ok (Some 0), s);
  host_terminate := λ s, (Ok (), s);
  host_kill := λ s, (Ok (), s);
  host_command := λ _ s, (Ok (0, [], []), s);
  host_stdout := λ s, (Ok [u "token s3cr3t"], s);
  host_stderr := λ s, (Ok [], s);
|}.

#[local] Instance site_http : Http site := λ r s, (Ok (ex_response r), s).

#[local] Instance site_engine : Engine site := {|
  eng_store := si_store;
  eng_set_store := λ q s, Site (si_fs s) q (si_metrics s) (si_events s) (si_exit s);
  eng_metrics := si_metrics;
  eng_set_metrics := λ m s, Site (si_fs s) (si_store s) m (si_events s) (si_exit s);
  eng_publish := λ ty p _ _ s, (Ok (), Site (si_fs s) (si_store s) (si_metrics s) (si_events s ++ [(ty, p)]) (si_exit s));
  eng_token := λ s, (Ok (u "token-2"), s);
  eng_perf_counter := λ s, (Ok (S754_zero false), s);
  eng_sleep := λ _ s, (Ok (), s);
  eng_stop := λ s, (Ok false, s);
  eng_monitor := λ s, (Ok true, s);
  eng_join_refresh := λ _ s, (Ok (), s);
|}.

#[local] Instance site_environment a t : Environment a t.
Proof.
  split; try (intros; intros s; apply mw_done).
  - done.
  - done.
  - intros A m s. change (meanwhile a t (si_store s) (si_store (si_on_fs m s).2)). rewrite si_on_fs_store. apply mw_done.
  - done.
  - intros p x s. cbn. rewrite si_on_fs_store. apply mw_done.
  - intros args s. cbn. unfold ex_start. rewrite si_on_fs_store. apply mw_done.
Qed.

(** The libraries: a listing of the tree, an archive with one file, plain URLs. *)
#[local] Instance tree_scan : DirScan := λ f p, (List.filter (below p) (fst <$> map_to_list f)).
#[local] Instance one_file_tar : TarFile := {|
  tar_members := λ _, Ok [MkTarMember (u "hugo.toml") TReg []];
  tar_extract := λ content _ destination, write_bytes ex_now (destination ++ [u "hugo.toml"]) (u "title = 1");
|}.
#[local] Instance count_archiver : Archiver := {| mode_of := λ _ _, 420; inode_of := λ _ _, None; tar_gz := λ ms, [N.of_nat (length ms)] |}.
#[local] Instance file_urls : Urllib := {|
  url2pathname := λ s, drop 1 (split_on 47 s);
  urlopen := λ _ _, Err (os_error (u "no network"));
  urljoin := λ _ x, x;
|}.
#[local] Instance ascii_tables : UnicodeTables := {| alnum_beyond := λ _, false; digit_beyond := λ _, false |}.
#[local] Instance list_order : SetOrder := λ l, l.

Definition ex_netloc (_ : ustr) : result () := Ok ().

(** * A leased attempt *)

Definition ex_archive : list N := u "archive".
Definition ex_job_payload : jdict :=
  [(u "build_job_id", JStr ex_build); (u "attempt_id", JStr ex_attempt); (u "site_id", JStr (u "site-1"));
   (u "source_download_url", JStr (u "file:///src.tgz")); (u "source_sha256", JStr (sha256_hex ex_archive))].

Definition ex_running : store :=
  (run_op (OpTransition (ex_now + seconds 6) ex_attempt (u "RUNNING") None (Some (u "LEASED")) (Some (u "worker-0")) (Some (u "token-1")))
    (run_op (OpAcquire (ex_now + seconds 5) (u "token-1") (u "worker-0") 120)
      (run_op (OpEnqueue ex_now ex_job_payload) ex_store0).2).2).2.

Definition ex_digest : ustr := u "sha256:" ++ repeat 97%N 64.
Definition ex_image_manifest : json :=
  JObj [(u "version", JStr (u "1.0.0")); (u "engine_compat", JObj [(u "proto_min", JInt 2); (u "proto_max", JInt 2)]);
        (u "images", JObj [(u "hugo:latest", JObj [(u "tag", JStr (u "hugo:0.1")); (u "digest", JStr ex_digest);
                                                  (u "frameworks", JList [JStr (u "hugo")])])])].
Definition ex_fs : fs :=
  <[ [u "src.tgz"] := EFile ex_archive 0 0 ]> (<[ [u "tmp"] := EDir 0 ]> (<[ [u "data"] := EDir 0 ]>
  (<[ [u "data"; u "manifest.json"] := EFile (dumps (compact false) ex_image_manifest) 0 0 ]> ∅))).

Definition ex_site (q : store) (exit : Z) : site := Site ex_fs q (Some (new_collector 2)) [] exit.

Definition ex_config : EngineConfig :=
  MkEngineConfig (Some (u "https://backend.example")) None 2 15 600 10 (u "2g") (S754_finite false 4503599627370496 (-52))
    524288000 5368709120 30 [u "credentials.toml"] ex_state (u "1.0.0") [u "hugo:latest"] [] 120 268435456 7 true (u "linux") (u "amd64").
Definition ex_credentials : EngineCredentials :=
  MkEngineCredentials (u "11111111-1111-4111-8111-111111111111") (repeat 97%N 32) (u "jwt") (u "2026-07-13T10:00:00+00:00") None None.
Definition ex_options : JobLoopOptions := MkJobLoopOptions 120 (S754_zero false) false 5.

Definition ex_job (q : store) : option JobRecord :=
  match get_job ex_build ex_attempt q with (Ok j, _) => j | _ => None end.

Notation ex_execute := (execute_job ex_netloc (u "1.0") [u "data"] 1000 1000 ex_config ex_credentials).

Lemma queue_step s o : sys_reachable s → op_ok o → sys_reachable (run_op o s).2.
Proof. exact (sys_step s (SysQueue o)). Qed.

Lemma ex_running_reachable : sys_reachable ex_running.
Proof.
  unfold ex_running. apply queue_step; [|exact I]. apply queue_step; [|exact I]. apply queue_step; [apply sys_new|].
  vm_compute. reflexivity.
Qed.

Lemma ex_running_ok exit : sys_ok (eng_store (ex_site ex_running exit)).
Proof. exact (sys_reachable_ok _ ex_running_reachable). Qed.

(** The row, the job and the lease. *)
Definition ex_row : option job_row := find_row ex_attempt (st_disk ex_running).
Definition ex_record : JobRecord :=
  match ex_job ex_running with Some j => j | None => MkJobRecord [] [] JNull QUEUED 0 0 None None None [] [] None false end.
Definition ex_lease (token : ustr) : QueueLease := MkQueueLease (u "worker-0") ex_record 120 token.

Lemma ex_row_there : ∃ x, ex_row = Some x ∧ r_state x = RUNNING ∧ r_lease_owner x = Some (u "worker-0") ∧
  r_lease_token x = Some (u "token-1") ∧ r_build_job_id x = ex_build ∧ r_attempts x = 1.
Proof. eexists. split; [vm_compute; reflexivity|]. vm_compute. by split_and!. Qed.

Lemma ex_record_attempt : jr_attempt_id ex_record = ex_attempt.
Proof. vm_compute. reflexivity. Qed.
Lemma ex_record_build : ex_build = jr_build_job_id ex_record.
Proof. vm_compute. reflexivity. Qed.

(** * Witnesses *)

Lemma success_under_lease_witness : ∃ s',
  ex_execute 5 ex_record ex_options (Some (u "worker-0")) (Some (u "token-1")) (ex_site ex_running 0) = (Ok (), s') ∧
  ∃ r r', row_at ex_attempt (ex_site ex_running 0) = Some r ∧ r_state r = RUNNING ∧
    row_at ex_attempt s' = Some r' ∧ r_state r' = SUCCEEDED.
Proof.
  destruct (ex_execute 5 ex_record ex_options (Some (u "worker-0")) (Some (u "token-1")) (ex_site ex_running 0)) as [r s'] eqn:E.
  assert (r = Ok ()) as ->.
  { apply (f_equal fst) in E. cbn [fst] in E. rewrite <- E. vm_compute. reflexivity. }
  exists s'. split; [reflexivity|].
  destruct (success_under_lease ex_attempt (u "token-1") _ _ _ _ _ _ _ _ _ _ _ _ _ ex_record_attempt (ex_running_ok 0) E)
    as (r & r' & H1 & H2 & _ & _ & H5 & H6 & _).
  exists r, r'. exact (conj H1 (conj H2 (conj H5 H6))).
Defined.

Lemma failure_recorded_witness : ∃ s' b' x', b' = true ∧ row_at ex_attempt s' = Some x' ∧ state_text (r_state x') = u "TIMED_OUT" ∧
  (handle_failure (ex_lease (u "token-1")) (BuildExecutionError (u "EXEC_TIMEOUT") (u "TIMEOUT") (u "too slow"))
     (ex_site ex_running 0, false)).2 = (s', b').
Proof.
  destruct ex_row_there as (x & Ex & H1 & H2 & H3 & H4 & _).
  rewrite ex_record_build in H4.
  destruct (handle_failure (ex_lease (u "token-1")) (BuildExecutionError (u "EXEC_TIMEOUT") (u "TIMEOUT") (u "too slow"))
     (ex_site ex_running 0, false)) as [r [s' b']] eqn:E.
  destruct (failure_recorded ex_attempt (u "token-1") (ex_lease (u "token-1")) _ _ _ _ _ _ _ _ x ex_record_attempt eq_refl (ex_running_ok 0)
    Ex H1 H2 H3 H4 E) as (Hb & x' & H5 & H6 & _).
  exists s', b', x'. exact (conj Hb (conj H5 (conj H6 eq_refl))).
Defined.

Lemma stale_worker_reports_failure_witness : ∃ s1,
  st_disk (eng_store s1) = st_disk (eng_store (ex_site ex_running 0)) ∧
  handle_failure (ex_lease (u "token-0")) (stale (u "Build lease token was replaced")) (ex_site ex_running 0, false) =
    (inner (publish_safely (ql_job (ex_lease (u "token-0"))) (u "STALE_ATTEMPT") (u "STALE_ATTEMPT") (u "Build lease token was replaced"));;
     inner (ack_safely (ql_job (ex_lease (u "token-0"))) (failure_state (u "STALE_ATTEMPT")) (u "STALE_ATTEMPT") (u "STALE_ATTEMPT") (u "Build lease token was replaced"))) (s1, true).
Proof.
  destruct ex_row_there as (x & Ex & H1 & H2 & H3 & H4 & _).
  rewrite ex_record_build in H4.
  destruct (stale_worker_reports_failure ex_attempt (u "token-0") (ex_lease (u "token-0")) (u "STALE_ATTEMPT") (u "STALE_ATTEMPT")
    (u "Build lease token was replaced") (ex_site ex_running 0) false x ex_record_attempt eq_refl (ex_running_ok 0) Ex H1 H4) as (s1 & Hd & E).
  { right. rewrite H3. intros [=]. }
  exists s1. exact (conj Hd E).
Defined.

Lemma crash_recorded_witness : ∃ s' b' s2 x2, b' = false ∧ released ex_attempt (u "token-1") s' ∧
  row_at ex_attempt s2 = Some x2 ∧ r_state x2 = QUEUED ∧ r_lease_token x2 = None ∧
  (handle_failure (ex_lease (u "token-1")) (PyExn PackageJsonError (u "not valid JSON")) (ex_site ex_running 0, false)).2 = (s', b').
Proof.
  destruct ex_row_there as (x & Ex & H1 & H2 & H3 & H4 & H5).
  rewrite ex_record_build in H4.
  destruct (handle_failure (ex_lease (u "token-1")) (PyExn PackageJsonError (u "not valid JSON")) (ex_site ex_running 0, false))
    as [r [s' b']] eqn:E.
  destruct (crash_recorded ex_attempt (u "token-1") (ex_lease (u "token-1")) PackageJsonError _ _ _ _ _ _ x ex_record_attempt eq_refl (ex_running_ok 0)
    eq_refl Ex H1 H2 H3 H4 E) as (Hb & (s1 & s2 & x2 & _ & _ & E2 & Hq & _ & _ & Ht & _) & Hr & _).
  assert (b' = false) as -> by (rewrite Hb, H5; reflexivity).
  exists s', false, s2, x2. exact (conj eq_refl (conj Hr (conj E2 (conj Hq (conj Ht eq_refl))))).
Defined.

(** The attempt queued, before a worker leases it. *)
Definition ex_queued : store := (run_op (OpEnqueue ex_now ex_job_payload) ex_store0).2.

Lemma ex_queued_ok : sys_ok (eng_store (ex_site ex_queued 1)).
Proof. apply sys_reachable_ok. unfold ex_queued. apply queue_step; [apply sys_new|]. vm_compute. reflexivity. Qed.

(** One turn: the container exits with code one, the attempt fails, the lease is gone. *)
Lemma worker_keeps_no_lease_witness : ∃ s',
  worker ex_netloc (u "1.0") [u "data"] 1000 1000 ex_config ex_credentials 1 5 (u "worker-0") ex_options (ex_site ex_queued 1)
    = (Ok false, s') ∧
  released ex_attempt (u "token-2") s' ∧ (r_state <$> row_at ex_attempt s') = Some FAILED.
Proof.
  set (m := worker ex_netloc (u "1.0") [u "data"] 1000 1000 ex_config ex_credentials 1 5 (u "worker-0") ex_options (ex_site ex_queued 1)).
  destruct m as [r s'] eqn:E.
  assert (r = Ok false ∧ (r_state <$> row_at ex_attempt s') = Some FAILED) as [-> Hf].
  { pose proof (f_equal fst E) as E1. pose proof (f_equal (λ x, r_state <$> row_at ex_attempt x.2) E) as E2. cbn [fst snd] in E1, E2.
    rewrite <- E1, <- E2. split; vm_compute; reflexivity. }
  exists s'. split; [reflexivity|]. split; [|exact Hf].
  refine (worker_keeps_no_lease ex_attempt (u "token-2") _ _ _ _ _ _ _ _ _ _ _ _ _ _ ex_queued_ok _ E).
  intros x Hx Ht. assert ((r_lease_token <$> row_at ex_attempt (ex_site ex_queued 1)) = Some None) as Hn by (vm_compute; reflexivity).
  rewrite Hx in Hn. cbn in Hn. congruence.
Defined.

Lemma ex_lens (q : store) (s : site) : eng_store (eng_set_store q s) = q.
Proof. reflexivity. Qed.

Lemma ensure_current_exact_witness :
  (ensure_current_attempt ex_record (Some (u "worker-0")) (Some (u "token-1")) (ex_site ex_running 0)).1 = Ok () ∧
  (ensure_current_attempt ex_record (Some (u "worker-0")) (Some (u "token-2")) (ex_site ex_running 0)).1
    = Err (stale (u "Build lease token was replaced")).
Proof.
  destruct (ex_running_ok 0) as (Hi & Hd & _). pose proof (db_ok_table _ Hd) as Ht.
  destruct (ensure_current_exact ex_lens ex_record (Some (u "worker-0")) (Some (u "token-1")) (ex_site ex_running 0) Hi Ht) as [H1 _].
  destruct (ensure_current_exact ex_lens ex_record (Some (u "worker-0")) (Some (u "token-2")) (ex_site ex_running 0) Hi Ht) as [H2 _].
  rewrite H1, H2. split; vm_compute; reflexivity.
Defined.

(** A job without a source URL. *)
Definition ex_bad_record : JobRecord :=
  MkJobRecord ex_build ex_attempt (JObj [(u "build_job_id", JStr ex_build)]) RUNNING 1 0 None None None [] [] None false.

Lemma ex_cleanup_ok p (σ : site) : is_ok (si_on_fs (rmtree_ignore_errors (ex_now + seconds 20) p) σ).1 = true.
Proof.
  unfold si_on_fs, zoom, rmtree_ignore_errors, try_except. by destruct (rmtree (ex_now + seconds 20) p (si_fs σ)) as [[]].
Qed.

Lemma job_errors_witness :
  (ex_execute 5 ex_bad_record ex_options None None (ex_site ex_running 0)).1
    = Err (BuildExecutionError (u "USER_CONFIG_INVALID") (u "WorkspaceError") (u "payload source_download_url is required")).
Proof.
  destruct (on_files (λ t, create_workspace t (cf_state_dir ex_config) (jr_attempt_id ex_bad_record)) (ex_site ex_running 0)) as [rw s1] eqn:Ew.
  assert (rw = Ok (workspace_paths ex_state ex_attempt)) as ->.
  { apply (f_equal fst) in Ew. cbn [fst] in Ew. rewrite <- Ew. vm_compute. reflexivity. }
  destruct (stages ex_netloc (u "1.0") [u "data"] 1000 1000 ex_config ex_credentials 5 ex_bad_record (workspace_paths ex_state ex_attempt)
              (S754_zero false) None None s1) as [re s3] eqn:Es.
  assert (re = Err (workspace_error (u "payload source_download_url is required"))) as ->.
  { apply (f_equal fst) in Es. apply (f_equal snd) in Ew. cbn [fst snd] in Es, Ew. rewrite <- Es, <- Ew. vm_compute. reflexivity. }
  destruct (job_errors ex_netloc (u "1.0") [u "data"] 1000 1000 ex_config ex_credentials 5 ex_bad_record ex_options None None
    (ex_site ex_running 0) _ s1 _ s1 _ s3 Ew eq_refl Es) as [H _]; [|exact H].
  intros σ. exact (ex_cleanup_ok _ σ).
Defined.

Lemma refresh_beats_witness : ∃ lease, float_of_Z 120 = Ok lease ∧ float_ltb (refresh_interval 120) lease = true.
Proof.
  destruct (refresh_beats 120) as (lease & El & _ & _ & Hlt & _); [lia|]. exists lease. split; [exact El|]. apply Hlt. lia.
Defined.

Lemma pool_owners_witness : NoDup (worker_owners ex_config) ∧ worker_owners ex_config = [u "worker-0"; u "worker-1"].
Proof. split; [apply (pool_owners ex_config); vm_compute; discriminate|vm_compute; reflexivity]. Defined.
