(* ===== verification/Drain.v ===== *)
(** Drain mode (src/src/build_engine/queue/handlers.py): the marker file makes
    it last across restarts, and resuming removes it. *)

From S2P Require Import Prelude PyStr Dict Json Clock Uuid Protocol Db Store Fs PackageJson Framework Cache Handlers.

Local Open Scope Z_scope.

(** * Lemmas: the text of the marker *)

Lemma isoformat_seconds_body t : in_range t →
  ∃ s, isoformat_seconds t = s ++ u "+00:00" ∧ ascii_str s ∧ Forall (λ c, c ≠ 43%N) s.
Proof.
  intros Ht. pose proof (iso_body_fields t Ht) as Hf. destruct (div_mod_us t) as [_ Hus].
  pose proof (time_fields _ Hus) as (? & ? & ? & ? & _). cbv zeta in *. unfold isoformat_seconds.
  destruct (ord2ymd (t / DAY)) as [[y m] d]. destruct Hf as (Hy & Hv%valid_date_small & _).
  set (us := t mod DAY) in *.
  exists (iso_date y m d ++ [84%N] ++ pad_dec 2 (us / (3600 * US)) ++ [58%N] ++ pad_dec 2 (us / (60 * US) mod 60)
    ++ [58%N] ++ pad_dec 2 (us / US mod 60)).
  split; [by rewrite <- !app_assoc|]. unfold iso_date.
  split; repeat (apply Forall_app; split);
    first [apply ustr_digits_ascii, pad_dec_digits; simpl; lia | apply digits_no_plus, pad_dec_digits; simpl; lia
          | by repeat constructor].
Qed.

Lemma marker_time_ascii t : in_range t → ascii_str (replace (isoformat_seconds t) (u "+00:00") (u "Z")).
Proof.
  intros (s & -> & Hs & Hp)%isoformat_seconds_body. unfold replace.
  change (u "+00:00") with (43%N :: u "00:00"). cbv iota.
  rewrite replace_go_skip by done. apply Forall_app. split; [done|]. by repeat constructor.
Qed.

Lemma marker_text_encodes t : in_range t → ∃ text,
  utf8_encode (dumps (spaced true) (JObj [(u "draining", JBool true);
    (u "updated_at", JStr (replace (isoformat_seconds t) (u "+00:00") (u "Z")))])) = Ok text.
Proof.
  intros Ht%marker_time_ascii. set (s := replace _ _ _) in *.
  assert (dumps (spaced true) (JObj [(u "draining", JBool true); (u "updated_at", JStr s)]) =
    u "{" ++ quote (u "draining") ++ u ": true, " ++ quote (u "updated_at") ++ u ": " ++ quote s ++ u "}") as -> by reflexivity.
  eexists. apply utf8_encode_ascii. repeat (apply Forall_app; split); try (by repeat constructor).
  by apply quote_ascii, str_ok_valid, ascii_str_ok.
Qed.

Section drain.
Context (state_dir : path).

Notation marker := (drain_marker_path state_dir).
Notation temporary := (state_dir ++ [DRAIN_MARKER_FILENAME ++ u ".tmp"]).

(** The state directory is a real directory, with no directory or link in the
    places of the marker and its temporary file. *)
Record drain_place (f : fs) : Prop := DrainPlace {
  dp_dir : real_dir f state_dir;
  dp_marker : file_or_free f marker;
  dp_temporary : file_or_free f temporary;
}.

Lemma write_drain_marker_run now f : in_range now → drain_place f →
  ∃ f' c m a, write_drain_marker now marker f = (Ok (), f') ∧ f' !! marker = Some (EFile c m a) ∧ drain_place f' ∧
    ∀ x, x ≠ marker → x ≠ temporary → same_entry (f !! x) (f' !! x).
Proof.
  intros Ht [Hd Hm Htmp]. unfold write_drain_marker, drain_marker_path in *. rewrite parent_child, name_child. cbv zeta.
  unfold mbind at 1, M_bind at 1. rewrite mkdir_parents_real by done.
  destruct (marker_text_encodes now Ht) as [text He]. unfold write_text. munfold. rewrite He.
  destruct (write_bytes_child now state_dir (DRAIN_MARKER_FILENAME ++ u ".tmp") text f)
    as (m & a & f1 & -> & H1 & Hd1 & Hs1); [done|split; by vm_compute|done|].
  assert (state_dir ++ [DRAIN_MARKER_FILENAME] ≠ state_dir ++ [DRAIN_MARKER_FILENAME ++ u ".tmp"]) as Hne
    by (intros H%app_inv_head; by vm_compute in H).
  assert (file_or_free f1 (state_dir ++ [DRAIN_MARKER_FILENAME])) as Hm1.
  { specialize (Hs1 _ Hne). destruct Hm as [Hm|(? & ? & ? & Hm)]; [left; by eapply same_entry_none|].
    right. eexists _, _, _. by eapply same_entry_file. }
  destruct (replace_child now state_dir (DRAIN_MARKER_FILENAME ++ u ".tmp") DRAIN_MARKER_FILENAME text m a f1 Hd1) as (f2 & E & H2 & H3 & Hd2 & Hs2);
    [by vm_compute|done|done|].
  exists f2, text, m, a. split; [exact E|]. split; [done|]. split.
  { split; [done|right; by eexists _, _, _|by left]. }
  intros x Hx1 Hx2. specialize (Hs1 x Hx2). specialize (Hs2 x Hx2 Hx1).
  destruct Hs1 as [->|(t & t' & -> & Hs1)]; [done|]. rewrite Hs1 in Hs2. right. exists t.
  destruct Hs2 as [<-|(? & t2 & ? & ->)]; eauto.
Qed.

Lemma marker_exists f : drain_place f → exists_ f marker = match f !! marker with Some _ => true | None => false end.
Proof.
  intros [Hd Hm _]. unfold exists_, drain_marker_path in *.
  rewrite stat_child; [done|done|split; by vm_compute|by apply file_or_free_no_link].
Qed.

Lemma unlink_marker_run now f : drain_place f →
  ∃ f', unlink now true marker f = (Ok (), f') ∧ f' !! marker = None ∧ drain_place f' ∧
    ∀ x, x ≠ marker → same_entry (f !! x) (f' !! x).
Proof.
  intros [Hd Hm Ht]. destruct (unlink_child now _ _ _ Hd Hm) as (f' & E & Hn & Hd' & Hs).
  exists f'. split_and!; [exact E|done| |done]. split; [done|by left|].
  specialize (Hs temporary). destruct Ht as [Ht|(? & ? & ? & Ht)].
  - left. eapply same_entry_none; [apply Hs|done]. intros H%app_inv_head. by vm_compute in H.
  - right. eexists _, _, _. eapply same_entry_file; [apply Hs|done]. intros H%app_inv_head. by vm_compute in H.
Qed.

(** Drain mode. Draining writes the marker file and touches nothing else;
    from then on every assignment is refused without reaching the queue, also
    by a process started afresh on these files. Resuming removes the marker:
    assignments reach the queue again, and a fresh process does not drain. *)
Theorem drain_mode now later p p' g :
  in_range now → drain_place (ag_fs g) →
  ∃ g' g'',
    drain state_dir now p g = (Ok (MkCommandResult true (Some (u "DRAINING")) None []), g') ∧
    ag_store g' = ag_store g ∧
    (∀ x, x ≠ marker → x ≠ temporary → same_entry (ag_fs g !! x) (ag_fs g' !! x)) ∧
    (∀ t job, assign state_dir t job g' =
       (Ok (MkCommandResult false (Some (u "FAILED")) (Some (u "Engine is draining")) []), g')) ∧
    ag_draining (new_handlers state_dir (ag_store g') (ag_fs g') false) = true ∧
    resume state_dir later p' g' = (Ok (MkCommandResult true (Some (u "READY")) None []), g'') ∧
    ag_store g'' = ag_store g ∧
    (∀ x, x ≠ marker → x ≠ temporary → same_entry (ag_fs g' !! x) (ag_fs g'' !! x)) ∧
    ag_draining (new_handlers state_dir (ag_store g'') (ag_fs g'') false) = false ∧
    (∀ t job, assign state_dir t job g'' =
       on_store (result ← enqueue t job;
                 mret (MkCommandResult true (Some (state_text (jr_state (er_job result)))) None [])) g'').
Proof.
  intros Ht Hp. destruct (write_drain_marker_run now (ag_fs g) Ht Hp) as (f1 & c & m & a & E1 & H1 & Hp1 & Hs1).
  destruct (unlink_marker_run later f1 Hp1) as (f2 & E2 & H2 & Hp2 & Hs2).
  pose proof (marker_exists f1 Hp1) as X1. rewrite H1 in X1. pose proof (marker_exists f2 Hp2) as X2. rewrite H2 in X2.
  exists (Agent (ag_store g) f1 true (ag_cache_reset_scopes g)), (Agent (ag_store g) f2 false (ag_cache_reset_scopes g)).
  split_and!.
  - unfold drain, set_draining, on_fs, zoom. munfold. cbn [ag_fs ag_store ag_cache_reset_scopes]. by rewrite E1.
  - done.
  - exact Hs1.
  - intros t job. unfold assign, set_draining. munfold. cbn [ag_fs ag_store ag_cache_reset_scopes]. by rewrite X1.
  - unfold new_handlers. cbn [ag_draining ag_fs ag_store]. by rewrite X1.
  - unfold resume, set_draining, on_fs, zoom. munfold. cbn [ag_fs ag_store ag_cache_reset_scopes]. by rewrite E2.
  - done.
  - intros x Hx _. by apply Hs2.
  - unfold new_handlers. cbn [ag_draining ag_fs ag_store]. by rewrite X2.
  - intros t job. unfold assign, set_draining, on_store, zoom. munfold. cbn [ag_fs ag_store ag_cache_reset_scopes]. rewrite X2.
    cbn [ag_fs ag_store ag_cache_reset_scopes ag_draining]. by destruct (enqueue t job (ag_store g)) as [[]].
Qed.

End drain.
