(* ===== verification/Uplink.v ===== *)
(** The websocket uplink (src/src/build_engine/agent/uplink.py): handshake,
    replay, command dispatch and event publication, over any event spool and
    any command handlers. *)

From Corelib Require Import SpecFloat.
From S2P Require Import Prelude PyStr PyFloat Dict Json Clock Uuid Protocol Db Outbox Handlers Fs PackageJson Framework.
From S2P Require Import Url Config.

Local Open Scope Z_scope.

Definition AGENT_WS_PATH : ustr := u "/api/v2/build-engines/agent/ws".

(** * Reconnect delays *)

(** [x ** n] for [n >= 1], correctly rounded; an overflow raises. *)
Fixpoint odd_part (fuel : nat) (m : positive) (e : Z) : positive * Z :=
  match fuel, m with
  | S fuel, xO m => odd_part fuel m (e + 1)
  | _, _ => (m, e)
  end.

Definition float_pow (x : pyfloat) (n : Z) : result pyfloat :=
  match x with
  | S754_finite s m e =>
      let '(m, e) := odd_part (Pos.to_nat (Pos.size m)) m e in
      let sign := s && Z.odd n in
      match binary_normalize PREC EMAX (cond_Zopp sign (Zpos m ^ n)) (e * n) sign with
      | S754_infinity _ => Err (PyExn OverflowError (u "Numerical result out of range"))
      | f => Ok f
      end
  | S754_zero s => Ok (S754_zero (s && Z.odd n))
  | S754_infinity s => Ok (S754_infinity (s && Z.odd n))
  | S754_nan => Ok S754_nan
  end.

Record BackoffPolicy := MkBackoffPolicy {
  bo_initial_seconds : pyfloat;
  bo_multiplier : pyfloat;
  bo_max_seconds : pyfloat;
}.

(** The literals [1.0], [2.0] and [30.0]. *)
Definition default_backoff : BackoffPolicy :=
  MkBackoffPolicy (float_of_decimal false 1 0) (float_of_decimal false 2 0) (float_of_decimal false 30 0).

Definition delay (b : BackoffPolicy) (failures : Z) : result pyfloat :=
  if failures <=? 1 then Ok (bo_initial_seconds b)
  else
    p ← float_pow (bo_multiplier b) (failures - 1);
    let x := SFmul PREC EMAX (bo_initial_seconds b) p in
    Ok (if float_ltb (bo_max_seconds b) x then bo_max_seconds b else x).

(** * URL and headers *)

Section url.
Context (netloc_check : ustr → result ()).

Definition websocket_url (backend_url : ustr) : result ustr :=
  parsed ← urlparse netloc_check backend_url;
  fail_if (negb (mem_str (u_scheme parsed) [u "http"; u "https"; u "ws"; u "wss"]))
    (protocol_error (u "backend_url must use http(s) or ws(s)"));;
  let scheme := if ustr_eqb (u_scheme parsed) (u "http") then u "ws"
                else if ustr_eqb (u_scheme parsed) (u "https") then u "wss" else u_scheme parsed in
  let base_path := rstrip (is_char 47) (u_path parsed) in
  let p := if endswith base_path (u "/ws") then base_path else base_path ++ AGENT_WS_PATH in
  Ok (urlunparse scheme (u_netloc parsed) p).

End url.

(** * The uplink *)

(** [up_world] is the state behind the spool and the handlers; [up_ws] says
    whether [self._ws] is set; [up_sent] holds the frames that reached the
    backend. The counters number the readings of the clock, the generated
    identifiers and the sends. *)
Record uplink (S : Type) := Uplink {
  up_world : S;
  up_ws : bool;
  up_interval : Z;
  up_sent : list ustr;
  up_ticks : nat;
  up_ids : nat;
  up_sends : nat;
}.
Arguments Uplink {S}.
Arguments up_world {S}. Arguments up_ws {S}. Arguments up_interval {S}. Arguments up_sent {S}.
Arguments up_ticks {S}. Arguments up_ids {S}. Arguments up_sends {S}.

(** The world outside: the clock, fresh UUIDs, and which sends succeed. *)
Record outside := Outside {
  clock : nat → instant;
  uuid4 : nat → ustr;
  delivered : nat → bool;
}.

(** Payload helpers at the end of the file. *)
Definition uplink_optional_str (payload : jdict) (key : ustr) : result (option ustr) :=
  match dget key payload with
  | None | Some JNull => Ok None
  | Some (JStr (c :: s)) => Ok (Some (c :: s))
  | Some _ => Err (protocol_error (u "payload " ++ key ++ u " must be a non-empty string"))
  end.
Definition uplink_required_str (payload : jdict) (key : ustr) : result ustr :=
  value ← uplink_optional_str payload key;
  match value with Some s => Ok s | None => Err (protocol_error (u "payload " ++ key ++ u " is required")) end.

Section uplink.
Context {S : Type} `{EventSpool S} `{CommandHandlers S}.
Context (out : outside) (engine_id : ustr).

Definition on_world {A} : M S A → M (uplink S) A :=
  zoom up_world (λ w s, Uplink w (up_ws s) (up_interval s) (up_sent s) (up_ticks s) (up_ids s) (up_sends s)).

Definition now : M (uplink S) instant := λ s,
  (Ok (clock out (up_ticks s)),
   Uplink (up_world s) (up_ws s) (up_interval s) (up_sent s) (1 + up_ticks s) (up_ids s) (up_sends s)).
Definition fresh_id : M (uplink S) ustr := λ s,
  (Ok (uuid4 out (up_ids s)),
   Uplink (up_world s) (up_ws s) (up_interval s) (up_sent s) (up_ticks s) (1 + up_ids s) (up_sends s)).

Definition connection_closed : exn := PyExn ExceptionC (u "connection closed").

(** [websocket.send(text)]. *)
Definition send (text : ustr) : M (uplink S) () := λ s,
  let ok := delivered out (up_sends s) in
  (if ok then Ok () else Err connection_closed,
   Uplink (up_world s) (up_ws s) (up_interval s) (if ok then up_sent s ++ [text] else up_sent s)
     (up_ticks s) (up_ids s) (1 + up_sends s)).

Definition set_ws (b : bool) : M (uplink S) () :=
  modify (λ s, Uplink (up_world s) b (up_interval s) (up_sent s) (up_ticks s) (up_ids s) (up_sends s)).
Definition set_interval (n : Z) : M (uplink S) () :=
  modify (λ s, Uplink (up_world s) (up_ws s) n (up_sent s) (up_ticks s) (up_ids s) (up_sends s)).

(** [new_envelope(...)] with the clock and a fresh identifier. *)
Definition make (message_type : ustr) (payload : jdict) (build_job_id attempt_id : option ustr) (seq : option Z)
    : M (uplink S) Envelope :=
  t ← now; id ← fresh_id;
  lift (new_envelope t id message_type payload engine_id build_job_id attempt_id seq None None).

(** [await websocket.send(new_envelope(...).to_json())]. *)
Definition send_envelope (e : Envelope) : M (uplink S) () := text ← lift (to_json e); send text.

Definition publish_attempt_event (message_type : ustr) (payload : jdict) (build_job_id attempt_id : ustr)
    : M (uplink S) Envelope :=
  seq ← on_world (spool_next_seq attempt_id);
  envelope ← make message_type payload (Some build_job_id) (Some attempt_id) (Some seq);
  t ← now;
  on_world (spool_append t envelope);;
  connected ← gets up_ws;
  (if (connected : bool) then
     try_except (send_envelope envelope) (λ e, if isinstance e ExceptionC then set_ws false else raise e)
   else mret ());;
  mret envelope.

(** * Handshake *)

Definition receive_welcome (first : option frame) : M (uplink S) Envelope :=
  match first with
  | None => raise (protocol_error (u "Backend closed before welcome"))
  | Some f =>
      t ← now;
      welcome ← lift (decode_frame t (Some INBOUND_MESSAGE_TYPES) f);
      raise_if (negb (ustr_eqb (env_type welcome) (u "welcome"))) (protocol_error (u "First backend frame must be welcome"));;
      let payload := env_payload welcome in
      raise_if (negb (ustr_eqb (env_engine_id welcome) engine_id))
        (protocol_error (u "welcome envelope engine_id does not match credentials"));;
      raise_if (match dget (u "engine_id") payload with Some (JStr s) => negb (ustr_eqb s engine_id) | _ => true end)
        (protocol_error (u "welcome engine_id does not match credentials"));;
      raise_if (match dget (u "proto_negotiated") payload with Some v => negb (json_eq_int v PROTOCOL_VERSION) | None => true end)
        (protocol_error (u "welcome negotiated an unsupported protocol version"));;
      match dget (u "heartbeat_interval_seconds") payload with
      | Some (JInt n) => if 0 <? n then set_interval n else mret ()
      | Some (JBool true) => set_interval 1
      | _ => mret ()
      end;;
      mret welcome
  end.

Definition hello_payload (version : ustr) (c : EngineConfig) : jdict :=
  [(u "version", JStr version); (u "proto_version", JInt PROTOCOL_VERSION);
   (u "image_manifest_version", JStr (cf_image_manifest_version c));
   (u "capabilities", JObj (config_capabilities c)); (u "max_concurrency", JInt (cf_max_concurrency c))].

Definition send_hello (version : ustr) (c : EngineConfig) : M (uplink S) () :=
  e ← make (u "hello") (hello_payload version c) None None None; send_envelope e.

Definition replay_spool (welcome : Envelope) : M (uplink S) () :=
  cursors ← lift (last_sequences (env_payload welcome));
  t ← now;
  events ← on_world (spool_replay_after t cursors);
  for_each send_envelope events.

(** One beat of the heartbeat task, which runs beside the frame loop. *)
Definition heartbeat (snapshot : jdict) : M (uplink S) () :=
  e ← make (u "heartbeat") snapshot None None None; send_envelope e.

(** * Commands *)

Definition handle_assign_frame (e : Envelope) : M (uplink S) () :=
  '(build_job_id, attempt_id) ← lift (attempt_fields e);
  let payload := dset (u "attempt_id") (JStr attempt_id) (dset (u "build_job_id") (JStr build_job_id) (env_payload e)) in
  t ← now;
  result ← on_world (handle_assign t payload);
  let state := default (if cmd_accepted result then u "ASSIGNED" else u "FAILED") (or_text (cmd_state result) None) in
  publish_attempt_event (u "attempt.status")
    [(u "build_job_id", JStr build_job_id); (u "attempt_id", JStr attempt_id); (u "state", JStr state)]
    build_job_id attempt_id;;
  mret ().

Definition handle_cancel_frame (e : Envelope) : M (uplink S) () :=
  t ← now;
  result ← on_world (handle_cancel t (env_payload e));
  if bool_decide (cmd_affected result = []) &&
     match cmd_state result with Some s => negb (mem_str s [u "CANCELLED"; u "CANCELLING"]) | None => true end
  then mret ()
  else
    build_job_id ← lift (uplink_required_str (env_payload e) (u "build_job_id"));
    explicit ← match or_text (env_attempt_id e) None with
               | Some a => mret (Some a)
               | None => lift (uplink_optional_str (env_payload e) (u "attempt_id"))
               end;
    let attempt_ids := match cmd_affected result, explicit with
                       | [], Some a => [a]
                       | ids, _ => ids
                       end in
    for_each (λ attempt_id,
      publish_attempt_event (u "attempt.status")
        [(u "build_job_id", JStr build_job_id); (u "attempt_id", JStr attempt_id);
         (u "phase", JStr (default (u "CANCELLING") (or_text (cmd_state result) None)))]
        build_job_id attempt_id;;
      mret ()) attempt_ids.

(** [ack_through] of the spool; the interface has it. *)
Definition ack_event (e : Envelope) : M (uplink S) () :=
  let attempt_id := match or_text (env_attempt_id e) None with
                    | Some a => Some (JStr a)
                    | None => dget (u "attempt_id") (env_payload e)
                    end in
  match attempt_id, dget (u "last_seq") (env_payload e) with
  | Some (JStr a), Some (JInt n) =>
      if is_uuid a && (0 <=? n) then on_world (spool_ack_through a n)
      else raise (protocol_error (u "event.ack requires attempt_id and last_seq"))
  | _, _ => raise (protocol_error (u "event.ack requires attempt_id and last_seq"))
  end.

Definition drain_action (e : Envelope) : M (uplink S) () :=
  let action := default (JStr (u "drain")) (dget (u "action") (env_payload e)) in
  let named s := match action with JStr a => ustr_eqb a s | _ => false end in
  if named (u "resume") then
    match handle_resume with
    | None => raise (protocol_error (u "Command handler does not support resume"))
    | Some resume => t ← now; on_world (resume t (env_payload e));; mret ()
    end
  else if named (u "drain") then t ← now; on_world (handle_drain t (env_payload e));; mret ()
  else raise (protocol_error (u "drain action must be drain or resume")).

Definition dispatch (e : Envelope) : M (uplink S) () :=
  let ty := env_type e in
  if ustr_eqb ty (u "ping") then p ← make (u "pong") [] None None None; send_envelope p
  else if ustr_eqb ty (u "job.assign") then handle_assign_frame e
  else if ustr_eqb ty (u "job.cancel") then handle_cancel_frame e
  else if ustr_eqb ty (u "event.ack") then ack_event e
  else if ustr_eqb ty (u "drain") then drain_action e
  else if ustr_eqb ty (u "cache.reset") then t ← now; on_world (handle_cache_reset t (env_payload e));; mret ()
  else if ustr_eqb ty (u "welcome") then raise (protocol_error (u "welcome is only valid as the first backend frame"))
  else raise (protocol_error (u "Unhandled inbound message type: " ++ ty)).

Definition handle_frame (f : frame) : M (uplink S) () :=
  t ← now;
  e ← lift (decode_frame t (Some INBOUND_MESSAGE_TYPES) f);
  raise_if (negb (ustr_eqb (env_engine_id e) engine_id))
    (protocol_error (u "Inbound envelope engine_id does not match credentials"));;
  dispatch e.

(** * Connections *)

(** One connection, after the socket is open: [frames] is what the backend
    sends until it closes. The heartbeat task adds its frames between these steps. *)
Definition run_connection (version : ustr) (c : EngineConfig) (frames : list frame) : M (uplink S) () :=
  set_ws true;;
  try_finally
    (welcome ← receive_welcome (head frames);
     send_hello version c;;
     replay_spool welcome;;
     for_each handle_frame (tail frames))
    (set_ws false).

End uplink.

(** * The reconnect loop *)

(** What [run_forever] sleeps after each connection that ended: [true] is a
    clean end, [false] an exception. An exception of [delay] leaves the loop. *)
Fixpoint reconnect_delays (b : BackoffPolicy) (failures : Z) (outcomes : list bool) : result (list pyfloat) :=
  match outcomes with
  | [] => Ok []
  | true :: outcomes => reconnect_delays b 0 outcomes
  | false :: outcomes =>
      d ← delay b (failures + 1);
      rest ← reconnect_delays b (failures + 1) outcomes;
      Ok (d :: rest)
  end.
