(* ===== verification/UplinkProofs.v ===== *)
(** Properties of the uplink over any spool and any handlers: publication,
    the handshake, refused frames, reconnect delays, the websocket address. *)

From Corelib Require Import SpecFloat.
From S2P Require Import Prelude PyStr PyFloat Dict Json Clock Uuid Protocol Db Outbox Handlers Fs PackageJson Framework.
From S2P Require Import Url Config Uplink.

Local Open Scope Z_scope.

Lemma to_json_exception e x : to_json e = Err x → isinstance x ExceptionC = true.
Proof.
  unfold to_json. revert x. apply result_bind_Err_all.
  - unfold utf8_len. intros x Hx. munfold. destruct (utf8_encode _) as [|x'] eqn:E; [done|].
    injection Hx as <-. by apply utf8_encode_err in E as ->.
  - intros n x _. by destruct (_ <? _)%N; [intros [= <-]|].
Qed.

(** * Lemmas: what a computation leaves alone *)

Section frames.
Context {S : Type} `{!EventSpool S} `{!CommandHandlers S}.
Context (out : outside) (engine_id : ustr).

Implicit Types s : uplink S.

(** Frames already sent stay sent. *)
Definition grows s s' : Prop := up_sent s `prefix_of` up_sent s'.

#[export] Instance grows_preorder : PreOrder grows.
Proof. split; [intros s; by unfold grows|intros s1 s2 s3; unfold grows; apply transitivity]. Qed.

Lemma grows_on_world {A} (m : M S A) : steps grows (on_world m).
Proof. intros s. unfold grows, on_world, zoom. by destruct (m (up_world s)). Qed.

Lemma grows_send t : steps grows (send (S := S) out t).
Proof. intros s. unfold grows. cbn. destruct (delivered out (up_sends s)); [by apply prefix_app_r|done]. Qed.

Lemma grows_simple {A} (m : M (uplink S) A) : (∀ s, up_sent (m s).2 = up_sent s) → steps grows m.
Proof. intros H s. unfold grows. by rewrite H. Qed.

Lemma grows_now : steps grows (now (S := S) out).
Proof. by apply grows_simple. Qed.
Lemma grows_make ty p b a q : steps grows (make (S := S) out engine_id ty p b a q).
Proof. by apply grows_simple. Qed.
Lemma grows_set_ws b : steps grows (set_ws (S := S) b).
Proof. by apply grows_simple. Qed.

#[local] Hint Resolve grows_on_world grows_send grows_now grows_make grows_set_ws : steps.

Lemma grows_publish ty p b a : steps grows (publish_attempt_event out engine_id ty p b a).
Proof. unfold publish_attempt_event, send_envelope. steps_go. Qed.

#[local] Hint Resolve grows_publish : steps.

Lemma grows_dispatch e : steps grows (dispatch out engine_id e).
Proof.
  unfold dispatch, handle_assign_frame, handle_cancel_frame, ack_event, drain_action, send_envelope. cbv zeta. steps_go.
Qed.

#[local] Hint Resolve grows_dispatch : steps.

Lemma grows_handle_frame f : steps grows (handle_frame out engine_id f).
Proof. unfold handle_frame, raise_if. steps_go. Qed.

(** * Lemmas: publication, step by step *)

Context `{!EventSpoolLaws S}.

(** The new envelope and the state after the clock and identifier were read. *)
Definition after_make s : uplink S :=
  Uplink (up_world s) (up_ws s) (up_interval s) (up_sent s) (1 + up_ticks s) (1 + up_ids s) (up_sends s).

Lemma make_run ty p b a q s :
  make (S := S) out engine_id ty p b a q s =
    (new_envelope (clock out (up_ticks s)) (uuid4 out (up_ids s)) ty p engine_id b a q None None, after_make s).
Proof. reflexivity. Qed.

Lemma new_envelope_fields t id ty p b a q e :
  new_envelope t id ty p engine_id b a q None None = Ok e →
  env_attempt_id e = a ∧ env_seq e = q ∧ env_type e = ty ∧ env_payload e = p ∧ env_build_job_id e = b.
Proof. unfold new_envelope. intros (d & _ & H)%result_bind_Ok_inv. by injection H as <-. Qed.

(** What a publication does, case by case. *)
Lemma publish_cases ty p b a s r s' :
  spool_ok (up_world s) → publish_attempt_event out engine_id ty p b a s = (r, s') →
  spool_ok (up_world s') ∧
  match r with
  | Err x => up_sent s' = up_sent s ∧ up_ws s' = up_ws s ∧
      (up_world s' = up_world s ∨ ∃ t e, (spool_append t e (up_world s)).1 = Err x ∧ up_world s' = (spool_append t e (up_world s)).2)
  | Ok e => ∃ n,
      (spool_next_seq a (up_world s)).1 = Ok n ∧ (spool_next_seq a (up_world s')).1 = Ok (n + 1) ∧
      env_attempt_id e = Some a ∧ env_seq e = Some n ∧ env_type e = ty ∧ env_payload e = p ∧
      ∃ t, (spool_append t e (up_world s)).1 = Ok () ∧ up_world s' = (spool_append t e (up_world s)).2 ∧
      (up_sent s' = up_sent s ∧ up_ws s' = false ∨
       up_ws s = true ∧ up_ws s' = true ∧ ∃ text, to_json e = Ok text ∧ up_sent s' = up_sent s ++ [text])
  end.
Proof.
  intros Hok. unfold publish_attempt_event, on_world, zoom. munfold.
  pose proof (spool_next_seq_pure a (up_world s)) as Hpure.
  destruct (spool_next_seq a (up_world s)) as [rn w] eqn:En. cbn [snd] in Hpure. subst w.
  destruct rn as [n|x]; [|intros [= <- <-]; split_and!; try done; by left].
  rewrite make_run. cbn [up_ticks up_ids up_world up_ws up_sent].
  destruct (new_envelope _ _ _ _ _ _ _ _ _ _) as [e|x] eqn:Ee; [|intros [= <- <-]; split_and!; try done; by left].
  apply new_envelope_fields in Ee as (Ea & Eq & Et & Ep & _). cbn [after_make now up_world up_ticks up_ws up_sent].
  set (t := clock out _).
  pose proof (spool_append_ok t e (up_world s) Hok) as Hok'.
  destruct (spool_append t e (up_world s)) as [ra w'] eqn:Eapp. cbn [snd] in Hok'.
  destruct ra as [[]|x]; [|intros [= <- <-]; split_and!; try done; right; exists t, e; by rewrite Eapp].
  pose proof (spool_append_advances t e a n (up_world s) w' Hok Ea Eq) as Hadv.
  rewrite En in Hadv. specialize (Hadv eq_refl Eapp). cbn [up_ws].
  destruct (up_ws s) eqn:Ews.
  2: { intros [= <- <-]. split; [done|]. exists n. split_and!; try done.
       exists t. rewrite Eapp. split_and!; [done|done|]. by left. }
  unfold send_envelope. munfold. destruct (to_json e) as [text|x] eqn:Ej; cbn [up_sends].
  - unfold send. cbn [after_make up_sends up_sent up_ws up_world]. destruct (delivered out (up_sends s)).
    + intros [= <- <-]. split; [done|]. exists n. split_and!; try done. exists t. rewrite Eapp.
      split_and!; [done|done|]. right. split_and!; [done|done|]. by exists text.
    + cbn. intros [= <- <-]. split; [done|]. exists n. split_and!; try done. exists t. rewrite Eapp.
      split_and!; [done|done|]. by left.
  - destruct (isinstance x ExceptionC) eqn:Ex.
    + intros [= <- <-]. split; [done|]. exists n. split_and!; try done. exists t. rewrite Eapp.
      split_and!; [done|done|]. by left.
    + apply to_json_exception in Ej. congruence.
Qed.

End frames.

(** * Publication *)

Section publication.
Context {S : Type} `{!EventSpool S} `{!CommandHandlers S} `{!EventSpoolLaws S}.
Context (out : outside) (engine_id : ustr).

(** Publishing the events of one attempt one after the other. *)
Fixpoint publish_all (events : list (ustr * jdict)) (b a : ustr) : M (uplink S) (list Envelope) :=
  match events with
  | [] => mret []
  | (ty, p) :: events =>
      e ← publish_attempt_event out engine_id ty p b a;
      es ← publish_all events b a;
      mret (e :: es)
  end.

Lemma publish_all_run events b a s es s' n :
  spool_ok (up_world s) → (spool_next_seq a (up_world s)).1 = Ok n → publish_all events b a s = (Ok es, s') →
  spool_ok (up_world s') ∧ (spool_next_seq a (up_world s')).1 = Ok (n + Z.of_nat (length events)) ∧
  env_seq <$> es = Some <$> seqZ n (Z.of_nat (length events)) ∧
  Forall2 (λ tp e, env_type e = tp.1 ∧ env_payload e = tp.2 ∧ env_attempt_id e = Some a) events es ∧
  ∃ sent, sublist sent es ∧ ∃ texts, Forall2 (λ e x, to_json e = Ok x) sent texts ∧ up_sent s' = up_sent s ++ texts.
Proof.
  revert s es n. induction events as [|[ty p] events IH]; intros s es n Hok Hn; cbn [publish_all].
  - intros [= <- <-]. cbn [length]. rewrite Z.add_0_r. split_and!; [done|done|done|constructor|].
    exists []. split; [done|]. exists []. split; [constructor|]. by rewrite app_nil_r.
  - intros H. apply bind_Ok_inv in H as (e & s1 & Hp & H).
    apply bind_Ok_inv in H as (es' & s2 & Hes & [= <- <-]).
    destruct (publish_cases out engine_id ty p b a s _ _ Hok Hp)
      as (Hok1 & n' & Hn' & Hn1 & Ha & Hq & Ety & Ep & t & _ & _ & Hsent).
    rewrite Hn in Hn'. injection Hn' as <-.
    destruct (IH s1 es' (n + 1) Hok1 Hn1 Hes) as (Hok2 & Hn2 & Hqs & Hf & sent & Hsub & texts & Ht & Eup).
    split_and!; [done| | |by constructor|].
    + rewrite Hn2. f_equal. cbn [length]. lia.
    + cbn [fmap list_fmap length]. rewrite Hq. rewrite Nat2Z.inj_succ, seqZ_cons by lia. cbn [fmap list_fmap]. f_equal.
      rewrite Hqs. f_equal. f_equal; lia.
    + destruct Hsent as [[E1 _]|(_ & _ & text & Htext & E1)]; rewrite Eup, E1.
      * exists sent. split; [by constructor|]. by exists texts.
      * exists (e :: sent). split; [by constructor|]. exists (text :: texts). split; [by constructor|].
        by rewrite <- app_assoc.
Qed.

End publication.

(** Events published for one attempt get consecutive numbers, starting
    with the spool's next one; the spool's invariant is kept, and what reaches
    the backend are the printed forms of some of these events, in their order:
    a send that fails loses nothing, because every event is in the spool before
    it is sent. *)
Theorem publish_consecutive {S} `{!EventSpool S} `{!EventSpoolLaws S} out engine_id events b a
    (s s' : uplink S) es n :
  spool_ok (up_world s) → (spool_next_seq a (up_world s)).1 = Ok n →
  publish_all out engine_id events b a s = (Ok es, s') →
  spool_ok (up_world s') ∧ (spool_next_seq a (up_world s')).1 = Ok (n + Z.of_nat (length events)) ∧
  env_seq <$> es = Some <$> seqZ n (Z.of_nat (length events)) ∧
  Forall2 (λ tp e, env_type e = tp.1 ∧ env_payload e = tp.2 ∧ env_attempt_id e = Some a) events es ∧
  ∃ sent, sublist sent es ∧ ∃ texts, Forall2 (λ e x, to_json e = Ok x) sent texts ∧ up_sent s' = up_sent s ++ texts.
Proof. apply publish_all_run. Qed.

(** A publication that raises has sent nothing, and one that returns has
    stored the event in the spool first: the spool accepted this very envelope,
    under the next number of the attempt. *)
Theorem publish_stored_before_sent {S} `{!EventSpool S} `{!EventSpoolLaws S} out engine_id ty p b a
    (s s' : uplink S) r :
  spool_ok (up_world s) → publish_attempt_event out engine_id ty p b a s = (r, s') →
  spool_ok (up_world s') ∧
  match r with
  | Err _ => up_sent s' = up_sent s
  | Ok e => (∃ n, (spool_next_seq a (up_world s)).1 = Ok n ∧ env_attempt_id e = Some a ∧ env_seq e = Some n) ∧
            (∃ t, (spool_append t e (up_world s)).1 = Ok () ∧ up_world s' = (spool_append t e (up_world s)).2) ∧
            (up_sent s' = up_sent s ∨ ∃ text, to_json e = Ok text ∧ up_sent s' = up_sent s ++ [text])
  end.
Proof.
  intros Hok H. destruct (publish_cases out engine_id ty p b a s _ _ Hok H) as [Hok' H']. clear H. rename H' into H.
  split; [done|]. destruct r as [e|x]; [|by destruct H].
  destruct H as (n & Hn & _ & Ha & Hq & _ & _ & t & Ht & Hw & Hs). split_and!; [by exists n|by exists t|].
  destruct Hs as [[Hs _]|(_ & _ & text & Hx & Hs)]; [by left|right; by exists text].
Qed.

(** * Reconnect delays *)

(** The powers of two beyond the largest float overflow. *)
Lemma normalize_pow2_overflow k : 1024 <= k → binary_normalize PREC EMAX 1 k false = S754_infinity false.
Proof.
  intros Hk. unfold binary_normalize, binary_round. cbn [digits2_pos].
  assert (fexp PREC EMAX (1 + k) = k - 52) as -> by (unfold fexp, emin, PREC, EMAX; lia).
  unfold shl_align. replace (k - 52 - k) with (-52) by lia. cbv iota beta.
  set (m := Pos.iter xO 1%positive 52). vm_compute in m. subst m.
  unfold binary_round_aux. unfold shr_fexp at 1.
  change (Zdigits2 (Zpos 4503599627370496)) with 53.
  assert (fexp PREC EMAX (53 + (k - 52)) - (k - 52) = 0) as -> by (unfold fexp, emin, PREC, EMAX; lia).
  cbn [shr shr_record_of_loc loc_of_shr_record shr_m round_nearest_even shr_r shr_s].
  unfold shr_fexp. change (Zdigits2 (Zpos 4503599627370496)) with 53.
  assert (fexp PREC EMAX (53 + (k - 52)) - (k - 52) = 0) as -> by (unfold fexp, emin, PREC, EMAX; lia).
  cbn [shr shr_record_of_loc shr_m]. assert ((k - 52 <=? EMAX - PREC) = false) as -> by (unfold EMAX, PREC; lia). done.
Qed.

Lemma default_delay_overflow k : 1025 <= k →
  delay default_backoff k = Err (PyExn OverflowError (u "Numerical result out of range")).
Proof.
  intros Hk. unfold delay. assert ((k <=? 1) = false) as -> by lia.
  assert (bo_multiplier default_backoff = S754_finite false 4503599627370496 (-51)) as -> by (vm_compute; reflexivity).
  unfold float_pow. assert (odd_part (Pos.to_nat (Pos.size 4503599627370496)) 4503599627370496 (-51) = (1%positive, 1)) as ->
    by (vm_compute; reflexivity).
  cbv zeta. cbn [andb cond_Zopp]. rewrite Z.pow_1_l, Z.mul_1_l by lia. rewrite normalize_pow2_overflow by lia. done.
Qed.

(** The delay after [k] failures that does not overflow: the power of two, then the maximum. *)
Definition delay_table (k : nat) : pyfloat :=
  match k with
  | 0%nat | 1%nat => float_of_decimal false 1 0
  | 2%nat => float_of_decimal false 2 0 | 3%nat => float_of_decimal false 4 0
  | 4%nat => float_of_decimal false 8 0 | 5%nat => float_of_decimal false 16 0
  | _ => float_of_decimal false 30 0
  end.

Lemma default_delay_table k : 0 <= k < 1025 → delay default_backoff k = Ok (delay_table (Z.to_nat k)).
Proof.
  intros Hk.
  assert (Forall (λ n, delay default_backoff (Z.of_nat n) = Ok (delay_table n)) (seq 0 1025)) as H
    by (apply (bool_decide_unpack _); vm_compute; exact I).
  rewrite List.Forall_forall in H. specialize (H (Z.to_nat k)). rewrite Z2Nat.id in H by lia. apply H, in_seq. lia.
Qed.

Lemma reconnect_failures k n : Z.of_nat n + Z.of_nat k < 1025 →
  reconnect_delays default_backoff (Z.of_nat n) (repeat false k) = Ok (delay_table <$> seq (S n) k).
Proof.
  revert n. induction k as [|k IH]; intros n Hk; [done|]. cbn [repeat reconnect_delays].
  rewrite default_delay_table by lia. munfold. replace (Z.of_nat n + 1) with (Z.of_nat (S n)) by lia.
  rewrite IH by lia. cbn [seq map]. by rewrite Nat2Z.id.
Qed.

Lemma reconnect_overflow k n : (n < 1025)%nat → (1025 <= n + k)%nat →
  reconnect_delays default_backoff (Z.of_nat n) (repeat false k) =
    Err (PyExn OverflowError (u "Numerical result out of range")).
Proof.
  revert n. induction k as [|k IH]; intros n Hn Hk; [lia|]. cbn [repeat reconnect_delays].
  destruct (decide (n = 1024%nat)) as [->|Hne].
  - by rewrite default_delay_overflow by lia.
  - rewrite default_delay_table by lia. munfold. replace (Z.of_nat n + 1) with (Z.of_nat (S n)) by lia.
    by rewrite IH by lia.
Qed.

(** How long the uplink waits between failed connections, with its
    default policy: one, two, four, eight, sixteen seconds, then thirty seconds
    each time; but the 1025th failure in a row raises [OverflowError] out of the
    reconnect loop, which stops reconnecting. *)
Theorem reconnect_backoff k :
  reconnect_delays default_backoff 0 (repeat false k) =
    if (k <? 1025)%nat then Ok (delay_table <$> seq 1 k)
    else Err (PyExn OverflowError (u "Numerical result out of range")).
Proof.
  destruct (Nat.ltb_spec k 1025); [apply (reconnect_failures k 0)|apply (reconnect_overflow k 0)]; lia.
Qed.

(** * Handshake and refused frames *)

Section handshake.
Context {S : Type} `{!EventSpool S} `{!CommandHandlers S}.
Context (out : outside) (engine_id : ustr).

Implicit Types s : uplink S.

(** A welcome for this engine and this protocol version. *)
Record welcomes (t : instant) (f : frame) (w : Envelope) : Prop := Welcomes {
  we_decodes : decode_frame t (Some INBOUND_MESSAGE_TYPES) f = Ok w;
  we_type : env_type w = u "welcome";
  we_engine : env_engine_id w = engine_id;
  we_payload_engine : dget (u "engine_id") (env_payload w) = Some (JStr engine_id);
  we_version : ∃ v, dget (u "proto_negotiated") (env_payload w) = Some v ∧ json_eq_int v PROTOCOL_VERSION = true;
}.

Lemma raise_if_cases {A} (c : bool) e (k : M (uplink S) A) s :
  (raise_if c e;; k) s = if c then (Err e, s) else k s.
Proof. munfold. by destruct c. Qed.

Lemma receive_welcome_cases first s r s' :
  receive_welcome out engine_id first s = (r, s') →
  up_world s' = up_world s ∧ up_sent s' = up_sent s ∧ up_ws s' = up_ws s ∧ (0 < up_interval s → 0 < up_interval s') ∧
  match r with
  | Ok w => ∃ f, first = Some f ∧ welcomes (clock out (up_ticks s)) f w
  | Err _ => True
  end.
Proof.
  unfold receive_welcome. destruct first as [f|]; [|by intros [= <- <-]].
  unfold now at 1. unfold mbind at 1, M_bind at 1. unfold lift at 1. unfold mbind at 1, M_bind at 1.
  destruct (decode_frame _ _ f) as [w|x] eqn:Ed; [|by intros [= <- <-]]. cbv zeta.
  rewrite raise_if_cases. destruct (ustr_eqb (env_type w) _) eqn:E1; cbn [negb]; [|by intros [= <- <-]].
  rewrite raise_if_cases. destruct (ustr_eqb (env_engine_id w) _) eqn:E2; cbn [negb]; [|by intros [= <- <-]].
  rewrite raise_if_cases. destruct (dget (u "engine_id") _) as [v|] eqn:E3; [|by intros [= <- <-]].
  destruct v as [| | | |vs| |]; try by intros [= <- <-].
  destruct (ustr_eqb vs _) eqn:E4; cbn [negb]; [|by intros [= <- <-]].
  rewrite raise_if_cases. destruct (dget (u "proto_negotiated") _) as [v|] eqn:E5; [|by intros [= <- <-]].
  destruct (json_eq_int v _) eqn:E6; cbn [negb]; [|by intros [= <- <-]].
  apply bool_decide_eq_true in E1, E2, E4. subst vs.
  assert (welcomes (clock out (up_ticks s)) f w) as Hw by (split; try done; by exists v).
  munfold. destruct (dget (u "heartbeat_interval_seconds") _) as [[|[]|n| | | |]|];
    try (intros [= <- <-]; cbn; split_and!; try done; by exists f).
  destruct (0 <? n) eqn:En; intros [= <- <-]; cbn; (split_and!; [done|done|done| |by exists f]); lia.
Qed.

Lemma send_envelope_cases e s r s' :
  send_envelope out e s = (r, s') →
  up_world s' = up_world s ∧
  match r with
  | Ok _ => ∃ text, to_json e = Ok text ∧ up_sent s' = up_sent s ++ [text]
  | Err _ => up_sent s' = up_sent s
  end.
Proof.
  unfold send_envelope. munfold. destruct (to_json e) as [text|x] eqn:Ej; [|by intros [= <- <-]].
  unfold send. destruct (delivered out (up_sends s)); intros [= <- <-]; (split; [done|]); [by exists text|done].
Qed.

Lemma send_hello_cases version c s r s' :
  send_hello out engine_id version c s = (r, s') →
  up_world s' = up_world s ∧
  match r with
  | Ok _ => ∃ e text, env_type e = u "hello" ∧ env_payload e = hello_payload version c ∧ to_json e = Ok text ∧
                      up_sent s' = up_sent s ++ [text]
  | Err _ => up_sent s' = up_sent s
  end.
Proof.
  unfold send_hello. intros H. unfold mbind, M_bind in H. rewrite make_run in H.
  destruct (new_envelope _ _ _ _ _ _ _ _ _ _) as [e|x] eqn:Ee; [|by injection H as <- <-].
  apply new_envelope_fields in Ee as (_ & _ & Et & Ep & _).
  apply send_envelope_cases in H as [Hw H]. split; [done|]. destruct r as [[]|x]; [|done].
  destruct H as (text & Hj & Hs). by exists e, text.
Qed.

(** Sending envelopes one by one: what reached the backend is a prefix of their texts. *)
Lemma send_all_cases es s r s' :
  for_each (send_envelope out) es s = (r, s') →
  up_world s' = up_world s ∧ ∃ sent rest texts, es = sent ++ rest ∧
    Forall2 (λ e x, to_json e = Ok x) sent texts ∧ up_sent s' = up_sent s ++ texts ∧ (r = Ok () → rest = []).
Proof.
  revert s. induction es as [|e es IH]; intros s; cbn [for_each].
  { intros [= <- <-]. split; [done|]. exists [], [], []. split_and!; [done|constructor|by rewrite app_nil_r|done]. }
  unfold mbind, M_bind. destruct (send_envelope out e s) as [r1 s1] eqn:E1.
  apply send_envelope_cases in E1 as [Hw1 H1]. destruct r1 as [[]|x].
  - destruct H1 as (text & Ej & E1). intros H. apply IH in H as (Hw & sent & rest & texts & -> & Ht & Es & Hr).
    split; [congruence|]. exists (e :: sent), rest, (text :: texts). split_and!; [done|by constructor| |done].
    by rewrite Es, E1, <- app_assoc.
  - intros [= <- <-]. split; [done|]. exists [], (e :: es), []. split_and!; [done|constructor|by rewrite app_nil_r|done].
Qed.

Lemma replay_spool_cases w s r s' :
  replay_spool out w s = (r, s') →
  ∃ texts, up_sent s' = up_sent s ++ texts ∧
    (r = Ok () → ∃ cursors t events, last_sequences (env_payload w) = Ok cursors ∧
       (spool_replay_after t cursors (up_world s)).1 = Ok events ∧ Forall2 (λ e x, to_json e = Ok x) events texts).
Proof.
  unfold replay_spool. unfold mbind at 1, M_bind at 1, lift.
  destruct (last_sequences (env_payload w)) as [cursors|x]; [|by intros [= <- <-]; exists []; rewrite app_nil_r].
  unfold mbind at 1, M_bind at 1, now. unfold mbind at 1, M_bind at 1, on_world, zoom. cbn [up_world].
  destruct (spool_replay_after _ cursors (up_world s)) as [[events|x] w3] eqn:Er;
    [|by intros [= <- <-]; exists []; rewrite app_nil_r].
  intros (_ & sent & unsent & texts & -> & Htexts & Hs & Hall)%send_all_cases. exists texts. split; [done|].
  intros Hr. rewrite (Hall Hr), app_nil_r in Er. exists cursors, (clock out (up_ticks s)), sent. by rewrite Er.
Qed.

End handshake.

(** C16: the handshake, as the task of the connection performs it (the
    publications of other tasks, which may go out as soon as the socket is set,
    are not its frames). Whatever the backend sends, [self._ws] is cleared when
    the connection ends, and either this task sent nothing and touched neither
    spool nor queue, and an exception ended it, or the first frame was a welcome
    for this engine and protocol version and the first frame this task sent was
    a hello with the engine's capabilities. When the task ends without an
    exception, the hello was followed by the replay of the spool after the
    backend's cursors, complete and in order, before anything else it sent. *)
Theorem handshake {S} `{!EventSpool S} `{!CommandHandlers S} out engine_id version c frames (s s' : uplink S) r :
  run_connection out engine_id version c frames s = (r, s') →
  up_ws s' = false ∧
  ((∃ e, r = Err e) ∧ up_sent s' = up_sent s ∧ up_world s' = up_world s ∨
   ∃ f fs w e text rest,
     frames = f :: fs ∧ welcomes engine_id (clock out (up_ticks s)) f w ∧
     env_type e = u "hello" ∧ env_payload e = hello_payload version c ∧ to_json e = Ok text ∧
     up_sent s' = up_sent s ++ text :: rest ∧
     (r = Ok () → ∃ cursors t events texts more,
        last_sequences (env_payload w) = Ok cursors ∧
        (spool_replay_after t cursors (up_world s)).1 = Ok events ∧
        Forall2 (λ e x, to_json e = Ok x) events texts ∧ rest = texts ++ more)).
Proof.
  unfold run_connection. unfold mbind at 1, M_bind at 1. unfold set_ws at 1, modify at 1.
  set (s0 := Uplink (up_world s) true (up_interval s) (up_sent s) (up_ticks s) (up_ids s) (up_sends s)).
  unfold try_finally. unfold mbind at 1, M_bind at 1.
  destruct (receive_welcome out engine_id (head frames) s0) as [rw s1] eqn:E1.
  apply receive_welcome_cases in E1 as (Hw1 & Hs1 & _ & _ & Hwel). cbn [s0 up_world up_sent] in Hw1, Hs1.
  destruct rw as [w|x]; [|intros [= <- <-]; split; [done|]; left; split_and!; [by eexists|done|done]].
  destruct Hwel as (f & Hf & Hwel). destruct frames as [|f' fs]; [done|]. injection Hf as ->.
  unfold mbind at 1, M_bind at 1.
  destruct (send_hello out engine_id version c s1) as [rh s2] eqn:E2.
  apply send_hello_cases in E2 as [Hw2 Hhello].
  destruct rh as [[]|x]; [|intros [= <- <-]; split; [done|]; left; cbn; split_and!; [by eexists|congruence|congruence]].
  destruct Hhello as (e & text & Het & Hep & Htext & Hs2).
  unfold mbind at 1, M_bind at 1.
  destruct (replay_spool out w s2) as [rp s3] eqn:E3. apply replay_spool_cases in E3 as (texts & Hs3 & Hreplay).
  destruct rp as [[]|x].
  2: { intros [= <- <-]. split; [done|]. right. exists f, fs, w, e, text, texts.
       split_and!; try done. cbn. by rewrite Hs3, Hs2, Hs1, <- app_assoc. }
  destruct (for_each (handle_frame out engine_id) (tail (f :: fs)) s3) as [rl s4] eqn:E4.
  assert (up_sent s3 `prefix_of` up_sent s4) as [more Hmore].
  { pose proof (steps_for_each grows (handle_frame out engine_id) (tail (f :: fs)) (grows_handle_frame out engine_id) s3) as Hg.
    by rewrite E4 in Hg. }
  intros [= <- <-]. split; [done|]. right. exists f, fs, w, e, text, (texts ++ more).
  split_and!; try done; [cbn; by rewrite Hmore, Hs3, Hs2, Hs1, <- !app_assoc|].
  intros _. destruct (Hreplay eq_refl) as (cursors & t & events & Hc & He & Ht).
  exists cursors, t, events, texts, more. split_and!; try done. by rewrite <- Hw1, <- Hw2.
Qed.

(** A frame that does not decode, or that names another engine, is
    refused: no command handler runs, the spool is untouched, nothing is sent. *)
Theorem foreign_frame_refused {S} `{!EventSpool S} `{!CommandHandlers S} out engine_id f (s : uplink S) :
  (∀ e, decode_frame (clock out (up_ticks s)) (Some INBOUND_MESSAGE_TYPES) f = Ok e → env_engine_id e ≠ engine_id) →
  let '(r, s') := handle_frame out engine_id f s in
  (∃ e, r = Err e ∧ (isinstance e ProtocolError = true ∨ e = surrogate_error ∨ e = digits_error)) ∧
  up_world s' = up_world s ∧ up_sent s' = up_sent s ∧ up_ws s' = up_ws s.
Proof.
  intros Hf. unfold handle_frame. munfold. unfold now.
  destruct (decode_frame (clock out (up_ticks s)) (Some INBOUND_MESSAGE_TYPES) f) as [e|x] eqn:Ed.
  - unfold ustr_eqb. rewrite bool_decide_false by (by apply Hf). cbn. split; [|done]. eexists. split; [done|by left].
  - split; [|done]. exists x. split; [done|]. by eapply decode_frame_err.
Qed.

(** * The websocket address *)

Lemma endswith_spec s p : endswith s p = true ↔ ∃ r, s = r ++ p.
Proof.
  unfold endswith. rewrite startswith_spec. split; intros [r H].
  - exists (reverse r). apply (f_equal reverse) in H. by rewrite reverse_involutive, reverse_app, reverse_involutive in H.
  - exists (reverse r). by rewrite H, reverse_app.
Qed.

Lemma secure_origin_Ok nc url :
  is_secure_origin nc url = Ok true → ∃ p, urlparse nc url = Ok p ∧ u_scheme p = u "https" ∧ u_netloc p ≠ [].
Proof.
  unfold is_secure_origin. intros (p & Hp & H)%result_bind_Ok_inv. injection H as H.
  apply andb_true_iff in H as [H1%bool_decide_eq_true H2%negb_true_iff%bool_decide_eq_false]. by exists p.
Qed.

(** The joined address of a secure scheme: host, then a path that ends in [/ws]. *)
Lemma urlunparse_wss host path : host ≠ [] → endswith path (u "/ws") = true →
  ∃ p, urlunparse (u "wss") host path = u "wss://" ++ host ++ 47%N :: p ∧ endswith (47%N :: p) (u "/ws") = true.
Proof.
  intros Hh (r & ->)%endswith_spec. destruct host as [|c host]; [done|].
  unfold urlunparse. change (u "wss") with [119; 115; 115]%N. cbv zeta.
  assert (∃ p, (if match r ++ u "/ws" with c :: _ => (c =? 47)%N | [] => false end
                then r ++ u "/ws" else 47%N :: r ++ u "/ws") = 47%N :: p ∧ endswith (47%N :: p) (u "/ws") = true) as (p & Hp & He).
  { destruct r as [|x r]; [exists (u "ws"); by vm_compute|]. cbn [app]. destruct (N.eqb_spec x 47) as [->|Hx].
    - exists (r ++ u "/ws"). split; [done|]. apply endswith_spec. by exists (47%N :: r).
    - exists (x :: r ++ u "/ws"). split; [done|]. apply endswith_spec. by exists (47%N :: x :: r). }
  destruct (r ++ u "/ws") as [|x t] eqn:Er; [by destruct r|]. rewrite Hp.
  exists p. by split.
Qed.

(** A secure address becomes a [wss://] address of the same host. *)
Lemma secure_websocket_url nc url : is_secure_origin nc url = Ok true →
  ∃ parsed p, urlparse nc url = Ok parsed ∧ u_netloc parsed ≠ [] ∧
    websocket_url nc url = Ok (u "wss://" ++ u_netloc parsed ++ 47%N :: p) ∧ endswith (47%N :: p) (u "/ws") = true.
Proof.
  intros (p & Hp & Hs & Hn)%secure_origin_Ok. unfold websocket_url. rewrite Hp. munfold. rewrite Hs.
  change (negb (mem_str (u "https") [u "http"; u "https"; u "ws"; u "wss"])) with false. cbv iota.
  change (ustr_eqb (u "https") (u "http")) with false. change (ustr_eqb (u "https") (u "https")) with true. cbv iota.
  set (path := if endswith _ _ then _ else _). assert (endswith path (u "/ws") = true) as He.
  { unfold path. destruct (endswith (rstrip _ _) _) eqn:E; [done|]. apply endswith_spec.
    exists (rstrip (is_char 47) (u_path p) ++ u "/api/v2/build-engines/agent"). by rewrite <- app_assoc. }
  destruct (urlunparse_wss (u_netloc p) path Hn He) as (q & -> & Hq). by exists p, q.
Qed.

(** An accepted configuration has a secure address or none. *)
Lemma post_init_backend nc c c' url : post_init nc c = Ok c' → cf_backend_url c = Some url → is_secure_origin nc url = Ok true.
Proof.
  unfold post_init. intros H Hu. rewrite Hu in H.
  do 6 (apply result_bind_Ok_inv in H as ([] & _ & H)). apply result_bind_Ok_inv in H as ([] & Hsec & _).
  by apply result_bind_Ok_inv in Hsec as ([] & Hok & Hsec).
Qed.

(** An engine whose configuration was accepted with a backend address
    connects over TLS and to the configured host: the address of the websocket
    is [wss://], that host, and a path that ends in [/ws]. *)
Theorem configured_backend_is_secure nc c c' url :
  post_init nc c = Ok c' → cf_backend_url c = Some url →
  ∃ parsed p, urlparse nc url = Ok parsed ∧ u_netloc parsed ≠ [] ∧
    websocket_url nc url = Ok (u "wss://" ++ u_netloc parsed ++ 47%N :: p) ∧ endswith (47%N :: p) (u "/ws") = true.
Proof. intros H Hu. by apply secure_websocket_url, (post_init_backend nc c c'). Qed.
