(* ===== verification/AgentUplink.v ===== *)
(** The uplink on the engine's own queue, outbox and handlers: assignments,
    drain mode and acknowledgements end to end. *)

From S2P Require Import Prelude PyStr Dict Json Clock Uuid Protocol Db Store StoreRun StoreInv Queue Outbox OutboxProofs System.
From S2P Require Import PackageJson Framework Fs Cache Handlers Url Config Uplink UplinkProofs.

Local Open Scope Z_scope.

(** * The agent as a spool *)

(** The outbox's connection sees the committed database. *)
Definition on_outbox {A} (m : M db A) : M agent A :=
  on_store (zoom st_disk (λ d s, Store d (st_tx s) (st_transient s) (st_open s)) m).

#[export] Instance agent_spool (cfg : outbox_config) : EventSpool agent := {
  spool_append now e := on_outbox (append cfg now e);
  spool_replay_after now cursors := on_outbox (replay_after now cursors);
  spool_next_seq a := on_outbox (next_seq a);
  spool_ack_through a n := on_outbox (ack_through a n);
}.

(** The agent's database. *)
Definition disk (g : agent) : db := st_disk (ag_store g).

Lemma on_outbox_run {A} (m : M db A) g :
  (on_outbox m g).1 = (m (disk g)).1 ∧ disk (on_outbox m g).2 = (m (disk g)).2 ∧
  st_transient (ag_store (on_outbox m g).2) = st_transient (ag_store g) ∧
  st_tx (ag_store (on_outbox m g).2) = st_tx (ag_store g).
Proof. unfold on_outbox, on_store, zoom, disk. by destruct (m (st_disk (ag_store g))). Qed.

Lemma on_outbox_same {A} (m : M db A) g : (m (disk g)).2 = disk g → (on_outbox m g).2 = g.
Proof.
  unfold on_outbox, on_store, zoom, disk. destruct g as [[d tx tr op] f dr sc]. cbn. destruct (m d). by cbn; intros ->.
Qed.

#[export] Program Instance agent_spool_laws (cfg : outbox_config) : EventSpoolLaws agent (H := agent_spool cfg) := {
  spool_ok := λ g, spool_inv (disk g);
}.
Next Obligation. intros cfg a g. apply on_outbox_same, next_seq_pure. Qed.
Next Obligation.
  intros cfg a g n Hg. cbn. rewrite (proj1 (on_outbox_run (next_seq a) g)). apply (fresh_seq (disk g) a n Hg).
Qed.
Next Obligation. intros cfg now e g Hg. cbn. destruct (on_outbox_run (append cfg now e) g) as (_ & -> & _). by apply append_inv. Qed.
Next Obligation.
  intros cfg now e a n g g' Hg Ha Hn. cbn. rewrite !(proj1 (on_outbox_run (next_seq a) _)). intros Hs E.
  destruct (on_outbox_run (append cfg now e) g) as (H1 & H2 & _). rewrite E in H1, H2. cbn in H1, H2. rewrite H2.
  apply (append_advances cfg now e a n (disk g)); try done.
  by destruct (append cfg now e (disk g)) as [r d]; cbn in *; subst.
Qed.

(** * Lemmas: one command frame *)

Lemma find_row_append_old a r r' d : find_row a d = Some r → find_row a (with_jobs d (db_jobs d ++ [r'])) = Some r.
Proof.
  unfold find_row. cbn [db_jobs with_jobs]. rewrite List.filter_app. by destruct (List.filter _ (db_jobs d)).
Qed.

Lemma find_row_append_new r d :
  find_row (r_attempt_id r) d = None → find_row (r_attempt_id r) (with_jobs d (db_jobs d ++ [r])) = Some r.
Proof.
  unfold find_row. cbn [db_jobs with_jobs]. rewrite List.filter_app. destruct (List.filter _ (db_jobs d)); [|done].
  cbn. unfold is_attempt, ustr_eqb. by rewrite bool_decide_true.
Qed.

Section agent_uplink.
Context (out : outside) (engine_id : ustr) (cfg : outbox_config) (state_dir : path).

#[local] Existing Instance agent_spool.
#[local] Instance handlers : CommandHandlers agent := sqlite_command_handlers state_dir.

Implicit Types s : uplink agent.

Notation handle := (handle_frame (S := agent) (H := agent_spool cfg) out engine_id).
Notation publish := (publish_attempt_event (S := agent) (H := agent_spool cfg) out engine_id).

(** The frame is a command of this engine. *)
Definition commands (t : instant) (f : frame) (e : Envelope) (ty : ustr) : Prop :=
  decode_frame t (Some INBOUND_MESSAGE_TYPES) f = Ok e ∧ env_engine_id e = engine_id ∧ env_type e = ty.

(** The state in which a decoded frame is handled. *)
Definition after_tick s : uplink agent :=
  Uplink (up_world s) (up_ws s) (up_interval s) (up_sent s) (1 + up_ticks s) (up_ids s) (up_sends s).

Lemma handle_command f e ty s :
  commands (clock out (up_ticks s)) f e ty → handle f s = dispatch (H := agent_spool cfg) out engine_id e (after_tick s).
Proof.
  intros (Hd & He & _). unfold handle_frame. munfold. unfold now. rewrite Hd. unfold ustr_eqb.
  by rewrite (bool_decide_true (env_engine_id e = engine_id)).
Qed.

Lemma publish_keeps ty p b a s :
  spool_inv (disk (up_world s)) →
  let s' := (publish ty p b a s).2 in
  spool_inv (disk (up_world s')) ∧ keeps_jobs (disk (up_world s)) (disk (up_world s')) ∧
  st_transient (ag_store (up_world s')) = st_transient (ag_store (up_world s)) ∧
  ag_fs (up_world s') = ag_fs (up_world s).
Proof.
  intros Hok s'. destruct (publish ty p b a s) as [r s1] eqn:E. subst s'. cbn [snd].
  destruct (publish_cases (EventSpool0 := agent_spool cfg) (EventSpoolLaws0 := agent_spool_laws cfg) out engine_id ty p b a s r s1 Hok E) as [Hok' H].
  split; [exact Hok'|]. assert (up_world s1 = up_world s ∨ ∃ t e, up_world s1 = (on_outbox (append cfg t e) (up_world s)).2)
    as [->|(t & e & ->)].
  { destruct r as [e|x]; [right|]; [destruct H as (_ & _ & _ & _ & _ & _ & _ & t & _ & Hw & _); by exists t, e|].
    destruct H as (_ & _ & [Hw|(t & e & _ & Hw)]); [by left|right; by exists t, e]. }
  { split_and!; [apply keeps_refl|done|done]. }
  destruct (on_outbox_run (append cfg t e) (up_world s)) as (_ & -> & -> & _).
  split_and!; [by apply append_keeps|done|]. unfold on_outbox, on_store, zoom. by destruct (append _ _ _ _).
Qed.

Lemma next_seq_unknown a d :
  find_row a d = None →
  next_seq a d = (Err (queue_error (u "Cannot allocate an event sequence for an unknown attempt")), d).
Proof. intros H. unfold next_seq. munfold. by rewrite H. Qed.

(** A publication for an attempt that is not queued raises before anything happens. *)
Lemma publish_unknown ty p b a s :
  find_row a (disk (up_world s)) = None →
  publish ty p b a s = (Err (queue_error (u "Cannot allocate an event sequence for an unknown attempt")), s).
Proof.
  intros Ha. unfold publish_attempt_event, on_world, zoom. munfold. cbn [spool_next_seq agent_spool].
  pose proof (on_outbox_run (next_seq a) (up_world s)) as (H1 & _).
  pose proof (on_outbox_same (next_seq a) (up_world s) (next_seq_pure _ _)) as H2.
  rewrite (next_seq_unknown a _ Ha) in H1. destruct (on_outbox (next_seq a) (up_world s)) as [r g]. cbn in H1, H2.
  subst. by destruct s.
Qed.

(** The payload an assignment is queued with. *)
Definition assign_payload (e : Envelope) (b a : ustr) : jdict :=
  dset (u "attempt_id") (JStr a) (dset (u "build_job_id") (JStr b) (env_payload e)).

(** Handling an assignment, up to the status event. *)
Lemma assign_frame_run e b a s :
  attempt_fields e = Ok (b, a) →
  handle_assign_frame (H := agent_spool cfg) (H0 := handlers) out engine_id e s =
    let t := clock out (up_ticks s) in
    let '(r, g) := assign state_dir t (assign_payload e b a) (up_world s) in
    let s1 := Uplink g (up_ws s) (up_interval s) (up_sent s) (1 + up_ticks s) (up_ids s) (up_sends s) in
    match r with
    | Err x => (Err x, s1)
    | Ok result =>
        let state := default (if cmd_accepted result then u "ASSIGNED" else u "FAILED") (or_text (cmd_state result) None) in
        let '(rp, s2) := publish (u "attempt.status")
          [(u "build_job_id", JStr b); (u "attempt_id", JStr a); (u "state", JStr state)] b a s1 in
        (match rp with Ok _ => Ok () | Err x => Err x end, s2)
    end.
Proof.
  intros Hf. unfold handle_assign_frame. munfold. rewrite Hf. unfold now, on_world, zoom. cbn [up_world handle_assign handlers sqlite_command_handlers].
  fold (assign_payload e b a). destruct (assign state_dir _ _ (up_world s)) as [[result|x] g]; [|done].
  cbv zeta. by destruct (publish _ _ b a _) as [[]].
Qed.

Lemma assign_command f e s :
  commands (clock out (up_ticks s)) f e (u "job.assign") →
  handle f s = handle_assign_frame (H := agent_spool cfg) (H0 := handlers) out engine_id e (after_tick s).
Proof. intros H. rewrite (handle_command _ _ _ _ H). destruct H as (_ & _ & Hty). unfold dispatch. by rewrite Hty. Qed.

Lemma assign_payload_uuids e b a : is_uuid b = true → is_uuid a = true → assigns (assign_payload e b a) b a.
Proof.
  assert (∀ p k x, is_uuid x = true → dget k p = Some (JStr x) → required_payload_uuid p k = Ok x) as H.
  { intros p k x Hx Hg. unfold required_payload_uuid, required_payload_str. rewrite Hg. munfold.
    destruct x as [|c x]; [done|]. munfold. unfold is_uuid in Hx.
    destruct (uuid_parse (c :: x)) as [v|]; [|done]. apply bool_decide_eq_true in Hx. unfold ustr_eqb.
    by rewrite bool_decide_true. }
  intros Hb Ha. unfold assign_payload. split; apply H; try done; [|apply dget_dset_eq].
  rewrite dget_dset_ne by (by vm_compute). apply dget_dset_eq.
Qed.

(** A fresh assignment outside of drain mode: the row it queues. *)
Lemma assign_fresh t p b a g :
  assigns p b a → json_ok (JObj p) = true → exists_ (ag_fs g) (drain_marker_path state_dir) = false →
  idle (ag_store g) → db_ok (disk g) → spool_inv (disk g) → find_row a (disk g) = None →
  let d' := with_jobs (disk g) (db_jobs (disk g) ++ [new_row b a (json_dumps (durable_payload p)) (format_datetime t) (disk g)]) in
  ∃ g', assign state_dir t p g = (Ok (MkCommandResult true (Some (u "QUEUED")) None []), g') ∧
    disk g' = d' ∧ st_transient (ag_store g') = dsetdefault a p (st_transient (ag_store g)) ∧ spool_inv d'.
Proof.
  intros Hp Hj Hm Hi Hd Hs Ha d'. pose proof (op_db_spool (OpEnqueue t p) (disk g) Hj Hd Hs) as Hs'.
  pose proof (enqueue_run t p (ag_store g) Hi (db_ok_table _ Hd) Hj) as H. cbv zeta in H. cbn [op_db] in Hs'.
  destruct Hp as [Hb Ha']. munfold. rewrite Hb, Ha' in *. change (st_disk (ag_store g)) with (disk g) in H.
  assert (enqueue_db b a (json_dumps (durable_payload p)) (format_datetime t) (disk g) = d') as Ed
    by (unfold enqueue_db; by rewrite Ha).
  rewrite Ed, Ha in *. assert (find_row a d' = Some (new_row b a (json_dumps (durable_payload p)) (format_datetime t) (disk g))) as Ef.
  { by apply (find_row_append_new (new_row b a _ _ _)). }
  rewrite Ef in H. cbn [hit] in H. unfold is_build at 1, ustr_eqb in H. cbn [r_build_job_id new_row] in H.
  rewrite bool_decide_true in H by done. destruct H as [op H]. unfold assign, set_draining, on_store, zoom. munfold.
  cbn [ag_fs ag_store ag_cache_reset_scopes]. rewrite Hm. cbn [ag_fs ag_store ag_cache_reset_scopes ag_draining].
  rewrite H. eexists. split_and!; [reflexivity|done|done|done].
Qed.

(** C17: an assignment is durable. Outside of drain mode (the marker file is
    absent), handling a [job.assign] frame for an attempt that neither the
    database nor the memory knows, with UUIDs for build and attempt, leaves the
    attempt queued in the committed database with its payload less the secrets,
    and the whole payload in memory, whichever way the frame ends (the status
    event may fail to be stored or sent); what other attempts have stored
    stays. *)
Theorem assignment_durable f e b a s :
  commands (clock out (up_ticks s)) f e (u "job.assign") → attempt_fields e = Ok (b, a) →
  is_uuid b = true → is_uuid a = true → json_ok (JObj (assign_payload e b a)) = true →
  let g := up_world s in
  exists_ (ag_fs g) (drain_marker_path state_dir) = false →
  idle (ag_store g) → db_ok (disk g) → spool_inv (disk g) →
  find_row a (disk g) = None → dget a (st_transient (ag_store g)) = None →
  let g' := up_world (handle f s).2 in
  (∃ r, find_row a (disk g') = Some r ∧ r_build_job_id r = b ∧ r_state r = QUEUED ∧ r_attempts r = 0 ∧
        r_payload_json r = json_dumps (durable_payload (assign_payload e b a))) ∧
  dget a (st_transient (ag_store g')) = Some (assign_payload e b a) ∧
  ∀ a' r, find_row a' (disk g) = Some r → ∃ r', find_row a' (disk g') = Some r' ∧ same_job r r'.
Proof.
  intros Hc Hf Hb Ha Hj g Hm Hi Hd Hs Hn Htr. rewrite (assign_command _ _ _ Hc), (assign_frame_run _ _ _ _ Hf). cbv zeta.
  set (t := clock out _).
  destruct (assign_fresh t _ b a g (assign_payload_uuids e b a Hb Ha) Hj Hm Hi Hd Hs Hn) as (g1 & E & Ed & Et & Hs').
  cbn [after_tick up_world up_ws up_interval up_sent up_ticks up_ids up_sends]. fold g. rewrite E.
  set (s1 := Uplink g1 _ _ _ _ _ _).
  match goal with |- context [publish ?ty ?p b a s1] => set (ty0 := ty); set (p0 := p) end.
  rewrite <- Ed in Hs'. destruct (publish_keeps ty0 p0 b a s1 Hs') as (_ & Hk & Htr' & _). cbn [s1 up_world] in Hk, Htr'.
  destruct (publish ty0 p0 b a s1) as [rp s2]. cbn [snd up_world] in Hk, Htr' |- *. rewrite Ed in Hk.
  split_and!.
  - specialize (Hk a). set (r0 := new_row b a _ _ _) in Hk. rewrite (find_row_append_new r0) in Hk by done.
    destruct Hk as (r' & Hr' & H1 & H2 & H3 & H4 & _). exists r'. by split_and!.
  - rewrite Htr', Et. unfold dsetdefault. destruct (dmem _ _) eqn:Em; [|apply dget_dset_eq].
    apply dmem_spec in Em as [? Em]. congruence.
  - intros a' r Hr. specialize (Hk a'). rewrite (find_row_append_old _ _ _ _ Hr) in Hk. exact Hk.
Qed.

(** In drain mode a [job.assign] frame for a new attempt is refused by
    the queue, but the refusal cannot be reported: publishing the status of an
    attempt that is not queued raises, and the exception leaves the frame loop,
    so the connection ends. Nothing is stored and nothing is sent. *)
Theorem drained_assignment_ends_connection f e b a s :
  commands (clock out (up_ticks s)) f e (u "job.assign") → attempt_fields e = Ok (b, a) →
  exists_ (ag_fs (up_world s)) (drain_marker_path state_dir) = true → find_row a (disk (up_world s)) = None →
  let '(r, s') := handle f s in
  r = Err (queue_error (u "Cannot allocate an event sequence for an unknown attempt")) ∧
  disk (up_world s') = disk (up_world s) ∧ ag_fs (up_world s') = ag_fs (up_world s) ∧ up_sent s' = up_sent s.
Proof.
  intros Hc Hf Hm Hn. rewrite (assign_command _ _ _ Hc), (assign_frame_run _ _ _ _ Hf). cbv zeta.
  cbn [after_tick up_world up_ws up_interval up_sent up_ticks up_ids up_sends].
  unfold assign, set_draining. munfold. cbn [ag_fs ag_store ag_cache_reset_scopes]. rewrite Hm.
  rewrite publish_unknown by done. by split_and!.
Qed.

(** An acknowledgement frame only compacts the spool. A valid
    [event.ack] removes exactly the attempt's events up to its number, from the
    outbox, and nothing else of the agent; any other one is refused and changes
    nothing. *)
Theorem ack_frame_exact f e s :
  commands (clock out (up_ticks s)) f e (u "event.ack") →
  let '(r, s') := handle f s in
  up_sent s' = up_sent s ∧ ag_fs (up_world s') = ag_fs (up_world s) ∧
  st_transient (ag_store (up_world s')) = st_transient (ag_store (up_world s)) ∧
  match (match env_attempt_id e with Some ((_ :: _) as x) => Some (JStr x) | _ => dget (u "attempt_id") (env_payload e) end),
        dget (u "last_seq") (env_payload e) with
  | Some (JStr a), Some (JInt n) =>
      if is_uuid a && (0 <=? n)
      then r = Ok () ∧ disk (up_world s') = with_events (disk (up_world s))
             (List.filter (λ ev, negb (ustr_eqb (e_attempt_id ev) a && (e_seq ev <=? n))) (db_events (disk (up_world s))))
      else r = Err (protocol_error (u "event.ack requires attempt_id and last_seq")) ∧ disk (up_world s') = disk (up_world s)
  | _, _ => r = Err (protocol_error (u "event.ack requires attempt_id and last_seq")) ∧ disk (up_world s') = disk (up_world s)
  end.
Proof.
  intros Hc. rewrite (handle_command _ _ _ _ Hc). destruct Hc as (_ & _ & Hty). unfold dispatch. rewrite Hty.
  change (ustr_eqb (u "event.ack") (u "ping")) with false. change (ustr_eqb (u "event.ack") (u "job.assign")) with false.
  change (ustr_eqb (u "event.ack") (u "job.cancel")) with false. change (ustr_eqb (u "event.ack") (u "event.ack")) with true.
  cbv iota. unfold ack_event. set (o := match env_attempt_id e with Some ((_ :: _) as x) => _ | _ => _ end).
  assert (match or_text (env_attempt_id e) None with Some a => Some (JStr a) | None => dget (u "attempt_id") (env_payload e) end = o) as ->.
  { unfold o. by destruct (env_attempt_id e) as [[|]|]. }
  destruct o as [[| | | |a| |]|]; try by split_and!.
  destruct (dget (u "last_seq") (env_payload e)) as [[| |n| | | |]|]; try by split_and!.
  destruct (is_uuid a && (0 <=? n)); [|by split_and!].
  unfold on_world, zoom. cbn [spool_ack_through agent_spool after_tick up_world].
  pose proof (on_outbox_run (ack_through a n) (up_world s)) as (H1 & H2 & H3 & _).
  assert (ag_fs (on_outbox (ack_through a n) (up_world s)).2 = ag_fs (up_world s)) as H4.
  { unfold on_outbox, on_store, zoom. by destruct (ack_through a n _). }
  destruct (on_outbox (ack_through a n) (up_world s)) as [r g]. cbn in H1, H2, H3, H4 |- *. subst r. split_and!; try done.
Qed.

End agent_uplink.
