(* ===== verification/UplinkTasks.v ===== *)
(** The tasks of the uplink at once (src/src/build_engine/agent/uplink.py): any
    number of publications under [_publish_lock], connections that come and go,
    and other tasks that use the spool, interleaved at every [await]. *)

From Stdlib Require Import Sorted.
From S2P Require Import Prelude PyStr Dict Json Clock Uuid Protocol Db StoreInv Outbox OutboxProofs System Handlers Uplink UplinkProofs AgentUplink.

Local Open Scope Z_scope.

(** * What the tasks need of the spool *)

(** No append, failed ones included, makes an attempt's next number smaller. *)
Class EventSpoolGrowth (S : Type) `{EventSpoolLaws S} := {
  spool_append_grows : ∀ now e b s n, spool_ok s → (spool_next_seq b s).1 = Ok n →
    ∃ n', (spool_next_seq b (spool_append now e s).2).1 = Ok n' ∧ n ≤ n';
}.

Lemma next_seq_find b d d' : find_row b d = find_row b d' → (next_seq b d).1 = (next_seq b d').1.
Proof. intros E. unfold next_seq, gets. unfold mbind, M_bind. rewrite E. by destruct (find_row b d'). Qed.

Lemma cursor_grows now a q b d n : unique_attempts d → (next_seq b d).1 = Ok n →
  ∃ n', (next_seq b (append_cursor now a q d).2).1 = Ok n' ∧ n ≤ n'.
Proof.
  intros Hu. unfold next_seq. munfold. rewrite cursor_find by done. destruct (find_row b d) as [r|]; [|done].
  intros [= <-]. eexists. split; [done|]. destruct (is_attempt a r); cbn; lia.
Qed.

Lemma append_grows cfg now e b d n : spool_inv d → (next_seq b d).1 = Ok n →
  ∃ n', (next_seq b (append cfg now e d).2).1 = Ok n' ∧ n ≤ n'.
Proof.
  intros Hd Hn. assert (∃ n', (next_seq b d).1 = Ok n' ∧ n ≤ n') as Hsame by (exists n; split; [done|lia]).
  unfold append. destruct (env_attempt_id e) as [a|], (env_seq e) as [q|]; try exact Hsame.
  unfold mbind, M_bind. pose proof (append_insert_run now e a q d) as H.
  destruct (append_insert now e a q d) as [[[]|x] d1]; [|by destruct H as [-> _]|by subst].
  destruct H as (text & _ & _ & (-> & _ & _ & _ & _)%insert_event_Ok).
  set (d1 := with_events d _). rewrite (next_seq_find b d d1 eq_refl) in Hn.
  destruct (cursor_grows now a q b d1 n (sp_attempts _ Hd) Hn) as (n' & Hn' & Hle).
  change (append_cursor now a q d1) with (Ok (A := ()) (), (append_cursor now a q d1).2). cbn beta iota.
  pose proof (prune_thinned cfg now (append_cursor now a q d1).2) as Ht. exists n'. split; [|done]. rewrite <- Hn'.
  destruct (prune cfg now (append_cursor now a q d1).2) as [[k|x] d2]; by apply next_seq_find, thinned_find.
Qed.

#[export] Instance outbox_spool_growth (cfg : outbox_config) : EventSpoolGrowth db (H := outbox_spool cfg) (H0 := outbox_spool_laws cfg).
Proof. split. intros now e b s n. apply append_grows. Qed.

#[export] Instance agent_spool_growth (cfg : outbox_config) : EventSpoolGrowth agent (H := agent_spool cfg) (H0 := agent_spool_laws cfg).
Proof.
  split. intros now e b g n Hg. cbn. rewrite !(proj1 (on_outbox_run (next_seq b) _)).
  destruct (on_outbox_run (append cfg now e) g) as (_ & -> & _). by apply append_grows.
Qed.

(** * The tasks *)

(** The arguments of one call of [publish_attempt_event]. *)
Record publication := MkPublication { pb_type : ustr; pb_payload : jdict; pb_build_job : ustr; pb_attempt : ustr }.

(** Where a call is between two of its [await]s: it waits for the lock, has it,
    has its number, has its event in the spool, waits for the send over the
    connection it found, has returned or raised. *)
Inductive stage :=
| Waiting
| Entered
| Numbered (seq : Z)
| Stored (e : Envelope)
| Sending (e : Envelope) (connection : nat)
| Ended.

(** Within [async with self._publish_lock]. *)
Definition inside (st : stage) : bool := match st with Waiting | Ended => false | _ => true end.

Section tasks.
Context {S : Type} `{EventSpool S} (engine_id : ustr) (calls : list publication).

(** [tk_socket] is [self._ws], the number of its connection; [tk_lock] the call
    that holds the lock. [tk_sent] are the frames that reached the backend, each
    with its connection. [tk_stored] and [tk_live] record the events that the
    spool accepted and the ones that calls sent, in this order. *)
Record tasks := Tasks {
  tk_world : S;
  tk_socket : option nat;
  tk_connections : nat;
  tk_lock : option nat;
  tk_stages : list stage;
  tk_sent : list (nat * ustr);
  tk_stored : list Envelope;
  tk_live : list Envelope;
}.

(** One step: of the call [i]; or a connection opens (its [run_connection] begins)
    or closes, sends a frame of its own (hello, replay, heartbeat, pong); or
    another task uses the spool. *)
Inductive action :=
| AEnter (i : nat)
| ANumber (i : nat)
| AStore (i : nat) (t : instant) (id : ustr) (t' : instant)
| ALook (i : nat)
| ASend (i : nat) (delivered : bool)
| AOpen
| AClose
| AFrame (connection : nat) (text : ustr)
| AOther (f : S → S).

(** The call [i] goes on to a stage of the section; or leaves it and the lock. *)
Definition goes_on (i : nat) (st : stage) (w : S) (stored : list Envelope) (s : tasks) : tasks :=
  Tasks w (tk_socket s) (tk_connections s) (Some i) (<[i := st]> (tk_stages s)) (tk_sent s) stored (tk_live s).
Definition leaves (i : nat) (w : S) (socket : option nat) (sent : list (nat * ustr)) (live : list Envelope) (s : tasks) : tasks :=
  Tasks w socket (tk_connections s) None (<[i := Ended]> (tk_stages s)) sent (tk_stored s) live.
(** It raises: nothing was sent. *)
Definition fails (i : nat) (w : S) (s : tasks) : tasks := leaves i w (tk_socket s) (tk_sent s) (tk_live s) s.

(** [next_seq], [new_envelope] and [append], [self._ws], [send]. *)
Definition number_step (i : nat) (c : publication) (s : tasks) : tasks :=
  match spool_next_seq (pb_attempt c) (tk_world s) with
  | (Ok n, w) => goes_on i (Numbered n) w (tk_stored s) s
  | (Err _, w) => fails i w s
  end.
Definition store_step (i : nat) (c : publication) (n : Z) (t : instant) (id : ustr) (t' : instant) (s : tasks) : tasks :=
  match new_envelope t id (pb_type c) (pb_payload c) engine_id (Some (pb_build_job c)) (Some (pb_attempt c)) (Some n) None None with
  | Err _ => fails i (tk_world s) s
  | Ok e =>
      match spool_append t' e (tk_world s) with
      | (Ok _, w) => goes_on i (Stored e) w (tk_stored s ++ [e]) s
      | (Err _, w) => fails i w s
      end
  end.
Definition look_step (i : nat) (e : Envelope) (s : tasks) : tasks :=
  match tk_socket s with
  | Some connection => goes_on i (Sending e connection) (tk_world s) (tk_stored s) s
  | None => leaves i (tk_world s) None (tk_sent s) (tk_live s) s
  end.
(** A send that fails clears [self._ws], whatever it holds by then. *)
Definition send_step (i : nat) (e : Envelope) (connection : nat) (delivered : bool) (s : tasks) : tasks :=
  match to_json e with
  | Ok text => if delivered then leaves i (tk_world s) (tk_socket s) (tk_sent s ++ [(connection, text)]) (tk_live s ++ [e]) s
               else leaves i (tk_world s) None (tk_sent s) (tk_live s) s
  | Err _ => leaves i (tk_world s) None (tk_sent s) (tk_live s) s
  end.

Definition perform (a : action) (s : tasks) : option tasks :=
  match a with
  | AEnter i =>
      match tk_stages s !! i, tk_lock s with
      | Some Waiting, None => Some (goes_on i Entered (tk_world s) (tk_stored s) s)
      | _, _ => None
      end
  | ANumber i =>
      match tk_stages s !! i, calls !! i with Some Entered, Some c => Some (number_step i c s) | _, _ => None end
  | AStore i t id t' =>
      match tk_stages s !! i, calls !! i with Some (Numbered n), Some c => Some (store_step i c n t id t' s) | _, _ => None end
  | ALook i => match tk_stages s !! i with Some (Stored e) => Some (look_step i e s) | _ => None end
  | ASend i delivered =>
      match tk_stages s !! i with Some (Sending e connection) => Some (send_step i e connection delivered s) | _ => None end
  | AOpen => Some (Tasks (tk_world s) (Some (tk_connections s)) (1 + tk_connections s) (tk_lock s) (tk_stages s) (tk_sent s) (tk_stored s) (tk_live s))
  | AClose => Some (Tasks (tk_world s) None (tk_connections s) (tk_lock s) (tk_stages s) (tk_sent s) (tk_stored s) (tk_live s))
  | AFrame connection text =>
      Some (Tasks (tk_world s) (tk_socket s) (tk_connections s) (tk_lock s) (tk_stages s) (tk_sent s ++ [(connection, text)]) (tk_stored s) (tk_live s))
  | AOther f => Some (Tasks (f (tk_world s)) (tk_socket s) (tk_connections s) (tk_lock s) (tk_stages s) (tk_sent s) (tk_stored s) (tk_live s))
  end.

Fixpoint run (l : list action) (s : tasks) : option tasks :=
  match l with [] => Some s | a :: l => s ← perform a s; run l s end.

(** Nothing has been published yet. *)
Definition begin (w : S) : tasks := Tasks w None 0 None ((λ _, Waiting) <$> calls) [] [] [].

(** The stored events of the attempt [a]. *)
Definition of_attempt (a : ustr) (l : list Envelope) : list Envelope := List.filter (λ e, bool_decide (env_attempt_id e = Some a)) l.

End tasks.

(** * What every interleaving keeps *)

Section numbers.
Context {S : Type} `{EventSpoolGrowth S} (engine_id : ustr) (calls : list publication) (a : ustr) (n0 : Z).

Abbreviation next w := (spool_next_seq a w).1.

(** Other tasks keep the spool's invariant and do not publish for [a]. *)
Definition other_ok (f : S → S) : Prop := ∀ w, spool_ok w → spool_ok (f w) ∧ ∀ n, next w = Ok n → next (f w) = Ok n.
Definition action_ok (act : action) : Prop := match act with AOther f => other_ok f | _ => True end.

(** The events have numbers, each greater than the one before, from [n0] on and below [m]. *)
Definition increasing (m : Z) (l : list Envelope) : Prop :=
  ∃ ns, env_seq <$> of_attempt a l = Some <$> ns ∧ StronglySorted Z.lt ns ∧ Forall (λ n, n0 ≤ n < m) ns.

Definition numbered (w : S) (stored : list Envelope) : Prop := ∃ m, next w = Ok m ∧ n0 ≤ m ∧ increasing m stored.

(** What the call in the section knows. *)
Definition holds (i : nat) (st : stage) (w : S) (stored live : list Envelope) : Prop :=
  inside st = true ∧
  match st with
  | Numbered n => (∀ c, calls !! i = Some c → pb_attempt c = a → next w = Ok n) ∧ sublist live stored
  | Stored e | Sending e _ => ∃ l, stored = l ++ [e] ∧ sublist live l
  | _ => sublist live stored
  end.

Definition others_outside (i : nat) (stages : list stage) : Prop :=
  ∀ j st, j ≠ i → stages !! j = Some st → inside st = false.

Definition lock_ok (s : tasks (S := S)) : Prop :=
  match tk_lock s with
  | None => (∀ j st, tk_stages s !! j = Some st → inside st = false) ∧ sublist (tk_live s) (tk_stored s)
  | Some i => (∃ st, tk_stages s !! i = Some st ∧ holds i st (tk_world s) (tk_stored s) (tk_live s)) ∧ others_outside i (tk_stages s)
  end.

(** The frames of the events sent, among the frames the backend got. *)
Definition live_frames (live : list Envelope) (sent : list (nat * ustr)) : Prop :=
  ∃ texts, Forall2 (λ e x, to_json e = Ok x) live texts ∧ sublist texts sent.*2.

Record inv (s : tasks) : Prop := Inv {
  iv_spool : spool_ok (tk_world s);
  iv_numbers : numbered (tk_world s) (tk_stored s);
  iv_calls : length (tk_stages s) = length calls;
  iv_lock : lock_ok s;
  iv_live : live_frames (tk_live s) (tk_sent s);
}.

Lemma inv_begin w : spool_ok w → next w = Ok n0 → inv (begin calls w).
Proof.
  intros Hw Hn. split; cbn; [done| |by rewrite length_fmap| |].
  - exists n0. split_and!; [done|lia|]. exists []. split_and!; [done|constructor|constructor].
  - split; [|constructor]. intros j st. rewrite list_lookup_fmap. by destruct (calls !! j); intros [= <-].
  - exists []. split; constructor.
Qed.

Lemma holder s i st : inv s → tk_stages s !! i = Some st → inside st = true →
  tk_lock s = Some i ∧ holds i st (tk_world s) (tk_stored s) (tk_live s) ∧ others_outside i (tk_stages s).
Proof.
  intros Hs Hi Hin. pose proof (iv_lock _ Hs) as Hl. unfold lock_ok in Hl. destruct (tk_lock s) as [j|].
  - destruct Hl as [(st' & Hj & Hh) Ho]. destruct (decide (i = j)) as [->|Hne]; [|by rewrite (Ho i st Hne Hi) in Hin].
    rewrite Hi in Hj. by injection Hj as <-.
  - destruct Hl as [Ho _]. by rewrite (Ho i st Hi) in Hin.
Qed.

Lemma others_insert i st stages : others_outside i stages → others_outside i (<[i := st]> stages).
Proof. intros Ho j st' Hne. rewrite list_lookup_insert_ne by done. by apply Ho. Qed.

Lemma all_outside i stages : others_outside i stages → ∀ j st, <[i := Ended]> stages !! j = Some st → inside st = false.
Proof.
  intros Ho j st. destruct (decide (j = i)) as [->|Hne]; [|rewrite list_lookup_insert_ne by done; by apply Ho].
  intros Hj. destruct (decide (i < length stages)%nat); [|rewrite list_insert_ge in Hj by lia; apply lookup_lt_Some in Hj; lia].
  rewrite list_lookup_insert_eq in Hj by done. by injection Hj as <-.
Qed.

(** A call goes on within the section. *)
Lemma inv_goes_on s i st st' w stored : inv s → tk_stages s !! i = Some st → others_outside i (tk_stages s) →
  spool_ok w → numbered w stored → holds i st' w stored (tk_live s) → inv (goes_on i st' w stored s).
Proof.
  intros [Hw Hn Hc Hl Hf] Hi Ho Hw' Hn' Hh. split; cbn; [done|done|by rewrite length_insert| |done].
  split; [|by apply others_insert]. exists st'. split; [|done]. apply list_lookup_insert_eq. by eapply lookup_lt_Some.
Qed.

(** A call leaves the section. *)
Lemma inv_leaves s i w socket sent live : inv s → others_outside i (tk_stages s) → spool_ok w → numbered w (tk_stored s) →
  sublist live (tk_stored s) → live_frames live sent → inv (leaves i w socket sent live s).
Proof.
  intros [Hw Hn Hc Hl Hf] Ho Hw' Hn' Hs Hf'. split; cbn; [done|done|by rewrite length_insert| |done].
  split; [|done]. by apply all_outside.
Qed.

Lemma holds_live i st w stored live : holds i st w stored live → sublist live stored.
Proof.
  intros [Hin Hh]. destruct st as [| |n|e|e c|]; try done; [by destruct Hh|..];
    destruct Hh as (l & -> & Hs); (etrans; [exact Hs|by apply sublist_inserts_r]).
Qed.

Lemma inv_fails s i st w : inv s → tk_stages s !! i = Some st → inside st = true →
  spool_ok w → numbered w (tk_stored s) → inv (fails i w s).
Proof.
  intros Hs Hi Hin Hw Hn. destruct (holder s i st Hs Hi Hin) as (_ & Hh & Ho).
  apply inv_leaves; [done..|by eapply holds_live|apply Hs].
Qed.

(** The number grows with an append, and is used up by the append of an event of [a]. *)
Lemma numbered_append t e w stored : spool_ok w → numbered w stored → numbered (spool_append t e w).2 stored.
Proof.
  intros Hw (m & Hm & Hle & ns & En & Hsort & Hall). destruct (spool_append_grows t e a w m Hw Hm) as (m' & Hm' & Hmm).
  exists m'. split_and!; [done|lia|]. exists ns. split_and!; [done|done|]. eapply Forall_impl; [exact Hall|]. cbn. lia.
Qed.

Lemma of_attempt_snoc l e : of_attempt a (l ++ [e]) = of_attempt a l ++ if bool_decide (env_attempt_id e = Some a) then [e] else [].
Proof. unfold of_attempt. rewrite List.filter_app. cbn. by case_bool_decide. Qed.

Lemma numbered_store t e b n w w' stored : spool_ok w → numbered w stored → env_attempt_id e = Some b → env_seq e = Some n →
  (b = a → next w = Ok n) → spool_append t e w = (Ok (), w') → numbered w' (stored ++ [e]).
Proof.
  intros Hw Hnum Hb Hn Hnext E. destruct (decide (b = a)) as [->|Hne].
  - specialize (Hnext eq_refl). destruct Hnum as (m & Hm & Hle & ns & En & Hsort & Hall).
    assert (m = n) as -> by congruence. exists (n + 1).
    split_and!; [by eapply spool_append_advances|lia|]. exists (ns ++ [n]). rewrite of_attempt_snoc, bool_decide_true, !fmap_app, En by done.
    split_and!; [cbn; by rewrite Hn| |].
    + apply StronglySorted_snoc; [done|]. eapply Forall_impl; [exact Hall|]. cbn. lia.
    + apply Forall_app. split; [eapply Forall_impl; [exact Hall|]; cbn; lia|]. constructor; [lia|constructor].
  - pose proof (numbered_append t e w stored Hw Hnum) as Hnum'. rewrite E in Hnum'. destruct Hnum' as (m & Hm & Hle & ns & En & Hrest).
    exists m. split_and!; [done..|]. exists ns. rewrite of_attempt_snoc, bool_decide_false, app_nil_r by (rewrite Hb; congruence). done.
Qed.

(** ** The steps *)

Lemma inv_number s i c : inv s → tk_stages s !! i = Some Entered → calls !! i = Some c → inv (number_step i c s).
Proof.
  intros Hs Hi Hc. destruct (holder s i Entered Hs Hi eq_refl) as (_ & [_ Hh] & Ho). unfold number_step.
  pose proof (spool_next_seq_pure (pb_attempt c) (tk_world s)) as Hw.
  destruct (spool_next_seq (pb_attempt c) (tk_world s)) as [[n|x] w] eqn:E; cbn in Hw; subst w.
  - apply (inv_goes_on _ _ Entered); [done..|apply Hs|apply Hs|]. split; [done|]. split; [|done].
    intros c' Hc' <-. assert (c' = c) as -> by congruence. by rewrite E.
  - eapply inv_fails; [done..|apply Hs|apply Hs].
Qed.

Lemma inv_store s i c n t id t' : inv s → tk_stages s !! i = Some (Numbered n) → calls !! i = Some c →
  inv (store_step engine_id i c n t id t' s).
Proof.
  intros Hs Hi Hc. destruct (holder s i _ Hs Hi eq_refl) as (_ & [_ [Hn Hlive]] & Ho). unfold store_step.
  destruct (new_envelope _ _ _ _ _ _ _ _ _ _) as [e|x] eqn:Ee; [|eapply inv_fails; [done..|apply Hs|apply Hs]].
  apply new_envelope_fields in Ee as (Ea & Eq & _).
  pose proof (spool_append_ok t' e (tk_world s) (iv_spool _ Hs)) as Hok.
  destruct (spool_append t' e (tk_world s)) as [[[]|x] w] eqn:E.
  - apply (inv_goes_on _ _ (Numbered n)); [done..| |split; [done|by exists (tk_stored s)]].
    eapply numbered_store; [apply Hs|apply Hs|exact Ea|exact Eq| |exact E]. intros Hb. by apply (Hn c Hc).
  - eapply inv_fails; [done..|]. pose proof (numbered_append t' e (tk_world s) (tk_stored s) (iv_spool _ Hs) (iv_numbers _ Hs)) as H3. by rewrite E in H3.
Qed.

Lemma inv_look s i e : inv s → tk_stages s !! i = Some (Stored e) → inv (look_step i e s).
Proof.
  intros Hs Hi. destruct (holder s i _ Hs Hi eq_refl) as (_ & Hh & Ho). unfold look_step. destruct (tk_socket s).
  - apply (inv_goes_on _ _ (Stored e)); [done..|apply Hs|apply Hs|exact Hh].
  - apply inv_leaves; [done|done|apply Hs|apply Hs|by eapply holds_live|apply Hs].
Qed.

Lemma inv_send s i e connection delivered : inv s → tk_stages s !! i = Some (Sending e connection) → inv (send_step i e connection delivered s).
Proof.
  intros Hs Hi. destruct (holder s i _ Hs Hi eq_refl) as (_ & Hh & Ho). unfold send_step.
  assert (inv (leaves i (tk_world s) None (tk_sent s) (tk_live s) s)) as Hlost.
  { apply inv_leaves; [done|done|apply Hs|apply Hs|by eapply holds_live|apply Hs]. }
  destruct (to_json e) as [text|x] eqn:Ej; [destruct delivered; [|exact Hlost]|exact Hlost].
  destruct Hh as (_ & l & El & Hl). apply inv_leaves; [done|done|apply Hs|apply Hs|rewrite El; by apply sublist_app|].
  destruct (iv_live _ Hs) as (texts & Hf & Hsub). exists (texts ++ [text]). rewrite fmap_app.
  split; [apply Forall2_app; [done|by repeat constructor]|by apply sublist_app].
Qed.

(** A step outside the calls: the world, the socket, more frames. *)
Lemma inv_aside s w socket n sent : inv s → spool_ok w → (∀ m, next (tk_world s) = Ok m → next w = Ok m) →
  inv (Tasks w socket n (tk_lock s) (tk_stages s) (tk_sent s ++ sent) (tk_stored s) (tk_live s)).
Proof.
  intros [Hw (m & Hm & Hle & Hinc) Hc Hl (texts & Hf & Hsub)] Hw' Hnext. split; cbn; [done| |done| |].
  - exists m. split_and!; [by apply Hnext|done|done].
  - unfold lock_ok in *. cbn. destruct (tk_lock s) as [i|]; [|done]. destruct Hl as [(st & Hi & Hin & Hh) Ho]. split; [|done].
    exists st. split; [done|]. split; [done|]. destruct st; try done. destruct Hh as [Hh ?]. split; [|done].
    intros c' Hc' Ha. by apply Hnext, (Hh c').
  - exists texts. split; [done|]. rewrite fmap_app. by apply sublist_inserts_r.
Qed.

Lemma inv_perform act s s' : action_ok act → inv s → perform engine_id calls act s = Some s' → inv s'.
Proof.
  intros Hact Hs. destruct act as [i|i|i t id t'|i|i delivered| | |connection text|f]; cbn [perform].
  - destruct (tk_stages s !! i) as [[]|] eqn:Hi; try done. destruct (tk_lock s) eqn:Hlock; [done|]. intros [= <-].
    pose proof (iv_lock _ Hs) as Hl. unfold lock_ok in Hl. rewrite Hlock in Hl. destruct Hl as [Ho Hlive].
    apply (inv_goes_on _ _ Waiting); [done|done| |apply Hs|apply Hs|done]. intros j st _. apply Ho.
  - destruct (tk_stages s !! i) as [[]|] eqn:Hi; try done. destruct (calls !! i) as [c|] eqn:Hc; [|done]. intros [= <-]. by apply inv_number.
  - destruct (tk_stages s !! i) as [[]|] eqn:Hi; try done. destruct (calls !! i) as [c|] eqn:Hc; [|done]. intros [= <-]. by apply inv_store.
  - destruct (tk_stages s !! i) as [[]|] eqn:Hi; try done. intros [= <-]. by apply inv_look.
  - destruct (tk_stages s !! i) as [[]|] eqn:Hi; try done. intros [= <-]. by apply inv_send.
  - intros [= <-]. rewrite <- (app_nil_r (tk_sent s)). by apply inv_aside; [|apply Hs|].
  - intros [= <-]. rewrite <- (app_nil_r (tk_sent s)). by apply inv_aside; [|apply Hs|].
  - intros [= <-]. by apply inv_aside; [|apply Hs|].
  - intros [= <-]. rewrite <- (app_nil_r (tk_sent s)). destruct (Hact (tk_world s) (iv_spool _ Hs)). by apply inv_aside.
Qed.

Lemma inv_after l s s' : Forall action_ok l → inv s → run engine_id calls l s = Some s' → inv s'.
Proof.
  intros Hl. revert s. induction Hl as [|act l Hact Hl IH]; intros s Hs; [by intros [= <-]|]. cbn [run]. munfold.
  destruct (perform engine_id calls act s) as [s1|] eqn:E; [|done]. apply IH. by eapply inv_perform.
Qed.

(** ** Progress *)

(** A step of some call, in any outcome. *)
Definition of_call (act : action (S := S)) : Prop :=
  match act with AEnter _ | ANumber _ | AStore _ _ _ _ | ALook _ | ASend _ _ => True | _ => False end.

Lemma inv_progress s i st : inv s → tk_stages s !! i = Some st → st ≠ Ended → ∃ act s', of_call act ∧ perform engine_id calls act s = Some s'.
Proof.
  intros Hs Hi Hne. assert (∀ j st, tk_stages s !! j = Some st → inside st = true → ∃ act s', of_call act ∧ perform engine_id calls act s = Some s') as Hin.
  { intros j stj Hj Hinj. assert (is_Some (calls !! j)) as [c Hc] by (apply lookup_lt_is_Some_2; rewrite <- (iv_calls _ Hs); by eapply lookup_lt_Some).
    destruct stj as [| |n|e|e connection|]; [done|exists (ANumber j)|exists (AStore j 0 [] 0)|exists (ALook j)|exists (ASend j false)|done];
      eexists; (split; [done|]); cbn [perform]; rewrite ?Hj, ?Hc; reflexivity. }
  destruct (tk_lock s) as [j|] eqn:Hlock.
  - pose proof (iv_lock _ Hs) as Hl. unfold lock_ok in Hl. rewrite Hlock in Hl. destruct Hl as [(stj & Hj & Hinj & _) _]. by eapply Hin.
  - destruct (inside st) eqn:E; [by eapply Hin|]. destruct st; try done. exists (AEnter i). cbn [perform]. rewrite Hi, Hlock. by eexists.
Qed.

(** Numbers in order stay in order in a part of the events. *)
Lemma sublist_increasing l l' ns : sublist l' l → env_seq <$> l = Some <$> ns → StronglySorted Z.lt ns →
  ∃ ns', env_seq <$> l' = Some <$> ns' ∧ StronglySorted Z.lt ns' ∧ sublist ns' ns.
Proof.
  intros Hs. revert ns. induction Hs as [|e l' l _ IH|e l' l _ IH]; intros ns En Hns.
  - exists []. split_and!; [done|constructor|]. by destruct ns.
  - destruct ns as [|n ns]; [done|]. injection En as E En. apply StronglySorted_inv in Hns as [Hns Hn].
    destruct (IH ns En Hns) as (ns' & En' & Hs' & Hsub). exists (n :: ns'). split_and!; [cbn; by rewrite E, En'| |by constructor].
    constructor; [done|]. apply Forall_forall. intros x Hx. eapply Forall_forall; [exact Hn|]. eapply elem_of_submseteq; [exact Hx|by apply sublist_submseteq].
  - destruct ns as [|n ns]; [done|]. injection En as E En. apply StronglySorted_inv in Hns as [Hns Hn].
    destruct (IH ns En Hns) as (ns' & En' & Hs' & Hsub). exists ns'. split_and!; [done|done|by constructor].
Qed.

Lemma of_attempt_sublist l l' : sublist l' l → sublist (of_attempt a l') (of_attempt a l).
Proof. induction 1 as [|e l' l _ IH|e l' l _ IH]; [constructor| |]; unfold of_attempt in *; cbn; case_bool_decide; by try constructor. Qed.

End numbers.

(** C10: publications at once. However the calls of [publish_attempt_event] are
    interleaved with each other, with connections that open and close, with
    sends that fail and with other tasks that use the spool, at every moment:
    at most one call is in the section of [_publish_lock]; the events of an
    attempt were stored under strictly increasing numbers, beginning with the
    spool's next one, and the next one is beyond them; what the calls have sent
    are some of the stored events in the order of storing, so the backend gets
    the events that are published live in strictly increasing numbers; and as
    long as a call has not ended, some call can make a step. *)
Theorem publications_ordered {S} `{EventSpoolGrowth S} engine_id calls a n0 w l (s : tasks (S := S)) :
  spool_ok w → (spool_next_seq a w).1 = Ok n0 → Forall (action_ok a) l →
  run engine_id calls l (begin calls w) = Some s →
  (∀ i j st st', tk_stages s !! i = Some st → inside st = true → tk_stages s !! j = Some st' → inside st' = true → i = j) ∧
  (∃ m ns, (spool_next_seq a (tk_world s)).1 = Ok m ∧ env_seq <$> of_attempt a (tk_stored s) = Some <$> ns ∧
     StronglySorted Z.lt ns ∧ Forall (λ n, n0 ≤ n < m) ns) ∧
  (sublist (tk_live s) (tk_stored s) ∧ live_frames (tk_live s) (tk_sent s) ∧
     ∃ ns, env_seq <$> of_attempt a (tk_live s) = Some <$> ns ∧ StronglySorted Z.lt ns) ∧
  (∀ i st, tk_stages s !! i = Some st → st ≠ Ended → ∃ act s', of_call act ∧ perform engine_id calls act s = Some s').
Proof.
  intros Hw Hn Hl Hrun. pose proof (inv_after engine_id calls a n0 l _ _ Hl (inv_begin calls a n0 w Hw Hn) Hrun) as Hs.
  destruct (iv_numbers _ _ _ _ Hs) as (m & Hm & _ & ns & En & Hsort & Hall).
  assert (sublist (tk_live s) (tk_stored s)) as Hlive.
  { pose proof (iv_lock _ _ _ _ Hs) as Hlock. unfold lock_ok in Hlock. destruct (tk_lock s) as [i|]; [|by destruct Hlock].
    destruct Hlock as [(st & _ & Hh) _]. by eapply holds_live. }
  split_and!.
  - intros i j st st' Hi Hin Hj Hin'. destruct (holder calls a n0 s i st Hs Hi Hin) as (E & _).
    destruct (holder calls a n0 s j st' Hs Hj Hin') as (E' & _). congruence.
  - by exists m, ns.
  - done.
  - apply Hs.
  - destruct (sublist_increasing _ _ ns (of_attempt_sublist a _ _ Hlive) En Hsort) as (ns' & ? & ? & _). by exists ns'.
  - intros i st. by apply inv_progress with (a := a) (n0 := n0).
Qed.

(** * A call by itself

    Without other steps in between, the steps of a call are
    [publish_attempt_event] of [Uplink]. *)

Section alone.
Context {S : Type} `{EventSpoolLaws S} (out : outside) (engine_id : ustr) (calls : list publication).

(** The two states agree on the spool and on whether there is a socket. *)
Definition agrees (s : tasks (S := S)) (up : uplink S) : Prop :=
  tk_world s = up_world up ∧ up_ws up = bool_decide (tk_socket s ≠ None).

Lemma run_snoc l act s s1 s2 : run engine_id calls l s = Some s1 → perform engine_id calls act s1 = Some s2 →
  run engine_id calls (l ++ [act]) s = Some s2.
Proof.
  revert s. induction l as [|act' l IH]; intros s; cbn [run app]; munfold; [by intros [= ->] ->|].
  destruct (perform engine_id calls act' s); [by apply IH|done].
Qed.

(** After the call: it has left the section, and the backend has got the same frames. *)
Definition ended_like (i : nat) (s s' : tasks (S := S)) (up up' : uplink S) : Prop :=
  agrees s' up' ∧ tk_stages s' !! i = Some Ended ∧ tk_lock s' = None ∧
  ∃ texts, up_sent up' = up_sent up ++ texts ∧ (tk_sent s').*2 = (tk_sent s).*2 ++ texts.

Lemma insert_twice (stages : list stage) i st st' : (i < length stages)%nat → <[i := st']> (<[i := st]> stages) !! i = Some st'.
Proof. intros Hi. apply list_lookup_insert_eq. by rewrite length_insert. Qed.

Lemma number_alone i c s up n : agrees s up → tk_stages s !! i = Some Waiting → tk_lock s = None → calls !! i = Some c →
  spool_next_seq (pb_attempt c) (up_world up) = (Ok n, up_world up) →
  run engine_id calls [AEnter i; ANumber i] s = Some (goes_on i (Numbered n) (tk_world s) (tk_stored s) (goes_on i Entered (tk_world s) (tk_stored s) s)).
Proof.
  intros [Hw _] Hi Hl Hc En. cbn [run perform]. munfold. rewrite Hi, Hl. cbn [goes_on tk_stages].
  rewrite list_lookup_insert_eq by (by eapply lookup_lt_Some). rewrite Hc. unfold number_step. cbn [goes_on tk_world]. by rewrite Hw, En.
Qed.

(** The uplink after the event was stored and, perhaps, sent. *)
Definition after_append (w : S) (ws : bool) (texts : list ustr) (sends : nat) (up : uplink S) : uplink S :=
  Uplink w ws (up_interval up) (up_sent up ++ texts) (2 + up_ticks up) (1 + up_ids up) (sends + up_sends up).

Lemma publish_run c up n : spool_next_seq (pb_attempt c) (up_world up) = (Ok n, up_world up) →
  (publish_attempt_event out engine_id (pb_type c) (pb_payload c) (pb_build_job c) (pb_attempt c) up).2 =
  match new_envelope (clock out (up_ticks up)) (uuid4 out (up_ids up)) (pb_type c) (pb_payload c) engine_id
          (Some (pb_build_job c)) (Some (pb_attempt c)) (Some n) None None with
  | Err _ => after_make up
  | Ok e =>
      match spool_append (clock out (1 + up_ticks up)) e (up_world up) with
      | (Err _, w) => after_append w (up_ws up) [] 0 up
      | (Ok _, w) =>
          if up_ws up then
            match to_json e with
            | Ok text => if delivered out (up_sends up) then after_append w true [text] 1 up else after_append w false [] 1 up
            | Err _ => after_append w false [] 0 up
            end
          else after_append w false [] 0 up
      end
  end.
Proof.
  intros En. destruct up as [w ws interval sent ticks ids sends]. cbn [up_world up_ws up_interval up_sent up_ticks up_ids up_sends] in En |- *. unfold publish_attempt_event, on_world, zoom. munfold.
  cbn [up_world]. rewrite En. rewrite make_run. cbn [up_world up_ws up_interval up_sent up_ticks up_ids up_sends].
  destruct (new_envelope _ _ _ _ _ _ _ _ _ _) as [e|x]; [|reflexivity]. unfold now, after_make, after_append.
  cbn [up_world up_ws up_interval up_sent up_ticks up_ids up_sends].
  destruct (spool_append _ e w) as [[[]|x] w']; rewrite ?app_nil_r; [|reflexivity].
  destruct ws; [|reflexivity]. unfold send_envelope, send, set_ws. munfold. destruct (to_json e) as [text|x] eqn:Ej; cbn [up_world up_ws up_interval up_sent up_ticks up_ids up_sends fst snd].
  - destruct (delivered out sends); reflexivity.
  - rewrite (to_json_exception e x Ej). reflexivity.
Qed.

(** The last two steps, with the event in the spool. *)
Lemma send_alone i s up e w l : agrees s up → (i < length (tk_stages s))%nat →
  run engine_id calls l s = Some (goes_on i (Stored e) w (tk_stored s ++ [e]) s) →
  ∃ l' s', run engine_id calls (l ++ l') s = Some s' ∧ ended_like i s s' up
    (if up_ws up then
       match to_json e with
       | Ok text => if delivered out (up_sends up) then after_append w true [text] 1 up else after_append w false [] 1 up
       | Err _ => after_append w false [] 0 up
       end
     else after_append w false [] 0 up).
Proof.
  intros [Hw Hws] Hlt Hrun.
  assert (∀ ws socket texts sent live n, ws = bool_decide (socket ≠ None) → sent.*2 = (tk_sent s).*2 ++ texts → ∀ stored stages,
    (i < length stages)%nat → ended_like i s (Tasks w socket (tk_connections s) None (<[i := Ended]> stages) sent stored live) up (after_append w ws texts n up)) as Hend.
  { intros ws socket texts sent live n -> Hsent stored st Hst. split_and!; [by split|by apply list_lookup_insert_eq|done|by exists texts]. }
  pose proof (λ s2, run_snoc l (ALook i) s _ s2 Hrun) as Hlook. cbn [perform goes_on tk_stages] in Hlook.
  rewrite list_lookup_insert_eq in Hlook by done. specialize (Hlook _ eq_refl). unfold look_step in Hlook. cbn [goes_on tk_socket] in Hlook.
  destruct (tk_socket s) as [connection|] eqn:Ek.
  2:{ rewrite Hws, bool_decide_false by tauto. eexists [ALook i], _. split; [exact Hlook|]. apply Hend; [done|by rewrite app_nil_r|by cbn; rewrite length_insert]. }
  rewrite Hws, bool_decide_true by done. set (d := delivered out (up_sends up)).
  pose proof (λ s2, run_snoc _ (ASend i d) s _ s2 Hlook) as Hsend. cbn [perform goes_on tk_stages] in Hsend.
  rewrite list_lookup_insert_eq in Hsend by (by rewrite length_insert). specialize (Hsend _ eq_refl).
  rewrite <- app_assoc in Hsend. eexists ([ALook i] ++ [ASend i d]), _. split; [exact Hsend|]. unfold send_step.
  destruct (to_json e) as [text|x]; [destruct d|]; (apply Hend; [cbn; rewrite ?Ek; reflexivity| |by cbn; rewrite !length_insert]); [by rewrite fmap_app|by rewrite app_nil_r..].
Qed.

Lemma publication_alone i c s up : agrees s up → tk_stages s !! i = Some Waiting → tk_lock s = None → calls !! i = Some c →
  ∃ l s', run engine_id calls l s = Some s' ∧
    ended_like i s s' up (publish_attempt_event out engine_id (pb_type c) (pb_payload c) (pb_build_job c) (pb_attempt c) up).2.
Proof.
  intros Ha Hi Hl Hc. pose proof Ha as [Hw Hws]. pose proof (lookup_lt_Some _ _ _ Hi) as Hlt.
  pose proof (spool_next_seq_pure (pb_attempt c) (up_world up)) as Hpure.
  destruct (spool_next_seq (pb_attempt c) (up_world up)) as [[n|x] w] eqn:En; cbn [snd] in Hpure; subst w.
  2:{ eexists [AEnter i; ANumber i], _. split.
      - cbn [run perform]. munfold. rewrite Hi, Hl. cbn [goes_on tk_stages]. rewrite list_lookup_insert_eq, Hc by done.
        unfold number_step. cbn [goes_on tk_world]. by rewrite Hw, En.
      - unfold publish_attempt_event, on_world, zoom. munfold. rewrite En. destruct up.
        split_and!; [by split|by apply insert_twice|done|]. exists []. by rewrite !app_nil_r. }
  rewrite (publish_run c up n En). pose proof (number_alone i c s up n Ha Hi Hl Hc En) as Hrun.
  set (t := clock out (up_ticks up)). set (id := uuid4 out (up_ids up)). set (t' := clock out (1 + up_ticks up)).
  pose proof (λ s2, run_snoc _ (AStore i t id t') s _ s2 Hrun) as Hstore. cbn [perform goes_on tk_stages] in Hstore.
  rewrite list_lookup_insert_eq, Hc in Hstore by (by rewrite length_insert). specialize (Hstore _ eq_refl).
  unfold store_step in Hstore. cbn [goes_on tk_world tk_stored] in Hstore. rewrite Hw in Hstore.
  destruct (new_envelope _ _ _ _ _ _ _ _ _ _) as [e|x].
  2:{ eexists _, _. split; [exact Hstore|]. unfold after_make.
      split_and!; [by split|apply list_lookup_insert_eq; cbn; by rewrite !length_insert|done|]. exists []. by rewrite !app_nil_r. }
  destruct (spool_append t' e (up_world up)) as [[[]|x] w'].
  2:{ eexists _, _. split; [exact Hstore|]. unfold after_append.
      split_and!; [by split|apply list_lookup_insert_eq; cbn; by rewrite !length_insert|done|]. exists []. by rewrite !app_nil_r. }
  assert (run engine_id calls ([AEnter i; ANumber i] ++ [AStore i t id t']) s = Some (goes_on i (Stored e) w' (tk_stored s ++ [e]) s)) as Hs.
  { rewrite Hstore. f_equal. unfold goes_on. cbn. by rewrite !list_insert_insert_eq. }
  destruct (send_alone i s up e w' _ Ha Hlt Hs) as (l' & s' & Hr & He). by eexists _, s'.
Qed.

End alone.
