(* ===== verification/UplinkExamples.v ===== *)
(** The properties of the uplink and of drain mode at a concrete agent: its
    queue holds one leased attempt, its state directory is empty. *)

From Stdlib Require Import Sorted.
From S2P Require Import Prelude PyStr PyFloat Dict Json Clock Uuid Protocol Db Store StoreRun StoreInv Queue QueueExamples.
From S2P Require Import Outbox OutboxProofs Spool System SpoolExamples PackageJson Framework Fs Cache Handlers Drain Url Config Uplink.
From S2P Require Import UplinkProofs AgentUplink UplinkTasks.

Local Open Scope Z_scope.

(** * The example agent and its backend *)

Definition ex_out : outside := {|
  clock := λ n, ex_now + seconds (Z.of_nat n);
  uuid4 := λ n, u "aaaaaaaa-aaaa-4aaa-8aaa-aaaaaaaaaa" ++ pad_dec 2 (Z.of_nat n);
  delivered := λ _, true;
|}.

Definition ex_state_dir : path := [u "state"].
Definition ex_fs : fs := {[ex_state_dir := EDir 0]}.
Definition ex_marker : path := drain_marker_path ex_state_dir.
(** The state directory while the engine drains. *)
Definition ex_fs_drained : fs := <[ex_marker := EFile [] 0 0]> ex_fs.

Definition ex_agent : agent := Agent ex_store2 ex_fs false None.
Definition ex_agent_drained : agent := Agent ex_store2 ex_fs_drained false None.
Definition ex_agent_spooled : agent := Agent ex_store4 ex_fs false None.
Definition ex_uplink (g : agent) : uplink agent := Uplink g true 15 [] 0 0 0.

(** A frame of the backend. *)
Definition ex_envelope (ty engine : ustr) (payload : jdict) (attempt : option ustr) : Envelope :=
  MkEnvelope (JInt PROTOCOL_VERSION) (u "bbbbbbbb-bbbb-4bbb-8bbb-bbbbbbbbbbbb") ty (format_datetime ex_now) payload
    engine None attempt None.
Definition ex_frame (ty engine : ustr) (payload : jdict) (attempt : option ustr) : frame :=
  match to_json (ex_envelope ty engine payload attempt) with Ok text => FrameText text | Err _ => FrameText [] end.

Definition ex_welcome : frame :=
  ex_frame (u "welcome") ex_engine
    [(u "engine_id", JStr ex_engine); (u "proto_negotiated", JInt PROTOCOL_VERSION); (u "last_seq", JObj [])] None.
Definition ex_assign : frame :=
  ex_frame (u "job.assign") ex_engine
    [(u "build_job_id", JStr ex_build); (u "attempt_id", JStr ex_attempt2); (u "site_id", JStr (u "site-1"))] None.
Definition ex_ack : frame :=
  ex_frame (u "event.ack") ex_engine [(u "last_seq", JInt 1)] (Some ex_attempt).
Definition ex_foreign : frame := ex_frame (u "ping") ex_other_build [] None.

Definition decoded (f : frame) : option Envelope :=
  match decode_frame ex_now (Some INBOUND_MESSAGE_TYPES) f with Ok e => Some e | Err _ => None end.

Definition ex_config : EngineConfig := default_config (u "linux") (u "amd64").

Notation ex_publish := (publish_attempt_event (S := agent) (H := agent_spool default_outbox) ex_out ex_engine).
Notation ex_handlers := (handlers ex_state_dir).
Notation ex_handle :=
  (handle_frame (S := agent) (H := agent_spool default_outbox) (H0 := ex_handlers) ex_out ex_engine).

(** * Lemmas: the example agent *)

Lemma ex_state_dir_real f : f !! ex_state_dir = Some (EDir 0) → real_dir f ex_state_dir.
Proof.
  intros H. split; [apply Forall_singleton; split; by vm_compute|].
  intros a b E Ha. destruct a as [|x [|y a]]; [done| |discriminate E].
  injection E as <- _. exists 0. exact H.
Qed.

Lemma ex_drain_place : drain_place ex_state_dir ex_fs.
Proof. split; [by apply ex_state_dir_real|by left|by left]. Qed.

(** * Witnesses *)

Definition ex_events : list (ustr * jdict) :=
  [(u "attempt.status", [(u "state", JStr (u "RUNNING"))]); (u "attempt.status", [(u "state", JStr (u "SUCCEEDED"))])].

Lemma publish_consecutive_witness :
  ∃ es s', publish_all (EventSpool0 := agent_spool default_outbox) ex_out ex_engine ex_events ex_build ex_attempt
             (ex_uplink ex_agent) = (Ok es, s') ∧
    env_seq <$> es = [Some 1; Some 2].
Proof.
  assert (is_ok (publish_all (EventSpool0 := agent_spool default_outbox) ex_out ex_engine ex_events ex_build ex_attempt
    (ex_uplink ex_agent)).1 = true) as Hok by (vm_compute; reflexivity).
  assert ((spool_next_seq (EventSpool := agent_spool default_outbox) ex_attempt (up_world (ex_uplink ex_agent))).1 = Ok 1) as Hn
    by (vm_compute; reflexivity).
  destruct (publish_all _ _ _ _ _ _) as [[es|x] s'] eqn:E; [|discriminate Hok]. exists es, s'. split; [reflexivity|].
  exact (proj1 (proj2 (proj2 (publish_consecutive (EventSpool0 := agent_spool default_outbox)
    (EventSpoolLaws0 := agent_spool_laws default_outbox) ex_out ex_engine ex_events
    ex_build ex_attempt (ex_uplink ex_agent) s' es 1 ex_spool_ok0 Hn E)))).
Defined.

Lemma publish_stored_before_sent_witness :
  ∃ e s', ex_publish (u "attempt.status") [(u "state", JStr (u "RUNNING"))] ex_build ex_attempt (ex_uplink ex_agent) = (Ok e, s') ∧
    ∃ t, (spool_append (EventSpool := agent_spool default_outbox) t e ex_agent).1 = Ok () ∧
         up_world s' = (spool_append (EventSpool := agent_spool default_outbox) t e ex_agent).2.
Proof.
  assert (is_ok (ex_publish (u "attempt.status") [(u "state", JStr (u "RUNNING"))] ex_build ex_attempt (ex_uplink ex_agent)).1 = true)
    as Hok by (vm_compute; reflexivity).
  destruct (ex_publish _ _ _ _ _) as [[e|x] s'] eqn:E; [|discriminate Hok]. exists e, s'. split; [reflexivity|].
  exact (proj1 (proj2 (proj2 (publish_stored_before_sent (EventSpool0 := agent_spool default_outbox)
    (EventSpoolLaws0 := agent_spool_laws default_outbox) ex_out ex_engine (u "attempt.status")
    [(u "state", JStr (u "RUNNING"))] ex_build ex_attempt (ex_uplink ex_agent) s' (Ok e) ex_spool_ok0 E)))).
Defined.

Lemma handshake_witness :
  ∃ r s', run_connection (H := agent_spool default_outbox) (H0 := ex_handlers) ex_out ex_engine (u "0.1.0") ex_config
            [ex_welcome] (ex_uplink ex_agent_spooled) = (r, s') ∧ r = Ok () ∧ length (up_sent s') = 2%nat ∧ up_ws s' = false.
Proof.
  set (run := run_connection _ _ _ _ _ _). assert (is_ok run.1 = true ∧ length (up_sent run.2) = 2%nat) as [Hok Hl]
    by (vm_compute; split; reflexivity).
  destruct run as [[[]|x] s'] eqn:E; [|discriminate Hok]. exists (Ok ()), s'.
  split; [reflexivity|]. split; [reflexivity|]. split; [exact Hl|].
  exact (proj1 (handshake (EventSpool0 := agent_spool default_outbox) (CommandHandlers0 := ex_handlers)
    ex_out ex_engine (u "0.1.0") ex_config [ex_welcome] (ex_uplink ex_agent_spooled) s' (Ok ()) E)).
Defined.

Lemma foreign_frame_refused_witness :
  let '(r, s') := ex_handle ex_foreign (ex_uplink ex_agent) in
  (∃ e, r = Err e ∧ (isinstance e ProtocolError = true ∨ e = surrogate_error ∨ e = digits_error)) ∧
  up_world s' = ex_agent ∧ up_sent s' = [] ∧ up_ws s' = true.
Proof.
  apply (foreign_frame_refused (EventSpool0 := agent_spool default_outbox) (CommandHandlers0 := ex_handlers)
    ex_out ex_engine ex_foreign (ex_uplink ex_agent)).
  assert (∃ e, decode_frame (clock ex_out 0) (Some INBOUND_MESSAGE_TYPES) ex_foreign = Ok e ∧ env_engine_id e = ex_other_build)
    as (e0 & E0 & Hb) by (eexists; split; vm_compute; reflexivity).
  change (up_ticks (ex_uplink ex_agent)) with 0%nat. rewrite E0. intros e [= <-]. rewrite Hb. vm_compute. discriminate.
Defined.

Lemma configured_backend_is_secure_witness :
  ∃ p, websocket_url (λ _, Ok ()) (u "https://engine.example/base") = Ok (u "wss://engine.example" ++ 47%N :: p) ∧
    endswith (47%N :: p) (u "/ws") = true.
Proof.
  set (c := MkEngineConfig (Some (u "https://engine.example/base")) None 2 15 600 10 (u "2g") (cf_container_cpus ex_config)
    524288000 5368709120 30 [u "credentials.toml"] ex_state_dir (u "1.0.0") DEFAULT_IMAGES [] 120 268435456 7 false (u "linux") (u "amd64")).
  assert (∃ c', post_init (λ _, Ok ()) c = Ok c') as [c' E] by (eexists; vm_compute; reflexivity).
  destruct (configured_backend_is_secure (λ _, Ok ()) c c' (u "https://engine.example/base") E eq_refl) as (parsed & p & H1 & _ & H2 & H3).
  exists p. split; [|exact H3].
  assert (urlparse (λ _, Ok ()) (u "https://engine.example/base") =
    Ok (UrlParts (u "https") (u "engine.example") (u "/base") [] [] [])) as H4 by (vm_compute; reflexivity).
  rewrite H4 in H1. injection H1 as <-. exact H2.
Defined.

Lemma drain_mode_witness :
  ∃ g' g'',
    drain ex_state_dir ex_now [] ex_agent = (Ok (MkCommandResult true (Some (u "DRAINING")) None []), g') ∧
    assign ex_state_dir ex_now ex_payload g' =
      (Ok (MkCommandResult false (Some (u "FAILED")) (Some (u "Engine is draining")) []), g') ∧
    resume ex_state_dir (ex_now + seconds 60) [] g' = (Ok (MkCommandResult true (Some (u "READY")) None []), g'').
Proof.
  destruct (drain_mode ex_state_dir ex_now (ex_now + seconds 60) [] [] ex_agent) as (g' & g'' & H1 & _ & _ & H4 & _ & H6 & _).
  - apply ex_in_range; vm_compute; reflexivity.
  - exact ex_drain_place.
  - exists g', g''. split; [exact H1|]. split; [apply H4|exact H6].
Defined.

Lemma assignment_durable_witness :
  ∃ r, find_row ex_attempt2 (disk (up_world (ex_handle ex_assign (ex_uplink ex_agent)).2)) = Some r ∧ r_state r = QUEUED.
Proof.
  destruct (decoded ex_assign) as [e|] eqn:E; [|vm_compute in E; discriminate E].
  assert (decode_frame ex_now (Some INBOUND_MESSAGE_TYPES) ex_assign = Ok e) as Hd.
  { unfold decoded in E. destruct (decode_frame _ _ _); [|discriminate E]. injection E as ->. reflexivity. }
  assert (env_engine_id e = ex_engine ∧ env_type e = u "job.assign" ∧ attempt_fields e = Ok (ex_build, ex_attempt2) ∧
    json_ok (JObj (assign_payload e ex_build ex_attempt2)) = true) as (H1 & H2 & H3 & H4).
  { vm_compute in E. injection E as <-. vm_compute. split; [|split; [|split]]; reflexivity. }
  destruct (assignment_durable ex_out ex_engine default_outbox ex_state_dir ex_assign e ex_build ex_attempt2
    (ex_uplink ex_agent)) as [(r & Hr & _ & Hq & _) _].
  - split; [exact Hd|split; [exact H1|exact H2]].
  - exact H3.
  - vm_compute. reflexivity.
  - vm_compute. reflexivity.
  - exact H4.
  - vm_compute. reflexivity.
  - exact (proj1 ex_ok2).
  - exact (proj2 ex_ok2).
  - exact ex_spool_ok0.
  - vm_compute. reflexivity.
  - vm_compute. reflexivity.
  - exists r. split; [exact Hr|exact Hq].
Defined.

Lemma drained_assignment_ends_connection_witness :
  let '(r, s') := ex_handle ex_assign (ex_uplink ex_agent_drained) in
  r = Err (queue_error (u "Cannot allocate an event sequence for an unknown attempt")) ∧
  disk (up_world s') = disk ex_agent_drained ∧ ag_fs (up_world s') = ex_fs_drained ∧ up_sent s' = [].
Proof.
  destruct (decoded ex_assign) as [e|] eqn:E; [|vm_compute in E; discriminate E].
  assert (decode_frame ex_now (Some INBOUND_MESSAGE_TYPES) ex_assign = Ok e) as Hd.
  { unfold decoded in E. destruct (decode_frame _ _ _); [|discriminate E]. injection E as ->. reflexivity. }
  assert (env_engine_id e = ex_engine ∧ env_type e = u "job.assign" ∧ attempt_fields e = Ok (ex_build, ex_attempt2))
    as (H1 & H2 & H3) by (vm_compute in E; injection E as <-; vm_compute; split; [|split]; reflexivity).
  apply (drained_assignment_ends_connection ex_out ex_engine default_outbox ex_state_dir ex_assign e ex_build ex_attempt2
    (ex_uplink ex_agent_drained)).
  - split; [exact Hd|split; [exact H1|exact H2]].
  - exact H3.
  - vm_compute. reflexivity.
  - vm_compute. reflexivity.
Defined.

Lemma ack_frame_exact_witness :
  let '(r, s') := ex_handle ex_ack (ex_uplink ex_agent_spooled) in r = Ok () ∧ db_events (disk (up_world s')) = [].
Proof.
  destruct (decoded ex_ack) as [e|] eqn:E; [|vm_compute in E; discriminate E].
  assert (decode_frame ex_now (Some INBOUND_MESSAGE_TYPES) ex_ack = Ok e) as Hd.
  { unfold decoded in E. destruct (decode_frame _ _ _); [|discriminate E]. injection E as ->. reflexivity. }
  assert (env_engine_id e = ex_engine ∧ env_type e = u "event.ack" ∧ env_attempt_id e = Some ex_attempt ∧
    env_payload e = [(u "last_seq", JInt 1)]) as (H1 & H2 & H3 & H4).
  { vm_compute in E. injection E as <-. vm_compute. split; [|split; [|split]]; reflexivity. }
  pose proof (ack_frame_exact ex_out ex_engine default_outbox ex_state_dir ex_ack e (ex_uplink ex_agent_spooled)
    (conj Hd (conj H1 H2))) as H.
  destruct (ex_handle ex_ack _) as [r s']. destruct H as (_ & _ & _ & H). rewrite H3, H4 in H.
  assert (dget (u "last_seq") [(u "last_seq", JInt 1)] = Some (JInt 1)) as Hl by reflexivity. rewrite Hl in H.
  assert (ex_attempt = 51%N :: tail ex_attempt) as Ha by reflexivity. rewrite Ha in H. cbv iota in H. rewrite <- Ha in H.
  assert (is_uuid ex_attempt && (0 <=? 1) = true) as Hu by (vm_compute; reflexivity). rewrite Hu in H.
  destruct H as [Hr Hdisk].
  split; [exact Hr|]. rewrite Hdisk. vm_compute. reflexivity.
Defined.

(** * The tasks of the uplink at once

    Two publications that wait for each other, and three schedules that the code
    allows and no caller wants. *)

#[local] Existing Instance agent_spool.

Definition tx_calls : list publication :=
  (λ e : ustr * jdict, MkPublication e.1 e.2 ex_build ex_attempt) <$> ex_events.
Definition tx_store (i : nat) : action (S := agent) :=
  AStore i ex_now (u "aaaaaaaa-aaaa-4aaa-8aaa-aaaaaaaaaa" ++ pad_dec 2 (Z.of_nat i)) ex_now.

Abbreviation tx_run := (run (H := agent_spool default_outbox) ex_engine tx_calls).
Definition tx_begin : tasks := begin tx_calls ex_agent.
Definition tx_end (l : list action) : tasks := default tx_begin (tx_run l tx_begin).

(** A frame the backend got: its connection, its type and its number. *)
Definition frame_summary (x : nat * ustr) : nat * option json * option json :=
  match loads x.2 with
  | Ok (JObj d) => (x.1, dget (u "type") d, dget (u "seq") d)
  | _ => (x.1, None, None)
  end.
Definition event_status (n : Z) : option json * option json := (Some (JStr (u "attempt.status")), Some (JInt n)).

(** ** Two publications

    The second call asks for the lock while the first has it. *)

Definition tx_schedule : list action :=
  [AOpen; AEnter 1; ANumber 1; tx_store 1; AOther (λ w, w); ALook 1; ASend 1 true;
   AEnter 0; ANumber 0; tx_store 0; ALook 0; ASend 0 true].

Example second_waits : tx_run [AEnter 1; AEnter 0] tx_begin = None.
Proof. vm_compute. reflexivity. Qed.

Example both_sent : frame_summary <$> tk_sent (tx_end tx_schedule) = [(0%nat, (event_status 1).1, (event_status 1).2); (0%nat, (event_status 2).1, (event_status 2).2)].
Proof. vm_compute. reflexivity. Qed.

Lemma publications_ordered_witness : ∃ ns, env_seq <$> of_attempt ex_attempt (tk_stored (tx_end tx_schedule)) = Some <$> ns ∧
  StronglySorted Z.lt ns ∧ length ns = 2%nat.
Proof.
  destruct (publications_ordered (H := agent_spool default_outbox) (H0 := agent_spool_laws default_outbox)
    (H1 := agent_spool_growth default_outbox) ex_engine tx_calls ex_attempt 1 ex_agent tx_schedule (tx_end tx_schedule)) as (_ & Hn & _).
  - exact ex_spool_ok0.
  - vm_compute. reflexivity.
  - repeat (constructor; [exact I|]); constructor; [|repeat (constructor; [exact I|]); constructor]. intros w Hw. split; [exact Hw|trivial].
  - assert (is_Some (tx_run tx_schedule tx_begin)) as [s Es] by (vm_compute; eexists; reflexivity).
    unfold tx_end. rewrite Es. exact Es.
  - destruct Hn as (m & ns & _ & E & Hs & _). exists ns. split; [exact E|]. split; [exact Hs|].
    apply (f_equal length) in E. rewrite !length_fmap in E. rewrite <- E. vm_compute. reflexivity.
Defined.

(** ** An event before the handshake

    [self._ws] is set before the welcome is received, so a call may send its
    event ahead of the hello. *)

Definition hello_text : ustr :=
  match new_envelope ex_now (uuid4 ex_out 0) (u "hello") (hello_payload (u "0.1.0") ex_config) ex_engine None None None None None with
  | Ok e => match to_json e with Ok text => text | Err _ => [] end
  | Err _ => []
  end.

Example event_before_hello :
  frame_summary <$> tk_sent (tx_end [AOpen; AEnter 0; ANumber 0; tx_store 0; ALook 0; ASend 0 true; AFrame 0 hello_text]) =
    [(0%nat, (event_status 1).1, (event_status 1).2); (0%nat, Some (JStr (u "hello")), None)].
Proof. vm_compute. reflexivity. Qed.

(** ** A later event before the replay

    The first event was stored while there was no connection. The second goes
    out before the replay of the first, and is replayed itself: the backend sees
    the numbers 2, 1, 2. *)

Definition tx_unreplayed : list action :=
  [AEnter 0; ANumber 0; tx_store 0; ALook 0; AOpen; AEnter 1; ANumber 1; tx_store 1; ALook 1; ASend 1 true].
(** The frames of [replay_spool] on the spool of that moment. *)
Definition tx_world : agent := tk_world (tx_end tx_unreplayed).
Definition replayed : result (list Envelope) := (spool_replay_after (EventSpool := agent_spool default_outbox) ex_now [] tx_world).1.
Definition json_text (e : Envelope) : option ustr := match to_json e with Ok text => Some text | Err _ => None end.
Definition replay_frames (r : result (list Envelope)) : list (action (S := agent)) :=
  match r with Ok events => AFrame 0 <$> omap json_text events | Err _ => [] end.
Definition tx_replay : list (action (S := agent)) := replay_frames replayed.

Example replay_overtaken :
  (λ x, (frame_summary x).2) <$> tk_sent (tx_end (tx_unreplayed ++ tx_replay)) = [(event_status 2).2; (event_status 1).2; (event_status 2).2].
Proof. vm_compute. reflexivity. Qed.

(** ** A late failure

    A send over the first connection fails when the second one is up: the
    failure clears [self._ws], and the next event stays in the spool although
    the second connection is open. *)

Definition tx_late : list action :=
  [AOpen; AEnter 0; ANumber 0; tx_store 0; ALook 0; AClose; AOpen; ASend 0 false; AEnter 1; ANumber 1; tx_store 1; ALook 1].

Example late_failure : tk_socket (tx_end tx_late) = None ∧ tk_sent (tx_end tx_late) = [] ∧
  length (tk_stored (tx_end tx_late)) = 2%nat ∧ tk_stages (tx_end tx_late) = [Ended; Ended].
Proof. split_and!; vm_compute; reflexivity. Qed.
