(* ===== verification/Connect.v ===== *)
(** Keeping the uplink connected (src/src/build_engine/agent/uplink.py,
    [run_forever], [connect_once], [stop]): a fresh session before every
    connection, the upgrade request, the connection itself, and the pauses
    between failed connections. *)

From Corelib Require Import SpecFloat.
From S2P Require Import Prelude PyStr PyFloat Dict Json Clock Uuid Protocol Db Store Outbox Fs Url Config Handlers Artifact Auth Metrics Uplink.

Local Open Scope Z_scope.

(** Headers of the upgrade request: later ones replace earlier ones of the same name. *)
Definition uplink_headers (version : ustr) (c : EngineConfig) (credentials : EngineCredentials) : list (ustr * ustr) :=
  dmerge (client_headers_for_credentials version credentials)
    [(u "X-Build-Engine-Proto", str_of_Z PROTOCOL_VERSION); (u "X-Build-Engine-Version", version);
     (u "X-Image-Manifest-Version", cf_image_manifest_version c)].

(** How one connection goes: the socket does not open, or it opens, the backend
    sends these frames, and then closes it or it breaks. *)
Inductive connection :=
| NotOpened (e : exn)
| Opened (frames : list frame) (broken : option exn).

(** One round of the loop as the outside decides it: the connection, and
    whether the task that calls [stop] runs while the connection is open, after
    these frames, or during the pause after it. *)
Record round := MkRound { ro_connection : connection; ro_signal : bool; ro_signal_in_pause : bool }.

(** [BuildEngineUplink] between connections: the uplink, its credentials, the
    stop event, the metrics, the upgrade requests it sent. *)
Record link (S : Type) := Link {
  li_up : uplink S;
  li_credentials : EngineCredentials;
  li_stopped : bool;
  li_metrics : option MetricsCollector;
  li_requests : list (ustr * list (ustr * ustr));
}.
Arguments Link {S}. Arguments li_up {S}. Arguments li_credentials {S}. Arguments li_stopped {S}.
Arguments li_metrics {S}. Arguments li_requests {S}.

Section link.
Context {S : Type} `{EventSpool S} `{CommandHandlers S} `{Http S}.
Context (netloc_check : ustr → result ()) (version : ustr) (config : EngineConfig) (out : outside) (backoff : BackoffPolicy).

Definition on_up {A} : M (uplink S) A → M (link S) A :=
  zoom li_up (λ s l, Link s (li_credentials l) (li_stopped l) (li_metrics l) (li_requests l)).

Definition set_credentials (c : EngineCredentials) : M (link S) () :=
  modify (λ l, Link (li_up l) c (li_stopped l) (li_metrics l) (li_requests l)).
Definition set_stopped : M (link S) () :=
  modify (λ l, Link (li_up l) (li_credentials l) true (li_metrics l) (li_requests l)).

(** [credentials.backend_url or config.backend_url]: [None] only if the configuration has none. *)
Definition uplink_backend (c : EngineCredentials) : option ustr :=
  match cr_backend_url c with Some (x :: s) => Some (x :: s) | _ => cf_backend_url config end.

(** Renew the session when it is due; the renewed one is kept in memory only. *)
Definition refresh_credentials : M (link S) () :=
  c ← gets li_credentials;
  match uplink_backend c with
  | None => mret ()
  | Some url =>
      t ← on_up (now out);
      refreshed ← on_up (on_world (refresh_session_if_needed url t c));
      set_credentials refreshed
  end.

Definition connect_once (conn : connection) : M (link S) () :=
  refresh_credentials;;
  c ← gets li_credentials;
  match uplink_backend c with
  | None | Some [] => raise (protocol_error (u "backend_url is required for uplink"))
  | Some backend_url =>
      url ← lift (websocket_url netloc_check backend_url);
      modify (λ l, Link (li_up l) (li_credentials l) (li_stopped l) (li_metrics l)
                     (li_requests l ++ [(url, uplink_headers version config c)]));;
      match conn with
      | NotOpened e => raise e
      | Opened frames broken =>
          on_up (run_connection out (cr_engine_id c) version config frames);;
          match broken with Some e => raise e | None => mret () end
      end
  end.

(** [stop]: the event, and the socket is closed if there is one. *)
Definition stop : M (link S) () := set_stopped.

Definition count_reconnect : M (link S) () :=
  modify (λ l, Link (li_up l) (li_credentials l) (li_stopped l) (uplink_reconnect <$> li_metrics l) (li_requests l)).

(** The task another part of the program starts to end the loop; it calls [stop]. *)
Context (on_signal : M (link S) ()).

(** The loop over the rounds the outside offers; the result are the pauses. *)
Fixpoint run_forever (failures : Z) (rounds : list round) : M (link S) (list pyfloat) :=
  match rounds with
  | [] => mret []
  | r :: rounds =>
      stopped ← gets li_stopped;
      if (stopped : bool) then mret []
      else
        ended ← (λ l, let '(res, l) := connect_once (ro_connection r) l in (Ok res, l));
        (if ro_signal r then on_signal else mret ());;
        match ended with
        | Ok _ => run_forever 0 rounds
        | Err e =>
            raise_if (negb (isinstance e ExceptionC)) e;;
            count_reconnect;;
            d ← lift (delay backoff (failures + 1));
            (if ro_signal_in_pause r then on_signal else mret ());;
            rest ← run_forever (failures + 1) rounds;
            mret (d :: rest)
        end
  end.

End link.
