(* ===== verification/Doctor.v ===== *)
(** The operator's diagnostics (src/src/build_engine/cli/doctor.py): the checks
    of host, credentials, queue and backend, and the report. *)

From Corelib Require Import SpecFloat.
From S2P Require Import Prelude PyStr PyFloat Dict Json Clock Uuid Protocol Shlex Fs Url Config Toml Settings Artifact Auth Credentials Metrics Docker Handlers Uplink Connect.

Local Open Scope Z_scope.

Inductive CheckStatus := StatusOk | StatusFail | StatusSkip.
#[export] Instance check_status_eq_dec : EqDecision CheckStatus.
Proof. solve_decision. Defined.

Definition MIN_FREE_BYTES : Z := 20 * 1024 ^ 3.
Definition HEALTH_PATH : ustr := u "/api/v2/build-engines/agent/health".

Record DoctorCheck := MkCheck { ch_name : ustr; ch_status : CheckStatus; ch_detail : ustr; ch_values : option jdict }.
Record DoctorReport := MkReport { re_version : ustr; re_protocol_version : Z; re_ok : bool; re_checks : list DoctorCheck }.

Definition ok (name detail : ustr) (values : option jdict) : DoctorCheck := MkCheck name StatusOk detail values.
Definition fail (name detail : ustr) (values : option jdict) : DoctorCheck := MkCheck name StatusFail detail values.
Definition skip (name detail : ustr) : DoctorCheck := MkCheck name StatusSkip detail None.

(** * The report as text *)

Definition status_text (s : CheckStatus) : ustr :=
  match s with StatusOk => u "ok" | StatusFail => u "fail" | StatusSkip => u "skip" end.
Definition status_label (s : CheckStatus) : ustr :=
  match s with StatusOk => u "OK" | StatusFail => u "FAIL" | StatusSkip => u "SKIP" end.
Definition report_status (r : DoctorReport) : ustr := if re_ok r then u "ok" else u "error".

Definition check_to_dict (c : DoctorCheck) : jdict :=
  [(u "name", JStr (ch_name c)); (u "status", JStr (status_text (ch_status c)));
   (u "ok", JBool (bool_decide (ch_status c = StatusOk))); (u "detail", JStr (ch_detail c))]
  ++ match ch_values c with Some (v :: vs) => [(u "values", JObj (v :: vs))] | _ => [] end.

Definition report_to_dict (r : DoctorReport) : jdict :=
  [(u "version", JStr (re_version r)); (u "protocol_version", JInt (re_protocol_version r));
   (u "status", JStr (report_status r)); (u "checks", JList ((λ c, JObj (check_to_dict c)) <$> re_checks r))].

Definition render_human (r : DoctorReport) : ustr :=
  join [10%N] ([u "build-engine doctor: " ++ report_status r; u "version: " ++ re_version r;
                u "protocol: v" ++ str_of_Z (re_protocol_version r)]
    ++ ((λ c, u "- " ++ ch_name c ++ u ": " ++ status_label (ch_status c) ++ u " (" ++ ch_detail c ++ u ")") <$> re_checks r)).

Definition render_json (r : DoctorReport) : ustr := dumps (spaced true) (JObj (report_to_dict r)).

(** [f"{x:.1f}"] of a finite float: rounded to even on its exact value. *)
Definition format_1 (x : pyfloat) : ustr :=
  match x with
  | S754_finite s m e =>
      let num := 10 * Zpos m * (if 0 <=? e then 2 ^ e else 1) in
      let den := if 0 <=? e then 1 else 2 ^ (- e) in
      let q := num / den in
      let r := num mod den in
      let q := if (2 * r <? den) || ((2 * r =? den) && Z.even q) then q else q + 1 in
      (if s then u "-" else []) ++ str_of_Z (q / 10) ++ u "." ++ str_of_Z (q mod 10)
  | S754_zero s => if s then u "-0.0" else u "0.0"
  | _ => float_repr x
  end.

Definition format_gib (value : Z) : ustr := format_1 (int_truediv value (1024 ^ 3)) ++ u " GiB".

(** * The checks *)

(** The answer of the health endpoint: an HTTP error status, or a body and its
    [Date] header. *)
Inductive health_answer :=
| HealthStatus (code : Z)
| HealthBody (body : list N) (date : option ustr).

(** What the checks ask of the machine and of the network. *)
Class DoctorHost (S : Type) := {
  doc_container :: ContainerHost S;
  doc_get_host : S → host;
  doc_put_host : host → S → S;
  (** [subprocess.run]: exit code, output, error output. *)
  doc_command : list ustr → M S (Z * ustr * ustr);
  doc_disk_free : path → M S Z;
  (** [os.access(path, W_OK | X_OK)]. *)
  doc_access : path → M S bool;
  (** The row of [PRAGMA integrity_check]. *)
  doc_integrity : path → M S (option ustr);
  doc_health : ustr → list (ustr * ustr) → M S health_answer;
  (** The first frame of a websocket opened with these headers. *)
  doc_welcome : ustr → list (ustr * ustr) → M S frame;
  (** [parsedate_to_datetime] in UTC; [None] if it raises. *)
  doc_parse_date : ustr → option instant;
}.

(** The nearest path above [p] that exists; the root does. *)
Fixpoint nearest_existing (fuel : nat) (f : fs) (p : path) : path :=
  match fuel with
  | O => []
  | Datatypes.S fuel => if exists_ f p || bool_decide (p = []) then p else nearest_existing fuel f (parent p)
  end.
Definition nearest_existing_path (f : fs) (p : path) : path := nearest_existing (Datatypes.S (length p)) f p.

Definition join_backend_path (backend_url p : ustr) : ustr := rstrip (is_char 47) backend_url ++ p.

Definition doctor_backend_url (config : EngineConfig) (credentials : option EngineCredentials) : option ustr :=
  match credentials with
  | Some c => match cr_backend_url c with Some (x :: s) => Some (x :: s) | _ => cf_backend_url config end
  | None => cf_backend_url config
  end.

(** [isinstance(value, int)]. *)
Definition json_int (v : option json) : option Z :=
  match v with Some (JInt z) => Some z | Some (JBool b) => Some (if b then 1 else 0) | _ => None end.

Section doctor.
Context {S : Type} `{DoctorHost S} `{Tomllib}.
Context (netloc_check : ustr → result ()) (version : ustr) (data : path) (ac : accounts) (config : EngineConfig).

Definition doc_on_host {A} (m : M host A) : M S A := zoom doc_get_host doc_put_host m.
Definition doc_files {A} (m : M fs A) : M S A := doc_on_host (on_fs_part m).

(** [try: m except (classes) as exc: handler(exc)]. *)
Definition catching {A} (classes : list exn_class) (m : M S A) (handler : exn → M S A) : M S A :=
  try_except m (λ e, if existsb (isinstance e) classes then handler e else raise e).

Definition check_version : DoctorCheck :=
  ok (u "version") (u "build-engine " ++ version ++ u ", protocol v" ++ str_of_Z PROTOCOL_VERSION)
    (Some [(u "version", JStr version); (u "protocol_version", JInt PROTOCOL_VERSION)]).

Definition docker_details (stdout : ustr) : result (ustr * jdict) :=
  let plain := (u "daemon reachable", []) in
  match loads stdout with
  | Ok (JObj d) =>
      let text key := match dget key d with Some (JStr s) => Some s | _ => None end in
      let values := omap (λ kv, (λ s, (kv.1, JStr s)) <$> kv.2)
                      [(u "version", text (u "Version")); (u "cgroup_driver", text (u "CgroupDriver"))] in
      Ok (match text (u "Version") with Some v => u "daemon reachable, server " ++ v | None => u "daemon reachable" end, values)
  | Ok _ => Ok plain
  | Err e => if isinstance e JSONDecodeError then Ok plain else Err e
  end.

Definition check_docker : M S DoctorCheck :=
  answer ← catching [FileNotFoundError; SubprocessTimeout]
             (r ← doc_command [u "docker"; u "version"; u "--format"; u "{{json .Server}}"]; mret (inl r))
             (λ e, mret (inr e));
  match answer with
  | inr e => mret (fail (u "docker") (exn_text e) None)
  | inl (code, stdout, stderr) =>
      if negb (code =? 0) then
        let detail := strip is_space (match stderr with [] => stdout | _ => stderr end) in
        mret (fail (u "docker") (match detail with [] => u "docker version failed" | _ => detail end) None)
      else
        '(detail, values) ← lift (docker_details stdout);
        mret (ok (u "docker") detail (match values with [] => None | _ => Some values end))
  end.

Definition CGROUP_CONTROLLERS : path := [u "sys"; u "fs"; u "cgroup"; u "cgroup.controllers"].

Definition check_cgroup_v2 : M S DoctorCheck :=
  there ← doc_files (gets (λ f, exists_ f CGROUP_CONTROLLERS));
  if negb there then mret (fail (u "cgroup_v2") (u "unified cgroup v2 hierarchy was not detected") None)
  else
    catching [OSError]
      (text ← doc_files (read_text CGROUP_CONTROLLERS);
       mret (ok (u "cgroup_v2") (u "unified hierarchy detected")
               (Some [(u "controllers", JList (JStr <$> split_ws (strip is_space text)))])))
      (λ e, mret (fail (u "cgroup_v2") (exn_text e) None)).

Definition check_disk_space : M S DoctorCheck :=
  target ← doc_files (gets (λ f, nearest_existing_path f (cf_state_dir config)));
  free ← catching [OSError] (n ← doc_disk_free target; mret (inl n)) (λ e, mret (inr e));
  match free with
  | inr e => mret (fail (u "disk_space") (exn_text e) None)
  | inl free =>
      let values := Some [(u "path", JStr (path_str target)); (u "free_bytes", JInt free);
                          (u "required_bytes", JInt MIN_FREE_BYTES)] in
      if free <? MIN_FREE_BYTES
      then mret (fail (u "disk_space") (format_gib free ++ u " free; " ++ format_gib MIN_FREE_BYTES ++ u " required") values)
      else mret (ok (u "disk_space") (format_gib free ++ u " free") values)
  end.

Definition state_paths : list path :=
  [cf_state_dir config; cf_state_dir config ++ [u "workspaces"]; cf_state_dir config ++ [u "cache"];
   cf_state_dir config ++ [u "tmp"]].

Fixpoint inaccessible_paths (paths : list path) : M S (list path) :=
  match paths with
  | [] => mret []
  | p :: paths =>
      existing ← doc_files (gets (λ f, nearest_existing_path f p));
      access ← doc_access existing;
      rest ← inaccessible_paths paths;
      mret (if (access : bool) then rest else p :: rest)
  end.

Definition paths_json (l : list path) : json := JList ((λ p, JStr (path_str p)) <$> l).

Definition check_writable_paths : M S DoctorCheck :=
  inaccessible ← inaccessible_paths state_paths;
  match inaccessible with
  | [] => mret (ok (u "writable_paths") (u "state paths are writable (read-only check)") (Some [(u "paths", paths_json state_paths)]))
  | _ => mret (fail (u "writable_paths") (u "one or more state paths are not writable")
                 (Some [(u "paths", paths_json state_paths); (u "inaccessible", paths_json inaccessible)]))
  end.

Definition check_sqlite_integrity (queue_path : path) : M S DoctorCheck :=
  let name := u "sqlite_integrity" in
  let values := Some [(u "path", JStr (path_str queue_path))] in
  there ← doc_files (gets (λ f, exists_ f queue_path));
  if negb there then mret (ok name (u "queue database has not been created yet") values)
  else
    row ← catching [SqliteError] (r ← doc_integrity queue_path; mret (inl r)) (λ e, mret (inr e));
    match row with
    | inr e => mret (fail name (exn_text e) values)
    | inl r =>
        let result := default [] r in
        if negb (ustr_eqb result (u "ok"))
        then mret (fail name (match result with [] => u "integrity_check returned no rows" | _ => result end) values)
        else mret (ok name (u "ok") values)
    end.

Definition check_builder_network : M S DoctorCheck :=
  mret (ok (u "builder_network") (u "builders use unrestricted outbound Docker networking")
          (Some [(u "network", JStr (u "unrestricted"))])).

(** [(now - backend_time).total_seconds()]. *)
Definition clock_skew_seconds (date_header : option ustr) (now : instant) : option pyfloat :=
  h ← date_header;
  t ← doc_parse_date h;
  let d := now - t in
  Some (if d <? 0 then SFopp (int_truediv (- d) US) else int_truediv d US).

(** The judgement of the body of the health response. *)
Definition judge_health (now : instant) (body : list N) (date_header : option ustr) : result DoctorCheck :=
  let name := u "agent_health" in
  text ← utf8_decode body;
  match loads text with
  | Err e => if isinstance e JSONDecodeError then Ok (fail name (u "health response was not JSON: " ++ exn_text e) None) else Err e
  | Ok (JObj payload) =>
      match dget (u "ok") payload with
      | Some (JBool true) =>
          match json_int (dget (u "proto_min") payload), json_int (dget (u "proto_max") payload) with
          | Some lo, Some hi =>
              if negb ((lo <=? PROTOCOL_VERSION) && (PROTOCOL_VERSION <=? hi))
              then Ok (fail name (u "backend does not support this protocol version") None)
              else
                let protos := [(u "proto_min", default JNull (dget (u "proto_min") payload));
                               (u "proto_max", default JNull (dget (u "proto_max") payload))] in
                match clock_skew_seconds date_header now with
                | Some skew =>
                    let values := Some (protos ++ [(u "clock_skew_seconds", JFloat skew)]) in
                    if float_ltb (small_float 60) (SFabs skew)
                    then Ok (fail (u "clock_skew") (u "clock skew is " ++ format_1 skew ++ u "s") values)
                    else Ok (ok name (u "healthy; clock skew " ++ format_1 skew ++ u "s") values)
                | None => Ok (ok name (u "healthy; backend Date header unavailable") (Some protos))
                end
          | _, _ => Ok (fail name (u "backend does not support this protocol version") None)
          end
      | _ => Ok (fail name (u "health endpoint did not report ok") None)
      end
  | Ok _ => Ok (fail name (u "health endpoint did not report ok") None)
  end.

Definition check_agent_health (credentials : option EngineCredentials) : M S DoctorCheck :=
  let name := u "agent_health" in
  match credentials, doctor_backend_url config credentials with
  | None, _ => mret (skip name (u "credentials are unavailable"))
  | _, None | _, Some [] => mret (fail name (u "backend_url is not configured") None)
  | Some c, Some backend_url =>
      answer ← catching [OSError]
                 (r ← doc_health (join_backend_path backend_url HEALTH_PATH) (client_headers_for_credentials version c); mret (inl r))
                 (λ e, mret (inr e));
      match answer with
      | inr e => mret (fail name (exn_text e) None)
      | inl (HealthStatus code) => mret (fail name (u "HTTP " ++ str_of_Z code) None)
      | inl (HealthBody body date) => t ← host_now; lift (judge_health t body date)
      end
  end.

Definition check_wss_handshake (credentials : option EngineCredentials) : M S DoctorCheck :=
  let name := u "wss_handshake" in
  match credentials, doctor_backend_url config credentials with
  | None, _ => mret (skip name (u "credentials are unavailable"))
  | _, None | _, Some [] => mret (fail name (u "backend_url is not configured") None)
  | Some c, Some backend_url =>
      answer ← catching [OSError; ProtocolError; AuthError; TimeoutError; WebSocketException]
                 (url ← lift (websocket_url netloc_check backend_url);
                  f ← doc_welcome url (uplink_headers version config c);
                  t ← host_now;
                  e ← lift (decode_frame t None f);
                  mret (inl e))
                 (λ e, mret (inr e));
      match answer with
      | inr e => mret (fail name (exn_text e) None)
      | inl welcome =>
          let payload := env_payload welcome in
          let proto := dget (u "proto_negotiated") payload in
          if match dget (u "engine_id") payload with Some (JStr s) => ustr_eqb s (cr_engine_id c) | _ => false end
             && match proto with Some v => json_eq_int v PROTOCOL_VERSION | None => false end
          then mret (ok name (u "welcome frame received") (Some [(u "proto_negotiated", default JNull proto)]))
          else mret (fail name (u "welcome frame did not negotiate this engine/protocol") None)
      end
  end.

Definition check_image_pull : M S DoctorCheck :=
  let name := u "image_pull" in
  image ← catching [DockerError]
            (manifest ← doc_files (load_bundled_image_manifest data);
             let configured := match cf_images config with i :: _ => i | [] => default [] (head (dkeys manifest)) end in
             i ← lift (resolve_image_reference configured (Some manifest));
             mret (inl i))
            (λ e, mret (inr e));
  match image with
  | inr e => mret (fail name (exn_text e) None)
  | inl image =>
      let values := Some [(u "image", JStr image)] in
      catching [DockerError; SubprocessTimeout; OSError]
        (pull_image image;; mret (ok name (u "pulled " ++ image) values))
        (λ e, mret (fail name (exn_text e) values))
  end.

(** * The whole run *)

Definition maybe_skip (name : ustr) (skipped : list ustr) (check : M S DoctorCheck) : M S DoctorCheck :=
  if mem_str name skipped then mret (skip name (u "skipped by operator request")) else check.

Definition check_credentials (service_user service_group : option ustr) : M S (DoctorCheck * option EngineCredentials) :=
  catching [AuthError; ValueError; FileNotFoundError; OSError]
    (c ← doc_on_host (validate_credentials_file ac (cf_credentials_path config) service_user service_group);
     mret (ok (u "credentials") (path_str (cf_credentials_path config)) (Some [(u "engine_id", JStr (cr_engine_id c))]), Some c))
    (λ e, mret (fail (u "credentials") (exn_text e) None, None)).

Definition run_doctor (skip_checks : list ustr) (service_user service_group : option ustr) : M S DoctorReport :=
  '(cred_check, credentials) ← check_credentials service_user service_group;
  docker ← check_docker;
  cgroup ← check_cgroup_v2;
  disk ← check_disk_space;
  writable ← check_writable_paths;
  sqlite ← check_sqlite_integrity (cf_state_dir config ++ [u "queue.sqlite"]);
  network ← maybe_skip (u "builder_network") skip_checks check_builder_network;
  health ← maybe_skip (u "agent_health") skip_checks (check_agent_health credentials);
  wss ← maybe_skip (u "wss_handshake") skip_checks (check_wss_handshake credentials);
  pull ← maybe_skip (u "image_pull") skip_checks check_image_pull;
  let checks := [check_version; cred_check; docker; cgroup; disk; writable; sqlite; network; health; wss; pull] in
  mret (MkReport version PROTOCOL_VERSION (forallb (λ c, negb (bool_decide (ch_status c = StatusFail))) checks) checks).

End doctor.
