(* ===== verification/DoctorProofs.v ===== *)
(** The verdict of the diagnostics: which checks a report has, what its status
    says, and what a passed self-test has established. *)

From Corelib Require Import SpecFloat.
From S2P Require Import Prelude PyStr PyFloat Dict Json Clock Uuid Protocol Shlex Fs Url Config Toml Settings Artifact Auth Credentials Metrics Docker Handlers Uplink Connect Doctor.

Local Open Scope Z_scope.

(** [yields P m]: every value [m] returns satisfies [P]. *)
Definition yields {S A} (P : A → Prop) (m : M S A) : Prop := ∀ s a s', m s = (Ok a, s') → P a.

Section yields.
Context {S : Type}.

Lemma yields_ret {A} (P : A → Prop) (a : A) : P a → yields (S := S) P (mret a).
Proof. by intros Ha s b s' [= <- _]. Qed.

Lemma yields_raise {A} (P : A → Prop) e : yields (S := S) P (raise e).
Proof. by intros s a s' [=]. Qed.

Lemma yields_lift {A} (P : A → Prop) (r : result A) : (∀ a, r = Ok a → P a) → yields (S := S) P (lift r).
Proof. intros Hr s a s' [= E _]. by apply Hr. Qed.

Lemma yields_bind {A B} (P : B → Prop) (m : M S A) f : (∀ a, yields P (f a)) → yields P (m ≫= f).
Proof. intros Hf s b s' (a & s1 & _ & E)%bind_Ok_inv. by eapply Hf. Qed.

Lemma yields_try {A} (P : A → Prop) (m : M S A) h : yields P m → (∀ e, yields P (h e)) → yields P (try_except m h).
Proof.
  intros Hm Hh s a s'. unfold try_except. destruct (m s) as [[x|e] s1] eqn:E; [|apply Hh].
  intros [= <- <-]. by eapply Hm.
Qed.

Lemma yields_catching {A} (P : A → Prop) classes (m : M S A) h : yields P m → (∀ e, yields P (h e)) → yields P (catching classes m h).
Proof.
  intros Hm Hh. apply yields_try; [done|]. intros e. destruct (existsb _ _); [apply Hh|apply yields_raise].
Qed.
End yields.

(** A check of one of these names that was carried out. *)
Definition carried_out (names : list ustr) (c : DoctorCheck) : Prop := ch_name c ∈ names ∧ ch_status c ≠ StatusSkip.

Ltac carried := (split; [repeat (first [left | right])|done]).

Ltac yields_go :=
  repeat first
    [ (apply yields_ret; carried)
    | apply yields_raise
    | (apply yields_catching; [|intros ?])
    | (apply yields_bind; intros ?)
    | case_match ].

Definition HEALTH_NAMES : list ustr := [u "agent_health"; u "clock_skew"].

Section doctor.
Context {S : Type} `{DoctorHost S} `{Tomllib}.
Context (netloc_check : ustr → result ()) (version : ustr) (data : path) (ac : accounts) (config : EngineConfig).

(** Every check that is carried out reports ok or fail under its own name; the
    health check may report a wrong clock under another. *)

Lemma docker_carried : yields (carried_out [u "docker"]) (check_docker).
Proof. unfold check_docker. yields_go. Qed.

Lemma cgroup_carried : yields (carried_out [u "cgroup_v2"]) check_cgroup_v2.
Proof. unfold check_cgroup_v2. yields_go. Qed.

Lemma disk_carried : yields (carried_out [u "disk_space"]) (check_disk_space config).
Proof. unfold check_disk_space. yields_go. Qed.

Lemma writable_carried : yields (carried_out [u "writable_paths"]) (check_writable_paths config).
Proof. unfold check_writable_paths. yields_go. Qed.

Lemma sqlite_carried p : yields (carried_out [u "sqlite_integrity"]) (check_sqlite_integrity p).
Proof. unfold check_sqlite_integrity. yields_go. Qed.

Lemma network_carried : yields (S := S) (carried_out [u "builder_network"]) check_builder_network.
Proof. unfold check_builder_network. yields_go. Qed.

Lemma judge_health_carried now body date c : judge_health now body date = Ok c → carried_out HEALTH_NAMES c.
Proof.
  unfold judge_health. intros (text & _ & Hc)%result_bind_Ok_inv. revert Hc.
  repeat case_match; intros [= <-]; carried.
Qed.

Lemma health_carried c : yields (carried_out HEALTH_NAMES) (check_agent_health version config (Some c)).
Proof.
  unfold check_agent_health. cbv zeta.
  destruct (doctor_backend_url config (Some c)) as [[|x url]|]; [apply yields_ret; carried| |apply yields_ret; carried].
  apply yields_bind. intros [[code|body date]|e]; [apply yields_ret; carried| |apply yields_ret; carried].
  apply yields_bind. intros t. apply yields_lift, judge_health_carried.
Qed.

Lemma wss_carried c : yields (carried_out [u "wss_handshake"]) (check_wss_handshake netloc_check version config (Some c)).
Proof.
  unfold check_wss_handshake. cbv zeta.
  destruct (doctor_backend_url config (Some c)) as [[|x url]|]; [apply yields_ret; carried| |apply yields_ret; carried].
  apply yields_bind. intros [welcome|e]; [case_match|]; apply yields_ret; carried.
Qed.

Lemma pull_carried : yields (carried_out [u "image_pull"]) (check_image_pull data config).
Proof.
  unfold check_image_pull. cbv zeta. apply yields_bind. intros [image|e]; [|apply yields_ret; carried].
  apply yields_catching; [apply yields_bind; intros []|intros e]; apply yields_ret; carried.
Qed.

(** A check the operator may skip. *)
Definition optional_check (names skipped : list ustr) (name : ustr) (c : DoctorCheck) : Prop :=
  if mem_str name skipped then c = skip name (u "skipped by operator request") else carried_out names c.

Lemma maybe_skip_yields (P : DoctorCheck → Prop) name skipped (m : M S DoctorCheck) :
  yields P m →
  yields (λ c, if mem_str name skipped then c = skip name (u "skipped by operator request") else P c) (maybe_skip name skipped m).
Proof.
  intros Hm. unfold maybe_skip. destruct (mem_str name skipped); [by apply yields_ret|].
  intros s c s' E. by eapply Hm.
Qed.

(** What a check that needs credentials reports. *)
Definition needs_credentials (names : list ustr) (name : ustr) (credentials : option EngineCredentials) (c : DoctorCheck) : Prop :=
  match credentials with
  | Some _ => carried_out names c
  | None => c = skip name (u "credentials are unavailable")
  end.

Lemma health_yields credentials : yields (needs_credentials HEALTH_NAMES (u "agent_health") credentials) (check_agent_health version config credentials).
Proof. destruct credentials; [apply health_carried|]. by apply yields_ret. Qed.

Lemma wss_yields credentials : yields (needs_credentials [u "wss_handshake"] (u "wss_handshake") credentials) (check_wss_handshake netloc_check version config credentials).
Proof. destruct credentials; [apply wss_carried|]. by apply yields_ret. Qed.

(** The credentials check passes exactly with valid credentials. *)
Lemma check_credentials_run su sg s c credentials s' : check_credentials ac config su sg s = (Ok (c, credentials), s') →
  ch_name c = u "credentials" ∧
  match credentials with
  | Some v => ch_status c = StatusOk ∧ doc_on_host (validate_credentials_file ac (cf_credentials_path config) su sg) s = (Ok v, s')
  | None => ch_status c = StatusFail
  end.
Proof.
  unfold check_credentials, catching, try_except. unfold mbind at 1, M_bind at 1.
  destruct (doc_on_host _ s) as [[v|e] s1] eqn:E; [by intros [= <- <- <-]|].
  destruct (existsb _ _); [|done]. by intros [= <- <- <-].
Qed.

(** The names a report's checks may have, in its order. *)
Definition CHECK_NAMES : list (list ustr) :=
  [[u "version"]; [u "credentials"]; [u "docker"]; [u "cgroup_v2"]; [u "disk_space"]; [u "writable_paths"];
   [u "sqlite_integrity"]; [u "builder_network"]; HEALTH_NAMES; [u "wss_handshake"]; [u "image_pull"]].
Definition OPTIONAL_NAMES : list ustr := [u "builder_network"; u "agent_health"; u "wss_handshake"; u "image_pull"].

(** A check is ok, failed, or skipped by the operator. *)
Definition settled (skipped : list ustr) (c : DoctorCheck) : Prop :=
  ch_status c = StatusOk ∨ ch_status c = StatusFail ∨ (ch_name c ∈ skipped ∧ ch_status c = StatusSkip).

Lemma carried_settled (names skipped : list ustr) c : carried_out names c → settled skipped c.
Proof. intros [Hn Hs]. unfold settled. destruct (ch_status c); [by left|by right; left|done]. Qed.

Lemma optional_settled (names skipped : list ustr) name c :
  (if mem_str name skipped then c = skip name (u "skipped by operator request") else carried_out names c) →
  settled skipped c.
Proof.
  destruct (mem_str name skipped) eqn:Em; [|apply carried_settled]. intros ->. right; right.
  split; [|done]. by apply bool_decide_eq_true in Em.
Qed.

Lemma optional_skipped name (skipped : list ustr) (P : DoctorCheck → Prop) c : name ∈ skipped →
  (if mem_str name skipped then c = skip name (u "skipped by operator request") else P c) →
  c = skip name (u "skipped by operator request").
Proof. intros Hn. unfold mem_str. by rewrite bool_decide_true. Qed.
Lemma optional_named (names skipped : list ustr) name (P : DoctorCheck → Prop) c : name ∈ names →
  (P c → ch_name c ∈ names) →
  (if mem_str name skipped then c = skip name (u "skipped by operator request") else P c) → ch_name c ∈ names.
Proof. intros Hn HP. destruct (mem_str name skipped); [by intros ->|done]. Qed.

Lemma needs_named (names : list ustr) name credentials c : name ∈ names → needs_credentials names name credentials c → ch_name c ∈ names.
Proof. intros Hn. destruct credentials; [by intros []|by intros ->]. Qed.

(** The report that [run_doctor] puts together. *)
Definition report_of (checks : list DoctorCheck) : DoctorReport :=
  MkReport version PROTOCOL_VERSION (forallb (λ c, negb (bool_decide (ch_status c = StatusFail))) checks) checks.

Lemma run_doctor_run (skipped : list ustr) su sg s r s' :
  run_doctor netloc_check version data ac config skipped su sg s = (Ok r, s') →
  ∃ cred credentials s1 docker cgroup disk writable sqlite network health wss pull,
    check_credentials ac config su sg s = (Ok (cred, credentials), s1) ∧
    carried_out [u "docker"] docker ∧ carried_out [u "cgroup_v2"] cgroup ∧ carried_out [u "disk_space"] disk ∧
    carried_out [u "writable_paths"] writable ∧ carried_out [u "sqlite_integrity"] sqlite ∧
    optional_check [u "builder_network"] skipped (u "builder_network") network ∧
    (if mem_str (u "agent_health") skipped then health = skip (u "agent_health") (u "skipped by operator request")
     else needs_credentials HEALTH_NAMES (u "agent_health") credentials health) ∧
    (if mem_str (u "wss_handshake") skipped then wss = skip (u "wss_handshake") (u "skipped by operator request")
     else needs_credentials [u "wss_handshake"] (u "wss_handshake") credentials wss) ∧
    optional_check [u "image_pull"] skipped (u "image_pull") pull ∧
    r = report_of [check_version version; cred; docker; cgroup; disk; writable; sqlite; network; health; wss; pull].
Proof.
  unfold run_doctor. intros ([cred credentials] & s1 & E1 & E)%bind_Ok_inv.
  apply bind_Ok_inv in E as (docker & s2 & E2%docker_carried & E).
  apply bind_Ok_inv in E as (cgroup & s3 & E3%cgroup_carried & E).
  apply bind_Ok_inv in E as (disk & s4 & E4%disk_carried & E).
  apply bind_Ok_inv in E as (writable & s5 & E5%writable_carried & E).
  apply bind_Ok_inv in E as (sqlite & s6 & E6%sqlite_carried & E).
  apply bind_Ok_inv in E as (network & s7 & E7%(maybe_skip_yields _ _ _ _ network_carried) & E).
  apply bind_Ok_inv in E as (health & s8 & E8%(maybe_skip_yields _ _ _ _ (health_yields credentials)) & E).
  apply bind_Ok_inv in E as (wss & s9 & E9%(maybe_skip_yields _ _ _ _ (wss_yields credentials)) & E).
  apply bind_Ok_inv in E as (pull & s10 & E10%(maybe_skip_yields _ _ _ _ pull_carried) & E).
  injection E as <- _. by exists cred, credentials, s1, docker, cgroup, disk, writable, sqlite, network, health, wss, pull.
Qed.

Lemma report_ok checks : re_ok (report_of checks) = true ↔ Forall (λ c, ch_status c ≠ StatusFail) checks.
Proof.
  unfold report_of. cbn [re_ok]. rewrite List.forallb_forall, List.Forall_forall.
  apply forall_proper. intros c. by rewrite negb_true_iff, bool_decide_eq_false.
Qed.

(** Nothing is left out of a report that is ok but what the operator skipped. *)
Lemma report_passed (skipped : list ustr) su sg s r s' :
  run_doctor netloc_check version data ac config skipped su sg s = (Ok r, s') → re_ok r = true →
  (∃ v s1, doc_on_host (validate_credentials_file ac (cf_credentials_path config) su sg) s = (Ok v, s1)) ∧
  ∀ c, c ∈ re_checks r → ch_status c = StatusOk ∨ (ch_name c ∈ skipped ∧ ch_status c = StatusSkip).
Proof.
  intros Hrun Hok. destruct (run_doctor_run _ _ _ _ _ _ Hrun) as (cred & credentials & s1 & docker & cgroup & disk & writable & sqlite & network & health & wss & pull & E1 &
    H1 & H2 & H3 & H4 & H5 & H6 & H7 & H8 & H9 & ->).
  apply check_credentials_run in E1 as [Hcn Hcred]. apply report_ok in Hok. destruct credentials as [v|]; [destruct Hcred as [Hcs Hv]|].
  2:{ rewrite List.Forall_forall in Hok. exfalso. apply (Hok cred); [by right; left|done]. }
  split; [eauto|]. intros c Hc. assert (settled skipped c) as [?|[?|?]]; [|by left| |by right].
  2:{ rewrite List.Forall_forall in Hok. exfalso. apply (Hok c); [by apply list_elem_of_In|done]. }
  cbn [re_checks report_of] in Hc. rewrite !elem_of_cons in Hc.
  destruct Hc as [->|[->|[->|[->|[->|[->|[->|[->|[->|[->|[->|Hn%elem_of_nil]]]]]]]]]]]; [by left|by left|..|done];
    eauto using carried_settled, optional_settled.
Qed.

(** The verdict of the diagnostics. A report has eleven checks of fixed
    names and order; its status is ok exactly if none of them failed; an
    optional check the operator names is reported as skipped. When the status
    is ok, the credentials file was valid, and every check passed but those the
    operator skipped: nothing is left out for another reason. *)
Theorem doctor_verdict (skipped : list ustr) su sg s r s' :
  run_doctor netloc_check version data ac config skipped su sg s = (Ok r, s') →
  Forall2 (λ names c, ch_name c ∈ names) CHECK_NAMES (re_checks r) ∧
  (re_ok r = true ↔ Forall (λ c, ch_status c ≠ StatusFail) (re_checks r)) ∧
  (∀ name, name ∈ OPTIONAL_NAMES → name ∈ skipped → skip name (u "skipped by operator request") ∈ re_checks r) ∧
  (re_ok r = true →
   (∃ v s1, doc_on_host (validate_credentials_file ac (cf_credentials_path config) su sg) s = (Ok v, s1)) ∧
   ∀ c, c ∈ re_checks r → ch_status c = StatusOk ∨ (ch_name c ∈ skipped ∧ ch_status c = StatusSkip)).
Proof.
  intros Hrun. destruct (run_doctor_run _ _ _ _ _ _ Hrun) as (cred & credentials & s1 & docker & cgroup & disk & writable & sqlite & network & health & wss & pull & E1 &
    H1 & H2 & H3 & H4 & H5 & H6 & H7 & H8 & H9 & ->).
  apply check_credentials_run in E1 as [Hcn Hcred].
  split; [|split; [apply report_ok|split]].
  - cbn [re_checks report_of]. unfold CHECK_NAMES.
    repeat (apply Forall2_cons; split); [by left|rewrite Hcn; by left|..|apply Forall2_nil_2];
      [apply H1|apply H2|apply H3|apply H4|apply H5|..].
    + by eapply optional_named; [left| |exact H6]; intros [].
    + by eapply optional_named; [left|apply needs_named; left|exact H7].
    + by eapply optional_named; [left|apply needs_named; left|exact H8].
    + by eapply optional_named; [left| |exact H9]; intros [].
  - intros name Hname Hs. cbn [re_checks report_of]. unfold OPTIONAL_NAMES in Hname.
    rewrite !elem_of_cons in Hname. destruct Hname as [->|[->|[->|[->|Hn%elem_of_nil]]]]; [..|done].
    + rewrite (optional_skipped _ _ _ _ Hs H6). set_solver.
    + rewrite (optional_skipped _ _ _ _ Hs H7). set_solver.
    + rewrite (optional_skipped _ _ _ _ Hs H8). set_solver.
    + rewrite (optional_skipped _ _ _ _ Hs H9). set_solver.
  - by eapply report_passed.
Qed.

End doctor.
