(* ===== verification/Commands.v ===== *)
(** The commands of the program (src/src/build_engine/cli/commands.py): each one
    loads its configuration, does its work and ends with an exit code. The
    service behind [serve] is in [Service]. *)

From S2P Require Import Prelude PyStr PyFloat Dict Json Clock Protocol Db Store Fs PackageJson Framework Url Cache Config Handlers Toml Settings Artifact Auth Credentials Metrics Docker Connect Doctor.

Local Open Scope Z_scope.

Inductive log_level := INFO | ERROR.

(** What a command uses of the process around it, beside what the diagnostics use. *)
Class Process (S : Type) := {
  pr_doctor :: DoctorHost S;
  pr_http :: Http S;
  (** The database file at a path. *)
  pr_database : path → S → db;
  pr_set_database : path → db → S → S;
  pr_log : log_level → ustr → M S ();
  pr_stdout : ustr → M S ();
  pr_stderr : ustr → M S ();
}.

(** The parsed arguments every command has. *)
Record cli := MkCli { cl_config : ustr; cl_credentials : option ustr }.

(** The process while a queue object is open: the world, the fields of
    [SQLiteQueueStore] and of [SQLiteCommandHandlers], and the event that stops
    the workers. *)
Record served (S : Type) := Served {
  se_world : S;
  se_store : store;
  se_draining : bool;
  se_scopes : option (list (option ustr));
  se_stop_workers : bool;
}.
Arguments Served {S}. Arguments se_world {S}. Arguments se_store {S}. Arguments se_draining {S}.
Arguments se_scopes {S}. Arguments se_stop_workers {S}.

Definition QUEUE_FILE : ustr := u "queue.sqlite".
Definition queue_path (config : EngineConfig) : path := cf_state_dir config ++ [QUEUE_FILE].

Definition skip_checks (values : option (list ustr)) : list ustr :=
  match values with None => [] | Some values => concat (split_csv <$> values) end.

Section commands.
Context {S : Type} `{Process S} `{Tomllib} `{DirScan}.
Context (netloc_check : ustr → result ()) (version : ustr) (data : path) (ac : accounts).
(** The working directory, the platform and the environment, as in [Settings]. *)
Context (cwd : path) (system machine : ustr) (environ : list (ustr * ustr)).

(** * Views of the process *)

Definition on_process {A} : M S A → M (served S) A :=
  zoom se_world (λ s w, Served s (se_store w) (se_draining w) (se_scopes w) (se_stop_workers w)).
Definition on_database {A} : M store A → M (served S) A :=
  zoom se_store (λ s w, Served (se_world w) s (se_draining w) (se_scopes w) (se_stop_workers w)).
Definition host_with_fs (h : host) (f : fs) : host := MkHost f (ho_meta h) (ho_names h) (ho_faults h).
Definition put_files (f : fs) (s : S) : S := doc_put_host (host_with_fs (doc_get_host s) f) s.
Definition agent_of (w : served S) : agent :=
  Agent (se_store w) (ho_fs (doc_get_host (se_world w))) (se_draining w) (se_scopes w).
Definition on_agent {A} : M agent A → M (served S) A :=
  zoom agent_of (λ a w, Served (put_files (ag_fs a) (se_world w)) (ag_store a) (ag_draining a)
                          (ag_cache_reset_scopes a) (se_stop_workers w)).

(** [store = SQLiteQueueStore(path)] and what follows with it. *)
Definition with_queue {A} (p : path) (body : M (served S) A) : M S A := λ s,
  let w := Served s (Store (pr_database p s) None [] false) false None false in
  let '(r, w) := (on_database initialize;; body) w in
  (r, pr_set_database p (st_disk (se_store w)) (se_world w)).

(** [SQLiteCommandHandlers(store)]. *)
Definition open_handlers (state_dir : path) : M (served S) () :=
  on_agent (modify (λ a, new_handlers state_dir (ag_store a) (ag_fs a) false)).

(** [load_config(...)]; the rest of the command needs the declared types. *)
Definition configured (a : cli) (overrides : list (ustr * option setting)) : M S EngineConfig :=
  values ← doc_files (load_config netloc_check cwd system machine environ (Some (cl_config a)) (cl_credentials a) None overrides);
  lift (res_of_option (type_error (u "configuration value of another type")) (config_of values)).

(** The exceptions a command reports as a missing registration. *)
Definition REGISTRATION_ERRORS : list exn_class := [AuthError; ValueError; FileNotFoundError].

(** [try: m except (...) as exc: LOG.error(...); return 1] before [k]. *)
Definition or_report {A} (classes : list exn_class) (message : exn → ustr) (m : M S A) (k : A → M S Z) : M S Z :=
  outcome ← catching classes (x ← m; mret (inl x)) (λ e, mret (inr e));
  match outcome with
  | inl x => k x
  | inr e => pr_log ERROR (message e);; mret 1
  end.

(** * The one-shot commands *)

Definition register_command (a : cli) (backend_url token name : ustr) (max_concurrency : Z) : M S Z :=
  config ← configured a [(u "backend_url", Some (SJson (JStr backend_url))); (u "name", Some (SJson (JStr name)));
                         (u "max_concurrency", Some (SJson (JInt max_concurrency)))];
  or_report [AuthError] (λ e, u "registration failed: " ++ exn_text e)
    (now ← host_now; register_engine doc_get_host doc_put_host ac version now config token)
    (λ r, pr_log INFO (u "registered build engine " ++ rr_engine_id r ++ u "; credentials=" ++ path_str (rr_credentials_path r));;
          mret 0).

Definition status_command (a : cli) : M S Z :=
  config ← configured a [];
  or_report REGISTRATION_ERRORS (λ e, u "build-engine status: not registered (" ++ exn_text e ++ u ")")
    (doc_on_host (validate_credentials_file ac (cf_credentials_path config) (Some SERVICE_USER) (Some SERVICE_GROUP)))
    (λ c, pr_log INFO (u "build-engine status: registered engine_id=" ++ cr_engine_id c ++ u " backend="
                       ++ default (u "None") (doctor_backend_url config (Some c)));;
          mret 0).

Definition doctor_command (a : cli) (skip : option (list ustr)) (as_json : bool) : M S Z :=
  config ← configured a [];
  report ← run_doctor netloc_check version data ac config (skip_checks skip) (Some SERVICE_USER) (Some SERVICE_GROUP);
  pr_stdout ((if as_json then render_json report else render_human report) ++ [10%N]);;
  mret (if re_ok report then 0 else 1).

Definition cache_reset_command (a : cli) (site_id : option ustr) : M S Z :=
  config ← configured a [];
  now ← host_now;
  doc_files (reset_cache now (cf_state_dir config) site_id);;
  pr_log INFO (u "cache reset complete; scope=" ++ default (u "all-sites") (or_text site_id None));;
  mret 0.

Definition drain_command (a : cli) : M S Z :=
  config ← configured a [];
  result ← with_queue (queue_path config)
             (try_finally
                (open_handlers (cf_state_dir config);;
                 now ← on_process host_now;
                 on_agent (drain (cf_state_dir config) now []))
                (on_database close));
  pr_log INFO (u "drain mode enabled; state=" ++ default (u "None") (cmd_state result));;
  mret 0.

Definition resume_command (a : cli) : M S Z :=
  config ← configured a [];
  result ← with_queue (queue_path config)
             (try_finally
                (open_handlers (cf_state_dir config);;
                 now ← on_process host_now;
                 on_agent (resume (cf_state_dir config) now []))
                (on_database close));
  pr_log INFO (u "drain mode disabled; state=" ++ default (u "None") (cmd_state result));;
  mret 0.

Definition session_refresh_command (a : cli) (backend_url : option ustr) : M S Z :=
  config ← configured a [];
  or_report REGISTRATION_ERRORS (λ e, u "session refresh failed: " ++ exn_text e)
    (now ← host_now;
     refresh_session doc_get_host doc_put_host ac now (cf_credentials_path config)
       (or_text backend_url (cf_backend_url config)))
    (λ c, pr_log INFO (u "session refreshed engine_id=" ++ cr_engine_id c ++ u " expires_at=" ++ cr_session_jwt_expires_at c);;
          mret 0).

(** * The start of the service *)

(** A state directory on the command line is a development set-up. *)
Definition serve_identity (state_dir : option ustr) (name : ustr) : option ustr :=
  match state_dir with Some _ => None | None => Some name end.

Definition STARTUP_SKIPS : list ustr := [u "image_pull"; u "wss_handshake"].

(** [_serve]; [service] is what runs between opening the store and closing it. *)
Definition serve_command (service : EngineConfig → EngineCredentials → M (served S) ()) (a : cli) (state_dir : option ustr) : M S Z :=
  config ← configured a match state_dir with Some d => [(u "state_dir", Some (SJson (JStr d)))] | None => [] end;
  let user := serve_identity state_dir SERVICE_USER in
  let group := serve_identity state_dir SERVICE_GROUP in
  or_report REGISTRATION_ERRORS (λ e, u "serve failed: not registered (" ++ exn_text e ++ u ")")
    (doc_on_host (validate_credentials_file ac (cf_credentials_path config) user group))
    (λ credentials,
       report ← run_doctor netloc_check version data ac config STARTUP_SKIPS user group;
       if negb (re_ok report) then
         pr_log ERROR (u "serve failed: startup self-test did not pass");;
         pr_stderr (render_human report ++ [10%N]);;
         mret 1
       else
         pr_log INFO (u "build-engine serve: starting uplink engine_id=" ++ cr_engine_id credentials
                      ++ u " max_concurrency=" ++ str_of_Z (cf_max_concurrency config));;
         with_queue (queue_path config)
           (on_database initialize;;
            try_finally
              (try_except (service config credentials)
                 (λ e, if isinstance e KeyboardInterrupt
                       then on_process (pr_log INFO (u "build-engine serve: stopped")) else raise e))
              (on_database close));;
         mret 0).

End commands.
