(* ===== verification/CommandsProofs.v ===== *)
(** What stands between the command line and the running service. *)

From S2P Require Import Prelude PyStr PyFloat Dict Json Clock Protocol Db Store Fs Url Cache Config Handlers Toml Settings SettingsProofs Artifact Auth Credentials Docker Connect Doctor DoctorProofs Commands.

Local Open Scope Z_scope.

(** * Lemmas: a valid credentials file *)

Lemma load_toml_same `{Tomllib} p f : (load_toml p f).2 = f.
Proof.
  unfold load_toml, read_bytes. munfold. repeat case_match; simplify_eq; done.
Qed.

Lemma load_credentials_same `{Tomllib} p h : (load_credentials p h).2 = h.
Proof.
  unfold load_credentials, on_fs_part, zoom. pose proof (load_toml_same p (ho_fs h)) as Hf. munfold.
  destruct (load_toml p (ho_fs h)) as [[raw|e] f]; cbn in *; subst f; by destruct h.
Qed.

Lemma stat_path_same p h : (stat_path p h).2 = h.
Proof. unfold stat_path. munfold. repeat case_match; simplify_eq; done. Qed.

(** What the check of a credentials file has established when it passes. *)
Record valid_file (ac : accounts) (p : path) (su sg : option ustr) (c : EngineCredentials) (h : host) : Prop := ValidFile {
  vf_meta : ∃ m, stat_path p h = (Ok m, h) ∧ Z.land (me_mode m) 63 = 0 ∧
    me_uid m = expected_uid ac su ∧ me_gid m = expected_gid ac sg;
  vf_secret : validate_engine_secret (cr_engine_secret c) = Ok ();
  vf_expires : ∃ t, parse_datetime (cr_session_jwt_expires_at c) = Ok t;
}.

Lemma validate_credentials_file_Ok `{Tomllib} ac p su sg h c h' :
  validate_credentials_file ac p su sg h = (Ok c, h') → h' = h ∧ valid_file ac p su sg c h.
Proof.
  unfold validate_credentials_file. intros (c1 & h1 & E1 & E)%bind_Ok_inv.
  pose proof (load_credentials_same p h) as Hh. rewrite E1 in Hh. cbn in Hh. subst h1.
  apply bind_Ok_inv in E as ([] & h2 & E2 & E). unfold validate_secret_file_permissions in E2.
  apply bind_Ok_inv in E2 as (m & h3 & Em & E2). pose proof (stat_path_same p h) as Hs. rewrite Em in Hs. cbn in Hs. subst h3.
  munfold. destruct (Z.eqb_spec (Z.land (me_mode m) 63) 0) as [Hm|]; [|done]. injection E2 as <-.
  unfold validate_secret_file_ownership in E. munfold. rewrite Em in E.
  destruct (Z.eqb_spec (me_uid m) (expected_uid ac su)) as [Hu|], (Z.eqb_spec (me_gid m) (expected_gid ac sg)) as [Hg|]; try done.
  cbn in E. destruct (validate_engine_secret _) as [[]|] eqn:Es; [|done].
  destruct (parse_datetime _) as [t|] eqn:Et; [|done]. injection E as <- <-. split; [done|].
  split; [by exists m|done|by exists t].
Qed.

Section commands.
Context {S : Type} `{Process S} `{Tomllib} `{DirScan}.
Context (netloc_check : ustr → result ()) (version : ustr) (data : path) (ac : accounts).
Context (cwd : path) (system machine : ustr) (environ : list (ustr * ustr)).

(** A configuration a command works with has passed the engine's checks. *)
Lemma configured_checked a overrides s config s' :
  configured netloc_check cwd system machine environ a overrides s = (Ok config, s') →
  post_init netloc_check config = Ok config.
Proof.
  unfold configured. intros (values & s1 & E & Ec)%bind_Ok_inv. unfold lift, res_of_option in Ec.
  destruct (config_of values) as [c|] eqn:Hc; [|done]. injection Ec as -> _.
  assert (∃ f f', load_config netloc_check cwd system machine environ (Some (cl_config a)) (cl_credentials a) None overrides f
                  = (Ok values, f')) as (f & f' & El).
  { unfold doc_files, doc_on_host, on_fs_part, zoom in E. destruct (load_config _ _ _ _ _ _ _ _ _ _) as [r f'] eqn:El.
    injection E as -> _. by eexists _, _. }
  unfold load_config in El. apply bind_Ok_inv in El as (merged_ & f1 & _ & El).
  destruct (List.filter _ _) in El; [|done]. munfold. destruct (coerce_config_values cwd merged_) as [d|]; [|done].
  destruct (check_settings netloc_check d) as [d'|] eqn:Ed; [|done]. injection El as <- <-.
  pose proof (check_settings_same _ _ _ Ed) as ->. rewrite (check_settings_typed _ _ _ Hc) in Ed.
  destruct (post_init netloc_check config) as [c'|] eqn:Ep; [|done].
  unfold post_init in Ep. repeat apply result_bind_Ok_inv in Ep as (? & _ & Ep). by injection Ep as ->.
Qed.

(** Either the reported failure, with exit code 1 (or an exception), or the rest of the command. *)
Lemma or_report_cases {A} classes message (m : M S A) k s res s' : or_report classes message m k s = (res, s') →
  ((res = Ok 1 ∨ ∃ e, res = Err e) ∧ ∀ k', or_report classes message m k' s = (res, s')) ∨
  (∃ x s1, m s = (Ok x, s1) ∧ k x s1 = (res, s') ∧ ∀ k', or_report classes message m k' s = k' x s1).
Proof.
  unfold or_report, catching, try_except, mbind, M_bind, mret, M_ret. destruct (m s) as [[x|e] s1]; [by right; eexists _, _|].
  intros E. left. destruct (existsb (isinstance e) classes); [|injection E as <- <-; split; [right; by eexists|done]].
  destruct (pr_log ERROR (message e) s1) as [[[]|e'] s2]; injection E as <- <-; (split; [|done]); [by left|right; by eexists].
Qed.

Notation serve := (serve_command netloc_check version data ac cwd system machine environ).
Notation overrides sd := (match sd with Some d => [(u "state_dir", Some (SJson (JStr d)))] | None => [] end).

(** Opening the queue's database, before the service. *)
Definition opened (config : EngineConfig) (s : S) : result () * served S :=
  (on_database initialize;; on_database initialize)
    (Served s (Store (pr_database (queue_path config) s) None [] false) false None false).

(** What follows the self-test. *)
Definition gated (service : EngineConfig → EngineCredentials → M (served S) ()) (sd : option ustr) (c0 : EngineConfig)
    (c : EngineCredentials) (report : DoctorReport) : M S Z :=
  if negb (re_ok report) then
    pr_log ERROR (u "serve failed: startup self-test did not pass");;
    pr_stderr (render_human report ++ [10%N]);;
    mret 1
  else
    pr_log INFO (u "build-engine serve: starting uplink engine_id=" ++ cr_engine_id c
                 ++ u " max_concurrency=" ++ str_of_Z (cf_max_concurrency c0));;
    with_queue (queue_path c0)
      (on_database initialize;;
       try_finally
         (try_except (service c0 c)
            (λ e, if isinstance e KeyboardInterrupt
                  then on_process (pr_log INFO (u "build-engine serve: stopped")) else raise e))
         (on_database close));;
    mret 0.

Lemma not_opened (service : EngineConfig → EngineCredentials → M (served S) ()) config c s e w :
  opened config s = (Err e, w) →
  (with_queue (queue_path config)
     (on_database initialize;;
      try_finally
        (try_except (service config c)
           (λ e, if isinstance e KeyboardInterrupt
                 then on_process (pr_log INFO (u "build-engine serve: stopped")) else raise e))
        (on_database close));; mret 0) s =
  (Err e, pr_set_database (queue_path config) (st_disk (se_store w)) (se_world w)).
Proof.
  unfold with_queue, opened, mbind, M_bind. destruct (on_database initialize _) as [[[]|e0] w0]; [|by intros [= -> ->]].
  destruct (on_database initialize w0) as [[[]|e0] w1]; [done|by intros [= -> ->]].
Qed.

(** What follows the gates: the service, unless the database does not open. *)
Lemma service_run (service : EngineConfig → EngineCredentials → M (served S) ()) config c s res s' :
  (with_queue (queue_path config)
     (on_database initialize;;
      try_finally
        (try_except (service config c)
           (λ e, if isinstance e KeyboardInterrupt
                 then on_process (pr_log INFO (u "build-engine serve: stopped")) else raise e))
        (on_database close));; mret 0) s = (res, s') →
  (∃ e w, opened config s = (Err e, w) ∧ res = Err e ∧ s' = pr_set_database (queue_path config) (st_disk (se_store w)) (se_world w)) ∨
  ∃ w rs w1, opened config s = (Ok (), w) ∧ service config c w = (rs, w1) ∧ (res = Ok 0 ∨ ∃ e, res = Err e) ∧
    ∀ e, rs = Err e → isinstance e KeyboardInterrupt = false → res ≠ Ok 0.
Proof.
  unfold with_queue, opened, mbind, M_bind, mret, M_ret.
  destruct (on_database initialize _) as [[[]|e] w0]; [|intros [= <- <-]; left; by eexists _, _].
  destruct (on_database initialize w0) as [[[]|e] w]; [|intros [= <- <-]; left; by eexists _, _].
  unfold try_finally, try_except. intros E. right. destruct (service config c w) as [rs w1] eqn:Es.
  exists w, rs, w1. split_and!; [done|done| |].
  - revert E. repeat case_match; intros [= <- ?]; eauto.
  - intros e -> Hk. rewrite Hk in E. unfold raise in E. destruct (on_database close w1) as [[] ?]; by injection E as <- ?.
Qed.

(** C18: the service runs only behind its gates. Either [serve] ends with exit
    code 1 or an exception, the same way whatever the service is, so without
    running it; or the service is run with the configuration [c0], which
    [configured] has loaded and which passed the engine's checks (1 to 16
    workers, positive limits, an [https] backend), and the credentials [c] read
    from the file this configuration names, which is readable by nobody but the
    owner the service expects and whose secret has 32 ASCII characters or more,
    after every check of the startup self-test, made on that configuration and
    in the state the check of the credentials left, passed but the image pull
    and the websocket handshake, which it leaves out, and after the database
    was opened. Then [serve] ends with 0 or an exception, and never with 0 when
    the service raised anything but [KeyboardInterrupt]. *)
Theorem serve_gate service a sd s res s' : serve service a sd s = (res, s') →
  ((res = Ok 1 ∨ ∃ e, res = Err e) ∧ ∀ service', serve service' a sd s = (res, s')) ∨
  ∃ c0 s1 c s2 r s3 s4 w rs w1,
    configured netloc_check cwd system machine environ a (overrides sd) s = (Ok c0, s1) ∧
    post_init netloc_check c0 = Ok c0 ∧
    doc_on_host (validate_credentials_file ac (cf_credentials_path c0)
      (serve_identity sd SERVICE_USER) (serve_identity sd SERVICE_GROUP)) s1 = (Ok c, s2) ∧
    valid_file ac (cf_credentials_path c0) (serve_identity sd SERVICE_USER) (serve_identity sd SERVICE_GROUP) c (doc_get_host s1) ∧
    run_doctor netloc_check version data ac c0 STARTUP_SKIPS (serve_identity sd SERVICE_USER) (serve_identity sd SERVICE_GROUP) s2 = (Ok r, s3) ∧
    (∀ k, k ∈ re_checks r → ch_status k = StatusOk ∨ (ch_name k ∈ STARTUP_SKIPS ∧ ch_status k = StatusSkip)) ∧
    pr_log INFO (u "build-engine serve: starting uplink engine_id=" ++ cr_engine_id c ++
                 u " max_concurrency=" ++ str_of_Z (cf_max_concurrency c0)) s3 = (Ok (), s4) ∧
    opened c0 s4 = (Ok (), w) ∧ service c0 c w = (rs, w1) ∧
    (res = Ok 0 ∨ ∃ e, res = Err e) ∧ (∀ e, rs = Err e → isinstance e KeyboardInterrupt = false → res ≠ Ok 0).
Proof.
  intros E. unfold serve_command in E. unfold mbind at 1, M_bind at 1 in E.
  destruct (configured _ _ _ _ _ _ _ s) as [[c0|e] s1] eqn:Ec.
  2: { injection E as <- <-. left. split; [right; by eexists|]. intros service'. unfold serve_command.
       unfold mbind at 1, M_bind at 1. by rewrite Ec. }
  pose proof (configured_checked _ _ _ _ _ Ec) as Hp.
  apply or_report_cases in E as [[Hr Hall]|(c & s2 & Ev & E & Hall)].
  { left. split; [done|]. intros service'. unfold serve_command. unfold mbind at 1, M_bind at 1. rewrite Ec. apply Hall. }
  unfold mbind at 1, M_bind at 1 in E.
  assert (∀ service', serve service' a sd s = (report ← run_doctor netloc_check version data ac c0 STARTUP_SKIPS
      (serve_identity sd SERVICE_USER) (serve_identity sd SERVICE_GROUP); gated service' sd c0 c report) s2) as Hserve.
  { intros service'. unfold serve_command. unfold mbind at 1, M_bind at 1. rewrite Ec. apply Hall. }
  unfold mbind at 1, M_bind at 1 in Hserve.
  destruct (run_doctor _ _ _ _ _ _ _ _ s2) as [[r|e] s3] eqn:Er.
  2: { injection E as <- <-. left. split; [right; by eexists|done]. }
  change (gated service sd c0 c r s3 = (res, s')) in E. unfold gated in E, Hserve.
  destruct (negb (re_ok r)) eqn:Hok; unfold mbind, M_bind in E, Hserve.
  { left. destruct (pr_log ERROR _ s3) as [[[]|e] s4]; [destruct (pr_stderr _ s4) as [[[]|e] s5]|]; injection E as <- <-;
      (split; [|done]); [by left|right; by eexists|right; by eexists]. }
  destruct (pr_log INFO _ s3) as [[[]|e] s4] eqn:El; [|injection E as <- <-; left; split; [right; by eexists|done]].
  destruct (service_run service c0 c s4 res s' E) as [(e & w & Ho & -> & ->)|(w & rs & w1 & Ho & Hrun & Hres & Hraise)].
  - left. split; [right; by eexists|]. intros service'. rewrite Hserve. by apply not_opened.
  - right. exists c0, s1, c, s2, r, s3, s4, w, rs, w1. split_and!; try done.
    + unfold doc_on_host, zoom in Ev. destruct (validate_credentials_file _ _ _ _ _) as [v h'] eqn:E'. injection Ev as -> _.
      by apply validate_credentials_file_Ok in E' as [_ ?].
    + intros k. by eapply report_passed, negb_false_iff.
Qed.


End commands.
