(* ===== verification/ConnectProofs.v ===== *)
(** The upgrade requests of the uplink: whose token they carry and where they go. *)

From Corelib Require Import SpecFloat.
From S2P Require Import Prelude PyStr PyFloat Dict Json Clock Uuid Protocol Db Store Outbox Fs Url Config Handlers Artifact Auth Credentials Registration Metrics Uplink UplinkProofs Connect.

Local Open Scope Z_scope.

(** The same engine, with another session at most. *)
Definition same_engine (c c' : EngineCredentials) : Prop :=
  cr_engine_id c' = cr_engine_id c ∧ cr_engine_secret c' = cr_engine_secret c ∧
  cr_backend_url c' = cr_backend_url c ∧ cr_name c' = cr_name c.

#[export] Instance same_engine_preorder : PreOrder same_engine.
Proof. split; [done|]. unfold same_engine. intros a b c (?&?&?&?) (?&?&?&?). split_and!; congruence. Qed.

Section requests.
Context {S : Type} `{EventSpool S} `{CommandHandlers S} `{Http S}.
Context (netloc_check : ustr → result ()) (version : ustr) (config : EngineConfig) (out : outside) (backoff : BackoffPolicy).

(** The session a connection opened from [l] uses: the one at hand, when it had
    more than five minutes to live on the clock read there, or one the backend
    has just created. *)
Definition fresh (backend : ustr) (l : link S) (c : EngineCredentials) : Prop :=
  (c = li_credentials l ∧ cr_session_jwt c ≠ [] ∧ ∃ t, parse_datetime (cr_session_jwt_expires_at c) = Ok t ∧
     REFRESH_WINDOW < t - clock out (up_ticks (li_up l))) ∨
  (∃ session w', create_session backend (cr_engine_id c) (cr_engine_secret c) (up_world (li_up l)) = (Ok session, w') ∧
     c = renewed (li_credentials l) session).

(** A request sent by a connection that was opened from [l]. *)
Definition sent_from (l : link S) (req : ustr * list (ustr * ustr)) : Prop :=
  ∃ b c, uplink_backend config (li_credentials l) = Some b ∧ same_engine (li_credentials l) c ∧ fresh b l c ∧
    websocket_url netloc_check b = Ok req.1 ∧ req.2 = uplink_headers version config c ∧
    dget (u "Authorization") req.2 = Some (u "Bearer " ++ cr_session_jwt c).

Lemma uplink_backend_same c c' : same_engine c c' → uplink_backend config c' = uplink_backend config c.
Proof. intros (_ & _ & E & _). unfold uplink_backend. by rewrite E. Qed.

Lemma renewed_same c session : same_engine c (renewed c session).
Proof. done. Qed.

Lemma refresh_credentials_run l r l' : refresh_credentials config out l = (r, l') →
  li_requests l' = li_requests l ∧ same_engine (li_credentials l) (li_credentials l') ∧
  ∀ b, r = Ok () → uplink_backend config (li_credentials l) = Some b → fresh b l (li_credentials l').
Proof.
  unfold refresh_credentials. unfold mbind at 1, M_bind at 1, gets.
  destruct (uplink_backend config (li_credentials l)) as [b|] eqn:Eb; [|by intros [= <- <-]].
  unfold mbind, M_bind, on_up, on_world, zoom, now, set_credentials, modify. cbn.
  destruct (refresh_session_if_needed b _ _ _) as [[c|e] w] eqn:E; intros [= <- <-]; [|done]. cbn.
  unfold refresh_session_if_needed in E. unfold mbind at 1, M_bind at 1, lift at 1 in E.
  destruct (parse_datetime (cr_session_jwt_expires_at (li_credentials l))) as [t|] eqn:Et; [|done].
  case_match eqn:Ed.
  - injection E as <- _. split_and!; [done|done|]. intros b' _ [= <-]. left. apply andb_true_iff in Ed as [Hj Hw].
    apply negb_true_iff, bool_decide_eq_false in Hj. split_and!; [done|done|]. exists t. split; [done|lia].
  - apply bind_Ok_inv in E as (session & w1 & Es & E). injection E as <- <-. split_and!; [done|done|].
    intros b' _ [= <-]. right. by exists session, w1.
Qed.

Lemma authorization_header c : dget (u "Authorization") (uplink_headers version config c) = Some (u "Bearer " ++ cr_session_jwt c).
Proof. reflexivity. Qed.

(** What one round does to the requests. *)
Definition one_more (l l' : link S) : Prop :=
  same_engine (li_credentials l) (li_credentials l') ∧
  (li_requests l' = li_requests l ∨ ∃ req, li_requests l' = li_requests l ++ [req] ∧ sent_from l req).

Lemma one_more_refl l : one_more l l.
Proof. split; [done|by left]. Qed.

Lemma one_more_same l l1 l2 :
  one_more l l1 → li_credentials l2 = li_credentials l1 → li_requests l2 = li_requests l1 → one_more l l2.
Proof. unfold one_more. by intros Hm -> ->. Qed.

(** One connection makes at most one request, a good one. *)
Lemma connect_once_run conn l : one_more l (connect_once netloc_check version config out conn l).2.
Proof.
  unfold connect_once. unfold mbind at 1, M_bind at 1.
  destruct (refresh_credentials config out l) as [r1 l1] eqn:E1. apply refresh_credentials_run in E1 as (Hq & Hs & Hf).
  assert (one_more l l1) as Hnone by (split; [done|left; done]). destruct r1 as [[]|e]; [|done].
  unfold mbind at 1, M_bind at 1, gets. rewrite (uplink_backend_same _ _ Hs).
  destruct (uplink_backend config (li_credentials l)) as [[|x b]|] eqn:Eb; [done| |done].
  unfold mbind at 1, M_bind at 1, lift. destruct (websocket_url netloc_check (x :: b)) as [url|e] eqn:Eu; [|done].
  unfold mbind at 1, M_bind at 1, modify. set (l2 := Link _ _ _ _ _).
  assert (one_more l l2) as Hgo.
  { split; [done|]. right. eexists. cbn. rewrite Hq. split; [done|].
    exists (x :: b), (li_credentials l1). split_and!; [done|done|by apply Hf|done|done|apply authorization_header]. }
  destruct conn as [e|frames broken]; [done|].
  unfold mbind, M_bind, on_up, zoom. destruct (run_connection _ _ _ _ _ _) as [[[]|e] up]; [destruct broken|]; exact Hgo.
Qed.

Context (on_signal : M (link S) ()).
Context (signal_keeps : ∀ l, li_credentials (on_signal l).2 = li_credentials l ∧ li_requests (on_signal l).2 = li_requests l).

Lemma maybe_signal (b : bool) l r l' : (if b then on_signal else mret ()) l = (r, l') →
  li_credentials l' = li_credentials l ∧ li_requests l' = li_requests l.
Proof. destruct b; [|by intros [= <- <-]]. intros E. pose proof (signal_keeps l) as Hk. by rewrite E in Hk. Qed.

(** A round of the loop ends it, or goes on with the other rounds from the state it leaves. *)
Lemma round_cases failures rd l : ∃ l4, one_more l l4 ∧
  ((∃ r, ∀ rounds, run_forever netloc_check version config out backoff on_signal failures (rd :: rounds) l = (r, l4)) ∨
   ∃ n (g : result (list pyfloat) → result (list pyfloat)), ∀ rounds,
     run_forever netloc_check version config out backoff on_signal failures (rd :: rounds) l =
     (let '(r, l') := run_forever netloc_check version config out backoff on_signal n rounds l4 in (g r, l'))).
Proof.
  destruct (li_stopped l) eqn:Est.
  { exists l. split; [apply one_more_refl|left; exists (Ok []); intros rounds]. cbn [run_forever]. munfold. by rewrite Est. }
  pose proof (connect_once_run (ro_connection rd) l) as K1.
  destruct (connect_once _ _ _ _ (ro_connection rd) l) as [res l1] eqn:E1. cbn [snd] in K1.
  destruct ((if ro_signal rd then on_signal else mret ()) l1) as [r2 l2] eqn:E2.
  pose proof E2 as [Hc2 Hq2]%maybe_signal. pose proof (one_more_same _ _ _ K1 Hc2 Hq2) as K2.
  assert (∀ rounds, run_forever netloc_check version config out backoff on_signal failures (rd :: rounds) l =
    match r2 with
    | Err e => (Err e, l2)
    | Ok _ => match res with
              | Ok _ => run_forever netloc_check version config out backoff on_signal 0 rounds l2
              | Err e => (raise_if (negb (isinstance e ExceptionC)) e;; count_reconnect;;
                          d ← lift (delay backoff (failures + 1));
                          (if ro_signal_in_pause rd then on_signal else mret ());;
                          rest ← run_forever netloc_check version config out backoff on_signal (failures + 1) rounds;
                          mret (d :: rest)) l2
              end
    end) as Hrun.
  { intros rounds. cbn [run_forever]. unfold mbind at 1, M_bind at 1, gets. rewrite Est.
    unfold mbind at 1, M_bind at 1. rewrite E1. unfold mbind at 1, M_bind at 1. rewrite E2. by destruct r2 as [[]|], res. }
  destruct r2 as [[]|e2]; [|exists l2; split; [done|left; by exists (Err e2)]].
  destruct res as [[]|e]; [exists l2; split; [done|right]; exists 0, id; intros rounds; rewrite Hrun; by destruct (run_forever _ _ _ _ _ _ 0 rounds l2)|].
  unfold mbind, M_bind, count_reconnect, modify, lift in Hrun.
  destruct (negb (isinstance e ExceptionC)); cbn [raise_if] in Hrun; [exists l2; split; [done|left; exists (Err e); intros rounds; by rewrite Hrun]|].
  unfold mret, M_ret in Hrun. set (l3 := Link _ _ _ _ _) in Hrun.
  assert (one_more l l3) as K3 by (by apply (one_more_same l l2)).
  destruct (delay backoff (failures + 1)) as [d|e3]; [|exists l3; split; [done|left; exists (Err e3); intros rounds; by rewrite Hrun]].
  destruct ((if ro_signal_in_pause rd then on_signal else λ s, (Ok (), s)) l3) as [r4 l4] eqn:E4.
  assert (one_more l l4) as K4.
  { destruct (maybe_signal (ro_signal_in_pause rd) l3 r4 l4) as [Hc4 Hq4]; [by destruct (ro_signal_in_pause rd)|].
    by apply (one_more_same l l3). }
  exists l4. split; [done|]. destruct r4 as [[]|e4]; [right|left; exists (Err e4); intros rounds; by rewrite Hrun].
  eexists (failures + 1), (λ r, rest ← r; Ok (d :: rest)). intros rounds. rewrite Hrun.
  by destruct (run_forever _ _ _ _ _ _ (failures + 1) rounds l4) as [[] ?].
Qed.

Lemma one_more_requests l l' : one_more l l' → ∃ n, li_requests l' = li_requests l ++ n ∧ (length n ≤ 1)%nat ∧
  ∀ i req, n !! i = Some req → i = 0%nat ∧ sent_from l req.
Proof.
  intros [_ [->|(req & -> & Hr)]]; [exists []; split_and!; [by rewrite app_nil_r|cbn; lia|done]|].
  exists [req]. split_and!; [done|cbn; lia|]. intros [|i] x; cbn; [|done]. by intros [= <-].
Qed.

(** Every request was sent by a connection opened from the state after some of the rounds. *)
Lemma run_forever_made rounds : ∀ failures l,
  let after k := (run_forever netloc_check version config out backoff on_signal failures (take k rounds) l).2 in
  let l' := (run_forever netloc_check version config out backoff on_signal failures rounds l).2 in
  same_engine (li_credentials l) (li_credentials l') ∧
  ∃ new, li_requests l' = li_requests l ++ new ∧ (length new ≤ length rounds)%nat ∧
    ∀ i req, new !! i = Some req → ∃ k, li_requests (after k) = li_requests l ++ take i new ∧
      same_engine (li_credentials l) (li_credentials (after k)) ∧ sent_from (after k) req.
Proof.
  induction rounds as [|rd rounds IH]; intros failures l after l'.
  { split; [done|]. exists []. split_and!; [by rewrite app_nil_r|done|done]. }
  destruct (round_cases failures rd l) as (l4 & K1 & Hc). pose proof (one_more_requests _ _ K1) as (n1 & Hq & Hl & Hn).
  destruct K1 as [Hs1 _]. assert (∀ i req, n1 !! i = Some req → ∃ k, li_requests (after k) = li_requests l ++ take i n1 ∧
      same_engine (li_credentials l) (li_credentials (after k)) ∧ sent_from (after k) req) as Hfirst.
  { intros i req [-> Hr]%Hn. exists 0%nat. cbn. split_and!; [by rewrite app_nil_r|done|done]. }
  destruct Hc as [[r Hc]|(n & g & Hc)].
  - unfold l'. rewrite Hc. cbn [snd length]. split; [done|]. exists n1. split_and!; [done|lia|done].
  - destruct (IH n l4) as (Hs2 & n2 & Hq2 & Hl2 & Hn2). unfold l'. rewrite Hc.
    destruct (run_forever _ _ _ _ _ _ n rounds l4) as [r5 l5]. cbn [snd] in *. split; [by etransitivity|].
    exists (n1 ++ n2). split_and!; [by rewrite Hq2, Hq, app_assoc|rewrite length_app; cbn; lia|].
    intros i req [Hi|[Hi Hr]]%lookup_app_Some.
    + destruct (Hfirst _ _ Hi) as (k & Hk & Hrest). exists k. split; [|done].
      rewrite Hk, take_app_le; [done|]. apply lookup_lt_Some in Hi. lia.
    + destruct (Hn2 _ _ Hr) as (k & Hk & Hse & Hsent). exists (Datatypes.S k).
      assert (after (Datatypes.S k) = (run_forever netloc_check version config out backoff on_signal n (take k rounds) l4).2) as ->.
      { unfold after. cbn [take]. rewrite Hc. by destruct (run_forever _ _ _ _ _ _ n _ l4). }
      split_and!; [|by etransitivity|done]. by rewrite Hk, Hq, take_app_ge, app_assoc.
Qed.

(** C19: every upgrade request of the uplink's loop, over any connections and
    signals, belongs to the engine the loop was started for. It was sent by the
    connection opened after some number of rounds of this very run, with the
    session held then, which had more than five minutes to live on the clock
    read then, or with one the backend created then. There is at most one
    request a round, and none when no backend is configured. When the backend's
    address is a secure origin (an address stored with the credentials need not
    be one), the request goes to that host over TLS. *)
Theorem uplink_requests failures rounds l r l' :
  run_forever netloc_check version config out backoff on_signal failures rounds l = (r, l') →
  same_engine (li_credentials l) (li_credentials l') ∧
  ∃ new, li_requests l' = li_requests l ++ new ∧ (length new ≤ length rounds)%nat ∧
    ∀ i req, new !! i = Some req → ∃ k b c,
      let l1 := (run_forever netloc_check version config out backoff on_signal failures (take k rounds) l).2 in
      li_requests l1 = li_requests l ++ take i new ∧
      uplink_backend config (li_credentials l) = Some b ∧ same_engine (li_credentials l) c ∧
      (c = li_credentials l1 ∧ cr_session_jwt c ≠ [] ∧
         (∃ t, parse_datetime (cr_session_jwt_expires_at c) = Ok t ∧
               REFRESH_WINDOW < t - clock out (up_ticks (li_up l1))) ∨
       ∃ session w', create_session b (cr_engine_id c) (cr_engine_secret c) (up_world (li_up l1)) = (Ok session, w') ∧
         c = renewed (li_credentials l1) session) ∧
      websocket_url netloc_check b = Ok req.1 ∧ req.2 = uplink_headers version config c ∧
      dget (u "Authorization") req.2 = Some (u "Bearer " ++ cr_session_jwt c) ∧
      (is_secure_origin netloc_check b = Ok true →
       ∃ parsed p, urlparse netloc_check b = Ok parsed ∧ u_netloc parsed ≠ [] ∧
         req.1 = u "wss://" ++ u_netloc parsed ++ 47%N :: p).
Proof.
  intros E. pose proof (run_forever_made rounds failures l) as H'. cbv zeta in H'. rewrite E in H'. cbn [snd] in H'.
  destruct H' as (Hs & new & Hq & Hl & Hn). split; [done|]. exists new. split_and!; [done|done|].
  intros i req (k & Hk & Hse & b & c & Eb & Hc & Hf & Hu & Hh & Ha)%Hn. exists k, b, c.
  split; [done|]. split; [by rewrite <- (uplink_backend_same _ _ Hse)|]. split; [by etransitivity|].
  split; [exact Hf|]. split_and!; [done|done|done|].
  intros (parsed & p & Hp & Hne & Hw & _)%secure_websocket_url. exists parsed, p. split_and!; [done|done|].
  rewrite Hu in Hw. by injection Hw.
Qed.

End requests.
