(* ===== verification/Service.v ===== *)
(** The running service ([_run_service] of src/src/build_engine/cli/commands.py):
    the queue and the outbox are pruned, the uplink runs until it is stopped, a
    signal starts drain mode and stops it, and the shutdown waits for the workers. *)

From S2P Require Import Prelude PyStr PyFloat Dict Json Clock Protocol Db Store Outbox Fs Cache Url Config Handlers Artifact Auth Metrics Docker Uplink AgentUplink Connect Doctor Commands.

Local Open Scope Z_scope.

(** The tasks of [run_worker_pool]: [asyncio.wait_for(worker_task, timeout)]. *)
Class WorkerPool (S : Type) := pool_join : Z → M (served S) ().

Definition METRICS_FILE : ustr := u "metrics.prom".

Section service.
Context {S : Type} `{Process S} `{DirScan} `{WorkerPool S}.
Context (netloc_check : ustr → result ()) (version : ustr) (out : outside).
Context (config : EngineConfig) (credentials : EngineCredentials).

Definition spool_config : outbox_config := OutboxConfig (cf_outbox_max_bytes config) (cf_state_retention_days config).

(** The outbox and the handlers of the running process. *)
#[export] Instance served_spool : EventSpool (served S) := {
  spool_append now e := on_agent (on_outbox (append spool_config now e));
  spool_replay_after now cursors := on_agent (on_outbox (replay_after now cursors));
  spool_next_seq a := on_agent (on_outbox (next_seq a));
  spool_ack_through a n := on_agent (on_outbox (ack_through a n));
}.
#[export] Instance served_handlers : CommandHandlers (served S) := {
  handle_assign t p := on_agent (assign (cf_state_dir config) t p);
  handle_cancel t p := on_agent (cancel t p);
  handle_drain t p := on_agent (drain (cf_state_dir config) t p);
  handle_resume := Some (λ t p, on_agent (resume (cf_state_dir config) t p));
  handle_cache_reset t p := on_agent (cache_reset (cf_state_dir config) t p);
}.
#[export] Instance served_http : Http (served S) := λ r, on_process (http_send r).

Definition on_served {A} : M (served S) A → M (link (served S)) A := λ m, on_up (on_world m).

(** [metrics.snapshot(...)] with the queue's depth and the cache's size. *)
Definition current_metrics : M (link (served S)) MetricsSnapshot :=
  depth ← on_served (on_database queue_depth);
  size ← on_served (on_process (doc_files (gets (λ f, cache_size_bytes f (cf_state_dir config)))));
  t ← on_served (on_process host_now);
  m ← gets (λ l, default (new_collector (cf_max_concurrency config)) (li_metrics l));
  mret (snapshot t (Z.of_nat depth) size m).

Definition heartbeat_snapshot : M (link (served S)) HeartbeatSnapshot :=
  free ← on_served (on_process (doc_disk_free (cf_state_dir config)));
  m ← current_metrics;
  mret (to_heartbeat free m).

Definition set_stop_workers : M (served S) () :=
  modify (λ w, Served (se_world w) (se_store w) (se_draining w) (se_scopes w) true).

(** [request_drain]: drain mode first, then the workers and the uplink are told to stop. *)
Definition request_drain : M (link (served S)) () :=
  stopping ← gets (λ l, se_stop_workers (up_world (li_up l)));
  if (stopping : bool) then mret ()
  else
    on_served (on_process (pr_log INFO (u "build-engine serve: entering drain mode")));;
    t ← on_served (on_process host_now);
    on_served (on_agent (drain (cf_state_dir config) t []));;
    on_served set_stop_workers;;
    stop.

(** [schedule_drain]: a task of its own, whose exception nobody handles. *)
Definition schedule_drain : M (link (served S)) () := try_except request_drain (λ _, mret ()).

(** The uplink's loop with the signal's task. *)
Definition service_loop : Z → list round → M (link (served S)) (list pyfloat) :=
  run_forever netloc_check version config out default_backoff schedule_drain.

(** The [finally] block. *)
Definition shutdown : M (link (served S)) () :=
  on_served set_stop_workers;;
  suppress TimeoutError (on_served (pool_join (cf_sigterm_grace_seconds config)));;
  m ← current_metrics;
  t ← on_served (on_process host_now);
  on_served (on_process (doc_files (write_textfile_metrics t (cf_state_dir config ++ [METRICS_FILE]) m))).

Definition new_link (w : served S) : link (served S) :=
  Link (Uplink w false (cf_heartbeat_interval_seconds config) [] 0 0 0) credentials false
    (Some (new_collector (cf_max_concurrency config))) [].

(** The service over the rounds the outside offers; if they end before the
    uplink is stopped, the main task is interrupted. *)
Definition run_service (rounds : list round) : M (served S) () :=
  open_handlers (cf_state_dir config);;
  t ← on_process host_now;
  on_database (prune_terminal t (cf_state_retention_days config));;
  t ← on_process host_now;
  on_agent (on_outbox (prune spool_config t));;
  zoom new_link (λ l _, up_world (li_up l))
    (try_finally
       (service_loop 0 rounds;;
        stopped ← gets li_stopped;
        raise_if (negb stopped) (PyExn KeyboardInterrupt []))
       shutdown).

End service.
