(* ===== verification/ServiceProofs.v ===== *)
(** The stop of the service: a signal leads to drain mode, which outlives the
    process, and the shutdown that follows keeps it. *)

From S2P Require Import Prelude PyStr PyFloat Dict Json Clock Protocol Db Store Outbox Fs PackageJson Framework Cache Url Config Handlers Artifact Auth Credentials Metrics Docker Drain Uplink AgentUplink Connect Doctor Commands Service.

Local Open Scope Z_scope.

(** What the process around a command promises: its host is a field of the
    state, which its log and its clock leave alone. *)
Class ProcessLaws (S : Type) `{Process S} := {
  pr_get_put : ∀ h (s : S), doc_get_host (doc_put_host h s) = h;
  pr_log_ok : ∀ l m (s : S), ∃ s', pr_log l m s = (Ok (), s') ∧ doc_get_host s' = doc_get_host s;
  pr_clock_ok : ∀ s : S, ∃ t s', host_now s = (Ok t, s') ∧ doc_get_host s' = doc_get_host s ∧ in_range t;
}.

Section stop.
Context {S : Type} `{ProcessLaws S} `{DirScan} `{WorkerPool S}.
Context (netloc_check : ustr → result ()) (version : ustr) (out : outside) (config : EngineConfig).

Abbreviation state_dir := (cf_state_dir config).
Abbreviation marker := (drain_marker_path state_dir).

(** The files, the queue and the stop event of the workers, seen from the uplink. *)
Definition files (w : served S) : fs := ho_fs (doc_get_host (se_world w)).
Definition link_world (l : link (served S)) : served S := up_world (li_up l).
Definition set_world (w : served S) (l : link (served S)) : link (served S) :=
  Link (Uplink w (up_ws (li_up l)) (up_interval (li_up l)) (up_sent (li_up l)) (up_ticks (li_up l)) (up_ids (li_up l))
          (up_sends (li_up l))) (li_credentials l) (li_stopped l) (li_metrics l) (li_requests l).

Lemma on_served_run {A} (m : M (served S) A) l :
  on_served m l = let '(r, w) := m (link_world l) in (r, set_world w l).
Proof. unfold on_served, on_up, on_world, zoom, link_world. by destruct (m _). Qed.

Definition set_process (s : S) (w : served S) : served S :=
  Served s (se_store w) (se_draining w) (se_scopes w) (se_stop_workers w).

Lemma on_process_run {A} (m : M S A) w :
  on_process m w = let '(r, s) := m (se_world w) in (r, set_process s w).
Proof. done. Qed.

Lemma link_world_set w l : link_world (set_world w l) = w.
Proof. done. Qed.
Lemma set_world_twice w w' l : set_world w (set_world w' l) = set_world w l.
Proof. done. Qed.

Lemma files_agent w : ag_fs (agent_of w) = files w.
Proof. done. Qed.

Lemma on_agent_run {A} (m : M agent A) w :
  ∃ w', on_agent m w = ((m (agent_of w)).1, w') ∧ agent_of w' = (m (agent_of w)).2 ∧
    se_stop_workers w' = se_stop_workers w.
Proof.
  unfold on_agent, zoom. destruct (m (agent_of w)) as [r a]. eexists. split; [done|]. split; [|done].
  unfold agent_of, put_files. cbn. rewrite pr_get_put. by destruct a.
Qed.

(** Drain mode reaches the files, and only them. *)
Lemma drain_run w t : in_range t → drain_place state_dir (files w) →
  ∃ w' r, on_agent (drain state_dir t []) w = (Ok r, w') ∧ se_store w' = se_store w ∧ drain_place state_dir (files w') ∧
    exists_ (files w') marker = true ∧ se_stop_workers w' = se_stop_workers w ∧
    ∀ x, x ≠ marker → x ≠ state_dir ++ [DRAIN_MARKER_FILENAME ++ u ".tmp"] → same_entry (files w !! x) (files w' !! x).
Proof.
  intros Ht Hp. destruct (on_agent_run (drain state_dir t []) w) as (w' & E & Ea & Es). rewrite E. revert Ea.
  unfold drain, set_draining, on_fs, zoom. munfold. cbn [ag_fs ag_store ag_cache_reset_scopes].
  rewrite files_agent. destruct (write_drain_marker_run state_dir t (files w) Ht Hp) as (f & c & m & a & Ef & Em & Hp' & Hs).
  rewrite Ef. cbn. intros Ea. exists w', (MkCommandResult true (Some (u "DRAINING")) None []).
  assert (files w' = f) as Hf by (unfold files; change (ho_fs _) with (ag_fs (agent_of w')); by rewrite Ea).
  split_and!; try done.
  - change (se_store w') with (ag_store (agent_of w')). by rewrite Ea.
  - by rewrite Hf.
  - rewrite Hf, marker_exists by done. by rewrite Em.
  - by rewrite Hf.
Qed.

(** The task of a signal, when the marker can be written and when it cannot. *)
Lemma schedule_drain_run l : se_stop_workers (link_world l) = false →
  ∃ w1 t, files w1 = files (link_world l) ∧ se_store w1 = se_store (link_world l) ∧
    se_stop_workers w1 = false ∧ in_range t ∧
    schedule_drain config l =
      let '(r, w2) := on_agent (drain state_dir t []) w1 in
      (Ok (), match r with
              | Ok _ => let l := set_world (set_stop_workers w2).2 l in
                        Link (li_up l) (li_credentials l) true (li_metrics l) (li_requests l)
              | Err _ => set_world w2 l
              end).
Proof.
  intros Hs. destruct (pr_log_ok INFO (u "build-engine serve: entering drain mode") (se_world (link_world l))) as (s1 & E1 & H1').
  destruct (pr_clock_ok s1) as (t & s2 & E2 & H2' & Ht).
  exists (set_process s2 (link_world l)), t. split_and!; [unfold files; cbn; congruence|done|done|done|].
  unfold schedule_drain, request_drain, try_except, gets. erewrite bind_ok by done. fold (link_world l). rewrite Hs.
  erewrite bind_ok by (rewrite on_served_run, on_process_run, E1; reflexivity).
  erewrite bind_ok by (rewrite on_served_run, on_process_run, link_world_set; cbn [set_process se_world]; rewrite E2; reflexivity).
  rewrite set_world_twice. change (set_process s2 (set_process s1 _)) with (set_process s2 (link_world l)).
  destruct (on_agent (drain state_dir t []) (set_process s2 (link_world l))) as [[r|e] w2] eqn:E.
  - erewrite bind_ok by (rewrite on_served_run, link_world_set, E; reflexivity). rewrite set_world_twice.
    erewrite bind_ok by (rewrite on_served_run, link_world_set; reflexivity). by rewrite set_world_twice.
  - unfold mbind, M_bind. by rewrite on_served_run, link_world_set, E, set_world_twice.
Qed.

(** * The shutdown keeps the marker *)

Lemma name_neq (d : path) a b : a ≠ b → d ++ [a] ≠ d ++ [b].
Proof. by intros Hne [= ?]%app_inv_head. Qed.

(** Drain mode is on, and the metrics file can be written beside the marker. *)
Record drained (f : fs) : Prop := Drained {
  dr_place : drain_place state_dir f;
  dr_marker : exists_ f marker = true;
  dr_metrics : file_or_free f (state_dir ++ [METRICS_FILE]);
  dr_temporary : file_or_free f (state_dir ++ [METRICS_FILE ++ u ".tmp"]);
}.

(** Changes of other files of the state directory keep drain mode on. *)
Lemma drained_same f f' : drained f → real_dir f' state_dir →
  (∀ x, x ≠ state_dir ++ [METRICS_FILE] → x ≠ state_dir ++ [METRICS_FILE ++ u ".tmp"] → same_entry (f !! x) (f' !! x)) →
  file_or_free f' (state_dir ++ [METRICS_FILE]) → file_or_free f' (state_dir ++ [METRICS_FILE ++ u ".tmp"]) → drained f'.
Proof.
  intros [Hp Hm _ _] Hd Hs H1' H2'.
  assert (∀ n, n ≠ METRICS_FILE → n ≠ METRICS_FILE ++ u ".tmp" → same_entry (f !! (state_dir ++ [n])) (f' !! (state_dir ++ [n]))) as Hn
    by (intros n Ha Hb; apply Hs; by apply name_neq).
  assert (same_entry (f !! marker) (f' !! marker)) as Hk by (by apply Hn; vm_compute).
  assert (drain_place state_dir f') as Hp'.
  { destruct Hp as [_ Hm1 Hm2]. split; [done| |]; (eapply file_or_free_same; [apply Hn; by vm_compute|]); done. }
  split; [done| |done|done]. rewrite marker_exists in * by done.
  destruct Hp as [_ [E|(c & m & a & E)] _]; rewrite E in Hm; [done|]. by rewrite (same_entry_file _ _ c m a Hk E).
Qed.

Lemma write_metrics_drained t m f : drained f →
  drained (write_textfile_metrics t (state_dir ++ [METRICS_FILE]) m f).2.
Proof.
  intros Hf. pose proof Hf as [[Hd _ _] _ Hm Ht]. unfold write_textfile_metrics. rewrite parent_child, name_child.
  erewrite bind_ok by (by apply mkdir_parents_real). unfold write_text.
  destruct (utf8_encode (textfile m)) as [b|e] eqn:E; [|done].
  destruct (write_bytes_child t state_dir (METRICS_FILE ++ u ".tmp") b f) as (m1 & a1 & f1 & E1 & H1' & Hd1 & Hs1);
    [done|split; by vm_compute|done|].
  erewrite bind_ok by exact E1.
  assert (METRICS_FILE ++ u ".tmp" ≠ METRICS_FILE) as Hne by (by vm_compute).
  destruct (replace_child t state_dir (METRICS_FILE ++ u ".tmp") METRICS_FILE b m1 a1 f1) as (f2 & E2 & H2' & H3 & Hd2 & Hs2);
    [done|done|done|eapply file_or_free_same; [apply Hs1, name_neq; congruence|done]|].
  rewrite E2. cbn. apply (drained_same f); [done|done| |right; by eexists _, _, _|by left].
  intros x Hx1 Hx2. eapply same_entry_trans; [by apply Hs1|by apply Hs2].
Qed.

(** What a step does to the files is seen in the relation [keeps]. *)
Definition keeps (l l' : link (served S)) : Prop := drained (files (link_world l)) → drained (files (link_world l')).

#[local] Instance keeps_preorder : PreOrder keeps.
Proof. split; [by intros ? ?|by intros ? ? ? Ha Hb ?%Ha%Hb]. Qed.

Lemma keeps_files {A} (m : M (served S) A) :
  (∀ w, drained (files w) → drained (files (m w).2)) → steps keeps (on_served m).
Proof. intros Hm l. rewrite on_served_run. specialize (Hm (link_world l)). by destruct (m _). Qed.

Lemma keeps_database {A} (m : M store A) : steps keeps (on_served (on_database m)).
Proof. apply keeps_files. intros w. unfold on_database, zoom. by destruct (m _). Qed.

Lemma keeps_clock : steps keeps (on_served (on_process host_now)).
Proof.
  apply keeps_files. intros w. rewrite on_process_run. destruct (pr_clock_ok (se_world w)) as (t & s & -> & E & _).
  unfold files. cbn. by rewrite E.
Qed.

Lemma keeps_doc_files {A} (m : M fs A) : (∀ f, drained f → drained (m f).2) → steps keeps (on_served (on_process (doc_files m))).
Proof.
  intros Hm. apply keeps_files. intros w. rewrite on_process_run. unfold doc_files, doc_on_host, on_fs_part, zoom, files.
  specialize (Hm (ho_fs (doc_get_host (se_world w)))). destruct (m _). cbn in *. by rewrite pr_get_put.
Qed.

Lemma keeps_metrics : steps keeps (current_metrics config).
Proof.
  unfold current_metrics. repeat (apply steps_bind; [exact _| |intros ?]);
    [apply keeps_database|by apply keeps_doc_files|apply keeps_clock|..]; apply steps_same; (exact _ || done).
Qed.

Lemma keeps_stop_workers : steps keeps (on_served set_stop_workers).
Proof. by apply keeps_files. Qed.

Lemma shutdown_keeps : (∀ n w, drained (files w) → drained (files (pool_join n w).2)) → steps keeps (shutdown config).
Proof.
  intros Hj. unfold shutdown, suppress.
  apply steps_bind; [exact _|apply keeps_stop_workers|intros _].
  apply steps_bind; [exact _| |intros _].
  { apply steps_try; [exact _|by apply keeps_files, Hj|intros e].
    destruct (isinstance _ _); apply steps_same; (exact _ || done). }
  apply steps_bind; [exact _|apply keeps_metrics|intros m].
  apply steps_bind; [exact _|apply keeps_clock|intros t].
  apply keeps_doc_files, write_metrics_drained.
Qed.

(** * The stop *)

Lemma loop_stopped failures rounds l : li_stopped l = true →
  service_loop netloc_check version out config failures rounds l = (Ok [], l).
Proof. intros Hl. destruct rounds as [|r rounds]; [done|]. unfold service_loop. cbn [run_forever]. erewrite bind_ok by done. by rewrite Hl. Qed.

Lemma handlers_run w : exists_ (files w) marker = true →
  ∃ w', open_handlers state_dir w = (Ok (), w') ∧ se_draining w' = true ∧ se_store w' = se_store w ∧ files w' = files w.
Proof.
  intros Hm. unfold open_handlers. destruct (on_agent_run (modify (λ a, new_handlers state_dir (ag_store a) (ag_fs a) false)) w) as (w' & E & Ea & _).
  exists w'. split; [exact E|]. cbn in Ea. unfold new_handlers in Ea. cbn in Ea. unfold files in Hm. rewrite Hm in Ea.
  change (se_draining w') with (ag_draining (agent_of w')). change (se_store w') with (ag_store (agent_of w')).
  change (files w') with (ag_fs (agent_of w')). by rewrite Ea.
Qed.

Lemma assign_refused w t p : exists_ (files w) marker = true →
  ∃ w', on_agent (assign state_dir t p) w = (Ok (MkCommandResult false (Some (u "FAILED")) (Some (u "Engine is draining")) []), w') ∧
    se_store w' = se_store w ∧ files w' = files w.
Proof.
  intros Hm. destruct (on_agent_run (assign state_dir t p) w) as (w' & E & Ea & _). exists w'. rewrite E. revert Ea.
  unfold assign, set_draining. munfold. rewrite files_agent, Hm. cbn. intros Ea.
  change (se_store w') with (ag_store (agent_of w')). change (files w') with (ag_fs (agent_of w')). by rewrite Ea.
Qed.

(** C15: a graceful stop is a drain that outlives the process, under these
    conditions: the service is not stopping yet, the marker's directory is there
    and the places of the marker and of the metrics file are free or files (a
    marker that cannot be written means no stop, see [stop_needs_marker]), and
    the workers, when they are joined, leave the marker. When a signal arrives
    then, its task tells the workers and the uplink to stop and leaves the queue
    alone: the uplink opens no further connection and a second signal changes
    nothing. The marker is on disk and the shutdown keeps it: handlers opened
    later on these files, by a restarted service, drain from the start and
    refuse every assignment before it reaches the queue. *)
Theorem graceful_stop l :
  se_stop_workers (link_world l) = false → drain_place state_dir (files (link_world l)) →
  file_or_free (files (link_world l)) (state_dir ++ [METRICS_FILE]) →
  file_or_free (files (link_world l)) (state_dir ++ [METRICS_FILE ++ u ".tmp"]) →
  (∀ n w, drained (files w) → drained (files (pool_join n w).2)) →
  ∃ l', schedule_drain config l = (Ok (), l') ∧ li_stopped l' = true ∧ se_stop_workers (link_world l') = true ∧
    se_store (link_world l') = se_store (link_world l) ∧ drained (files (link_world l')) ∧
    (∀ failures rounds, service_loop netloc_check version out config failures rounds l' = (Ok [], l')) ∧
    schedule_drain config l' = (Ok (), l') ∧
    drained (files (link_world (shutdown config l').2)) ∧
    ∀ w, drained (files w) →
      ∃ w', open_handlers state_dir w = (Ok (), w') ∧ se_draining w' = true ∧ se_store w' = se_store w ∧ drained (files w') ∧
        ∀ t p, ∃ w'', on_agent (assign state_dir t p) w' =
            (Ok (MkCommandResult false (Some (u "FAILED")) (Some (u "Engine is draining")) []), w'') ∧
          se_store w'' = se_store w' ∧ drained (files w'').
Proof.
  intros Hs Hp Hm1 Hm2 Hj. destruct (schedule_drain_run l Hs) as (w1 & t & Ef & Est & Es & Ht & Er).
  rewrite <- Ef in *. destruct (drain_run w1 t Ht Hp) as (w2 & r & E & E2 & Hp2 & Hk & Es2 & Hsame).
  rewrite E in Er. cbv zeta in Er. eexists. split; [exact Er|]. set (l' := Link _ _ _ _ _).
  assert (drained (files (link_world l'))) as Hd.
  { change (files (link_world l')) with (files w2). split; [done|done| |];
      (eapply file_or_free_same; [apply Hsame; apply name_neq; by vm_compute|done]). }
  split; [done|]. split; [done|]. split; [change (se_store w2 = se_store (link_world l)); congruence|]. split; [done|]. split.
  { intros f rs. by apply loop_stopped. }
  split; [done|]. split; [by apply shutdown_keeps|].
  intros w Hw. destruct (handlers_run w (dr_marker _ Hw)) as (w' & Ew & Hd' & Hst & Hf). exists w'. rewrite Hf.
  split_and!; try done. intros t' p. destruct (assign_refused w' t' p) as (w'' & Ea & Hst' & Hf'); [rewrite Hf; by apply dr_marker|].
  exists w''. by rewrite Hf', Hf.
Qed.

(** Without the marker there is no stop. When a signal arrives and the
    marker cannot be written (a full disk, a read-only state directory), the
    exception ends the signal's task unseen: neither the uplink nor the workers
    are told to stop, and the service goes on as before. *)
Theorem stop_needs_marker l :
  se_stop_workers (link_world l) = false →
  (∀ t g, ag_fs g = files (link_world l) → is_ok (drain state_dir t [] g).1 = false) →
  ∃ l', schedule_drain config l = (Ok (), l') ∧ li_stopped l' = li_stopped l ∧ se_stop_workers (link_world l') = false ∧
    li_requests l' = li_requests l ∧ up_sent (li_up l') = up_sent (li_up l).
Proof.
  intros Hs Hd. destruct (schedule_drain_run l Hs) as (w1 & t & Ef & Est & Es & Ht & Er).
  destruct (on_agent_run (drain state_dir t []) w1) as (w2 & E & _ & Es2). rewrite E in Er.
  specialize (Hd t (agent_of w1) Ef). destruct (drain state_dir t [] (agent_of w1)).1 as [r|e]; [done|].
  eexists. split; [exact Er|]. split_and!; [done|change (se_stop_workers w2 = false); congruence|done|done].
Qed.

End stop.
