(* ===== verification/ServiceExamples.v ===== *)
(** A concrete machine, and the properties of [DoctorProofs], [CommandsProofs],
    [ConnectProofs] and [ServiceProofs] on it. *)

From Corelib Require Import SpecFloat.
From S2P Require Import Prelude PyStr PyFloat Dict Json Clock Uuid Protocol Db Store Outbox Fs PackageJson Framework Cache Url Config Handlers Toml Settings Artifact Auth Credentials Metrics Docker Drain Uplink AgentUplink.
From S2P Require Import SettingsExamples Connect ConnectProofs Doctor DoctorProofs Commands CommandsProofs Service ServiceProofs.

Local Open Scope Z_scope.

(** * The machine *)

Record machine := Machine { ma_host : host; ma_db : db; ma_log : list ustr }.

Definition ma_time : instant := 1753000000 * US.

Definition ma_files {A} : M fs A → M machine A :=
  zoom (λ s, ho_fs (ma_host s))
    (λ f s, Machine (MkHost f (ho_meta (ma_host s)) (ho_names (ma_host s)) (ho_faults (ma_host s))) (ma_db s) (ma_log s)).

#[export] Instance machine_container : ContainerHost machine := {|
  host_files := λ A m, ma_files m;
  host_now := λ s, (Ok ma_time, s);
  host_time := λ s, (Ok (S754_zero false), s);
  host_mkstemp := λ prefix suffix s, (Ok [u "tmp"; prefix ++ suffix], s);
  host_start := λ _ s, (Ok (), s);
  host_wait := λ _ s, (Ok (Some 0), s);
  host_wait_forever := λ s, (Ok 0, s);
  host_returncode := λ s, (Ok (Some 0), s);
  host_terminate := λ s, (Ok (), s);
  host_kill := λ s, (Ok (), s);
  host_command := λ _ s, (Ok (0, [], []), s);
  host_stdout := λ s, (Ok [], s);
  host_stderr := λ s, (Ok [], s);
|}.

Definition ma_health : list N :=
  dumps (spaced false) (JObj [(u "ok", JBool true); (u "proto_min", JInt 2); (u "proto_max", JInt 2)]).

#[export] Instance machine_doctor : DoctorHost machine := {|
  doc_get_host := ma_host;
  doc_put_host := λ h s, Machine h (ma_db s) (ma_log s);
  doc_command := λ _ s, (Ok (0, dumps (spaced false) (JObj [(u "Version", JStr (u "27.0"))]), []), s);
  doc_disk_free := λ _ s, (Ok (100 * 1024 ^ 3), s);
  doc_access := λ _ s, (Ok true, s);
  doc_integrity := λ _ s, (Ok (Some (u "ok")), s);
  doc_health := λ _ _ s, (Ok (HealthBody ma_health None), s);
  doc_welcome := λ _ _ s, (Err (PyExn TimeoutError []), s);
  doc_parse_date := λ _, None;
|}.

#[export] Instance machine_http : Http machine := λ _ s, (Err (PyExn TimeoutError []), s).

#[export] Instance machine_process : Process machine := {|
  pr_database := λ _ s, ma_db s;
  pr_set_database := λ _ d s, Machine (ma_host s) d (ma_log s);
  pr_log := λ _ m s, (Ok (), Machine (ma_host s) (ma_db s) (ma_log s ++ [m]));
  pr_stdout := λ _ s, (Ok (), s);
  pr_stderr := λ _ s, (Ok (), s);
|}.

#[export] Instance machine_laws : ProcessLaws machine.
Proof.
  split; [done|by intros; eexists|]. intros s. exists ma_time, s. split_and!; [done|done|].
  split; apply Z.leb_le || apply Z.ltb_lt; vm_compute; reflexivity.
Qed.

#[export] Instance machine_scan : DirScan := λ _ _, [].
#[export] Instance machine_workers : WorkerPool machine := λ _ w, (Ok (), w).

#[local] Existing Instance ex_toml.

(** Configuration, credentials of the service account, cgroup v2, an empty state directory. *)
Definition ma_tree : fs :=
  <[[u "etc"] := EDir 0]> (<[[u "etc"; u "config.toml"] := EFile ex_config_text 0 0]>
  (<[[u "etc"; u "c.toml"] := EFile (credentials_text ex_creds) 0 0]>
  (<[[u "var"] := EDir 0]> (<[[u "var"; u "lib"] := EDir 0]> (<[[u "var"; u "lib"; u "build-engine"] := EDir 0]>
  (<[[u "sys"] := EDir 0]> (<[[u "sys"; u "fs"] := EDir 0]> (<[[u "sys"; u "fs"; u "cgroup"] := EDir 0]>
  (<[[u "sys"; u "fs"; u "cgroup"; u "cgroup.controllers"] := EFile (u "cpu memory pids") 0 0]> ∅))))))))).

Definition ma_start : machine := Machine (MkHost ma_tree (λ _, MkMeta 384 998 997) [] []) empty_db [].

Definition ma_cli : cli := MkCli (u "/etc/config.toml") None.
Definition ma_version : ustr := u "2.0.0".

(** * The self-test and the start *)

Definition ma_serve : result Z * machine :=
  serve_command ex_netloc ma_version [] ex_root [] (u "Linux") (u "x86_64") [] (λ _ _, mret ()) ma_cli None ma_start.

Lemma ma_serve_code : ma_serve.1 = Ok 0.
Proof. vm_compute. reflexivity. Qed.

Lemma serve_gate_witness : ∃ s' c0 s1 c s4 w w1,
  ma_serve = (Ok 0, s') ∧
  configured ex_netloc [] (u "Linux") (u "x86_64") [] ma_cli [] ma_start = (Ok c0, s1) ∧
  post_init ex_netloc c0 = Ok c0 ∧
  valid_file ex_root (cf_credentials_path c0) (Some SERVICE_USER) (Some SERVICE_GROUP) c (ma_host s1) ∧
  opened c0 s4 = (Ok (), w) ∧ (Ok (), w) = (Ok (), w1).
Proof.
  pose proof ma_serve_code as Hc. destruct ma_serve as [r s'] eqn:E. cbn [fst] in Hc. subst r.
  destruct (serve_gate ex_netloc ma_version [] ex_root [] (u "Linux") (u "x86_64") [] (λ _ _, mret ()) ma_cli None ma_start (Ok 0) s' E)
    as [[[Hc|[e Hc]] _]|(c0 & s1 & c & s2 & r & s3 & s4 & w & rs & w1 & H1 & H2 & _ & H3 & _ & _ & _ & H4 & H5 & _)];
    [discriminate Hc|discriminate Hc|].
  exists s', c0, s1, c, s4, w, w1. split; [reflexivity|]. split; [exact H1|]. split; [exact H2|]. split; [exact H3|].
  split; [exact H4|]. injection H5 as _ <-. reflexivity.
Defined.

Definition ma_config : EngineConfig :=
  match (configured ex_netloc [] (u "Linux") (u "x86_64") [] ma_cli [] ma_start).1 with
  | Ok c => c
  | Err _ => default_config [] []
  end.

Definition ma_report : result DoctorReport * machine :=
  run_doctor ex_netloc ma_version [] ex_root ma_config STARTUP_SKIPS (Some SERVICE_USER) (Some SERVICE_GROUP) ma_start.

Lemma doctor_verdict_witness : ∃ r s', ma_report = (Ok r, s') ∧ re_ok r = true ∧
  skip (u "image_pull") (u "skipped by operator request") ∈ re_checks r ∧
  Forall2 (λ names c, ch_name c ∈ names) CHECK_NAMES (re_checks r) ∧
  ∀ c, c ∈ re_checks r → ch_status c = StatusOk ∨ (ch_name c ∈ STARTUP_SKIPS ∧ ch_status c = StatusSkip).
Proof.
  assert (re_ok <$> ma_report.1 = Ok true) as Hr by (vm_compute; reflexivity).
  destruct ma_report as [[r|e] s'] eqn:E; [|discriminate Hr]. injection Hr as Hok.
  destruct (doctor_verdict ex_netloc ma_version [] ex_root ma_config STARTUP_SKIPS (Some SERVICE_USER) (Some SERVICE_GROUP)
    ma_start r s' E) as (H1 & _ & H3 & H4).
  exists r, s'. split; [reflexivity|]. split; [exact Hok|]. split.
  - apply H3; [do 3 right; left|left].
  - split; [exact H1|]. exact (proj2 (H4 Hok)).
Defined.

(** * The uplink *)

Definition ma_served (f : fs) : served machine :=
  Served (Machine (MkHost f (λ _, MkMeta 384 998 997) [] []) empty_db []) (Store empty_db None [] true) false None false.

Definition ma_link (f : fs) : link (served machine) := new_link ma_config ex_creds (ma_served f).

Definition ma_outside : outside := Outside (λ _, ma_time) (λ _, u "6ba7b810-9dad-11d1-80b4-00c04fd430c8") (λ _, true).

(** One connection that is refused. *)
Definition ma_round : round := MkRound (NotOpened (PyExn OSError [])) false false.

#[local] Existing Instances served_http.
#[local] Instance ma_spool : EventSpool (served machine) := served_spool ma_config.
#[local] Instance ma_handlers : CommandHandlers (served machine) := served_handlers ma_config.

Definition ma_run : result (list pyfloat) * link (served machine) :=
  run_forever ex_netloc ma_version ma_config ma_outside default_backoff stop 0 [ma_round] (ma_link ma_tree).

Lemma uplink_requests_witness : ∃ req,
  li_requests ma_run.2 = [req] ∧ dget (u "Authorization") req.2 = Some (u "Bearer jwt") ∧
  ∃ host p, req.1 = u "wss://" ++ host ++ 47%N :: p.
Proof.
  assert (length (li_requests ma_run.2) = 1%nat ∧ (λ r, dget (u "Authorization") (snd r)) <$> li_requests ma_run.2 =
    [Some (u "Bearer jwt")]) as [Hl Ha] by (split; vm_compute; reflexivity).
  destruct (uplink_requests ex_netloc ma_version ma_config ma_outside default_backoff stop (λ l, conj eq_refl eq_refl)
    0 [ma_round] (ma_link ma_tree) ma_run.1 ma_run.2 (surjective_pairing _)) as (_ & new & Hq & _ & Hn).
  change (li_requests (ma_link ma_tree)) with (@nil (ustr * list (ustr * ustr))) in Hq. cbn [app] in Hq.
  rewrite Hq in Hl, Ha. destruct new as [|req [|? ?]]; [discriminate Hl| |discriminate Hl]. exists req.
  split; [exact Hq|]. split; [by injection Ha|].
  destruct (Hn 0%nat req eq_refl) as (k & b & c & _ & Eb & _ & _ & _ & _ & _ & Hw).
  assert (uplink_backend ma_config (li_credentials (ma_link ma_tree)) = Some (u "https://from-credentials.example")) as Eb'
    by (vm_compute; reflexivity).
  rewrite Eb' in Eb. injection Eb as <-.
  destruct Hw as (parsed & p & _ & _ & Hu); [vm_compute; reflexivity|]. by exists (u_netloc parsed), p.
Defined.

(** * The stop *)

Lemma ma_place : drain_place (cf_state_dir ma_config) (files (ma_served ma_tree)).
Proof.
  assert (cf_state_dir ma_config = [u "var"; u "lib"; u "build-engine"]) as -> by (vm_compute; reflexivity).
  split; [|by left|by left]. split; [by repeat constructor; vm_compute|].
  intros [|a [|b [|c [|? ?]]]] rest E Ha; try done; injection E; intros; subst; exists 0; vm_compute; reflexivity.
Qed.

Lemma graceful_stop_witness : ∃ l',
  schedule_drain ma_config (ma_link ma_tree) = (Ok (), l') ∧ li_stopped l' = true ∧
  se_stop_workers (link_world l') = true ∧
  exists_ (files (link_world (shutdown ma_config l').2)) (drain_marker_path (cf_state_dir ma_config)) = true.
Proof.
  destruct (graceful_stop ex_netloc ma_version ma_outside ma_config (ma_link ma_tree))
    as (l' & H1 & H2 & H3 & _ & _ & _ & _ & H8 & _).
  - reflexivity.
  - exact ma_place.
  - left. vm_compute. reflexivity.
  - left. vm_compute. reflexivity.
  - intros n w Hw. exact Hw.
  - exists l'. split; [exact H1|]. split; [exact H2|]. split; [exact H3|apply H8].
Defined.

(** A regular file where the state directory should be. *)
Definition ma_broken : fs := <[[u "var"; u "lib"; u "build-engine"] := EFile [] 0 0]> ma_tree.

Lemma stop_needs_marker_witness : ∃ l',
  schedule_drain ma_config (ma_link ma_broken) = (Ok (), l') ∧ li_stopped l' = false ∧
  se_stop_workers (link_world l') = false.
Proof.
  destruct (stop_needs_marker ma_config (ma_link ma_broken)) as (l' & H1 & H2 & H3 & _).
  - reflexivity.
  - intros t [st f dr sc] Hf. cbn [ag_fs] in Hf. subst f.
    assert (cf_state_dir ma_config = [u "var"; u "lib"; u "build-engine"]) as -> by (vm_compute; reflexivity).
    vm_compute. reflexivity.
  - exists l'. split; [exact H1|]. split; [exact H2|exact H3].
Defined.
