(* ===== verification/Logging.v ===== *)
(** Logging (src/src/build_engine/cli/logging.py): the set-up of a command's root
    logger, and the JSON log lines. *)

From S2P Require Import Prelude PyStr PyFloat Dict Json Clock Url.

Local Open Scope Z_scope.

(** What the formatter reads of a record: level name, logger, the formatted
    message and the formatted exception. *)
Record log_record := MkLogRecord {
  lr_levelname : ustr;
  lr_name : ustr;
  lr_message : ustr;
  lr_exception : option ustr;
}.

Definition log_payload (now : instant) (r : log_record) : jdict :=
  [(u "timestamp", JStr (format_datetime now)); (u "level", JStr (lower (lr_levelname r)));
   (u "logger", JStr (lr_name r)); (u "message", JStr (lr_message r))]
  ++ match lr_exception r with Some e => [(u "exception", JStr e)] | None => [] end.

(** [JsonFormatter.format]. *)
Definition log_format (now : instant) (r : log_record) : ustr := dumps (spaced true) (JObj (log_payload now r)).

(** * Set-up *)

(** The three kinds of handler; each writes to the error stream. *)
Inductive log_handler := JsonHandler | PlainHandler | RichConsole.

Record root_logging := MkRootLogging { rl_level : Z; rl_handler : log_handler }.

(** What [getattr(logging, name)] finds under a name without small letters. *)
Inductive logging_value := LevelNumber (n : Z) | LevelText (s : ustr) | NotALevel.
Definition LOGGING_ATTRIBUTES : list (ustr * logging_value) :=
  [(u "CRITICAL", LevelNumber 50); (u "FATAL", LevelNumber 50); (u "ERROR", LevelNumber 40);
   (u "WARNING", LevelNumber 30); (u "WARN", LevelNumber 30); (u "INFO", LevelNumber 20);
   (u "DEBUG", LevelNumber 10); (u "NOTSET", LevelNumber 0);
   (u "BASIC_FORMAT", LevelText (u "%(levelname)s:%(name)s:%(message)s")); (u "_STYLES", NotALevel)].

Section setup.
(** [str.upper], and whether the module [rich] can be imported. *)
Context (to_upper : ustr → ustr) (rich : bool).

Definition human_handler : log_handler := if rich then RichConsole else PlainHandler.

(** [root.setLevel(value)]: a text must be the name of a level. *)
Definition check_level (v : logging_value) : result Z :=
  match v with
  | LevelNumber n => Ok n
  | LevelText s => match dget s LOGGING_ATTRIBUTES with
                   | Some (LevelNumber n) => Ok n
                   | _ => Err (PyExn ValueError (u "Unknown level: " ++ s))
                   end
  | NotALevel => Err (PyExn TypeError (u "Level not an integer or a valid string"))
  end.

Definition configure_logging (log_format level : ustr) : result root_logging :=
  let handler := if ustr_eqb log_format (u "json") then JsonHandler else human_handler in
  n ← check_level (default (LevelNumber 20) (dget (to_upper level) LOGGING_ATTRIBUTES));
  Ok (MkRootLogging n handler).

End setup.

(** * One object per line *)

Definition one_line (s : ustr) : Prop := 10%N ∉ s.

Lemma one_line_app s t : one_line s → one_line t → one_line (s ++ t).
Proof. intros Hs Ht [?|?]%elem_of_app; auto. Qed.

Lemma one_line_join sep l : one_line sep → Forall one_line l → one_line (join sep l).
Proof.
  intros Hs. induction 1 as [|x l Hx _ IH]; [by intros ?%elem_of_nil|]. destruct l as [|y l]; [done|].
  cbn [join]. apply one_line_app; [done|]. by apply one_line_app.
Qed.

Lemma hexdigit_line d : hexdigit d ≠ 10%N.
Proof. unfold hexdigit. case_match; lia. Qed.

Lemma hex4_line n : one_line (hex4 n).
Proof.
  unfold one_line, hex4. rewrite !elem_of_cons, elem_of_nil. pose proof hexdigit_line as Hd.
  intros [H|[H|[H|[H|[]]]]]; by eapply Hd.
Qed.

Lemma escape_char_line c : one_line (escape_char c).
Proof.
  assert (∀ l, bool_decide (10%N ∈ l) = false → one_line l) as Hb by (intros l H; by apply bool_decide_eq_false in H).
  unfold escape_char. destruct (c =? 34)%N; [by apply Hb|]. destruct (c =? 92)%N; [by apply Hb|].
  destruct (N.eqb_spec c 10) as [->|Hc]; [by apply Hb|]. destruct (c =? 13)%N; [by apply Hb|].
  destruct (c =? 9)%N; [by apply Hb|]. destruct (c =? 12)%N; [by apply Hb|]. destruct (c =? 8)%N; [by apply Hb|].
  destruct (_ && _); [by intros H%list_elem_of_singleton|].
  assert (one_line [92%N; 117%N]) as H by (by apply Hb).
  destruct (c <? 65536)%N; [by apply one_line_app; [|apply hex4_line]|].
  by repeat apply one_line_app; try apply hex4_line.
Qed.

Lemma quote_line s : one_line (quote s).
Proof.
  unfold quote. change (34%N :: escape s ++ [34%N]) with ([34%N] ++ escape s ++ [34%N]).
  assert (one_line [34%N]) as Hq by (by intros [?|?%elem_of_nil]%elem_of_cons).
  apply one_line_app; [done|]. apply one_line_app; [|done]. unfold escape. induction s as [|c s IH]; [by intros ?%elem_of_nil|].
  cbn. apply one_line_app; [apply escape_char_line|done].
Qed.

(** Whatever the message contains, a record is one line of text, and the line is
    the JSON of the record: its fields come back under their names, sorted. *)
Theorem log_line now r : in_range now →
  ascii_str (lr_levelname r) → str_ok (lr_name r) = true → str_ok (lr_message r) = true →
  (∀ e, lr_exception r = Some e → str_ok e = true) →
  one_line (log_format now r) ∧ loads (log_format now r) = Ok (json_norm true (JObj (log_payload now r))).
Proof.
  intros Ht Hl Hn Hm He. split.
  - unfold log_format. rewrite dumps_obj. apply (one_line_app [123%N]); [by apply (bool_decide_unpack _)|].
    apply one_line_app; [|by apply (bool_decide_unpack _)]. apply one_line_join; [by apply (bool_decide_unpack _)|]. apply Forall_fmap. unfold printed. cbn [sort_keys spaced].
    rewrite sort_by_perm. apply Forall_forall. intros [k v] Hkv. unfold member_text. cbn [fst snd].
    assert (∃ s, v = JStr s) as [s ->].
    { unfold log_payload in Hkv. rewrite elem_of_app, !elem_of_cons in Hkv. destruct (lr_exception r); set_solver. }
    repeat apply one_line_app; try apply quote_line; by apply (bool_decide_unpack _).
  - unfold log_format. apply (loads_dumps_style (spaced true)); [apply spaced_ok|]. cbn [json_ok].
    apply andb_true_iff. split; [unfold log_payload; by destruct (lr_exception r)|]. apply List.forallb_forall.
    assert (str_ok (format_datetime now) = true) as H1 by (by apply ascii_str_ok, format_datetime_ascii).
    assert (str_ok (lower (lr_levelname r)) = true) as H2.
    { apply ascii_str_ok, Forall_fmap. eapply Forall_impl; [exact Hl|]. intros c Hc. cbn in *. unfold lower_char. destruct (_ && _) eqn:E; [|done]. apply andb_true_iff in E as [_ E%N.leb_le]. lia. }
    intros kv Hkv%list_elem_of_In. unfold log_payload in Hkv. rewrite elem_of_app, !elem_of_cons, elem_of_nil in Hkv.
    destruct Hkv as [[->|[->|[->|[->|[]]]]]|Hkv]; [cbn [fst snd json_ok]; by rewrite ?H1, ?H2, ?Hn, ?Hm..|].
    destruct (lr_exception r) as [e|]; [|by apply elem_of_nil in Hkv]. apply list_elem_of_singleton in Hkv as ->.
    cbn [fst snd json_ok]. by rewrite (He e eq_refl).
Qed.
