(* ===== verification/Cli.v ===== *)
(** The command line of the program (src/src/build_engine/cli/commands.py,
    [main] and [_build_parser]; src/src/build_engine/__main__.py): the parser, and
    the way from the arguments to one of the [Commands] and its exit status. *)

From S2P Require Import Prelude PyStr PyFloat Dict Json Clock Protocol Db Store Fs Cache Url Config Handlers Toml Settings Artifact Auth Credentials Docker Connect Doctor Commands Logging Args.

Local Open Scope Z_scope.

(** * The parser *)

Definition DEFAULT_CONFIG : ustr := u "/etc/mincemeat/build-engine/config.toml".

Definition text_option (flag : ustr) (dflt : arg_value) : opt_spec := argument flag (Store None) dflt false.
Definition required_option (flag : ustr) : opt_spec := argument flag (Store None) VNone true.
Definition config_options : list opt_spec :=
  [help_option; text_option (u "--config") (VStr DEFAULT_CONFIG); text_option (u "--credentials") VNone].

(** A subcommand without subcommands of its own. *)
Definition leaf (options : list opt_spec) (handler : ustr) : parser :=
  Parser (config_options ++ options) [(u "handler", VFun handler)] None.

Definition serve_parser : parser := leaf [text_option (u "--state-dir") VNone] (u "_serve").
Definition register_parser : parser :=
  leaf [required_option (u "--backend-url"); required_option (u "--token"); required_option (u "--name");
        argument (u "--max-concurrency") StoreInt (VInt (cf_max_concurrency (default_config [] []))) false] (u "_register").
Definition status_parser : parser := leaf [] (u "_status").
Definition doctor_parser : parser :=
  leaf [argument (u "--skip") Append VNone false; MkOpt [u "--json"] (u "as_json") StoreTrue (VBool false) false] (u "_doctor").
Definition session_refresh_parser : parser := leaf [text_option (u "--backend-url") VNone] (u "_session_refresh").
Definition cache_reset_parser : parser := leaf [text_option (u "--site-id") VNone] (u "_cache_reset").
Definition drain_parser : parser := leaf [] (u "_drain").
Definition resume_parser : parser := leaf [] (u "_resume").

Definition session_parser : parser := Parser [help_option] [] (Some (u "session_command", [(u "refresh", session_refresh_parser)])).
Definition cache_parser : parser := Parser [help_option] [] (Some (u "cache_command", [(u "reset", cache_reset_parser)])).

Definition root_options : list opt_spec :=
  [help_option; MkOpt [u "--version"] (u "version") VersionAction VNone false;
   argument (u "--log-format") (Store (Some [u "human"; u "json"])) (VStr (u "human")) false;
   text_option (u "--log-level") (VStr (u "INFO"))].
Definition subcommands : list (ustr * parser) :=
  [(u "serve", serve_parser); (u "register", register_parser); (u "status", status_parser); (u "doctor", doctor_parser);
   (u "session", session_parser); (u "cache", cache_parser); (u "drain", drain_parser); (u "resume", resume_parser)].

Definition build_parser : parser :=
  Parser root_options [(u "handler", VFun (u "_help"))] (Some (u "command", subcommands)).

(** * Attributes of the namespace *)

Definition no_attribute : exn := PyExn AttributeErrorC (u "Namespace").

(** [args.k], where its reader expects a value of one kind. *)
Definition get_attr {A} (read : arg_value → option A) (ns : namespace) (k : ustr) : result A :=
  res_of_option no_attribute (v ← dget k ns; read v).

Definition text_attr : namespace → ustr → result ustr := get_attr (λ v, match v with VStr s => Some s | _ => None end).
Definition opt_text_attr : namespace → ustr → result (option ustr) :=
  get_attr (λ v, match v with VStr s => Some (Some s) | VNone => Some None | _ => None end).
Definition int_attr : namespace → ustr → result Z := get_attr (λ v, match v with VInt z => Some z | _ => None end).
Definition bool_attr : namespace → ustr → result bool := get_attr (λ v, match v with VBool b => Some b | _ => None end).
Definition opt_list_attr : namespace → ustr → result (option (list ustr)) :=
  get_attr (λ v, match v with VList l => Some (Some l) | VNone => Some None | _ => None end).
Definition fun_attr : namespace → ustr → result ustr := get_attr (λ v, match v with VFun f => Some f | _ => None end).

Definition cli_attrs (ns : namespace) : result cli :=
  config ← text_attr ns (u "config"); credentials ← opt_text_attr ns (u "credentials"); Ok (MkCli config credentials).

(** A command with its arguments. *)
Inductive command :=
| CServe (a : cli) (state_dir : option ustr)
| CRegister (a : cli) (backend_url token name : ustr) (max_concurrency : Z)
| CStatus (a : cli)
| CDoctor (a : cli) (skip : option (list ustr)) (as_json : bool)
| CSessionRefresh (a : cli) (backend_url : option ustr)
| CCacheReset (a : cli) (site_id : option ustr)
| CDrain (a : cli)
| CResume (a : cli)
| CHelp.

(** What the handlers read of their arguments, by the handler's name. *)
Definition handler_args (handler : ustr) (ns : namespace) : result command :=
  if ustr_eqb handler (u "_help") then Ok CHelp
  else
    a ← cli_attrs ns;
    if ustr_eqb handler (u "_serve") then sd ← opt_text_attr ns (u "state_dir"); Ok (CServe a sd)
    else if ustr_eqb handler (u "_register") then
      url ← text_attr ns (u "backend_url"); token ← text_attr ns (u "token"); name ← text_attr ns (u "name");
      n ← int_attr ns (u "max_concurrency"); Ok (CRegister a url token name n)
    else if ustr_eqb handler (u "_status") then Ok (CStatus a)
    else if ustr_eqb handler (u "_doctor") then
      skip ← opt_list_attr ns (u "skip"); as_json ← bool_attr ns (u "as_json"); Ok (CDoctor a skip as_json)
    else if ustr_eqb handler (u "_session_refresh") then
      url ← opt_text_attr ns (u "backend_url"); Ok (CSessionRefresh a url)
    else if ustr_eqb handler (u "_cache_reset") then site ← opt_text_attr ns (u "site_id"); Ok (CCacheReset a site)
    else if ustr_eqb handler (u "_drain") then Ok (CDrain a)
    else if ustr_eqb handler (u "_resume") then Ok (CResume a)
    else Err no_attribute.

(** * The program *)

(** The process's logging and the texts [argparse] prints. *)
Class Terminal (S : Type) := {
  tm_logging : root_logging → M S ();
  tm_print : parse_stop → M S ();
}.

(** [SystemExit(code)]. *)
Definition system_exit (code : Z) : exn := PyExn SystemExit (str_of_Z code).

Section main.
Context {S : Type} `{Process S} `{Terminal S} `{Tomllib} `{DirScan}.
Context (netloc_check : ustr → result ()) (version : ustr) (data : path) (ac : accounts).
Context (cwd : path) (system machine : ustr) (environ : list (ustr * ustr)).
Context (service : EngineConfig → EngineCredentials → M (served S) ()).
Context (negative : ustr → bool) (to_upper : ustr → ustr) (rich : bool).

(** [_help]. *)
Definition help_command : M S Z := tm_print HelpPrinted;; mret 0.

Definition run_command (c : command) : M S Z :=
  match c with
  | CServe a sd => serve_command netloc_check version data ac cwd system machine environ service a sd
  | CRegister a url token name n => register_command netloc_check version ac cwd system machine environ a url token name n
  | CStatus a => status_command netloc_check ac cwd system machine environ a
  | CDoctor a skip as_json => doctor_command netloc_check version data ac cwd system machine environ a skip as_json
  | CSessionRefresh a url => session_refresh_command netloc_check ac cwd system machine environ a url
  | CCacheReset a site => cache_reset_command netloc_check cwd system machine environ a site
  | CDrain a => drain_command netloc_check cwd system machine environ a
  | CResume a => resume_command netloc_check cwd system machine environ a
  | CHelp => help_command
  end.

Definition main (argv : list ustr) : M S Z :=
  match parse_args negative build_parser argv with
  | Stopped e => tm_print e;; raise (system_exit (exit_code e))
  | Parsed ns =>
      log_format ← lift (text_attr ns (u "log_format"));
      level ← lift (text_attr ns (u "log_level"));
      logging ← lift (configure_logging to_upper rich log_format level);
      tm_logging logging;;
      handler ← lift (fun_attr ns (u "handler"));
      c ← lift (handler_args handler ns);
      run_command c
  end.

(** [raise SystemExit(main())], and how the interpreter ends on an exception. *)
Definition exit_status (r : result Z) : Z :=
  match r with
  | Ok code => code
  | Err (PyExn SystemExit code) => default 1 (py_int id code)
  | Err (PyExn KeyboardInterrupt _) => 130
  | Err _ => 1
  end.

Definition program (argv : list ustr) (s : S) : Z * S := let '(r, s) := main argv s in (exit_status r, s).

End main.
