(* ===== verification/CliProofs.v ===== *)
(** The command line: how commands are written, and that nothing else runs. *)

From S2P Require Import Prelude PyStr PyFloat Dict Json Clock Protocol Db Store Fs Cache Url Config Handlers Toml Settings Artifact Auth Credentials Docker Connect Doctor Commands Logging Args ArgsProofs Cli.

Local Open Scope Z_scope.

(** * Commands in words *)

Definition opt_pair (flag : ustr) (o : option ustr) : list (ustr * ustr) := match o with Some v => [(flag, v)] | None => [] end.
Definition cli_pairs (a : cli) : list (ustr * ustr) := (u "--config", cl_config a) :: opt_pair (u "--credentials") (cl_credentials a).

(** A way to write each command: every value joined to its option. *)
Definition words (c : command) : list ustr :=
  match c with
  | CServe a sd => u "serve" :: joined_words (cli_pairs a ++ opt_pair (u "--state-dir") sd)
  | CRegister a url token name n =>
      u "register" :: joined_words (cli_pairs a ++ [(u "--backend-url", url); (u "--token", token); (u "--name", name);
                                                    (u "--max-concurrency", str_of_Z n)])
  | CStatus a => u "status" :: joined_words (cli_pairs a)
  | CDoctor a skip as_json =>
      u "doctor" :: joined_words (cli_pairs a ++ ((λ v, (u "--skip", v)) <$> default [] skip))
        ++ (if as_json then [u "--json"] else [])
  | CSessionRefresh a url => u "session" :: u "refresh" :: joined_words (cli_pairs a ++ opt_pair (u "--backend-url") url)
  | CCacheReset a site => u "cache" :: u "reset" :: joined_words (cli_pairs a ++ opt_pair (u "--site-id") site)
  | CDrain a => u "drain" :: joined_words (cli_pairs a)
  | CResume a => u "resume" :: joined_words (cli_pairs a)
  | CHelp => []
  end.

(** Numbers within the limit of digits; an empty list of skips is no list. *)
Definition command_ok (c : command) : Prop :=
  match c with
  | CRegister _ _ _ _ n => int_ok n = true
  | CDoctor _ skip _ => skip ≠ Some []
  | _ => True
  end.

Section parsing.
Context (negative : ustr → bool).

Definition leaf_options (p : parser) : list opt_spec := match p with Parser opts _ _ => opts end.

Lemma no_sep_options : Forall (λ p, Forall (λ no, (61%N : N) ∉ no.1) (option_strings (leaf_options p)))
  [build_parser; serve_parser; register_parser; status_parser; doctor_parser; session_refresh_parser; cache_reset_parser;
   drain_parser; resume_parser].
Proof. apply (bool_decide_unpack _). vm_compute. exact I. Qed.

(** Decided for a concrete flag of a concrete parser. *)
Definition value_flagb (opts : list opt_spec) (flag : ustr) : bool :=
  match find_option opts flag, flag with
  | Some o, 45%N :: 45%N :: _ :: _ => takes_value (o_action o)
  | _, _ => false
  end.

Lemma value_flagb_ok opts flag : value_flagb opts flag = true → value_flag opts flag.
Proof.
  unfold value_flagb. destruct (find_option opts flag) as [o|] eqn:Eo; [|done].
  intros Ht. exists o. repeat (case_match; try done; simplify_eq). split; [split; [done|by eexists _, _]|done].
Qed.

(** A subcommand's options, each with its value. *)
Lemma leaf_parse opts dflts pairs flags g g1 :
  Forall (λ no, (61%N : N) ∉ no.1) (option_strings opts) → forallb (value_flagb opts) pairs.*1 = true →
  take_pairs opts pairs (MkProgress (initial opts None dflts) [] [] true) = Parsed g →
  consume opts None (classify negative opts flags) g = Parsed g1 →
  flag_of <$> List.filter (λ o, o_required o && negb (mem_str (o_dest o) (pg_seen g1))) opts = [] → pg_extras g1 = [] →
  parse_known_args negative (Parser opts dflts None) (joined_words pairs ++ flags) = Parsed (pg_namespace g1, []).
Proof.
  intros Hno Hv Hg Hg1 Hreq Hex. rewrite parse_known_args_eq. unfold parse_with. rewrite consume_pairs; [|done|].
  - rewrite Hg. unfold mbind at 1 2, parsed_bind at 1 2. rewrite Hg1. cbn. by rewrite Hreq, Hex.
  - apply Forall_forall. intros fv Hfv. apply value_flagb_ok. rewrite List.forallb_forall in Hv. apply Hv, list_elem_of_In.
    apply list_elem_of_fmap. by exists fv.
Qed.

(** The options of the program itself, then a subcommand. *)
Definition globals (log_format level : ustr) : list (ustr * ustr) := [(u "--log-format", log_format); (u "--log-level", level)].

Definition root_namespace (log_format level : ustr) : namespace :=
  [(u "log_format", VStr log_format); (u "log_level", VStr level); (u "command", VNone); (u "handler", VFun (u "_help"))].

Lemma root_pairs log_format level : log_format ∈ [u "human"; u "json"] →
  ∃ seen, take_pairs root_options (globals log_format level)
    (MkProgress (initial root_options (Some (u "command", find_parser negative subcommands)) [(u "handler", VFun (u "_help"))]) [] [] true)
    = Parsed (MkProgress (root_namespace log_format level) seen [] true).
Proof.
  rewrite !elem_of_cons, elem_of_nil. intros [->|[->|[]]]; eexists; vm_compute; reflexivity.
Qed.

Lemma root_parse log_format level name rest f ns : log_format ∈ [u "human"; u "json"] → head name ≠ Some 45%N →
  find_parser negative subcommands name = Some f → f rest = Parsed (ns, []) →
  parse_args negative build_parser (joined_words (globals log_format level) ++ name :: rest) =
    Parsed (dmerge (dset (u "command") (VStr name) (root_namespace log_format level)) ns).
Proof.
  intros Hf Hn Hfind Hrest. pose proof no_sep_options as Hno. apply Forall_cons in Hno as [Hno _].
  unfold parse_args, build_parser. rewrite parse_known_args_eq. unfold parse_with. rewrite consume_pairs; [|exact Hno|].
  - destruct (root_pairs log_format level Hf) as [seen ->]. rewrite classify_word by done.
    unfold mbind at 1 2 3, parsed_bind at 1 2 3. cbn [consume]. unfold pending. cbn [pg_pending]. rewrite classify_fst.
    unfold run_sub. rewrite Hfind. unfold mbind at 1, parsed_bind at 1. rewrite Hrest. done.
  - apply Forall_forall. intros fv Hfv. apply value_flagb_ok. unfold globals in Hfv.
    rewrite !elem_of_cons, elem_of_nil in Hfv. destruct Hfv as [->|[->|[]]]; vm_compute; reflexivity.
Qed.

(** Two words for a subcommand of a subcommand. *)
Lemma group_parse dest name rest l f ns : head name ≠ Some 45%N → find_parser negative l name = Some f → f rest = Parsed (ns, []) →
  parse_known_args negative (Parser [help_option] [] (Some (dest, l))) (name :: rest) =
    Parsed (dmerge (dset dest (VStr name) [(dest, VNone)]) ns, []).
Proof.
  intros Hn Hfind Hrest. rewrite parse_known_args_eq. unfold parse_with. rewrite classify_word by done.
  cbn [consume]. unfold pending. cbn [pg_pending]. rewrite classify_fst.
  unfold run_sub. rewrite Hfind. unfold mbind at 2, parsed_bind at 2. rewrite Hrest. done.
Qed.

(** The namespace of a subcommand has what its handler reads. *)
Definition reads (ns : namespace) (log_format level : ustr) (c : command) : Prop :=
  text_attr ns (u "log_format") = Ok log_format ∧ text_attr ns (u "log_level") = Ok level ∧
  ∃ h, fun_attr ns (u "handler") = Ok h ∧ handler_args h ns = Ok c.

Ltac compute_eq := vm_compute; reflexivity.
Ltac parse_leaf :=
  rewrite <- (app_nil_r (joined_words _)); eapply leaf_parse;
    [apply (bool_decide_unpack _); vm_compute; exact I|compute_eq|compute_eq|reflexivity|compute_eq|reflexivity].
Ltac parse_root := eapply root_parse; [done|vm_compute; discriminate|reflexivity|].
Ltac parse_group := eapply group_parse; [vm_compute; discriminate|reflexivity|].
Ltac read_attrs := split; [compute_eq|split; [compute_eq|eexists; split; compute_eq]].

(** The statement for one command. *)
Definition written (log_format level : ustr) (c : command) : Prop :=
  ∃ ns, parse_args negative build_parser (joined_words (globals log_format level) ++ words c) = Parsed ns ∧
    reads ns log_format level c.

Section written.
Context (log_format level : ustr) (Hf : log_format ∈ [u "human"; u "json"]) (a : cli).

Lemma serve_written sd : written log_format level (CServe a sd).
Proof using Hf. destruct a as [config [credentials|]], sd as [sd|]; eexists; (split; [parse_root; parse_leaf|read_attrs]). Qed.

Lemma status_written : written log_format level (CStatus a).
Proof using Hf. destruct a as [config [credentials|]]; eexists; (split; [parse_root; parse_leaf|read_attrs]). Qed.

Lemma drain_written : written log_format level (CDrain a).
Proof using Hf. destruct a as [config [credentials|]]; eexists; (split; [parse_root; parse_leaf|read_attrs]). Qed.

Lemma resume_written : written log_format level (CResume a).
Proof using Hf. destruct a as [config [credentials|]]; eexists; (split; [parse_root; parse_leaf|read_attrs]). Qed.

Lemma session_refresh_written url : written log_format level (CSessionRefresh a url).
Proof using Hf.
  destruct a as [config [credentials|]], url as [url|]; eexists; (split; [parse_root; parse_group; parse_leaf|read_attrs]).
Qed.

Lemma cache_reset_written site : written log_format level (CCacheReset a site).
Proof using Hf.
  destruct a as [config [credentials|]], site as [site|]; eexists; (split; [parse_root; parse_group; parse_leaf|read_attrs]).
Qed.

Lemma register_written url token name n : int_ok n = true → written log_format level (CRegister a url token name n).
Proof using Hf.
  intros Hn. pose proof (py_int_str n Hn) as Hp.
  assert (∀ opts g o, find_option opts (u "--max-concurrency") = Some o → o_action o = StoreInt →
    take_pairs opts [(u "--max-concurrency", str_of_Z n)] g = Parsed (set_attr o (VInt n) g)) as Hint.
  { intros opts g o Ho Ha. cbn [take_pairs]. rewrite Ho. unfold take_action. by rewrite Ha, Hp. }
  assert (∃ g, take_pairs (leaf_options register_parser) (cli_pairs a ++ [(u "--backend-url", url); (u "--token", token); (u "--name", name);
        (u "--max-concurrency", str_of_Z n)])
      (MkProgress (initial (leaf_options register_parser) None [(u "handler", VFun (u "_register"))]) [] [] true) = Parsed g ∧
      flag_of <$> List.filter (λ o, o_required o && negb (mem_str (o_dest o) (pg_seen g))) (leaf_options register_parser) = [] ∧
      pg_extras g = [] ∧ reads (dmerge (dset (u "command") (VStr (u "register")) (root_namespace log_format level)) (pg_namespace g))
        log_format level (CRegister a url token name n)) as (g & Hg & Hreq & Hex & Hr).
  { destruct a as [config [credentials|]];
      rewrite (app_assoc _ [_; _; _] [_] : cli_pairs _ ++ _ :: _ :: _ :: [_] = _); erewrite take_pairs_app by compute_eq;
      (erewrite Hint; [|compute_eq|compute_eq]); eexists; (split; [reflexivity|]); (split; [compute_eq|split; [compute_eq|read_attrs]]). }
  eexists. split; [|exact Hr]. cbn [words]. parse_root. rewrite <- (app_nil_r (joined_words _)).
  eapply leaf_parse; [apply (bool_decide_unpack _); vm_compute; exact I| |exact Hg|reflexivity|exact Hreq|exact Hex].
  destruct a as [config [credentials|]]; compute_eq.
Qed.

Lemma dset_dset k (v v' : arg_value) d : dset k v' (dset k v d) = dset k v' d.
Proof. induction d as [|[k' w] d IH]; cbn; repeat (case_decide; cbn; try done); by rewrite ?IH. Qed.

Lemma take_skips l : ∀ g l0, l ≠ [] → dget (u "skip") (pg_namespace g) = Some l0 →
  ∃ seen, take_pairs (leaf_options doctor_parser) ((λ v, (u "--skip", v)) <$> l) g =
    Parsed (MkProgress (dset (u "skip") (VList (match l0 with VList l0 => l0 | _ => [] end ++ l)) (pg_namespace g)) seen (pg_extras g) (pg_pending g)).
Proof.
  induction l as [|v l IH]; [done|]. intros g l0 _ Hg. cbn [fmap list_fmap take_pairs].
  destruct (find_option (leaf_options doctor_parser) (u "--skip")) as [o|] eqn:Eo; [|by vm_compute in Eo].
  assert (o = argument (u "--skip") Append VNone false) as -> by (vm_compute in Eo; by injection Eo as <-).
  unfold take_action. change (o_action _) with Append. change (o_dest _) with (u "skip"). cbv iota zeta. rewrite Hg.
  unfold mbind, parsed_bind, set_attr. cbn [pg_namespace pg_seen pg_extras pg_pending]. change (o_dest _) with (u "skip").
  destruct (decide (l = [])) as [->|Hl]; [eexists; reflexivity|].
  match goal with |- context [take_pairs _ _ ?g'] => destruct (IH g' _ Hl (dget_dset_eq _ _ _)) as [seen E] end.
  eexists. etransitivity; [exact E|].
  cbn [pg_namespace pg_extras pg_pending]. by rewrite dset_dset, <- app_assoc.
Qed.

Lemma doctor_written skip as_json : skip ≠ Some [] → written log_format level (CDoctor a skip as_json).
Proof using Hf.
  intros Hs.
  assert (∃ g, take_pairs (leaf_options doctor_parser) (cli_pairs a ++ ((λ v, (u "--skip", v)) <$> default [] skip))
      (MkProgress (initial (leaf_options doctor_parser) None [(u "handler", VFun (u "_doctor"))]) [] [] true) = Parsed g ∧
      pg_extras g = [] ∧ pg_namespace g = [(u "config", VStr (cl_config a));
        (u "credentials", match cl_credentials a with Some s => VStr s | None => VNone end);
        (u "skip", match skip with Some l => VList l | None => VNone end); (u "as_json", VBool false);
        (u "handler", VFun (u "_doctor"))]) as (g & Hg & Hex & Hns).
  { destruct a as [config [credentials|]], skip as [l|]; cbn [default cl_credentials cl_config];
      erewrite take_pairs_app by compute_eq; try (eexists; split; [reflexivity|split; compute_eq]).
    all: match goal with |- context [take_pairs _ _ ?g'] => destruct (take_skips l g' VNone) as [seen E]; [congruence|compute_eq|] end;
      eexists; (split; [exact E|split; [reflexivity|compute_eq]]). }
  assert (∃ g1, consume (leaf_options doctor_parser) None
      (classify negative (leaf_options doctor_parser) (if as_json then [u "--json"] else [])) g = Parsed g1 ∧
      pg_extras g1 = [] ∧ pg_namespace g1 = dset (u "as_json") (VBool as_json) (pg_namespace g)) as (g1 & Hg1 & Hex1 & Hns1).
  { destruct as_json; [|exists g; split; [reflexivity|split; [done|by rewrite Hns]]].
    erewrite consume_flag; [|split; [compute_eq|by eexists _, _]|reflexivity]. eexists. split; [reflexivity|]. by split. }
  unfold written. eexists. split.
  - cbn [words]. parse_root. eapply leaf_parse; [apply (bool_decide_unpack _); vm_compute; exact I| |exact Hg|exact Hg1|compute_eq|exact Hex1].
    apply List.forallb_forall. intros flag Hin%list_elem_of_In. rewrite fmap_app, elem_of_app in Hin. destruct Hin as [Hin|Hin].
    + destruct a as [config [credentials|]]; cbn in Hin; rewrite ?elem_of_cons, elem_of_nil in Hin;
        repeat destruct Hin as [->|Hin]; by vm_compute.
    + rewrite <- list_fmap_compose in Hin. apply list_elem_of_fmap in Hin as (v & -> & _). by vm_compute.
  - rewrite Hns1, Hns. destruct a as [config [credentials|]], skip as [l|]; read_attrs.
Qed.

End written.
End parsing.

(** * The namespaces of the parser *)

(** A part of a namespace. *)
Definition has (ns ns' : namespace) : Prop := ∀ k v, dget k ns = Some v → dget k ns' = Some v.

Lemma get_attr_has {A} (read : arg_value → option A) ns ns' k x : has ns ns' → get_attr read ns k = Ok x → get_attr read ns' k = Ok x.
Proof. unfold get_attr. intros Hns. destruct (dget k ns) as [v|] eqn:E; [|done]. by rewrite (Hns _ _ E). Qed.

(** An attribute that could be read is there. *)
Lemma get_attr_some {A} (read : arg_value → option A) ns k v x : dget k ns = Some v → read v = Some x → get_attr read ns k = Ok x.
Proof. unfold get_attr. intros -> E. munfold. by rewrite E. Qed.

Lemma handler_args_has ns ns' h c : has ns ns' → handler_args h ns = Ok c → handler_args h ns' = Ok c.
Proof.
  intros Hns. assert (∀ A (read : arg_value → option A) k x, get_attr read ns k = Ok x → get_attr read ns' k = Ok x) as Hget
    by (intros; by eapply get_attr_has).
  unfold handler_args, cli_attrs, text_attr, opt_text_attr, int_attr, bool_attr, opt_list_attr. munfold.
  repeat match goal with
  | |- context [if ustr_eqb h ?s then _ else _] => destruct (ustr_eqb h s); cbv beta iota
  end;
  repeat match goal with
  | |- context [get_attr ?read ns ?k] => let H := fresh in destruct (get_attr read ns k) eqn:H; [rewrite (Hget _ _ _ _ H)|discriminate]
  end; exact id.
Qed.

Section attrs.
Context (opts : list opt_spec) (ns0 : namespace) (g : progress) (Hg : attrs_ok opts ns0 g).

Lemma text_of o : o ∈ opts → o_action o = Store None → (∃ d, o_default o = VStr d) ∨ o_dest o ∈ pg_seen g →
  ∃ s, text_attr (pg_namespace g) (o_dest o) = Ok s.
Proof using Hg.
  intros Ho Ha Hd. destruct (ao_option _ _ _ Hg o Ho) as (v & Hv & Hcase); [by rewrite Ha|].
  assert (∃ s, v = VStr s) as [s ->]; [|exists s; by eapply get_attr_some].
  destruct Hcase as [Hgv|[-> Hn]]; [unfold given_value in Hgv; by rewrite Ha in Hgv|by destruct Hd as [Hd|Hd]].
Qed.

Lemma opt_text_of o : o ∈ opts → o_action o = Store None → o_default o = VNone →
  ∃ s, opt_text_attr (pg_namespace g) (o_dest o) = Ok s.
Proof using Hg.
  intros Ho Ha Hd. destruct (ao_option _ _ _ Hg o Ho) as (v & Hv & Hcase); [by rewrite Ha|].
  destruct Hcase as [Hgv|[-> Hn]].
  - unfold given_value in Hgv. rewrite Ha in Hgv. destruct Hgv as [s ->]. exists (Some s). by eapply get_attr_some.
  - exists None. eapply get_attr_some; [exact Hv|]. by rewrite Hd.
Qed.

End attrs.

(** What a subcommand's part of the namespace allows its handler. *)
Record sub_ok (ns : namespace) : Prop := SubOk {
  so_keys : NoDup (dkeys ns);
  so_global : dget (u "log_format") ns = None ∧ dget (u "log_level") ns = None;
  so_handler : dget (u "handler") ns = None ∨ ∃ h c, fun_attr ns (u "handler") = Ok h ∧ handler_args h ns = Ok c;
}.

Lemma dests_distinct opts : NoDup (o_dest <$> opts) → ∀ o o', o ∈ opts → o' ∈ opts → o_dest o = o_dest o' → o = o'.
Proof.
  induction opts as [|x opts IH]; [by intros _ o o' ?%elem_of_nil|]. cbn. intros [Hx Hn]%NoDup_cons o o'.
  rewrite !elem_of_cons. intros [->|Ho] [->|Ho'] E; [done| | |by apply IH]; destruct Hx.
  - rewrite E. apply list_elem_of_fmap. by exists o'.
  - rewrite <- E. apply list_elem_of_fmap. by exists o.
Qed.

(** At the start every option has its default. *)
Definition defaults_set (opts : list opt_spec) (ns : namespace) : Prop :=
  Forall (λ o, suppressed (o_action o) = true ∨ dget (o_dest o) ns = Some (o_default o)) opts ∧ NoDup (dkeys ns).

Lemma initial_attrs opts ns : defaults_set opts ns → attrs_ok opts ns (MkProgress ns [] [] true).
Proof.
  intros [Hd Hk]. split; [|done..]. intros o Ho Hs. rewrite Forall_forall in Hd.
  destruct (Hd o Ho) as [E|E]; [congruence|]. exists (o_default o). split; [done|right]. split; [done|by intros ?%elem_of_nil].
Qed.

Section typed.
Context (negative : ustr → bool).

(** For a subcommand it remains to see that its handler can read its options. *)
Lemma leaf_ok options h args ns extras :
  let opts := config_options ++ options in
  NoDup (o_dest <$> opts) → defaults_set opts (initial opts None [(u "handler", VFun h)]) →
  Forall (λ k, k ∉ o_dest <$> opts) [u "handler"; u "log_format"; u "log_level"] →
  (∀ a ns0 g, attrs_ok opts ns0 g → (∀ o, o ∈ opts → o_required o = true → o_dest o ∈ pg_seen g) →
     cli_attrs (pg_namespace g) = Ok a → ∃ c, handler_args h (pg_namespace g) = Ok c) →
  dget (u "log_format") (initial opts None [(u "handler", VFun h)]) = None →
  dget (u "log_level") (initial opts None [(u "handler", VFun h)]) = None →
  dget (u "handler") (initial opts None [(u "handler", VFun h)]) = Some (VFun h) →
  parse_known_args negative (leaf options h) args = Parsed (ns, extras) → sub_ok ns.
Proof.
  intros opts Hn Hi Hdis Hread Hf Hl Hh (g & -> & Hg & Hreq)%leaf_attrs; [|by apply dests_distinct|by apply initial_attrs].
  assert (∀ k, k ∈ [u "handler"; u "log_format"; u "log_level"] →
    dget k (pg_namespace g) = dget k (initial opts None [(u "handler", VFun h)])) as Hk.
  { intros k Hk. apply (ao_other _ _ _ Hg). rewrite Forall_forall in Hdis. by apply Hdis. }
  destruct (text_of _ _ _ Hg (text_option (u "--config") (VStr DEFAULT_CONFIG))) as [config H1];
    [apply elem_of_app; left; right; left|done|left; by eexists|].
  destruct (opt_text_of _ _ _ Hg (text_option (u "--credentials") VNone)) as [credentials H2];
    [apply elem_of_app; left; do 2 right; left|done|done|].
  destruct (Hread (MkCli config credentials) _ _ Hg Hreq) as [c Hc].
  { unfold cli_attrs. change (o_dest _) with (u "config") in H1. change (o_dest _) with (u "credentials") in H2. munfold.
    by rewrite H1, H2. }
  split; [apply Hg| |right].
  - rewrite !Hk by (rewrite !elem_of_cons; auto). done.
  - exists h, c. split; [|done]. apply (get_attr_some _ _ _ (VFun h)); [|reflexivity]. rewrite Hk by left. exact Hh.
Qed.

Ltac leaf_facts := first [apply (bool_decide_unpack _); vm_compute; exact I|vm_compute; reflexivity].
Ltac member := repeat first [left; reflexivity|right].
(** The attribute of an option of the parser, read as [H]. *)
Ltac read_opt Hg flag H := destruct (opt_text_of _ _ _ Hg (text_option flag VNone)) as [? H]; [member|done|done|].
Ltac read_req Hg Hreq flag H :=
  destruct (text_of _ _ _ Hg (required_option flag)) as [? H]; [member|done|right; apply Hreq; [member|done]|].

Ltac which_handler :=
  unfold handler_args;
  repeat match goal with
  | |- context [ustr_eqb ?a ?b] => let r := eval vm_compute in (ustr_eqb a b) in change (ustr_eqb a b) with r; cbv beta iota
  end.

Ltac leaf_start := apply leaf_ok; try leaf_facts; intros a ns0 g Hg Hreq Ha; which_handler; rewrite Ha; munfold.

Lemma serve_ok args ns extras : parse_known_args negative serve_parser args = Parsed (ns, extras) → sub_ok ns.
Proof. leaf_start. read_opt Hg (u "--state-dir") H1. change (o_dest _) with (u "state_dir") in H1. rewrite H1. eauto. Qed.

Lemma register_ok args ns extras : parse_known_args negative register_parser args = Parsed (ns, extras) → sub_ok ns.
Proof.
  leaf_start. read_req Hg Hreq (u "--backend-url") H1. read_req Hg Hreq (u "--token") H2. read_req Hg Hreq (u "--name") H3.
  change (o_dest _) with (u "backend_url") in H1. change (o_dest _) with (u "token") in H2. change (o_dest _) with (u "name") in H3.
  rewrite H1, H2, H3.
  destruct (ao_option _ _ _ Hg (argument (u "--max-concurrency") StoreInt (VInt (cf_max_concurrency (default_config [] []))) false))
    as (v & Hv & Hcase); [member|done|]. change (o_dest _) with (u "max_concurrency") in Hv.
  assert (∃ z, v = VInt z) as [z ->] by (destruct Hcase as [Hz|[-> _]]; [exact Hz|by eexists]).
  assert (int_attr (pg_namespace g) (u "max_concurrency") = Ok z) as -> by (by eapply get_attr_some). eauto.
Qed.

Lemma status_ok args ns extras : parse_known_args negative status_parser args = Parsed (ns, extras) → sub_ok ns.
Proof. leaf_start. eauto. Qed.
Lemma drain_ok args ns extras : parse_known_args negative drain_parser args = Parsed (ns, extras) → sub_ok ns.
Proof. leaf_start. eauto. Qed.
Lemma resume_ok args ns extras : parse_known_args negative resume_parser args = Parsed (ns, extras) → sub_ok ns.
Proof. leaf_start. eauto. Qed.

Lemma doctor_ok args ns extras : parse_known_args negative doctor_parser args = Parsed (ns, extras) → sub_ok ns.
Proof.
  leaf_start.
  destruct (ao_option _ _ _ Hg (argument (u "--skip") Append VNone false)) as (v & Hv & Hcase); [member|done|].
  change (o_dest _) with (u "skip") in Hv.
  assert (∃ l, opt_list_attr (pg_namespace g) (u "skip") = Ok l) as [l ->].
  { destruct Hcase as [(l & -> & _)|[-> _]]; eexists; (eapply get_attr_some; [exact Hv|reflexivity]). }
  destruct (ao_option _ _ _ Hg (MkOpt [u "--json"] (u "as_json") StoreTrue (VBool false) false)) as (w & Hw & Hcase'); [member|done|].
  assert (∃ b, bool_attr (pg_namespace g) (u "as_json") = Ok b) as [b ->].
  { destruct Hcase' as [->|[-> _]]; eexists; (eapply get_attr_some; [exact Hw|reflexivity]). }
  eauto.
Qed.

Lemma session_refresh_ok args ns extras : parse_known_args negative session_refresh_parser args = Parsed (ns, extras) → sub_ok ns.
Proof. leaf_start. read_opt Hg (u "--backend-url") H1. change (o_dest _) with (u "backend_url") in H1. rewrite H1. eauto. Qed.

Lemma cache_reset_ok args ns extras : parse_known_args negative cache_reset_parser args = Parsed (ns, extras) → sub_ok ns.
Proof. leaf_start. read_opt Hg (u "--site-id") H1. change (o_dest _) with (u "site_id") in H1. rewrite H1. eauto. Qed.

Lemma has_merge ns0 ns1 : NoDup (dkeys ns1) → has ns1 (dmerge ns0 ns1).
Proof. intros Hn k v Hk. by rewrite dmerge_get, Hk. Qed.

Lemma merge_handler ns0 ns1 h c : NoDup (dkeys ns1) → fun_attr ns1 (u "handler") = Ok h → handler_args h ns1 = Ok c →
  fun_attr (dmerge ns0 ns1) (u "handler") = Ok h ∧ handler_args h (dmerge ns0 ns1) = Ok c.
Proof.
  intros Hn Hh Hc. pose proof (has_merge ns0 ns1 Hn) as Hm. split; [by eapply get_attr_has|by eapply handler_args_has].
Qed.

Lemma merge_ok ns0 ns1 : NoDup (dkeys ns0) → Forall (λ k, dget k ns0 = None) [u "handler"; u "log_format"; u "log_level"] →
  sub_ok ns1 → sub_ok (dmerge ns0 ns1).
Proof.
  rewrite !Forall_cons, Forall_nil. intros H0 (E1 & E2 & E3 & _) [Hn [Hf Hl] Hh]. split.
  - by apply dmerge_NoDup.
  - by rewrite !dmerge_get, Hf, Hl by done.
  - destruct Hh as [Hh|(h & c & Hh & Hc)]; [left; by rewrite dmerge_get, Hh|right]. exists h, c. by apply merge_handler.
Qed.

(** A subcommand with one subcommand of its own. *)
Lemma group_ok dest name p args ns extras : dest ∉ [u "handler"; u "log_format"; u "log_level"] →
  (∀ args ns extras, parse_known_args negative p args = Parsed (ns, extras) → sub_ok ns) →
  parse_known_args negative (Parser [help_option] [] (Some (dest, [(name, p)]))) args = Parsed (ns, extras) → sub_ok ns.
Proof.
  intros Hdest Hp Hns. apply group_attrs in Hns as (g & Hg & Hns).
  2:{ apply dests_distinct. apply (bool_decide_unpack _). vm_compute. exact I. }
  2:{ apply initial_attrs. split; [constructor; [by left|constructor]|]. apply NoDup_singleton. }
  assert (∀ k, k ∈ [u "handler"; u "log_format"; u "log_level"] → dget k (pg_namespace g) = None) as Hnone.
  { intros k Hk. assert (dest ≠ k) as Hne by (by intros ->). rewrite (ao_other _ _ _ Hg).
    - cbn. by rewrite decide_False.
    - intros Hin%list_elem_of_singleton. rewrite !elem_of_cons, elem_of_nil in Hk. subst k. by repeat destruct Hk as [Hk|Hk]; vm_compute in Hk. }
  destruct Hns as [->|(nm & rest & f & ns1 & ex1 & Hf & Hrest & ->)].
  - split; [apply Hg| |left]; rewrite !Hnone by (rewrite !elem_of_cons; auto); done.
  - apply merge_ok; [apply dset_NoDup, Hg| |].
    + apply Forall_forall. intros k Hk. rewrite dget_dset_ne by (by intros ->). by apply Hnone.
    + cbn in Hf. destruct (ustr_eqb name nm); [|done]. injection Hf as <-. by eapply Hp.
Qed.

Lemma subcommand_ok name f rest ns extras : find_parser negative subcommands name = Some f → f rest = Parsed (ns, extras) → sub_ok ns.
Proof.
  unfold subcommands. cbn [find_parser].
  destruct (ustr_eqb (u "serve") name); [intros <-%(inj Some); apply serve_ok|].
  destruct (ustr_eqb (u "register") name); [intros <-%(inj Some); apply register_ok|].
  destruct (ustr_eqb (u "status") name); [intros <-%(inj Some); apply status_ok|].
  destruct (ustr_eqb (u "doctor") name); [intros <-%(inj Some); apply doctor_ok|].
  destruct (ustr_eqb (u "session") name).
  { intros <-%(inj Some). apply group_ok; [by apply (bool_decide_unpack _)|apply session_refresh_ok]. }
  destruct (ustr_eqb (u "cache") name).
  { intros <-%(inj Some). apply group_ok; [by apply (bool_decide_unpack _)|apply cache_reset_ok]. }
  destruct (ustr_eqb (u "drain") name); [intros <-%(inj Some); apply drain_ok|].
  destruct (ustr_eqb (u "resume") name); [intros <-%(inj Some); apply resume_ok|done].
Qed.

(** Every namespace the parser returns is complete for its handler. *)
Lemma parsed_complete argv ns : parse_args negative build_parser argv = Parsed ns →
  ∃ log_format level c, log_format ∈ [u "human"; u "json"] ∧ reads ns log_format level c.
Proof.
  unfold parse_args, build_parser. unfold mbind, parsed_bind. destruct (parse_known_args _ _ _) as [[ns' extras]|] eqn:E; [|done].
  destruct extras; [|done]. intros [= <-].
  apply group_attrs in E as (g & Hg & Hns).
  2:{ apply dests_distinct. apply (bool_decide_unpack _). vm_compute. exact I. }
  2:{ apply initial_attrs. apply (bool_decide_unpack _). vm_compute. exact I. }
  destruct (text_of _ _ _ Hg (text_option (u "--log-level") (VStr (u "INFO")))) as [level Hl]; [member|done|left; by eexists|].
  change (o_dest _) with (u "log_level") in Hl.
  destruct (ao_option _ _ _ Hg (argument (u "--log-format") (Store (Some [u "human"; u "json"])) (VStr (u "human")) false))
    as (v & Hv & Hcase); [member|done|]. change (o_dest _) with (u "log_format") in Hv.
  assert (∃ fmt, v = VStr fmt ∧ fmt ∈ [u "human"; u "json"]) as (fmt & -> & Hfmt) by (destruct Hcase as [Hz|[-> _]]; [exact Hz|eexists; split; [done|left]]).
  assert (dget (u "handler") (pg_namespace g) = Some (VFun (u "_help"))) as Hh.
  { rewrite (ao_other _ _ _ Hg); [vm_compute; reflexivity|]. apply (bool_decide_unpack _). vm_compute. exact I. }
  exists fmt, level. destruct Hns as [->|(nm & rest & f & ns1 & ex1 & Hf & Hrest & ->)].
  - exists CHelp. split; [done|]. split; [by eapply get_attr_some|]. split; [done|]. exists (u "_help"). split; [by eapply get_attr_some|done].
  - pose proof (subcommand_ok _ _ _ _ _ Hf Hrest) as [Hn [Hf1 Hl1] Hh1].
    assert (∀ k, k ≠ u "command" → dget k ns1 = None → dget k (dmerge (dset (u "command") (VStr nm) (pg_namespace g)) ns1) = dget k (pg_namespace g)) as Hk.
    { intros k Hne Hk. rewrite dmerge_get, Hk by done. by rewrite dget_dset_ne. }
    assert (∃ h c, fun_attr (dmerge (dset (u "command") (VStr nm) (pg_namespace g)) ns1) (u "handler") = Ok h ∧
      handler_args h (dmerge (dset (u "command") (VStr nm) (pg_namespace g)) ns1) = Ok c) as (h & c & H1 & H2).
    { destruct Hh1 as [Hh1|(h & c & Hh1 & Hc1)]; [|exists h, c; by apply merge_handler].
      exists (u "_help"), CHelp. split; [|done]. apply (get_attr_some _ _ _ (VFun (u "_help"))); [|reflexivity]. rewrite Hk by (done || by vm_compute). exact Hh. }
    exists c. split; [done|]. split; [|split; [|by exists h]].
    + apply (get_attr_some _ _ _ (VStr fmt)); [|reflexivity]. rewrite Hk; [exact Hv|by vm_compute|done].
    + unfold text_attr, get_attr in *. rewrite Hk by (done || by vm_compute). exact Hl.
Qed.

End typed.

(** * The program *)

Section program.
Context {S : Type} `{Process S} `{Terminal S} `{Tomllib} `{DirScan}.
Context (netloc_check : ustr → result ()) (version : ustr) (data : path) (ac : accounts).
Context (cwd : path) (system machine : ustr) (environ : list (ustr * ustr)).
Context (service : EngineConfig → EngineCredentials → M (served S) ()).
Context (negative : ustr → bool) (to_upper : ustr → ustr) (rich : bool).

Notation run := (run_command netloc_check version data ac cwd system machine environ service).
Notation run_main := (main netloc_check version data ac cwd system machine environ service negative to_upper rich).

(** The set-up of the logging, then the command. *)
Definition start (log_format level : ustr) (c : command) : M S Z :=
  logging ← lift (configure_logging to_upper rich log_format level);
  tm_logging logging;;
  run c.

Lemma main_reads argv ns log_format level c s : parse_args negative build_parser argv = Parsed ns →
  reads ns log_format level c → run_main argv s = start log_format level c s.
Proof.
  intros Hp (Hf & Hl & h & Hh & Hc). unfold main. rewrite Hp. erewrite bind_ok by (unfold lift; by rewrite Hf).
  erewrite bind_ok by (unfold lift; by rewrite Hl). unfold start.
  destruct (configure_logging to_upper rich log_format level) as [logging|e];
    [erewrite !bind_ok by reflexivity|by erewrite !bind_err by reflexivity].
  unfold mbind, M_bind, lift. destruct (tm_logging logging s) as [[[]|e] s1]; [|done]. by rewrite Hh, Hc.
Qed.

Lemma help_written log_format level : log_format ∈ [u "human"; u "json"] → written negative log_format level CHelp.
Proof.
  intros Hf. exists (root_namespace log_format level). split; [|split; [reflexivity|split; [reflexivity|]]; exists (u "_help"); by split].
  unfold parse_args, build_parser. rewrite parse_known_args_eq. unfold parse_with. rewrite consume_pairs.
  - destruct (root_pairs negative log_format level Hf) as [seen ->]. reflexivity.
  - apply (Forall_inv no_sep_options).
  - apply Forall_forall. intros fv Hfv. apply value_flagb_ok. unfold globals in Hfv.
    rewrite !elem_of_cons, elem_of_nil in Hfv. destruct Hfv as [->|[->|[]]]; vm_compute; reflexivity.
Qed.

Lemma command_written log_format level c : log_format ∈ [u "human"; u "json"] → command_ok c → written negative log_format level c.
Proof.
  intros Hf. destruct c; cbn [command_ok]; intros Hc;
    eauto using serve_written, register_written, status_written, doctor_written, session_refresh_written, cache_reset_written,
      drain_written, resume_written, help_written.
Qed.

(** C33: what is written is what runs. A command whose values are joined to their
    options is run with exactly these values, whatever their text is: empty, or
    with spaces, dashes or further signs of equality, also if it looks like an
    option. Only a number of more than 4300 digits is excepted, and a list of
    skipped checks has at least one element. *)
Theorem cli_roundtrip log_format level c s : log_format ∈ [u "human"; u "json"] → command_ok c →
  run_main (joined_words (globals log_format level) ++ words c) s = start log_format level c s.
Proof. intros Hf Hc. destruct (command_written log_format level c Hf Hc) as (ns & Hp & Hr). by eapply main_reads. Qed.

(** The namespaces of the parser have the types their readers expect. For any
    arguments the program either prints a text and exits with code 0 or 2
    without a command, or it sets up its logging and runs one command: no
    handler finds an attribute missing or of another type. *)
Theorem cli_typed argv s :
  (∃ e, parse_args negative build_parser argv = Stopped e ∧
     run_main argv s = (tm_print e;; raise (system_exit (exit_code e))) s ∧ exit_code e ∈ [0; 2]) ∨
  (∃ log_format level c, log_format ∈ [u "human"; u "json"] ∧ run_main argv s = start log_format level c s).
Proof.
  destruct (parse_args negative build_parser argv) as [ns|e] eqn:E.
  - right. destruct (parsed_complete negative argv ns E) as (fmt & level & c & Hf & Hr). exists fmt, level, c. split; [done|]. by eapply main_reads.
  - left. exists e. split; [done|]. split; [unfold main; by rewrite E|]. destruct e; [left|left|right; left].
Qed.

End program.
