(* ===== verification/CliExamples.v ===== *)
(** Command lines on the machine of [ServiceExamples]. *)

From S2P Require Import Prelude PyStr PyFloat Dict Json Clock Uuid Protocol Db Store Outbox Fs PackageJson Framework Cache Url Config Handlers Toml Settings Artifact Auth Credentials Metrics Docker.
From S2P Require Import SettingsExamples Connect Doctor Commands Service ServiceExamples Logging Args ArgsProofs Cli CliProofs.

Local Open Scope Z_scope.

(** Texts are printed to the log of the machine; numbers begin with a dash and a digit. *)
#[local] Instance machine_terminal : Terminal machine := {|
  tm_logging := λ r s, (Ok (), s);
  tm_print := λ e s, (Ok (), Machine (ma_host s) (ma_db s) (ma_log s ++ [u "printed"]));
|}.
#[local] Existing Instance ex_toml.

Definition dash_digit (s : ustr) : bool := match s with 45%N :: c :: _ => is_digit c | _ => false end.

Definition ma_program (argv : list ustr) : Z * machine :=
  program ex_netloc ma_version [] ex_root [] (u "Linux") (u "x86_64") [] (λ _ _, mret ()) dash_digit upper false argv ma_start.

Example no_command : (ma_program []).1 = 0.
Proof. vm_compute. reflexivity. Qed.
Example version_wins : (ma_program [u "--version"; u "serve"; u "--bogus"]).1 = 0.
Proof. vm_compute. reflexivity. Qed.
Example unknown_command : (ma_program [u "server"]).1 = 2.
Proof. vm_compute. reflexivity. Qed.
Example abbreviated : parse_args dash_digit build_parser [u "doctor"; u "--sk"; u "a,b"; u "--js"; u "--skip=c"] =
  Parsed [(u "log_format", VStr (u "human")); (u "log_level", VStr (u "INFO")); (u "command", VStr (u "doctor"));
          (u "handler", VFun (u "_doctor")); (u "config", VStr DEFAULT_CONFIG); (u "credentials", VNone);
          (u "skip", VList [u "a,b"; u "c"]); (u "as_json", VBool true)].
Proof. vm_compute. reflexivity. Qed.
Example ambiguous : parse_args dash_digit build_parser [u "--log"; u "json"] = usage (Ambiguous (u "--log")).
Proof. vm_compute. reflexivity. Qed.
Example missing_options : parse_args dash_digit build_parser [u "register"; u "--name"; u "n"] =
  usage (Required [u "--backend-url"; u "--token"]).
Proof. vm_compute. reflexivity. Qed.
(** A value that begins with a dash must be joined to its option. *)
Example dashed_token : parse_args dash_digit build_parser [u "register"; u "--token"; u "-x1"; u "--name"; u "n"] =
  usage (ExpectedArgument (u "--token")).
Proof. vm_compute. reflexivity. Qed.

Definition ma_words : list ustr :=
  joined_words (globals (u "json") (u "debug")) ++ words (CServe ma_cli None).

Lemma cli_roundtrip_witness :
  main ex_netloc ma_version [] ex_root [] (u "Linux") (u "x86_64") [] (λ _ _, mret ()) dash_digit upper false
    (joined_words (globals (u "json") (u "debug")) ++ words (CDoctor ma_cli (Some [u "--json"; u ""]) true)) ma_start =
  start ex_netloc ma_version [] ex_root [] (u "Linux") (u "x86_64") [] (λ _ _, mret ()) upper false (u "json") (u "debug")
    (CDoctor ma_cli (Some [u "--json"; u ""]) true) ma_start.
Proof. apply cli_roundtrip; [right; left|discriminate]. Defined.

(** The service runs from its words, behind its gates. *)
Example serve_words_run : (ma_program ma_words).1 = 0.
Proof. vm_compute. reflexivity. Qed.
