(* ===== verification/Contracts.v ===== *)
(** The release script that keeps the contract snapshot of the repository
    (src/scripts/sync_contracts.py): the part of the backend's OpenAPI document
    that the engine uses, and the version of the image manifest. *)

From S2P Require Import Prelude PyStr PyFloat Dict Json Clock Protocol Fs Url Config.

Local Open Scope Z_scope.

Definition BUILD_ENGINE_SCHEMA_NAMES : list ustr :=
  [u "BuildArtifactUploadUrlRequest"; u "BuildArtifactUploadUrlResponse"; u "BuildEngineAttemptSecretsResponse";
   u "BuildEngineAgentHealthResponse"; u "BuildEngineAgentRegisterRequest"; u "BuildEngineAgentRegisterResponse";
   u "BuildEngineAgentSessionRequest"; u "BuildEngineAgentSessionResponse"; u "BuildEngineCacheResetRequest";
   u "BuildEngineCapabilities"; u "BuildEngineCommandEnvelope"; u "BuildEngineCommandType";
   u "BuildEngineHeartbeatRequest"; u "BuildEngineListResponse"; u "BuildEngineMetricRollupRequest";
   u "BuildEngineRegistrationTokenCreate"; u "BuildEngineRegistrationTokenResponse"; u "BuildEngineResponse";
   u "BuildEngineStatus"; u "BuildEngineUpdateRequest"; u "BuildErrorClass"; u "BuildJobAttemptResponse";
   u "BuildJobListResponse"; u "BuildJobResponse"; u "BuildJobStatus"; u "BuildPackageManager";
   u "BuildSourceArchiveFormat"; u "HTTPValidationError"; u "SiteBuildCacheResetResponse";
   u "SiteBuildConfigResponse"; u "SiteBuildConfigUpdateRequest"; u "SiteBuildSecretItem";
   u "SiteBuildSecretListResponse"; u "SiteBuildSecretUpsertRequest"; u "ValidationError"].

Definition BUILD_ENGINE_PATH_MARKERS : list ustr :=
  [u "/build-engines"; u "/build-jobs"; u "/build-cache"; u "/build-config"; u "/build-secrets"].

Definition system_exit (msg : ustr) : exn := PyExn SystemExit msg.

(** * Values of a decoded document *)

(** [value[key]]. *)
Definition subscript (value : json) (key : ustr) : result json :=
  match value with
  | JObj d => match dget key d with Some v => Ok v | None => Err (PyExn KeyErrorC (py_repr_str key)) end
  | _ => Err (PyExn TypeError (u "indices must be integers"))
  end.

(** [key in value]. *)
Definition is_in (key : ustr) (value : json) : result bool :=
  match value with
  | JObj d => Ok (match dget key d with Some _ => true | None => false end)
  | JList l => Ok (existsb (λ j, match j with JStr s => ustr_eqb s key | _ => false end) l)
  | JStr s => Ok (contains s key)
  | _ => Err (PyExn TypeError (u "argument is not a container or iterable"))
  end.

(** [value.items()]. *)
Definition items_of (value : json) : result jdict :=
  match value with JObj d => Ok d | _ => Err (PyExn AttributeErrorC (u "object has no attribute 'items'")) end.

(** [json.dumps(value, indent=2, sort_keys=True)], [level] deep. *)
Definition line_break (level : nat) : ustr := 10%N :: repeat 32%N (2 * level).
Fixpoint dumps_indent (level : nat) (j : json) : ustr :=
  match j with
  | JList [] => u "[]"
  | JObj [] => u "{}"
  | JList l => [91%N] ++ line_break (S level) ++ join (44%N :: line_break (S level)) (map (dumps_indent (S level)) l)
                 ++ line_break level ++ [93%N]
  | JObj o =>
      let members := sort_by key_leb (map (λ kv, (kv.1, dumps_indent (S level) kv.2)) o) in
      [123%N] ++ line_break (S level) ++ join (44%N :: line_break (S level)) (map (λ kt, quote kt.1 ++ u ": " ++ kt.2) members)
        ++ line_break level ++ [125%N]
  | j => dumps (spaced true) j
  end.

(** * The script *)

(** The schemas of these names that the document has. *)
Fixpoint named_schemas (schemas : json) (names : list ustr) : result jdict :=
  match names with
  | [] => Ok []
  | name :: names =>
      there ← is_in name schemas;
      if there : bool then
        v ← subscript schemas name; rest ← named_schemas schemas names; Ok ((name, v) :: rest)
      else named_schemas schemas names
  end.

Definition engine_path (p : ustr) : bool := existsb (contains p) BUILD_ENGINE_PATH_MARKERS.

(** [main]'s snapshot of the backend's document. *)
Definition contract_snapshot (source : json) : result json :=
  all ← subscript source (u "components"); schemas ← subscript all (u "schemas");
  paths ← subscript source (u "paths"); paths ← items_of paths;
  components ← named_schemas schemas (sort_by ustr_leb BUILD_ENGINE_SCHEMA_NAMES);
  openapi ← subscript source (u "openapi");
  info ← subscript source (u "info"); version ← subscript info (u "version");
  Ok (JObj [(u "openapi", openapi);
            (u "info", JObj [(u "title", JStr (u "Mincemeat build-engine contract subset")); (u "version", version);
                             (u "x-source", JStr (u "coreapp/frontend/openapi.json"))]);
            (u "paths", JObj (sort_by key_leb (List.filter (λ kv, engine_path kv.1) paths)));
            (u "components", JObj [(u "schemas", JObj components)])]).

Section sync.
(** The repository, the adjacent checkout, [BUILD_ENGINE_IMAGES_MANIFEST_URL]
    and the working directory; what [urlopen(url).read()] returns. *)
Context (root coreapp : path) (manifest_url : option ustr) (netloc_check : ustr → result ()).
Context (path_at : ustr → path) (urlopen : ustr → result (list N)) (now : instant).

Definition COREAPP_OPENAPI : path := coreapp ++ [u "frontend"; u "openapi.json"].
Definition TARGET_OPENAPI : path := root ++ [u "contracts"; u "openapi"; u "build-engine.openapi.json"].
Definition BUILD_ENGINE_IMAGES_MANIFEST : path := root ++ [u "manifest.json"].

Definition load_json (p : path) : M fs json :=
  text ← read_text p;
  decoded ← lift (loads text);
  match decoded with
  | JObj _ => mret decoded
  | _ => raise (system_exit (u "JSON file did not contain an object: " ++ path_str p))
  end.

Definition load_json_location (location : ustr) : M fs json :=
  parsed ← lift (urlparse netloc_check location);
  decoded ← (if mem_str (u_scheme parsed) [u "http"; u "https"] then
               b ← lift (urlopen location); text ← lift (utf8_decode b); lift (loads text)
             else if ustr_eqb (u_scheme parsed) (u "file") then load_json (path_at (u_path parsed))
             else if negb (bool_decide (u_scheme parsed = [])) then
               raise (system_exit (u "unsupported manifest URL scheme: " ++ u_scheme parsed))
             else load_json (path_at location));
  match decoded with
  | JObj _ => mret decoded
  | _ => raise (system_exit (u "manifest location did not return a JSON object: " ++ location))
  end.

Definition load_image_manifest : M fs (json * ustr) :=
  match manifest_url with
  | Some (c :: location) => m ← load_json_location (c :: location); mret (m, c :: location)
  | _ => m ← load_json BUILD_ENGINE_IMAGES_MANIFEST; mret (m, path_str BUILD_ENGINE_IMAGES_MANIFEST)
  end.

(** The version a decoded manifest ships. *)
Definition shipped_version (manifest : json) : json :=
  match manifest with JObj d => default JNull (dget (u "version") d) | _ => JNull end.

Definition check_image_manifest_version_drift : M fs () :=
  '(manifest, manifest_source) ← load_image_manifest;
  let shipped := shipped_version manifest in
  raise_if (negb (match shipped with JStr s => ustr_eqb s DEFAULT_IMAGE_MANIFEST_VERSION | _ => false end))
    (system_exit (u "image-manifest version drift: EngineConfig default is " ++ py_repr_str DEFAULT_IMAGE_MANIFEST_VERSION
                  ++ u " but " ++ manifest_source ++ u " ships " ++ py_repr shipped
                  ++ u ". Bump build_engine.config.DEFAULT_IMAGE_MANIFEST_VERSION in lockstep with the images manifest.")).

(** [None] keeps the pinned snapshot; the note on stderr is not modelled. *)
Definition load_coreapp_openapi_source : M fs (option json) :=
  there ← gets (λ f, exists_ f COREAPP_OPENAPI);
  if (there : bool) then d ← load_json COREAPP_OPENAPI; mret (Some d)
  else
    pinned ← gets (λ f, exists_ f TARGET_OPENAPI);
    if (pinned : bool) then mret None
    else raise (system_exit (u "missing coreapp OpenAPI source: " ++ path_str COREAPP_OPENAPI
                             ++ u "; pinned snapshot is also missing: " ++ path_str TARGET_OPENAPI)).

(** [main()]. *)
Definition sync_contracts : M fs Z :=
  source ← load_coreapp_openapi_source;
  match source with
  | Some source =>
      snapshot ← lift (contract_snapshot source);
      write_text now TARGET_OPENAPI (dumps_indent 0 snapshot ++ [10%N])
  | None => mret ()
  end;;
  check_image_manifest_version_drift;;
  mret 0.

End sync.

(** * The snapshot *)

Lemma named_keys schemas names res : named_schemas schemas names = Ok res → ∀ n, n ∈ dkeys res → n ∈ names.
Proof.
  revert res. induction names as [|m names IH]; intros res; [by intros [= <-] n ?%elem_of_nil|]. cbn [named_schemas].
  intros (there & _ & H)%result_bind_Ok_inv n Hn. destruct there; [|right; by eapply IH].
  apply result_bind_Ok_inv in H as (v & _ & (rest & E & [= <-])%result_bind_Ok_inv).
  apply elem_of_cons in Hn as [->|Hn]; [left|right; by eapply IH].
Qed.

Lemma named_NoDup schemas names res : NoDup names → named_schemas schemas names = Ok res → NoDup (dkeys res).
Proof.
  intros Hn. revert res. induction Hn as [|m names Hm Hn IH]; intros res; [by intros [= <-]; constructor|]. cbn [named_schemas].
  intros (there & _ & H)%result_bind_Ok_inv. destruct there; [|by apply IH].
  apply result_bind_Ok_inv in H as (v & _ & (rest & E & [= <-])%result_bind_Ok_inv). constructor; [|by apply IH].
  intros Hin. by apply Hm, (named_keys _ _ _ E).
Qed.

(** Reading the same names from the selected schemas selects them all. *)
Lemma named_again schemas names res full : NoDup names → named_schemas schemas names = Ok res →
  NoDup (dkeys full) → (∀ kv, kv ∈ res → kv ∈ full) → (∀ n, n ∈ names → n ∈ dkeys full → n ∈ dkeys res) →
  named_schemas (JObj full) names = Ok res.
Proof.
  intros Hn E Hf. revert res E. induction Hn as [|m names Hm Hn IH]; intros res E Hres Hall; [by injection E as <-|].
  cbn [named_schemas] in *. apply result_bind_Ok_inv in E as (there & _ & E). destruct there.
  - apply result_bind_Ok_inv in E as (v & _ & (rest & E & [= <-])%result_bind_Ok_inv).
    assert (dget m full = Some v) as Hv by (apply elem_dget; [done|apply Hres; left]).
    munfold. unfold is_in, subscript. rewrite Hv, (IH rest E); [done| |].
    + intros kv Hkv. apply Hres. by right.
    + intros n Hin Hk. assert (n ∈ dkeys ((m, v) :: rest)) as Hr by (apply Hall; [by right|done]).
      apply elem_of_cons in Hr. destruct Hr as [Hr|Hr]; [by subst|done].
  - assert (dget m full = None) as Hv.
    { apply dget_None. intros Hk. apply Hm, (named_keys _ _ _ E), Hall; [left|done]. }
    munfold. unfold is_in. rewrite Hv. apply IH; [done|done|]. intros n Hin. apply Hall. by right.
Qed.

Lemma filter_all {A} (p : A → bool) l : Forall (λ x, p x = true) l → List.filter p l = l.
Proof. induction 1 as [|x l Hx _ IH]; [done|]. cbn. by rewrite Hx, IH. Qed.

Lemma schema_names_NoDup : NoDup (sort_by ustr_leb BUILD_ENGINE_SCHEMA_NAMES).
Proof. apply NoDup_sort_by. apply (bool_decide_unpack _). vm_compute. exact I. Qed.

(** The snapshot is a fixed point: taking the snapshot of a snapshot that the
    script wrote changes nothing, so a second run leaves the file as it is. *)
Theorem snapshot_idempotent source snapshot : contract_snapshot source = Ok snapshot → contract_snapshot snapshot = Ok snapshot.
Proof.
  unfold contract_snapshot at 1. intros (all & _ & H)%result_bind_Ok_inv. apply result_bind_Ok_inv in H as (schemas & _ & H).
  apply result_bind_Ok_inv in H as (paths & _ & H). apply result_bind_Ok_inv in H as (items & _ & H).
  apply result_bind_Ok_inv in H as (components & Ec & H). apply result_bind_Ok_inv in H as (openapi & _ & H).
  apply result_bind_Ok_inv in H as (info & _ & H). apply result_bind_Ok_inv in H as (version & _ & [= <-]).
  pose proof schema_names_NoDup as Hn.
  set (names := sort_by ustr_leb BUILD_ENGINE_SCHEMA_NAMES) in *.
  set (kept := sort_by key_leb (List.filter (λ kv, engine_path kv.1) items)).
  assert (List.filter (λ kv, engine_path kv.1) kept = kept) as Hk.
  { apply filter_all. unfold kept. rewrite sort_by_perm. apply Forall_forall. intros kv [_ Hkv]%list_elem_of_In%List.filter_In. done. }
  unfold contract_snapshot. fold names.
  change (subscript (JObj _) (u "components")) with (Ok (JObj [(u "schemas", JObj components)])).
  change (subscript (JObj _) (u "paths")) with (Ok (JObj kept)). munfold.
  change (subscript (JObj [(u "schemas", JObj components)]) (u "schemas")) with (Ok (JObj components)). cbn [items_of].
  rewrite (named_again schemas names components components Hn Ec); [|by eapply named_NoDup|done|done].
  cbn beta iota. rewrite Hk. unfold kept. rewrite sort_by_idemp; [done|..].
  - intros a b. apply ustr_leb_total.
  - intros a b c. apply ustr_leb_trans.
Qed.
